(** * Portfolio backend: query building, authorization and error envelopes

    A shallow embedding of the Express server of [src/backend/schema.ts]
    (the zod schemas of its first half, the route handlers of its second
    half) and of the table constraints of [src/backend/db.sql].

    JavaScript values are the inductive [jsval]; a row of the store and a
    JSON body are association lists from column (key) names to values; the
    store is a record of tables.  Every [pool.query] of the source is a call
    of a small SQL engine on a statement whose rendering is the text the
    source builds.  Library code the handlers call (jsonwebtoken, the URL,
    UUID, e-mail and date checks of zod, JSON.stringify, the errors the
    runtime and the driver throw) is taken as a section variable.

    A handler is embedded in two layers.  The definition that carries the
    handler's name is the body of its [try] block on a store that takes
    every statement.  The definition named [route_...] puts the middleware
    chain of the route in front of it ([authenticateToken], [requireRole])
    and the [catch] block behind it: a statement that binds a text the
    store refuses (one holding a NUL character) or a LIMIT / OFFSET outside
    bigint throws, and the route answers 500 with the statements issued so
    far.  Refusal is modelled for the id a handler looks up first and for
    the values of the list statements.

    Covered: the list routes of projects, skills, users and contact
    messages; registration, login, token verification and the profile
    update; creation, update and deletion of projects, gallery images and
    experiences; creation and update of contact messages; creation of
    skills; upload and lookup of resumes; the health check.  Not covered:
    the routes of user skills, education and social links, the upload
    middleware and the static file routes. *)

From Stdlib Require Import ZArith List String Ascii Bool Lia Arith Permutation.
From Stdlib Require Import Numbers.DecimalString Numbers.DecimalNat.
Import ListNotations.
Open Scope string_scope.
Open Scope list_scope.
Open Scope bool_scope.

Infix "^" := String.append (at level 30, right associativity) : string_scope.

(** ** JavaScript values *)

(** Numbers are modelled on the integers (plus [JNaN]); a [Date] is carried
    as the text the driver binds for it. *)
#[warnings="-register-all"]
Inductive jsval : Type :=
| JUndefined
| JNull
| JBool (b : bool)
| JNum (n : Z)
| JNaN
| JStr (s : string)
| JDate (iso : string)
| JArr (l : list jsval)
| JObj (o : list (string * jsval)).

(** A JS object used as a record: the rows returned by the driver, a parsed
    JSON body, the output of a zod object schema, an [Error].  Order is the
    insertion order, which [Object.entries] follows. *)
Definition jsobj : Type := list (string * jsval).
Definition row : Type := jsobj.

Fixpoint get (o : jsobj) (k : string) : jsval :=
  match o with
  | [] => JUndefined
  | (k', v) :: o' => if String.eqb k' k then v else get o' k
  end.

Fixpoint has_key (o : jsobj) (k : string) : bool :=
  match o with
  | [] => false
  | (k', _) :: o' => String.eqb k' k || has_key o' k
  end.

(** [o[k] = v] on an object: replaces in place, appends a new key. *)
Fixpoint set (o : jsobj) (k : string) (v : jsval) : jsobj :=
  match o with
  | [] => [(k, v)]
  | (k', v') :: o' =>
      if String.eqb k' k then (k', v) :: o' else (k', v') :: set o' k v
  end.

(** [{...a, ...b}]: keys of [a] keep their position, later values win. *)
Definition spread (a b : jsobj) : jsobj :=
  fold_left (fun acc kv => set acc (fst kv) (snd kv)) b a.

(** [if (v)]: ToBoolean. *)
Definition truthy (v : jsval) : bool :=
  match v with
  | JUndefined | JNull | JNaN => false
  | JBool b => b
  | JNum n => negb (n =? 0)%Z
  | JStr s => negb (String.eqb s "")
  | JDate _ | JArr _ | JObj _ => true
  end.

(** [v.k]: a property of an object; arrays and primitives have none of the
    properties the handlers read. *)
Definition prop (v : jsval) (k : string) : jsval :=
  match v with
  | JObj o => get o k
  | _ => JUndefined
  end.

(** [a === b] on the values the handlers compare (primitives); two objects
    from different sources are never identical. *)
Definition strict_eq (a b : jsval) : bool :=
  match a, b with
  | JUndefined, JUndefined => true
  | JNull, JNull => true
  | JBool x, JBool y => Bool.eqb x y
  | JNum x, JNum y => (x =? y)%Z
  | JStr x, JStr y => String.eqb x y
  | _, _ => false
  end.

(** [v !== undefined]. *)
Definition defined (v : jsval) : bool := negb (strict_eq v JUndefined).

(** ** String helpers of the runtime *)

Definition nat_to_string (n : nat) : string :=
  NilEmpty.string_of_uint (Nat.to_uint n).

Definition Z_to_string (z : Z) : string :=
  NilEmpty.string_of_int (Z.to_int z).

(** ToString, as template literals and [parseInt] apply it. *)
Fixpoint js_to_string (v : jsval) : string :=
  match v with
  | JUndefined => "undefined"
  | JNull => "null"
  | JBool true => "true"
  | JBool false => "false"
  | JNum n => Z_to_string n
  | JNaN => "NaN"
  | JStr s => s
  | JDate iso => iso
  | JArr l =>
      String.concat ","
        (map (fun x => match x with
                       | JUndefined | JNull => ""
                       | _ => js_to_string x
                       end) l)
  | JObj _ => "[object Object]"
  end.

(** The template fragment [$${paramIndex}]. *)
Definition dollar (n : nat) : string := "$" ^ nat_to_string n.

Definition is_lower (c : ascii) : bool :=
  let n := nat_of_ascii c in (97 <=? n)%nat && (n <=? 122)%nat.
Definition is_upper (c : ascii) : bool :=
  let n := nat_of_ascii c in (65 <=? n)%nat && (n <=? 90)%nat.

Definition upper_ascii (c : ascii) : ascii :=
  if is_lower c then ascii_of_nat (nat_of_ascii c - 32) else c.
Definition lower_ascii (c : ascii) : ascii :=
  if is_upper c then ascii_of_nat (nat_of_ascii c + 32) else c.

Fixpoint map_string (f : ascii -> ascii) (s : string) : string :=
  match s with
  | EmptyString => EmptyString
  | String c s' => String (f c) (map_string f s')
  end.

(** [s.toUpperCase()] and lower-casing, on ASCII letters. *)
Definition toUpperCase (s : string) : string := map_string upper_ascii s.
Definition toLowerCase (s : string) : string := map_string lower_ascii s.

(** [s.split(c)] for a one-character separator. *)
Fixpoint split (c : ascii) (s : string) : list string :=
  match s with
  | EmptyString => [EmptyString]
  | String a s' =>
      if Ascii.eqb a c then EmptyString :: split c s'
      else match split c s' with
           | h :: t => String a h :: t
           | [] => [String a EmptyString]
           end
  end.

(** [arr[i]]: [undefined] out of range. *)
Definition js_nth (l : list string) (i : nat) : jsval :=
  match nth_error l i with
  | Some s => JStr s
  | None => JUndefined
  end.

Definition is_space (c : ascii) : bool :=
  let n := nat_of_ascii c in
  ((9 <=? n)%nat && (n <=? 13)%nat) || (n =? 32)%nat.

Fixpoint trim_start (s : string) : string :=
  match s with
  | String c s' => if is_space c then trim_start s' else s
  | EmptyString => EmptyString
  end.

Fixpoint trim_end (s : string) : string :=
  match s with
  | EmptyString => EmptyString
  | String c s' =>
      match trim_end s' with
      | EmptyString => if is_space c then EmptyString else String c EmptyString
      | t => String c t
      end
  end.

(** [s.trim()]: white space off both ends. *)
Definition trim (s : string) : string := trim_end (trim_start s).

Definition digit_value (radix : Z) (c : ascii) : option Z :=
  let n := Z.of_nat (nat_of_ascii c) in
  let d :=
    if ((48 <=? n) && (n <=? 57))%Z then Some (n - 48)%Z
    else if ((97 <=? n) && (n <=? 122))%Z then Some (n - 87)%Z
    else if ((65 <=? n) && (n <=? 90))%Z then Some (n - 55)%Z
    else None in
  match d with
  | Some v => if (v <? radix)%Z then Some v else None
  | None => None
  end.

(** The longest prefix of digits, read in [radix]; [None] when empty. *)
Fixpoint read_digits (radix : Z) (acc : option Z) (s : string) : option Z :=
  match s with
  | EmptyString => acc
  | String c s' =>
      match digit_value radix c with
      | Some d =>
          read_digits radix
            (Some (match acc with Some a => a * radix + d | None => d end)%Z) s'
      | None => acc
      end
  end.

Definition strip_hex_prefix (s : string) : option string :=
  match s with
  | String "0" (String "x" r) => Some r
  | String "0" (String "X" r) => Some r
  | _ => None
  end.

(** [parseInt] on a string, with no radix argument: leading white space, a
    sign, an optional [0x], then digits; [NaN] when there is no digit. *)
Definition parseInt_string (s : string) : jsval :=
  let t := trim_start s in
  let '(sign, body) :=
    match t with
    | String "-" r => ((-1)%Z, r)
    | String "+" r => (1%Z, r)
    | _ => (1%Z, t)
    end in
  let digits :=
    match strip_hex_prefix body with
    | Some r => read_digits 16 None r
    | None => read_digits 10 None body
    end in
  match digits with
  | Some n => JNum (sign * n)
  | None => JNaN
  end.

Definition parseInt (v : jsval) : jsval := parseInt_string (js_to_string v).

(** Arithmetic of the handlers, on the integers the schemas let through. *)
Definition js_sub (a b : jsval) : jsval :=
  match a, b with JNum x, JNum y => JNum (x - y) | _, _ => JNaN end.
Definition js_mul (a b : jsval) : jsval :=
  match a, b with JNum x, JNum y => JNum (x * y) | _, _ => JNaN end.

(** [Math.ceil(a / b)]. *)
Definition js_ceil_div (a b : jsval) : jsval :=
  match a, b with
  | JNum x, JNum y => if (y =? 0)%Z then JNaN else JNum (- ((- x) / y))
  | _, _ => JNaN
  end.

(** ** The relational store

    Tables of [db.sql]; a row maps column names to values, [JNull] is SQL
    NULL. *)

Record db : Type := mkDb {
  users : list row;
  projects : list row;
  project_gallery_images : list row;
  skills : list row;
  experiences : list row;
  contact_messages : list row;
  resumes : list row
}.

(** The driver binds [undefined] as NULL and a [Date] as its text. *)
Definition sql_text (v : jsval) : option string :=
  match v with
  | JStr s | JDate s => Some s
  | _ => None
  end.

(** SQL [a = b]: never true on NULL. *)
Definition sql_eq (a b : jsval) : bool :=
  match a, b with
  | JBool x, JBool y => Bool.eqb x y
  | JNum x, JNum y => (x =? y)%Z
  | _, _ =>
      match sql_text a, sql_text b with
      | Some x, Some y => String.eqb x y
      | _, _ => false
      end
  end.

(** SQL [a <= b] on numbers, booleans and text (the date columns of
    [db.sql] are TEXT and compare as text); never true on NULL. *)
Definition sql_le (a b : jsval) : bool :=
  match a, b with
  | JNum x, JNum y => (x <=? y)%Z
  | JBool x, JBool y => implb x y
  | _, _ =>
      match sql_text a, sql_text b with
      | Some x, Some y => String.leb x y
      | _, _ => false
      end
  end.

(** [text LIKE pattern]: [%] any run of characters, [_] one character,
    backslash quotes the next character. *)
Fixpoint like_match (p : string) : string -> bool :=
  match p with
  | EmptyString => fun t => match t with EmptyString => true | _ => false end
  | String c p' =>
      if Ascii.eqb c "%" then
        fix star (t : string) : bool :=
          like_match p' t
          || match t with EmptyString => false | String _ t' => star t' end
      else if Ascii.eqb c "_" then
        fun t => match t with EmptyString => false | String _ t' => like_match p' t' end
      else if Ascii.eqb c "\" then
        match p' with
        | EmptyString => fun _ => false
        | String d p'' =>
            fun t => match t with
                     | EmptyString => false
                     | String e t' => Ascii.eqb d e && like_match p'' t'
                     end
        end
      else
        fun t => match t with
                 | EmptyString => false
                 | String e t' => Ascii.eqb c e && like_match p' t'
                 end
  end.

(** [text ILIKE pattern]: LIKE after case folding. *)
Definition ilike (text pattern : string) : bool :=
  like_match (toLowerCase pattern) (toLowerCase text).

Inductive cmp_op : Type := OpEq | OpGe | OpLe.

Definition op_text (o : cmp_op) : string :=
  match o with OpEq => "=" | OpGe => ">=" | OpLe => "<=" end.

(** One predicate of a WHERE clause: a search over columns sharing one
    bound pattern, or a comparison of a column with a bound value. *)
Inductive clause : Type :=
| CIlike (cols : list string) (param : nat)
| CCmp (col : string) (op : cmp_op) (param : nat).

Definition render_ilike (n : nat) (c : string) : string :=
  c ^ " ILIKE " ^ dollar n.

Definition render_clause (c : clause) : string :=
  match c with
  | CIlike [col] n => render_ilike n col
  | CIlike cols n => "(" ^ String.concat " OR " (map (render_ilike n) cols) ^ ")"
  | CCmp col op n => col ^ " " ^ op_text op ^ " " ^ dollar n
  end.

(** The column a possibly qualified name ([p.title]) denotes. *)
Fixpoint after_dot (s : string) : option string :=
  match s with
  | EmptyString => None
  | String c s' => if Ascii.eqb c "." then Some s' else after_dot s'
  end.

Definition column_key (c : string) : string :=
  match after_dot c with Some r => r | None => c end.

(** [$n] in the array of bound values. *)
Definition param (vals : list jsval) (n : nat) : jsval :=
  nth (n - 1) vals JNull.

Definition eval_clause (vals : list jsval) (r : row) (c : clause) : bool :=
  match c with
  | CIlike cols n =>
      existsb (fun col =>
                 match sql_text (get r (column_key col)), sql_text (param vals n) with
                 | Some t, Some p => ilike t p
                 | _, _ => false
                 end) cols
  | CCmp col OpEq n => sql_eq (get r (column_key col)) (param vals n)
  | CCmp col OpGe n => sql_le (param vals n) (get r (column_key col))
  | CCmp col OpLe n => sql_le (get r (column_key col)) (param vals n)
  end.

Definition matches (where_ : list clause) (vals : list jsval) (r : row) : bool :=
  forallb (eval_clause vals r) where_.

(** ORDER BY: ascending puts NULL last, descending first; ties keep the
    table's order. *)
Definition asc_le (a b : jsval) : bool :=
  match sql_text b, b with
  | None, JNull | None, JUndefined => true
  | _, _ => sql_le a b
  end.

Fixpoint insert_sorted (le : row -> row -> bool) (r : row) (l : list row) : list row :=
  match l with
  | [] => [r]
  | x :: l' => if le r x then r :: l else x :: insert_sorted le r l'
  end.

Definition sort_rows (le : row -> row -> bool) (l : list row) : list row :=
  fold_right (insert_sorted le) [] l.

Definition order_by (col dir : string) (l : list row) : list row :=
  let k := column_key col in
  if String.eqb dir "DESC"
  then sort_rows (fun a b => asc_le (get b k) (get a k)) l
  else sort_rows (fun a b => asc_le (get a k) (get b k)) l.

Definition as_nat (v : jsval) : nat :=
  match v with JNum n => Z.to_nat n | _ => 0 end.

(** The sources a list query reads. *)
Inductive source : Type :=
| FromProjectsJoinUsers
| FromProjects
| FromContactMessages
| FromSkills
| FromUsers
| FromExperiences
| FromGallery.

Definition keep_columns (cols : list string) (r : row) : row :=
  map (fun c => (c, get r c)) cols.

(** [SELECT p.*, u.full_name as author_name FROM projects p JOIN users u
    ON p.user_id = u.user_id]. *)
Definition projects_join_users (d : db) : list row :=
  flat_map (fun p =>
    map (fun u => p ++ [("author_name", get u "full_name")])
        (filter (fun u => sql_eq (get p "user_id") (get u "user_id")) (users d)))
    (projects d).

Definition source_rows (d : db) (s : source) : list row :=
  match s with
  | FromProjectsJoinUsers => projects_join_users d
  | FromProjects => projects d
  | FromContactMessages => contact_messages d
  | FromSkills => skills d
  | FromUsers =>
      map (keep_columns ["user_id"; "email"; "full_name"; "profile_pic_url";
                         "bio"; "role"; "created_at"; "last_login"]) (users d)
  | FromExperiences => experiences d
  | FromGallery => project_gallery_images d
  end.

(** A statement issued by a list endpoint: the text sent to the driver, the
    bound values, and the structure the text denotes. *)
Record select : Type := mkSelect {
  sel_text : string;
  sel_values : list jsval;
  sel_from : source;
  sel_where : list clause;
  sel_order : option (string * string);
  sel_limit : option nat;
  sel_offset : option nat
}.

Definition matching_rows (d : db) (s : select) : list row :=
  filter (matches (sel_where s) (sel_values s)) (source_rows d (sel_from s)).

Definition exec_select (d : db) (s : select) : list row :=
  let rows := matching_rows d s in
  let rows := match sel_order s with
              | Some (col, dir) => order_by col dir rows
              | None => rows
              end in
  let rows := match sel_offset s with
              | Some n => skipn (as_nat (param (sel_values s) n)) rows
              | None => rows
              end in
  match sel_limit s with
  | Some n => firstn (as_nat (param (sel_values s) n)) rows
  | None => rows
  end.

(** [SELECT COUNT( * )]: one row whose [count] the driver returns as text. *)
Definition exec_count (d : db) (s : select) : list row :=
  [[("count", JStr (nat_to_string (List.length (matching_rows d s))))]].

(** *** Values the store refuses

    A bound value reaches the store as text.  The store takes no text that
    holds the NUL character, and takes as LIMIT or OFFSET only a number
    within bigint; for any other value it refuses the statement and the
    driver throws. *)
Fixpoint has_nul (s : string) : bool :=
  match s with
  | EmptyString => false
  | String c s' => Ascii.eqb c Ascii.zero || has_nul s'
  end.

Definition valid_text (v : jsval) : bool :=
  match sql_text v with
  | Some s => negb (has_nul s)
  | None => true
  end.

Definition in_bigint (v : jsval) : bool :=
  match v with
  | JNum n => (- 2 ^ 63 <=? n)%Z && (n <? 2 ^ 63)%Z
  | _ => true
  end.

(** The values a statement binds as LIMIT and OFFSET. *)
Definition paging_values (s : select) : list jsval :=
  match sel_limit s with Some n => [param (sel_values s) n] | None => [] end
  ++ match sel_offset s with Some n => [param (sel_values s) n] | None => [] end.

(** The bound value the store refuses a statement for, if any. *)
Definition refused_value (s : select) : option jsval :=
  match find (fun v => negb (valid_text v)) (sel_values s) with
  | Some v => Some v
  | None => find (fun v => negb (in_bigint v)) (paging_values s)
  end.

(** [await pool.query] statement by statement: the statements issued, up to
    and including the first one the store refuses, and the value it was
    refused for. *)
Fixpoint issue (statements : list select) : list select * option jsval :=
  match statements with
  | [] => ([], None)
  | s :: rest =>
      match refused_value s with
      | Some v => ([s], Some v)
      | None => let (issued, refused) := issue rest in (s :: issued, refused)
      end
  end.

(** ** Building the list queries

    The state the handlers thread through their [if] blocks: the text so
    far, the bound values, the next parameter index, and the predicates the
    text so far denotes. *)
Record builder : Type := mkBuilder {
  query : string;
  values : list jsval;
  paramIndex : nat;
  where_ : list clause
}.

Definition start (text : string) : builder :=
  {| query := text; values := []; paramIndex := 1; where_ := [] |}.

(** [query += ` AND <clause>`; values.push(v); paramIndex++]. *)
Definition and_clause (c : nat -> clause) (v : jsval) (b : builder) : builder :=
  {| query := query b ^ " AND " ^ render_clause (c (paramIndex b));
     values := values b ++ [v];
     paramIndex := S (paramIndex b);
     where_ := where_ b ++ [c (paramIndex b)] |}.

Definition when (cond : bool) (f : builder -> builder) (b : builder) : builder :=
  if cond then f b else b.

(** The template [`%${search}%`]. *)
Definition contains_pattern (search : string) : jsval := JStr ("%" ^ search ^ "%").

(** ** zod

    A schema parses a value or raises an issue ([None]); an object schema
    parses the keys of its shape in order, drops unrecognised keys, and
    reports the keys whose value was refused. *)
Definition schema : Type := jsval -> option jsval.

Definition z_string : schema :=
  fun v => match v with JStr _ => Some v | _ => None end.
Definition z_boolean : schema :=
  fun v => match v with JBool _ => Some v | _ => None end.
(** [z.number().int()]: [NaN] is refused. *)
Definition z_int : schema :=
  fun v => match v with JNum _ => Some v | _ => None end.

Definition z_refine (ok : jsval -> bool) (s : schema) : schema :=
  fun v => match s v with
           | Some w => if ok w then Some w else None
           | None => None
           end.

Definition z_optional (s : schema) : schema :=
  fun v => match v with JUndefined => Some JUndefined | _ => s v end.
Definition z_nullable (s : schema) : schema :=
  fun v => match v with JNull => Some JNull | _ => s v end.
Definition z_default (d : jsval) (s : schema) : schema :=
  fun v => match v with JUndefined => Some d | _ => s v end.
Definition z_or (s1 s2 : schema) : schema :=
  fun v => match s1 v with Some w => Some w | None => s2 v end.
Definition z_literal (l : string) : schema :=
  fun v => match v with
           | JStr s => if String.eqb s l then Some v else None
           | _ => None
           end.

Definition z_enum (allowed : list string) : schema :=
  fun v => match v with
           | JStr s => if existsb (String.eqb s) allowed then Some v else None
           | _ => None
           end.

Definition num_test (f : Z -> bool) (v : jsval) : bool :=
  match v with JNum n => f n | _ => false end.
Definition str_test (f : string -> bool) (v : jsval) : bool :=
  match v with JStr s => f s | _ => false end.

Definition z_positive : schema -> schema := z_refine (num_test (fun n => 0 <? n)%Z).
Definition z_nonnegative : schema -> schema := z_refine (num_test (fun n => 0 <=? n)%Z).
Definition z_min (m : Z) : schema -> schema := z_refine (num_test (fun n => m <=? n)%Z).
Definition z_max (m : Z) : schema -> schema := z_refine (num_test (fun n => n <=? m)%Z).
(** [z.string().min(n)], on the length of the string. *)
Definition z_min_length (m : nat) : schema -> schema :=
  z_refine (str_test (fun s => (m <=? String.length s)%nat)).

Definition z_array (s : schema) : schema :=
  fun v => match v with
           | JArr l => if forallb (fun x => match s x with Some _ => true | None => false end) l
                       then Some v else None
           | _ => None
           end.

(** [z.object(shape).parse(input)]: the parsed object, or the paths of the
    issues. A key is kept when the input has it or its parsed value is
    defined. *)
Fixpoint z_object (shape : list (string * schema)) (input : jsobj)
  : list string + jsobj :=
  match shape with
  | [] => inr []
  | (k, s) :: shape' =>
      match s (get input k), z_object shape' input with
      | Some v, inr o =>
          if has_key input k || negb (strict_eq v JUndefined)
          then inr ((k, v) :: o) else inr o
      | Some _, inl issues => inl issues
      | None, inr _ => inl [k]
      | None, inl issues => inl (k :: issues)
      end
  end.

Definition issues_value (issues : list string) : jsval := JArr (map JStr issues).

(** The query schemas of the list endpoints. *)
Definition project_sort_fields : list string := ["title"; "project_date"; "created_at"].
Definition contact_sort_fields : list string := ["created_at"; "name"; "read"].
Definition skill_sort_fields : list string := ["name"; "category"; "proficiency"].
Definition user_sort_fields : list string := ["full_name"; "created_at"; "last_login"].
Definition sort_orders : list string := ["asc"; "desc"].

Definition z_page : schema := z_default (JNum 1) (z_positive z_int).
Definition z_limit (d : Z) : schema := z_default (JNum d) (z_max 100 (z_positive z_int)).

Definition projectQueryShape : list (string * schema) :=
  [("search", z_optional z_string);
   ("category", z_optional z_string);
   ("user_id", z_optional z_string);
   ("page", z_page);
   ("limit", z_limit 10);
   ("sort_by", z_default (JStr "created_at") (z_enum project_sort_fields));
   ("sort_order", z_default (JStr "desc") (z_enum sort_orders))].

Definition projectQuerySchema : jsobj -> list string + jsobj := z_object projectQueryShape.

Definition skillQueryShape : list (string * schema) :=
  [("search", z_optional z_string);
   ("category", z_optional z_string);
   ("min_proficiency", z_optional (z_max 100 (z_min 0 z_int)));
   ("sort_by", z_default (JStr "name") (z_enum skill_sort_fields));
   ("sort_order", z_default (JStr "asc") (z_enum sort_orders));
   ("limit", z_limit 20)].

Definition skillQuerySchema : jsobj -> list string + jsobj := z_object skillQueryShape.

Definition userQueryShape : list (string * schema) :=
  [("role", z_optional (z_enum ["user"; "admin"]));
   ("search", z_optional z_string);
   ("page", z_page);
   ("limit", z_limit 10);
   ("sort_by", z_default (JStr "created_at") (z_enum user_sort_fields));
   ("sort_order", z_default (JStr "desc") (z_enum sort_orders))].

Definition userQuerySchema : jsobj -> list string + jsobj := z_object userQueryShape.

(** ** Error envelope *)

(** [createErrorResponse(message, error, errorCode)]; [now] is
    [new Date().toISOString()]. *)
Definition createErrorResponse (now : string) (message : string) (error : jsval)
    (errorCode : string) : jsobj :=
  let response :=
    [("success", JBool false); ("message", JStr message); ("timestamp", JStr now)] in
  let response :=
    if truthy (JStr errorCode) then set response "error_code" (JStr errorCode)
    else response in
  let response :=
    if truthy error
    then set response "details"
           (JObj [("name", prop error "name");
                  ("message", prop error "message");
                  ("stack", prop error "stack")])
    else response in
  response.

Record response : Type := mkResponse {
  status : nat;
  body : jsobj
}.

Definition validation_error (now : string) (issues : list string) : response :=
  mkResponse 400
    (createErrorResponse now "Validation error" (issues_value issues) "VALIDATION_ERROR").

Definition internal_error (now : string) (error : jsval) : response :=
  mkResponse 500
    (createErrorResponse now "Internal server error" error "INTERNAL_SERVER_ERROR").

(** [cond ? parseInt(v) : undefined] of the query parsers. *)
Definition int_param (v : jsval) : jsval :=
  if truthy v then parseInt v else JUndefined.

Definition nl : string := String (ascii_of_nat 10) EmptyString.

(** The pagination block of a page response. *)
Definition pagination (page limit totalCount : jsval) : jsval :=
  JObj [("page", page); ("limit", limit); ("total", totalCount);
        ("totalPages", js_ceil_div totalCount limit)].

Definition count_of (countResult : list row) : jsval :=
  parseInt (get (hd [] countResult) "count").

(** *** GET /api/projects *)

Definition projects_select_text : string :=
  nl ^ "      SELECT p.*, u.full_name as author_name " ^
  nl ^ "      FROM projects p " ^
  nl ^ "      JOIN users u ON p.user_id = u.user_id " ^
  nl ^ "      WHERE 1=1" ^
  nl ^ "    ".

(** The three [if] blocks, written out twice in the source (item query and
    count query) with the same text. *)
Definition projects_filters (q : jsobj) (b : builder) : builder :=
  let b := when (truthy (get q "search"))
             (and_clause (CIlike ["p.title"; "p.content"])
                (contains_pattern (js_to_string (get q "search")))) b in
  let b := when (truthy (get q "category"))
             (and_clause (CCmp "p.category" OpEq) (get q "category")) b in
  let b := when (truthy (get q "user_id"))
             (and_clause (CCmp "p.user_id" OpEq) (get q "user_id")) b in
  b.

(** The tail every paged list query shares: ORDER BY, LIMIT, OFFSET. *)
Definition paged_query (b : builder) (from : source) (order_col : string) (q : jsobj)
  : select :=
  let offset := js_mul (js_sub (get q "page") (JNum 1)) (get q "limit") in
  let order_dir := toUpperCase (js_to_string (get q "sort_order")) in
  {| sel_text := query b ^ " ORDER BY " ^ order_col ^ " " ^ order_dir
                 ^ " LIMIT " ^ dollar (paramIndex b)
                 ^ " OFFSET " ^ dollar (paramIndex b + 1);
     sel_values := values b ++ [get q "limit"; offset];
     sel_from := from;
     sel_where := where_ b;
     sel_order := Some (order_col, order_dir);
     sel_limit := Some (paramIndex b);
     sel_offset := Some (paramIndex b + 1) |}.

Definition projects_item_query (q : jsobj) : select :=
  paged_query (projects_filters q (start projects_select_text))
    FromProjectsJoinUsers ("p." ^ js_to_string (get q "sort_by")) q.

Definition count_select (b : builder) (from : source) : select :=
  {| sel_text := query b; sel_values := values b; sel_from := from;
     sel_where := where_ b; sel_order := None; sel_limit := None;
     sel_offset := None |}.

Definition projects_count_query (q : jsobj) : select :=
  count_select
    (projects_filters q (start "SELECT COUNT(*) FROM projects p WHERE 1=1"))
    FromProjects.

Definition page_response (key : string) (d : db) (q : jsobj) (item count : select)
  : response * list select :=
  let result := exec_select d item in
  let totalCount := count_of (exec_count d count) in
  (mkResponse 200
     [(key, JArr (map JObj result));
      ("pagination", pagination (get q "page") (get q "limit") totalCount)],
   [item; count]).

(** The handler: the response and the statements it issued, in order. *)
Definition get_projects (now : string) (d : db) (reqQuery : jsobj)
  : response * list select :=
  match projectQuerySchema
          [("search", get reqQuery "search");
           ("category", get reqQuery "category");
           ("user_id", get reqQuery "user_id");
           ("page", int_param (get reqQuery "page"));
           ("limit", int_param (get reqQuery "limit"));
           ("sort_by", get reqQuery "sort_by");
           ("sort_order", get reqQuery "sort_order")] with
  | inl issues => (validation_error now issues, [])
  | inr q => page_response "projects" d q (projects_item_query q) (projects_count_query q)
  end.

(** *** GET /api/skills *)

Definition skills_filters (q : jsobj) (b : builder) : builder :=
  let b := when (truthy (get q "search"))
             (and_clause (CIlike ["name"])
                (contains_pattern (js_to_string (get q "search")))) b in
  let b := when (truthy (get q "category"))
             (and_clause (CCmp "category" OpEq) (get q "category")) b in
  let b := when (truthy (get q "min_proficiency"))
             (and_clause (CCmp "proficiency" OpGe) (get q "min_proficiency")) b in
  b.

Definition skills_query (q : jsobj) : select :=
  let b := skills_filters q (start "SELECT * FROM skills WHERE 1=1") in
  let order_col := js_to_string (get q "sort_by") in
  let order_dir := toUpperCase (js_to_string (get q "sort_order")) in
  {| sel_text := query b ^ " ORDER BY " ^ order_col ^ " " ^ order_dir
                 ^ " LIMIT " ^ dollar (paramIndex b);
     sel_values := values b ++ [get q "limit"];
     sel_from := FromSkills;
     sel_where := where_ b;
     sel_order := Some (order_col, order_dir);
     sel_limit := Some (paramIndex b);
     sel_offset := None |}.

Definition get_skills (now : string) (d : db) (reqQuery : jsobj)
  : response * list select :=
  match skillQuerySchema
          [("search", get reqQuery "search");
           ("category", get reqQuery "category");
           ("min_proficiency", int_param (get reqQuery "min_proficiency"));
           ("sort_by", get reqQuery "sort_by");
           ("sort_order", get reqQuery "sort_order");
           ("limit", int_param (get reqQuery "limit"))] with
  | inl issues => (validation_error now issues, [])
  | inr q =>
      let item := skills_query q in
      (mkResponse 200 [("skills", JArr (map JObj (exec_select d item)))], [item])
  end.

(** *** GET /api/users (handler behind authenticateToken and requireRole) *)

Definition users_select_text : string :=
  "SELECT user_id, email, full_name, profile_pic_url, bio, role, created_at, last_login FROM users WHERE 1=1".

Definition users_filters (q : jsobj) (b : builder) : builder :=
  let b := when (truthy (get q "role"))
             (and_clause (CCmp "role" OpEq) (get q "role")) b in
  let b := when (truthy (get q "search"))
             (and_clause (CIlike ["full_name"; "email"])
                (contains_pattern (js_to_string (get q "search")))) b in
  b.

Definition users_item_query (q : jsobj) : select :=
  paged_query (users_filters q (start users_select_text)) FromUsers
    (js_to_string (get q "sort_by")) q.

Definition users_count_query (q : jsobj) : select :=
  count_select (users_filters q (start "SELECT COUNT(*) FROM users WHERE 1=1")) FromUsers.

Definition get_users (now : string) (d : db) (reqQuery : jsobj)
  : response * list select :=
  match userQuerySchema
          [("role", get reqQuery "role");
           ("search", get reqQuery "search");
           ("page", int_param (get reqQuery "page"));
           ("limit", int_param (get reqQuery "limit"));
           ("sort_by", get reqQuery "sort_by");
           ("sort_order", get reqQuery "sort_order")] with
  | inl issues => (validation_error now issues, [])
  | inr q => page_response "users" d q (users_item_query q) (users_count_query q)
  end.

(** *** Lists without parameters: GET /api/users/:user_id/experiences and
    GET /api/projects/:project_id/gallery read the path parameter only; the
    query string is not looked at. *)

Definition fixed_list (text : string) (from : source) (key : string) (id : string)
    (order_col order_dir : string) : select :=
  {| sel_text := text; sel_values := [JStr id]; sel_from := from;
     sel_where := [CCmp key OpEq 1]; sel_order := Some (order_col, order_dir);
     sel_limit := None; sel_offset := None |}.

Definition experiences_of_user (user_id : string) : select :=
  fixed_list "SELECT * FROM experiences WHERE user_id = $1 ORDER BY start_date DESC"
    FromExperiences "user_id" user_id "start_date" "DESC".

Definition get_user_experiences (d : db) (user_id : string) (reqQuery : jsobj)
  : response * list select :=
  let item := experiences_of_user user_id in
  (mkResponse 200 [("experiences", JArr (map JObj (exec_select d item)))], [item]).

Definition gallery_of_project (project_id : string) : select :=
  fixed_list "SELECT * FROM project_gallery_images WHERE project_id = $1 ORDER BY sort_order ASC"
    FromGallery "project_id" project_id "sort_order" "ASC".

Definition get_project_gallery (d : db) (project_id : string) (reqQuery : jsobj)
  : response * list select :=
  let item := gallery_of_project project_id in
  (mkResponse 200 [("gallery_images", JArr (map JObj (exec_select d item)))], [item]).

(** ** Mutations of the store *)

(** The constraints of one table of [db.sql]: unique columns (the primary
    key among them) with the constraint's name, and NOT NULL columns. *)
Record table_schema : Type := mkSchema {
  uniques : list (string * string);
  not_nulls : list string
}.

Definition projects_schema : table_schema :=
  {| uniques := [("project_id", "projects_pkey"); ("slug", "projects_slug_key")];
     not_nulls := ["project_id"; "title"; "slug"; "featured_image"; "category";
                   "excerpt"; "content"; "project_date"; "created_at";
                   "updated_at"; "user_id"] |}.

Definition gallery_schema : table_schema :=
  {| uniques := [("image_id", "project_gallery_images_pkey")];
     not_nulls := ["image_id"; "project_id"; "image_url"; "sort_order"] |}.

Definition experiences_schema : table_schema :=
  {| uniques := [("experience_id", "experiences_pkey")];
     not_nulls := ["experience_id"; "user_id"; "title"; "company"; "description";
                   "start_date"; "current"] |}.

Definition contact_schema : table_schema :=
  {| uniques := [("message_id", "contact_messages_pkey")];
     not_nulls := ["message_id"; "name"; "email"; "message"; "created_at"; "read"] |}.

Definition resumes_schema : table_schema :=
  {| uniques := [("resume_id", "resumes_pkey"); ("user_id", "resumes_user_id_key")];
     not_nulls := ["resume_id"; "user_id"; "file_url"; "file_name"; "file_size";
                   "uploaded_at"; "primary_resume"] |}.

Definition users_schema : table_schema :=
  {| uniques := [("user_id", "users_pkey"); ("email", "users_email_key")];
     not_nulls := ["user_id"; "email"; "password_hash"; "full_name"; "created_at";
                   "role"] |}.

Definition skills_schema : table_schema :=
  {| uniques := [("skill_id", "skills_pkey"); ("name", "skills_name_key")];
     not_nulls := ["skill_id"; "name"] |}.

(** The columns of [users]; an UPDATE naming any other column is refused. *)
Definition users_columns : list string :=
  ["user_id"; "email"; "password_hash"; "full_name"; "profile_pic_url"; "bio";
   "created_at"; "last_login"; "role"].

(** What the driver stores for a bound value. *)
Definition bind (v : jsval) : jsval :=
  match v with
  | JUndefined => JNull
  | JDate iso => JStr iso
  | _ => v
  end.

Definition is_null (v : jsval) : bool :=
  match v with JNull | JUndefined => true | _ => false end.

(** [v || null]. *)
Definition or_null (v : jsval) : jsval := if truthy v then v else JNull.

(** [rows[0]] of an INSERT ... RETURNING: the row appended last. *)
Definition inserted (tbl : list row) : row := last tbl [].

Fixpoint has_duplicate (l : list jsval) : bool :=
  match l with
  | [] => false
  | v :: l' => existsb (sql_eq v) l' || has_duplicate l'
  end.

(** The first constraint a table breaks, if any. *)
Definition violation (sch : table_schema) (tbl : list row) : option string :=
  match find (fun c => existsb (fun r => is_null (get r c)) tbl) (not_nulls sch) with
  | Some c => Some (c ^ "_not_null")
  | None =>
      match find (fun u => has_duplicate (map (fun r => get r (fst u)) tbl)) (uniques sch) with
      | Some u => Some (snd u)
      | None => None
      end
  end.

Definition select_where (tbl : list row) (col : string) (v : jsval) : list row :=
  filter (fun r => sql_eq (get r col) v) tbl.

Definition assign (r : row) (sets : list (string * jsval)) : row :=
  fold_left (fun acc kv => set acc (fst kv) (bind (snd kv))) sets r.

Definition update_rows (tbl : list row) (sets : list (string * jsval))
    (col : string) (v : jsval) : list row :=
  map (fun r => if sql_eq (get r col) v then assign r sets else r) tbl.

Definition delete_where (tbl : list row) (col : string) (v : jsval) : list row :=
  filter (fun r => negb (sql_eq (get r col) v)) tbl.

(** An UPDATE assembled from a validated body: the [key = $n] fragments,
    the bound values, the next index, and the columns the fragments name. *)
Record update_builder : Type := mkUpdate {
  updateFields : list string;
  u_values : list jsval;
  u_paramIndex : nat;
  u_sets : list (string * nat)
}.

Definition update_start : update_builder :=
  {| updateFields := []; u_values := []; u_paramIndex := 1; u_sets := [] |}.

(** [updateFields.push(`${key} = $${paramIndex}`); values.push(v);
    paramIndex++]. *)
Definition push_field (key : string) (v : jsval) (u : update_builder) : update_builder :=
  {| updateFields := updateFields u ++ [key ^ " = " ^ dollar (u_paramIndex u)];
     u_values := u_values u ++ [v];
     u_paramIndex := S (u_paramIndex u);
     u_sets := u_sets u ++ [(key, u_paramIndex u)] |}.

Definition bound_sets (u : update_builder) (vals : list jsval) : list (string * jsval) :=
  map (fun s => (fst s, param vals (snd s))) (u_sets u).

Definition update_text (table : string) (u : update_builder) (key : string) : string :=
  "UPDATE " ^ table ^ " SET " ^ String.concat ", " (updateFields u)
  ^ " WHERE " ^ key ^ " = " ^ dollar (u_paramIndex u) ^ " RETURNING *".

(** [SET primary_resume = false]. *)
Definition demote : list (string * jsval) := [("primary_resume", JBool false)].

Definition is_admin (user : row) : bool := strict_eq (get user "role") (JStr "admin").

(** The ownership check shared by the update and delete handlers:
    [existing.rows[0].user_id !== req.user.user_id && req.user.role !== 'admin']. *)
Definition not_allowed (existing : row) (user : row) : bool :=
  negb (strict_eq (get existing "user_id") (get user "user_id"))
  && negb (is_admin user).

Definition error_response (st : nat) (now message code : string) : response :=
  mkResponse st (createErrorResponse now message JNull code).

(** [authHeader && authHeader.split(' ')[1]]. *)
Definition bearer_token (headers : jsobj) : jsval :=
  let authHeader := get headers "authorization" in
  if truthy authHeader
  then js_nth (split " " (js_to_string authHeader)) 1
  else authHeader.

Definition details_of (r : response) : jsval := get (body r) "details".

(** At most one resume of each user is flagged primary. *)
Definition primary_of (uid : jsval) (r : row) : bool :=
  sql_eq (get r "user_id") uid && strict_eq (get r "primary_resume") (JBool true).

Definition at_most_one_primary (tbl : list row) : Prop :=
  forall uid, (List.length (filter (primary_of uid) tbl) <= 1)%nat.

(** What the ownership guard must do with a request, given the rule. *)
Definition guard_outcome (allowed : Prop) (denied : response) (d : db)
    (res : response * db) : Prop :=
  (status (fst res) = 403%nat <-> ~ allowed) /\ (~ allowed -> res = (denied, d)).

Definition denied_response (now message : string) : response :=
  error_response 403 now message "INSUFFICIENT_PERMISSIONS".

Definition not_found_response (now message code : string) : response :=
  error_response 404 now message code.

(** ** Vocabulary of the properties *)

(** The [details] object built from a thrown value. *)
Definition error_details (error : jsval) : jsval :=
  JObj [("name", prop error "name"); ("message", prop error "message");
        ("stack", prop error "stack")].


(** A value supplied outside an allow-list: defined, and none of the
    allowed strings. *)
Definition outside (allowed : list string) (v : jsval) : Prop :=
  v <> JUndefined /\ forall f, In f allowed -> v <> JStr f.

(** The ORDER BY of an issued statement names an allowed column and a
    direction; a statement without ORDER BY is a count (no LIMIT, no
    OFFSET). *)
Definition order_clause_ok (prefix : string) (allowed : list string) (s : select) : Prop :=
  match sel_order s with
  | Some (col, dir) =>
      exists f, In f allowed /\ col = prefix ^ f /\ In dir ["ASC"; "DESC"]
                /\ exists before n rest,
                     sel_text s = before ^ " ORDER BY " ^ col ^ " " ^ dir
                                  ^ " LIMIT " ^ dollar n ^ rest
  | None => sel_limit s = None /\ sel_offset s = None
  end.

(** A list handler checks its sort parameters: a sort field or direction
    outside the allowed sets is answered 400 VALIDATION_ERROR with no
    statement issued, and every statement issued orders by an allowed column
    and direction. *)
Definition sort_guarded (now prefix : string) (allowed : list string)
    (handler : jsobj -> response * list select) : Prop :=
  forall reqQuery,
    ((outside allowed (get reqQuery "sort_by")
      \/ outside sort_orders (get reqQuery "sort_order")) ->
     exists issues, handler reqQuery = (validation_error now issues, []))
    /\ (forall s, In s (snd (handler reqQuery)) -> order_clause_ok prefix allowed s).

(** The fragments of the SET clause are the rendering of the recorded
    columns. *)
Definition fields_rendered (u : update_builder) : Prop :=
  updateFields u = map (fun s => fst s ^ " = " ^ dollar (snd s)) (u_sets u).

(** A column set by the loop is a key of the validated input with a
    defined value, outside the skipped keys. *)
Definition set_from (skip : list string) (entries : jsobj) (k : string) : Prop :=
  existsb (String.eqb k) skip = false
  /\ exists v, In (k, v) entries /\ defined v = true.

(** The next index is one past the bound values, so the value pushed last
    is the one the WHERE clause reads. *)
Definition indexed (u : update_builder) : Prop :=
  u_paramIndex u = S (List.length (u_values u)).

(** The row POST /api/resumes inserts. *)
Definition new_resume (now resumeId : string) (user : row) (file : jsval)
    (isPrimary : bool) : row :=
  [("resume_id", JStr resumeId);
   ("user_id", bind (get user "user_id"));
   ("file_url", JStr ("/storage/resumes/" ^ js_to_string (prop file "filename")));
   ("file_name", bind (prop file "originalname"));
   ("file_size", bind (prop file "size"));
   ("uploaded_at", JStr now);
   ("primary_resume", JBool isPrimary)].

(** The row POST /api/auth/register inserts: the VALUES of the statement,
    and NULL for the columns it leaves out. *)
Definition new_account (now userId : string) (validatedInput : jsobj) : row :=
  [("user_id", JStr userId);
   ("email", JStr (trim (toLowerCase (js_to_string (get validatedInput "email")))));
   ("password_hash", get validatedInput "password");
   ("full_name", JStr (trim (js_to_string (get validatedInput "full_name"))));
   ("profile_pic_url", JNull);
   ("bio", or_null (get validatedInput "bio"));
   ("created_at", JStr now);
   ("last_login", JNull);
   ("role", match get validatedInput "role" with
            | JUndefined => JStr "user"
            | role => role
            end)].

(** No LIKE metacharacter ([%], [_], backslash) occurs in the string. *)
Definition is_wildcard (c : ascii) : bool :=
  Ascii.eqb c "%" || Ascii.eqb c "_" || Ascii.eqb c "\".

Fixpoint plain (s : string) : bool :=
  match s with
  | EmptyString => true
  | String c s' => negb (is_wildcard c) && plain s'
  end.

(** [t] contains [s], letter case aside. *)
Definition contains_ci (t s : string) : Prop :=
  exists pre post, toLowerCase t = pre ^ toLowerCase s ^ post.

(** Which [if] blocks of a list handler fire on a validated query. *)
Definition projects_fired (q : jsobj) : list bool :=
  [truthy (get q "search"); truthy (get q "category"); truthy (get q "user_id")].
Definition skills_fired (q : jsobj) : list bool :=
  [truthy (get q "search"); truthy (get q "category"); truthy (get q "min_proficiency")].
Definition contact_fired (q : jsobj) : list bool :=
  [truthy (get q "search"); defined (get q "read");
   truthy (get q "start_date"); truthy (get q "end_date")].
Definition users_fired (q : jsobj) : list bool :=
  [truthy (get q "role"); truthy (get q "search")].

Definition same_sort (q1 q2 : jsobj) : Prop :=
  get q1 "sort_by" = get q2 "sort_by" /\ get q1 "sort_order" = get q2 "sort_order".

Definition bound_if (c : bool) (v : jsval) : list jsval := if c then [v] else [].

Definition page_values (q : jsobj) : list jsval :=
  [get q "limit"; js_mul (js_sub (get q "page") (JNum 1)) (get q "limit")].

Definition search_value (q : jsobj) : jsval :=
  contains_pattern (js_to_string (get q "search")).

(** The keys of a validated project query. *)
Definition project_query_keys : list string :=
  ["search"; "category"; "user_id"; "page"; "limit"; "sort_by"; "sort_order"].

Definition present_fields (keys : list string) (q : jsobj) : list bool :=
  map (fun k => defined (get q k)) keys.

Definition project_query (search sort_by : jsval) : jsobj :=
  [("search", search); ("category", JUndefined); ("user_id", JUndefined);
   ("page", JNum 1); ("limit", JNum 10); ("sort_by", sort_by);
   ("sort_order", JStr "desc")].

(** Every project's user_id names exactly one user (the foreign key of
    [projects] on the primary key of [users]). *)
Definition owners_resolve (d : db) : Prop :=
  forall p, In p (projects d) ->
    exists u, filter (fun u => sql_eq (get p "user_id") (get u "user_id")) (users d) = [u].

Definition count_true (l : list bool) : nat := List.length (filter (fun b => b) l).

(** A schema that hands back the value it accepted. *)
Definition passes (s : schema) : Prop := forall x w, s x = Some w -> w = x.

(** Every row of the table carries text under the column. *)
Definition text_column (c : string) (tbl : list row) : Prop :=
  forall r, In r tbl -> exists s, get r c = JStr s.


(** The comparison ORDER BY [col dir] sorts by. *)
Definition order_le (col dir : string) (a b : row) : bool :=
  if String.eqb dir "DESC"
  then asc_le (get b (column_key col)) (get a (column_key col))
  else asc_le (get a (column_key col)) (get b (column_key col)).

(** Every row comes before the rows after it. *)
Fixpoint in_order (le : row -> row -> bool) (l : list row) : Prop :=
  match l with
  | [] => True
  | a :: l' => (forall b, In b l' -> le a b = true) /\ in_order le l'
  end.

(** OFFSET and LIMIT of a statement, applied to its ordered rows. *)
Definition window (s : select) (rows : list row) : list row :=
  let rows := match sel_offset s with
              | Some n => skipn (as_nat (param (sel_values s) n)) rows
              | None => rows
              end in
  match sel_limit s with
  | Some n => firstn (as_nat (param (sel_values s) n)) rows
  | None => rows
  end.

(** A result the store may give for a statement: the rows it matches, in
    an order that agrees with its ORDER BY (rows that tie come in any order,
    and the order may differ from one statement to the next), cut by OFFSET
    and LIMIT. *)
Definition may_return (d : db) (s : select) (rows : list row) : Prop :=
  exists sorted,
    Permutation sorted (matching_rows d s)
    /\ match sel_order s with
       | Some (col, dir) => in_order (order_le col dir) sorted
       | None => True
       end
    /\ rows = window s sorted.

(** No two of the rows tie under the column: each carries a text there,
    and the texts differ. *)
Definition no_ties (col : string) (rows : list row) : Prop :=
  text_column (column_key col) rows
  /\ NoDup (map (fun r => get r (column_key col)) rows).

(** The pages of one list query, taken in order, walk through one ordering
    of the rows the query matches, whatever result the store gives for each
    page. *)
Definition pages_walk (d : db) (item : jsobj -> select) (q : jsobj) (limit : nat)
  : Prop :=
  forall pages : nat -> list row,
    (forall k, (1 <= k)%nat ->
       may_return d (item (set q "page" (JNum (Z.of_nat k)))) (pages k)) ->
    exists sorted,
      Permutation sorted (matching_rows d (item q))
      /\ forall n, List.concat (map pages (seq 1 n)) = firstn (n * limit) sorted.

(** The value holds no object with the key: an object, or an array of
    objects. *)
Definition hides (k : string) (v : jsval) : Prop :=
  match v with
  | JObj o => has_key o k = false
  | JArr l => forall o, In (JObj o) l -> has_key o k = false
  | _ => True
  end.


(** ** Sample data: rows in the shape of the seed of [db.sql], and
    stand-ins for the libraries, used to run the handlers on concrete
    requests. *)

Definition usr_1 : row :=
  [("user_id", JStr "usr_1"); ("email", JStr "admin@example.com");
   ("password_hash", JStr "admin123"); ("full_name", JStr "Admin User");
   ("profile_pic_url", JNull); ("bio", JNull);
   ("created_at", JStr "2023-01-15T09:00:00Z"); ("last_login", JNull);
   ("role", JStr "admin")].

Definition usr_2 : row :=
  [("user_id", JStr "usr_2"); ("email", JStr "alice@example.com");
   ("password_hash", JStr "password123"); ("full_name", JStr "Alice Johnson");
   ("profile_pic_url", JNull); ("bio", JNull);
   ("created_at", JStr "2023-02-20T10:15:00Z"); ("last_login", JNull);
   ("role", JStr "user")].

Definition usr_3 : row :=
  [("user_id", JStr "usr_3"); ("email", JStr "bob@example.com");
   ("password_hash", JStr "hunter22"); ("full_name", JStr "Bob Stone");
   ("profile_pic_url", JNull); ("bio", JNull);
   ("created_at", JStr "2023-03-01T08:00:00Z"); ("last_login", JNull);
   ("role", JStr "user")].

Definition proj_1 : row :=
  [("project_id", JStr "proj_1"); ("title", JStr "E-commerce Platform");
   ("slug", JStr "ecommerce-platform");
   ("featured_image", JStr "https://picsum.photos/seed/ecommerce/1200/800");
   ("category", JStr "Web Development");
   ("excerpt", JStr "A fully featured e-commerce platform.");
   ("content", JStr "This project involved creating a complete e-commerce solution.");
   ("client", JStr "Retail Store Inc."); ("technologies", JStr "[]");
   ("project_url", JStr "https://ecommerce.example.com");
   ("project_date", JStr "2023-06-01");
   ("created_at", JStr "2023-05-15T10:30:00Z");
   ("updated_at", JStr "2023-10-20T14:20:00Z"); ("user_id", JStr "usr_2")].

Definition img_1 : row :=
  [("image_id", JStr "img_1"); ("project_id", JStr "proj_1");
   ("image_url", JStr "https://picsum.photos/seed/ecommerce-gallery1/800/600");
   ("caption", JStr "Homepage showing featured products"); ("sort_order", JNum 1)].

Definition skill (id name : string) (proficiency : jsval) : row :=
  [("skill_id", JStr id); ("name", JStr name); ("category", JStr "Programming");
   ("proficiency", proficiency)].

Definition exp_1 : row :=
  [("experience_id", JStr "exp_1"); ("user_id", JStr "usr_2");
   ("title", JStr "Senior Frontend Developer"); ("company", JStr "Tech Solutions Inc.");
   ("description", JStr "Led the development of various client projects.");
   ("start_date", JStr "2020-03-01"); ("end_date", JStr "2023-08-31");
   ("current", JBool false); ("location", JStr "New York, NY")].

Definition message (id name created_at : string) (read : bool) : row :=
  [("message_id", JStr id); ("name", JStr name); ("email", JStr "john@example.com");
   ("subject", JStr "Partnership Inquiry");
   ("message", JStr "I would like to discuss a potential partnership.");
   ("created_at", JStr created_at); ("read", JBool read)].

Definition res_1 : row :=
  [("resume_id", JStr "res_1"); ("user_id", JStr "usr_2");
   ("file_url", JStr "https://example.com/resumes/alice_johnson.pdf");
   ("file_name", JStr "Alice_Johnson_Resume.pdf"); ("file_size", JNum 102400);
   ("uploaded_at", JStr "2023-10-01T14:30:00Z"); ("primary_resume", JBool true)].

Definition seed : db :=
  {| users := [usr_1; usr_2; usr_3];
     projects := [proj_1];
     project_gallery_images := [img_1];
     skills := [skill "skill_1" "JavaScript" (JNum 90); skill "skill_6" "Elm" JNull];
     experiences := [exp_1];
     contact_messages :=
       [message "msg_1" "John Smith" "2023-10-25T10:30:00Z" false;
        message "msg_2" "Jane Roe" "2024-03-02T08:00:00Z" false];
     resumes := [res_1] |}.

(** A stand-in for the coercion: a date given as ISO text is taken as
    that text (the driver binds a Date re-formatted, with milliseconds and
    offset); nothing else is a date. *)
Definition iso_date (v : jsval) : option string :=
  match v with
  | JStr s => if String.eqb s "" then None else Some s
  | _ => None
  end.

Definition starts_with (p s : string) : bool := String.prefix p s.

(** Tokens of the samples: ["token-of-<user id>"] decodes to that user,
    anything else is malformed. *)
Definition sample_jwt_error : jsval :=
  JObj [("name", JStr "JsonWebTokenError"); ("message", JStr "jwt malformed");
        ("stack", JStr "JsonWebTokenError: jwt malformed at module.exports (node_modules/jsonwebtoken/verify.js)")].

Definition sample_jwt_verify (token secret : string) : jsval + jsval :=
  if starts_with "token-of-" token
  then inr (JObj [("user_id", JStr (String.substring 9 (String.length token - 9) token));
                  ("email", JStr "alice@example.com"); ("role", JStr "user")])
  else inl sample_jwt_error.

Definition sample_pg_error (constraint : string) : jsval :=
  JObj [("name", JStr "error");
        ("message", JStr ("duplicate key value violates unique constraint " ^ constraint));
        ("stack", JStr ("error: duplicate key value violates unique constraint " ^ constraint ^ " at Parser.parseErrorMessage (node_modules/pg-protocol)"))].

Definition sample_stringify (v : jsval) : string := "[" ^ js_to_string v ^ "]".

Definition bearer (token : string) : jsobj := [("authorization", JStr ("Bearer " ^ token))].

(** Stand-ins for zod's checks: a UUID is 36 characters long, a URL starts
    with http. *)
Definition sample_is_uuid (s : string) : bool := (String.length s =? 36)%nat.
Definition sample_is_url (s : string) : bool := starts_with "http" s.

(** A store whose ids are UUIDs, as [uuidv4()] makes them. *)
Definition alice_id : string := "a1111111-1111-4111-8111-111111111111".
Definition bob_id : string := "b2222222-2222-4222-8222-222222222222".
Definition root_id : string := "c3333333-3333-4333-8333-333333333333".
Definition shop_id : string := "d4444444-4444-4444-8444-444444444444".
Definition blog_id : string := "e5555555-5555-4555-8555-555555555555".

Definition account (id email name role : string) : row :=
  [("user_id", JStr id); ("email", JStr email); ("password_hash", JStr "password123");
   ("full_name", JStr name); ("profile_pic_url", JNull); ("bio", JNull);
   ("created_at", JStr "2023-02-20T10:15:00Z"); ("last_login", JNull);
   ("role", JStr role)].

Definition alice : row := account alice_id "alice@example.com" "Alice Johnson" "user".
Definition bob : row := account bob_id "bob@example.com" "Bob Stone" "user".
Definition root : row := account root_id "admin@example.com" "Admin User" "admin".

Definition project (id slug title owner : string) : row :=
  [("project_id", JStr id); ("title", JStr title); ("slug", JStr slug);
   ("featured_image", JStr "https://picsum.photos/seed/ecommerce/1200/800");
   ("category", JStr "Web Development");
   ("excerpt", JStr "A fully featured e-commerce platform.");
   ("content", JStr "This project involved creating a complete e-commerce solution.");
   ("client", JNull); ("technologies", JStr "[]"); ("project_url", JNull);
   ("project_date", JStr "2023-06-01");
   ("created_at", JStr "2023-05-15T10:30:00Z");
   ("updated_at", JStr "2023-10-20T14:20:00Z"); ("user_id", JStr owner)].

Definition shop : row := project shop_id "ecommerce-platform" "E-commerce Platform" alice_id.
Definition blog : row := project blog_id "blog-engine" "Blog Engine" bob_id.

Definition alice_resume : row :=
  [("resume_id", JStr "f6666666-6666-4666-8666-666666666666"); ("user_id", JStr alice_id);
   ("file_url", JStr "/storage/resumes/file-1.pdf");
   ("file_name", JStr "Alice_Johnson_Resume.pdf"); ("file_size", JNum 102400);
   ("uploaded_at", JStr "2023-10-01T14:30:00Z"); ("primary_resume", JBool true)].

Definition portfolio : db :=
  {| users := [alice; bob; root];
     projects := [shop; blog];
     project_gallery_images :=
       [[("image_id", JStr "img_1"); ("project_id", JStr shop_id);
         ("image_url", JStr "https://picsum.photos/seed/gallery1/800/600");
         ("caption", JNull); ("sort_order", JNum 1)]];
     skills := [];
     experiences :=
       [[("experience_id", JStr "exp_1"); ("user_id", JStr alice_id);
         ("title", JStr "Senior Frontend Developer");
         ("company", JStr "Tech Solutions Inc.");
         ("description", JStr "Led the development of various client projects.");
         ("start_date", JStr "2020-03-01"); ("end_date", JNull);
         ("current", JBool true); ("location", JNull)]];
     contact_messages := [];
     resumes := [alice_resume] |}.

Definition uploaded_file : jsval :=
  JObj [("filename", JStr "file-1700000000000-123456789.pdf");
        ("originalname", JStr "resume.pdf"); ("size", JNum 2048)].

Definition clock : string := "2024-05-01T12:00:00.000Z".

(** Stand-ins for the account routes: the token of a payload names its
    user, an address holds an [@]. *)
Definition sample_jwt_sign (payload : jsval) (secret expiresIn : string) : string :=
  "token-of-" ^ js_to_string (prop payload "user_id").

Definition sample_is_email (s : string) : bool :=
  existsb (Ascii.eqb "@") (list_ascii_of_string s).

Definition sample_type_error (message : string) : jsval :=
  JObj [("name", JStr "TypeError"); ("message", JStr message);
        ("stack", JStr ("TypeError: " ^ message ^ " at server.ts"))].

Definition sample_undefined_column (column : string) : jsval :=
  JObj [("name", JStr "error");
        ("message", JStr ("column " ^ column ^ " of relation users does not exist"));
        ("stack", JStr ("error: column " ^ column ^ " of relation users does not exist at Parser.parseErrorMessage (node_modules/pg-protocol)"))].

(** Stand-ins for the driver's refusal of a text and for JSON.parse (the
    samples store one JSON text, the empty array). *)
Definition sample_pg_refusal (v : jsval) : jsval :=
  JObj [("name", JStr "error");
        ("message", JStr "invalid byte sequence for encoding UTF8: 0x00");
        ("stack", JStr "error: invalid byte sequence for encoding UTF8: 0x00 at Parser.parseErrorMessage (node_modules/pg-protocol)")].

Definition sample_JSON_parse (text : string) : jsval :=
  if String.eqb text "[]" then JArr [] else JUndefined.

(** The id of the path [/api/projects/%00]: the one-character text holding
    NUL (no string literal denotes it). *)
Definition nul : string := String Ascii.zero EmptyString.

Definition carol_id : string := "f7777777-7777-4777-8777-777777777777".

Definition carol_registration : jsobj :=
  [("email", JStr "Carol@Example.COM"); ("password", JStr "correct horse");
   ("full_name", JStr " Carol Diaz "); ("role", JStr "admin");
   ("password_hash", JStr "ignored")].


(** A project body as the editor sends it; the user_id it names is Bob's. *)
Definition draft_id : string := "a8888888-8888-4888-8888-888888888888".

Definition draft_project : jsobj :=
  [("title", JStr "Weather Station");
   ("slug", JStr "weather-station");
   ("featured_image", JStr "https://picsum.photos/seed/weather/1200/800");
   ("category", JStr "Hardware");
   ("excerpt", JStr "A solar powered weather station.");
   ("content", JStr "The station samples temperature, pressure and humidity every minute and publishes the readings over LoRa to a small gateway.");
   ("project_date", JStr "2024-04-01");
   ("user_id", JStr bob_id)].


(** A validated user query: two rows a page, by name. *)
Definition by_name : jsobj :=
  [("role", JUndefined); ("search", JUndefined); ("page", JNum 1); ("limit", JNum 2);
   ("sort_by", JStr "full_name"); ("sort_order", JStr "asc")].


Section Server.

Set Default Proof Using "Type".

(** [new Date(v)] as zod's coercion sees it: the text of a valid date. *)
Variable coerce_date : jsval -> option string.
(** zod's [.url()] and [.uuid()] checks. *)
Variable is_url : string -> bool.
Variable is_uuid : string -> bool.
Variable JSON_stringify : jsval -> string.
(** [jwt.verify(token, secret)]: the decoded payload, or the error thrown
    on a malformed, wrongly signed or expired token. *)
Variable jwt_verify : string -> string -> jsval + jsval.
Variable JWT_SECRET : string.
(** The error the driver throws for a violated constraint. *)
Variable pg_error : string -> jsval.
(** [jwt.sign(payload, secret, { expiresIn })].  The text of a token also
    depends on the time of the call (its iat and exp claims), which the
    embedding leaves out: no statement compares the tokens of two calls. *)
Variable jwt_sign : jsval -> string -> string -> string.
(** zod's [.email()] check. *)
Variable is_email : string -> bool.
(** The TypeError of the runtime for a method call on a value that has no
    such method, by its message. *)
Variable type_error : string -> jsval.
(** The error the driver throws for a column the table does not have. *)
Variable pg_undefined_column : string -> jsval.
(** The error the driver throws for a bound value the store refuses. *)
Variable pg_refusal : jsval -> jsval.
(** [JSON.parse], which the driver applies to a JSONB column it returns. *)
Variable JSON_parse : string -> jsval.

(** Drops from a goal the library functions it does not mention. *)
Ltac only_used :=
  try clear JSON_parse; try clear pg_refusal;
  try clear pg_undefined_column; try clear type_error; try clear is_email;
  try clear jwt_sign;
  try clear pg_error; try clear JWT_SECRET; try clear jwt_verify;
  try clear JSON_stringify; try clear is_uuid; try clear is_url;
  try clear coerce_date.

Ltac same_text :=
  match goal with
  | H : _ :: _ = _ :: _ |- _ => injection H as ?; same_text
  | H : [] = [] |- _ => clear H; same_text
  | _ => idtac
  end.

Ltac solve_nodup :=
  repeat (constructor; [simpl; intuition discriminate|]); constructor.

Ltac status_not_403 :=
  repeat match goal with
         | |- context [match ?x with _ => _ end] => destruct x
         end; simpl; discriminate.

Definition z_coerce_date : schema :=
  fun v => match coerce_date v with Some iso => Some (JDate iso) | None => None end.
Definition z_url : schema := z_refine (str_test is_url) z_string.
Definition z_uuid : schema := z_refine (str_test is_uuid) z_string.

(** *** GET /api/contact (handler behind authenticateToken and requireRole) *)

Definition contactMessageQueryShape : list (string * schema) :=
  [("search", z_optional z_string);
   ("read", z_optional z_boolean);
   ("start_date", z_optional z_coerce_date);
   ("end_date", z_optional z_coerce_date);
   ("page", z_page);
   ("limit", z_limit 10);
   ("sort_by", z_default (JStr "created_at") (z_enum contact_sort_fields));
   ("sort_order", z_default (JStr "desc") (z_enum sort_orders))].

Definition contactMessageQuerySchema : jsobj -> list string + jsobj := z_object contactMessageQueryShape.

(** The four [if] blocks of the item query. *)
Definition contact_filters (q : jsobj) (b : builder) : builder :=
  let b := when (truthy (get q "search"))
             (and_clause (CIlike ["name"; "email"; "message"])
                (contains_pattern (js_to_string (get q "search")))) b in
  let b := when (defined (get q "read"))
             (and_clause (CCmp "read" OpEq) (get q "read")) b in
  let b := when (truthy (get q "start_date"))
             (and_clause (CCmp "created_at" OpGe) (get q "start_date")) b in
  let b := when (truthy (get q "end_date"))
             (and_clause (CCmp "created_at" OpLe) (get q "end_date")) b in
  b.

(** The two [if] blocks of the count query. *)
Definition contact_count_filters (q : jsobj) (b : builder) : builder :=
  let b := when (truthy (get q "search"))
             (and_clause (CIlike ["name"; "email"; "message"])
                (contains_pattern (js_to_string (get q "search")))) b in
  let b := when (defined (get q "read"))
             (and_clause (CCmp "read" OpEq) (get q "read")) b in
  b.

Definition contact_item_query (q : jsobj) : select :=
  paged_query (contact_filters q (start "SELECT * FROM contact_messages WHERE 1=1"))
    FromContactMessages (js_to_string (get q "sort_by")) q.

Definition contact_count_query (q : jsobj) : select :=
  count_select
    (contact_count_filters q (start "SELECT COUNT(*) FROM contact_messages WHERE 1=1"))
    FromContactMessages.

Definition read_param (v : jsval) : jsval :=
  if strict_eq v (JStr "true") then JBool true
  else if strict_eq v (JStr "false") then JBool false
  else JUndefined.

Definition get_contact (now : string) (d : db) (reqQuery : jsobj)
  : response * list select :=
  match contactMessageQuerySchema
          [("search", get reqQuery "search");
           ("read", read_param (get reqQuery "read"));
           ("start_date", get reqQuery "start_date");
           ("end_date", get reqQuery "end_date");
           ("page", int_param (get reqQuery "page"));
           ("limit", int_param (get reqQuery "limit"));
           ("sort_by", get reqQuery "sort_by");
           ("sort_order", get reqQuery "sort_order")] with
  | inl issues => (validation_error now issues, [])
  | inr q =>
      page_response "contact_messages" d q (contact_item_query q) (contact_count_query q)
  end.

(** *** Middleware *)

(** [authenticateToken]: a response, or the row attached as [req.user]. *)
Definition authenticateToken (now : string) (d : db) (headers : jsobj)
  : response + row :=
  let token := bearer_token headers in
  if negb (truthy token)
  then inl (error_response 401 now "Access token required" "AUTH_TOKEN_MISSING")
  else
    match jwt_verify (js_to_string token) JWT_SECRET with
    | inl error =>
        inl (mkResponse 403
               (createErrorResponse now "Invalid or expired token" error
                  "AUTH_TOKEN_INVALID"))
    | inr decoded =>
        let rows :=
          map (keep_columns ["user_id"; "email"; "full_name"; "role"; "created_at"])
              (select_where (users d) "user_id" (prop decoded "user_id")) in
        match rows with
        | [] => inl (error_response 401 now "Invalid token" "AUTH_USER_NOT_FOUND")
        | user :: _ => inr user
        end
    end.

(** [requireRole(roles)]; [user] is [req.user]. *)
Definition requireRole (roles : list string) (now : string) (user : jsval)
  : option response :=
  if negb (truthy user)
  then Some (error_response 401 now "Authentication required" "AUTH_REQUIRED")
  else if existsb (fun r => strict_eq (JStr r) (prop user "role")) roles
  then None
  else Some (error_response 403 now "Insufficient permissions" "INSUFFICIENT_PERMISSIONS").

(** *** Validated update bodies *)

Definition updateProjectInputShape : list (string * schema) :=
  [("title", z_optional (z_min_length 1 z_string));
   ("slug", z_optional (z_min_length 1 z_string));
   ("featured_image", z_optional z_url);
   ("category", z_optional (z_min_length 1 z_string));
   ("excerpt", z_optional (z_min_length 10 z_string));
   ("content", z_optional (z_min_length 100 z_string));
   ("client", z_optional (z_optional z_string));
   ("technologies", z_optional (z_optional (z_array z_string)));
   ("project_url", z_optional (z_or (z_optional z_url) (z_literal "")));
   ("project_date", z_optional z_coerce_date);
   ("user_id", z_uuid);
   ("project_id", z_uuid)].

Definition updateProjectInputSchema : jsobj -> list string + jsobj := z_object updateProjectInputShape.

Definition updateProjectGalleryImageInputShape : list (string * schema) :=
  [("image_id", z_min_length 1 z_string);
   ("caption", z_nullable (z_optional z_string));
   ("sort_order", z_optional (z_nonnegative z_int))].

Definition updateProjectGalleryImageInputSchema : jsobj -> list string + jsobj := z_object updateProjectGalleryImageInputShape.

Definition updateExperienceInputShape : list (string * schema) :=
  [("experience_id", z_min_length 1 z_string);
   ("title", z_optional (z_min_length 1 z_string));
   ("company", z_optional (z_min_length 1 z_string));
   ("description", z_optional (z_min_length 10 z_string));
   ("start_date", z_optional z_coerce_date);
   ("end_date", z_nullable (z_optional z_coerce_date));
   ("current", z_optional z_boolean);
   ("location", z_nullable (z_optional z_string))].

Definition updateExperienceInputSchema : jsobj -> list string + jsobj := z_object updateExperienceInputShape.

Definition updateContactMessageInputShape : list (string * schema) :=
  [("message_id", z_min_length 1 z_string);
   ("read", z_optional z_boolean)].

Definition updateContactMessageInputSchema : jsobj -> list string + jsobj := z_object updateContactMessageInputShape.

(** The [Object.entries(validatedInput).forEach] loop of the update
    handlers: every defined value whose key is not in [skip] becomes one
    [key = $n] fragment; the project handler binds [technologies] as JSON
    text. *)
Definition update_step (skip stringify : list string) (u : update_builder)
    (entry : string * jsval) : update_builder :=
  let '(key, value) := entry in
  if defined value && negb (existsb (String.eqb key) skip)
  then if existsb (String.eqb key) stringify
       then push_field key (JStr (JSON_stringify value)) u
       else push_field key value u
  else u.

Definition update_loop (skip stringify : list string) (validatedInput : jsobj)
  : update_builder :=
  fold_left (update_step skip stringify) validatedInput update_start.

(** [pool.query(query, values)] for an UPDATE ... RETURNING *: the error
    thrown, or the new table and the returned rows. *)
Definition exec_update (sch : table_schema) (tbl : list row) (u : update_builder)
    (vals : list jsval) (key : string) : jsval + (list row * list row) :=
  let v := param vals (u_paramIndex u) in
  let sets := bound_sets u vals in
  let tbl' := update_rows tbl sets key v in
  match violation sch tbl' with
  | Some c => inl (pg_error c)
  | None => inr (tbl', map (fun r => assign r sets) (select_where tbl key v))
  end.

Definition exec_insert (sch : table_schema) (tbl : list row) (r : row)
  : jsval + list row :=
  let tbl' := tbl ++ [map (fun kv => (fst kv, bind (snd kv))) r] in
  match violation sch tbl' with
  | Some c => inl (pg_error c)
  | None => inr tbl'
  end.

Definition with_projects (d : db) (t : list row) : db :=
  mkDb (users d) t (project_gallery_images d) (skills d) (experiences d)
       (contact_messages d) (resumes d).
Definition with_gallery (d : db) (t : list row) : db :=
  mkDb (users d) (projects d) t (skills d) (experiences d)
       (contact_messages d) (resumes d).
Definition with_experiences (d : db) (t : list row) : db :=
  mkDb (users d) (projects d) (project_gallery_images d) (skills d) t
       (contact_messages d) (resumes d).
Definition with_contact (d : db) (t : list row) : db :=
  mkDb (users d) (projects d) (project_gallery_images d) (skills d)
       (experiences d) t (resumes d).
Definition with_resumes (d : db) (t : list row) : db :=
  mkDb (users d) (projects d) (project_gallery_images d) (skills d)
       (experiences d) (contact_messages d) t.

Definition ok_entity (message key : string) (rows : list row) : response :=
  mkResponse 200
    [("message", JStr message);
     (key, match rows with r :: _ => JObj r | [] => JUndefined end)].

Definition ok_message (message : string) : response :=
  mkResponse 200 [("message", JStr message)].

(** *** PUT /api/projects/:project_id (handler behind authenticateToken) *)
Definition put_project (now : string) (d : db) (user : row) (project_id : string)
    (reqBody : jsobj) : response * db :=
  match select_where (projects d) "project_id" (JStr project_id) with
  | [] => (error_response 404 now "Project not found" "PROJECT_NOT_FOUND", d)
  | existing :: _ =>
      if not_allowed existing user
      then (error_response 403 now "You can only update your own projects"
              "INSUFFICIENT_PERMISSIONS", d)
      else
        match updateProjectInputSchema
                (spread reqBody [("project_id", JStr project_id);
                                 ("user_id", get user "user_id")]) with
        | inl issues => (validation_error now issues, d)
        | inr validatedInput =>
            let u := update_loop ["project_id"; "user_id"] ["technologies"]
                       validatedInput in
            let u := push_field "updated_at" (JStr now) u in
            let vals := u_values u ++ [JStr project_id] in
            match exec_update projects_schema (projects d) u vals "project_id" with
            | inl error => (internal_error now error, d)
            | inr (tbl, rows) =>
                (ok_entity "Project updated successfully" "project" rows,
                 with_projects d tbl)
            end
        end
  end.

(** *** DELETE /api/projects/:project_id; gallery images go with their
    project (ON DELETE CASCADE). *)
Definition delete_project (now : string) (d : db) (user : row) (project_id : string)
  : response * db :=
  match select_where (projects d) "project_id" (JStr project_id) with
  | [] => (error_response 404 now "Project not found" "PROJECT_NOT_FOUND", d)
  | existing :: _ =>
      if not_allowed existing user
      then (error_response 403 now "You can only delete your own projects"
              "INSUFFICIENT_PERMISSIONS", d)
      else
        (ok_message "Project deleted successfully",
         with_gallery
           (with_projects d (delete_where (projects d) "project_id" (JStr project_id)))
           (delete_where (project_gallery_images d) "project_id" (JStr project_id)))
  end.

(** [SELECT pgi.*, p.user_id FROM project_gallery_images pgi JOIN projects p
    ON pgi.project_id = p.project_id WHERE pgi.image_id = $1]. *)
Definition image_with_owner (d : db) (image_id : string) : list row :=
  flat_map (fun pgi =>
    map (fun p => pgi ++ [("user_id", get p "user_id")])
        (filter (fun p => sql_eq (get pgi "project_id") (get p "project_id"))
                (projects d)))
    (select_where (project_gallery_images d) "image_id" (JStr image_id)).

(** *** PUT /api/gallery-images/:image_id *)
Definition put_gallery_image (now : string) (d : db) (user : row) (image_id : string)
    (reqBody : jsobj) : response * db :=
  match image_with_owner d image_id with
  | [] => (error_response 404 now "Gallery image not found" "IMAGE_NOT_FOUND", d)
  | existing :: _ =>
      if not_allowed existing user
      then (error_response 403 now "You can only modify your own projects"
              "INSUFFICIENT_PERMISSIONS", d)
      else
        match updateProjectGalleryImageInputSchema
                (spread reqBody [("image_id", JStr image_id)]) with
        | inl issues => (validation_error now issues, d)
        | inr validatedInput =>
            let u := update_loop ["image_id"] [] validatedInput in
            match updateFields u with
            | [] => (error_response 400 now "No fields to update" "NO_UPDATE_FIELDS", d)
            | _ =>
                let vals := u_values u ++ [JStr image_id] in
                match exec_update gallery_schema (project_gallery_images d) u vals
                        "image_id" with
                | inl error => (internal_error now error, d)
                | inr (tbl, rows) =>
                    (ok_entity "Gallery image updated successfully" "gallery_image" rows,
                     with_gallery d tbl)
                end
            end
        end
  end.

(** *** DELETE /api/gallery-images/:image_id *)
Definition delete_gallery_image (now : string) (d : db) (user : row)
    (image_id : string) : response * db :=
  match image_with_owner d image_id with
  | [] => (error_response 404 now "Gallery image not found" "IMAGE_NOT_FOUND", d)
  | existing :: _ =>
      if not_allowed existing user
      then (error_response 403 now "You can only modify your own projects"
              "INSUFFICIENT_PERMISSIONS", d)
      else
        (ok_message "Gallery image deleted successfully",
         with_gallery d
           (delete_where (project_gallery_images d) "image_id" (JStr image_id)))
  end.

(** *** PUT /api/experiences/:experience_id *)
Definition put_experience (now : string) (d : db) (user : row)
    (experience_id : string) (reqBody : jsobj) : response * db :=
  match select_where (experiences d) "experience_id" (JStr experience_id) with
  | [] => (error_response 404 now "Experience not found" "EXPERIENCE_NOT_FOUND", d)
  | existing :: _ =>
      if not_allowed existing user
      then (error_response 403 now "You can only update your own experiences"
              "INSUFFICIENT_PERMISSIONS", d)
      else
        match updateExperienceInputSchema
                (spread reqBody [("experience_id", JStr experience_id)]) with
        | inl issues => (validation_error now issues, d)
        | inr validatedInput =>
            let u := update_loop ["experience_id"] [] validatedInput in
            match updateFields u with
            | [] => (error_response 400 now "No fields to update" "NO_UPDATE_FIELDS", d)
            | _ =>
                let vals := u_values u ++ [JStr experience_id] in
                match exec_update experiences_schema (experiences d) u vals
                        "experience_id" with
                | inl error => (internal_error now error, d)
                | inr (tbl, rows) =>
                    (ok_entity "Experience updated successfully" "experience" rows,
                     with_experiences d tbl)
                end
            end
        end
  end.

(** *** DELETE /api/experiences/:experience_id *)
Definition delete_experience (now : string) (d : db) (user : row)
    (experience_id : string) : response * db :=
  match select_where (experiences d) "experience_id" (JStr experience_id) with
  | [] => (error_response 404 now "Experience not found" "EXPERIENCE_NOT_FOUND", d)
  | existing :: _ =>
      if not_allowed existing user
      then (error_response 403 now "You can only delete your own experiences"
              "INSUFFICIENT_PERMISSIONS", d)
      else
        (ok_message "Experience deleted successfully",
         with_experiences d
           (delete_where (experiences d) "experience_id" (JStr experience_id)))
  end.

(** *** PUT /api/contact/:message_id (handler behind authenticateToken and
    requireRole(['admin'])) *)
Definition put_contact (now : string) (d : db) (message_id : string)
    (reqBody : jsobj) : response * db :=
  match updateContactMessageInputSchema
          (spread reqBody [("message_id", JStr message_id)]) with
  | inl issues => (validation_error now issues, d)
  | inr validatedInput =>
      let u := push_field "read" (get validatedInput "read") update_start in
      let vals := u_values u ++ [JStr message_id] in
      match exec_update contact_schema (contact_messages d) u vals "message_id" with
      | inl error => (internal_error now error, d)
      | inr (tbl, []) =>
          (error_response 404 now "Contact message not found" "MESSAGE_NOT_FOUND",
           with_contact d tbl)
      | inr (tbl, rows) =>
          (ok_entity "Contact message updated successfully" "contact_message" rows,
           with_contact d tbl)
      end
  end.

(** *** Routes

    A route is its middleware chain, then the handler inside its [try].
    The handlers above are what the [try] block does once the store has
    taken the statements; a statement the store refuses makes the driver
    throw, and the handler's [catch] answers 500 with the thrown error. *)

(** A list handler: its answer when the store takes every statement, 500
    after the first statement the store refuses. *)
Definition caught (now : string) (res : response * list select)
  : response * list select :=
  match issue (snd res) with
  | (issued, Some v) => (internal_error now (pg_refusal v), issued)
  | (_, None) => res
  end.

(** A handler whose first statement binds the path parameter [id]. *)
Definition binding_id (now : string) (d : db) (id : string) (res : response * db)
  : response * db :=
  if valid_text (JStr id) then res
  else (internal_error now (pg_refusal (JStr id)), d).

(** The middleware chain, then the handler. *)
Definition authenticated (now : string) (d : db) (headers : jsobj)
    (handler : row -> response * db) : response * db :=
  match authenticateToken now d headers with
  | inl r => (r, d)
  | inr user => handler user
  end.

Definition admin_only (now : string) (handler : row -> response * db) (d : db)
    (user : row) : response * db :=
  match requireRole ["admin"] now (JObj user) with
  | Some r => (r, d)
  | None => handler user
  end.

(** PUT /api/contact/:message_id: the UPDATE is the handler's one
    statement, issued once the body has parsed. *)
Definition route_put_contact (now : string) (d : db) (headers : jsobj)
    (message_id : string) (reqBody : jsobj) : response * db :=
  authenticated now d headers
    (admin_only now
       (fun _ =>
          match updateContactMessageInputSchema
                  (spread reqBody [("message_id", JStr message_id)]) with
          | inl _ => put_contact now d message_id reqBody
          | inr _ => binding_id now d message_id (put_contact now d message_id reqBody)
          end) d).

(** *** POST /api/resumes (handler behind authenticateToken and the upload
    middleware); [resumeId] is [uuidv4()], [file] is [req.file]. *)
Definition resumes_handler (sch : table_schema) (now resumeId : string) (d : db)
    (user : row) (file : jsval) (reqBody : jsobj) : response * db :=
  if negb (truthy file)
  then (error_response 400 now "No file uploaded" "NO_FILE_UPLOADED", d)
  else
    let isPrimary := negb (strict_eq (get reqBody "primary_resume") (JStr "false")) in
    let d1 :=
      if isPrimary
      then with_resumes d
             (update_rows (resumes d) demote "user_id" (get user "user_id"))
      else d in
    let fileUrl := "/storage/resumes/" ^ js_to_string (prop file "filename") in
    match exec_insert sch (resumes d1)
            [("resume_id", JStr resumeId);
             ("user_id", get user "user_id");
             ("file_url", JStr fileUrl);
             ("file_name", prop file "originalname");
             ("file_size", prop file "size");
             ("uploaded_at", JStr now);
             ("primary_resume", JBool isPrimary)] with
    | inl error => (internal_error now error, d1)
    | inr tbl =>
        (mkResponse 201
           [("message", JStr "Resume uploaded successfully");
            ("resume", match rev tbl with r :: _ => JObj r | [] => JUndefined end)],
         with_resumes d1 tbl)
    end.

Definition post_resumes : string -> string -> db -> row -> jsval -> jsobj -> response * db :=
  resumes_handler resumes_schema.

(** *** Accounts: POST /api/auth/register, POST /api/auth/login *)

Definition z_email : schema := z_refine (str_test is_email) z_string.
Definition z_any : schema := fun v => Some v.

Definition createUserInputShape : list (string * schema) :=
  [("email", z_min_length 1 z_email);
   ("password", z_min_length 8 z_string);
   ("full_name", z_min_length 1 z_string);
   ("profile_pic", z_optional z_any);
   ("bio", z_optional z_string);
   ("role", z_optional (z_enum ["user"; "admin"]))].

Definition createUserInputSchema : jsobj -> list string + jsobj := z_object createUserInputShape.

Definition updateUserInputShape : list (string * schema) :=
  [("email", z_optional z_email);
   ("full_name", z_optional (z_min_length 1 z_string));
   ("profile_pic", z_optional z_any);
   ("bio", z_optional (z_nullable z_string));
   ("role", z_optional (z_enum ["user"; "admin"]))].

Definition updateUserInputSchema : jsobj -> list string + jsobj := z_object updateUserInputShape.

Definition with_users (d : db) (t : list row) : db :=
  mkDb t (projects d) (project_gallery_images d) (skills d) (experiences d)
       (contact_messages d) (resumes d).
Definition with_skills (d : db) (t : list row) : db :=
  mkDb (users d) (projects d) (project_gallery_images d) t (experiences d)
       (contact_messages d) (resumes d).

(** [jwt.sign({ user_id, email, role }, JWT_SECRET, { expiresIn: '7d' })]. *)
Definition token_for (user : row) : string :=
  jwt_sign (JObj [("user_id", get user "user_id"); ("email", get user "email");
                  ("role", get user "role")]) JWT_SECRET "7d".

(** The body register and login answer with. *)
Definition session_body (message : string) (user : row) : jsobj :=
  [("message", JStr message);
   ("user", JObj [("user_id", get user "user_id"); ("email", get user "email");
                  ("full_name", get user "full_name"); ("bio", get user "bio");
                  ("role", get user "role"); ("created_at", get user "created_at")]);
   ("token", JStr (token_for user))].

(** [userId] is [uuidv4()]. *)
Definition post_register (now userId : string) (d : db) (reqBody : jsobj)
  : response * db :=
  match createUserInputSchema reqBody with
  | inl issues => (validation_error now issues, d)
  | inr validatedInput =>
      let account := new_account now userId validatedInput in
      match select_where (users d) "email" (get account "email") with
      | _ :: _ =>
          (error_response 400 now "User with this email already exists"
             "USER_ALREADY_EXISTS", d)
      | [] =>
          match exec_insert users_schema (users d) account with
          | inl error => (internal_error now error, d)
          | inr tbl =>
              (mkResponse 201 (session_body "User created successfully" (inserted tbl)),
               with_users d tbl)
          end
      end
  end.

Definition post_login (now : string) (d : db) (reqBody : jsobj) : response * db :=
  let email := get reqBody "email" in
  let password := get reqBody "password" in
  if negb (truthy email) || negb (truthy password)
  then (error_response 400 now "Email and password are required"
          "MISSING_REQUIRED_FIELDS", d)
  else
    match email with
    | JStr e =>
        match select_where (users d) "email" (JStr (trim (toLowerCase e))) with
        | [] =>
            (error_response 400 now "Invalid email or password" "INVALID_CREDENTIALS", d)
        | user :: _ =>
            if negb (strict_eq password (get user "password_hash"))
            then (error_response 400 now "Invalid email or password"
                    "INVALID_CREDENTIALS", d)
            else
              (mkResponse 200 (session_body "Login successful" user),
               with_users d
                 (update_rows (users d) [("last_login", JStr now)] "user_id"
                    (get user "user_id")))
        end
    | _ => (internal_error now (type_error "email.toLowerCase is not a function"), d)
    end.

(** *** GET /api/auth/verify, GET /api/auth/me, GET /api/users/:user_id
    (the first two behind authenticateToken) *)

Definition get_verify (user : row) : response :=
  mkResponse 200
    [("message", JStr "Token is valid");
     ("user", JObj [("user_id", get user "user_id"); ("email", get user "email");
                    ("full_name", get user "full_name"); ("role", get user "role");
                    ("created_at", get user "created_at")])].

Definition user_by_id (cols : list string) (now : string) (d : db) (user_id : jsval)
  : response :=
  match map (keep_columns cols) (select_where (users d) "user_id" user_id) with
  | [] => error_response 404 now "User not found" "USER_NOT_FOUND"
  | r :: _ => mkResponse 200 [("user", JObj r)]
  end.

Definition get_me (now : string) (d : db) (user : row) : response :=
  user_by_id ["user_id"; "email"; "full_name"; "profile_pic_url"; "bio"; "role";
              "created_at"; "last_login"] now d (get user "user_id").

Definition get_user (now : string) (d : db) (user_id : string) : response :=
  user_by_id ["user_id"; "email"; "full_name"; "profile_pic_url"; "bio"; "role";
              "created_at"] now d (JStr user_id).

(** *** PUT /api/auth/profile (handler behind authenticateToken) *)

(** An UPDATE whose SET clause names a column the table lacks is refused
    before any row is looked at. *)
Definition exec_update_on (columns : list string) (sch : table_schema)
    (tbl : list row) (u : update_builder) (vals : list jsval) (key : string)
  : jsval + (list row * list row) :=
  match find (fun s => negb (existsb (String.eqb (fst s)) columns)) (u_sets u) with
  | Some s => inl (pg_undefined_column (fst s))
  | None => exec_update sch tbl u vals key
  end.

Definition put_profile (now : string) (d : db) (user : row) (reqBody : jsobj)
  : response * db :=
  match updateUserInputSchema reqBody with
  | inl issues => (validation_error now issues, d)
  | inr validatedInput =>
      let u := update_loop [] [] validatedInput in
      match updateFields u with
      | [] => (error_response 400 now "No fields to update" "NO_UPDATE_FIELDS", d)
      | _ =>
          let vals := u_values u ++ [get user "user_id"] in
          match exec_update_on users_columns users_schema (users d) u vals "user_id" with
          | inl error => (internal_error now error, d)
          | inr (tbl, rows) =>
              (ok_entity "Profile updated successfully" "user"
                 (map (keep_columns ["user_id"; "email"; "full_name"; "profile_pic_url";
                                     "bio"; "role"; "created_at"]) rows),
               with_users d tbl)
          end
      end
  end.

(** *** GET /api/projects/:project_id *)

(** A row of [projects] as the driver returns it: the JSONB column
    [technologies], stored as JSON text, comes back parsed. *)
Definition project_returned (r : row) : row :=
  match get r "technologies" with
  | JStr text => set r "technologies" (JSON_parse text)
  | _ => r
  end.

Definition get_project (now : string) (d : db) (project_id : string) : response :=
  if negb (valid_text (JStr project_id))
  then internal_error now (pg_refusal (JStr project_id))
  else
    match select_where (projects_join_users d) "project_id" (JStr project_id) with
    | [] => error_response 404 now "Project not found" "PROJECT_NOT_FOUND"
    | project :: _ =>
        mkResponse 200
          [("project",
            JObj (set (project_returned project) "gallery_images"
                    (JArr (map JObj (exec_select d (gallery_of_project project_id))))))]
    end.

(** *** POST /api/projects (handler behind authenticateToken); [projectId]
    is [uuidv4()]. *)

Definition createProjectInputShape : list (string * schema) :=
  [("title", z_min_length 1 z_string);
   ("slug", z_min_length 1 z_string);
   ("featured_image", z_url);
   ("category", z_min_length 1 z_string);
   ("excerpt", z_min_length 10 z_string);
   ("content", z_min_length 100 z_string);
   ("client", z_optional z_string);
   ("technologies", z_optional (z_array z_string));
   ("project_url", z_or (z_optional z_url) (z_literal ""));
   ("project_date", z_coerce_date);
   ("user_id", z_uuid)].

Definition createProjectInputSchema : jsobj -> list string + jsobj := z_object createProjectInputShape.

(** The VALUES of the INSERT. *)
Definition new_project (now projectId : string) (validatedInput : jsobj) : row :=
  [("project_id", JStr projectId);
   ("title", get validatedInput "title");
   ("slug", get validatedInput "slug");
   ("featured_image", get validatedInput "featured_image");
   ("category", get validatedInput "category");
   ("excerpt", get validatedInput "excerpt");
   ("content", get validatedInput "content");
   ("client", or_null (get validatedInput "client"));
   ("technologies",
    JStr (JSON_stringify (if truthy (get validatedInput "technologies")
                          then get validatedInput "technologies" else JArr [])));
   ("project_url", or_null (get validatedInput "project_url"));
   ("project_date", get validatedInput "project_date");
   ("created_at", JStr now);
   ("updated_at", JStr now);
   ("user_id", get validatedInput "user_id")].

Definition post_project (now projectId : string) (d : db) (user : row)
    (reqBody : jsobj) : response * db :=
  match createProjectInputSchema (spread reqBody [("user_id", get user "user_id")]) with
  | inl issues => (validation_error now issues, d)
  | inr validatedInput =>
      match select_where (projects d) "slug" (get validatedInput "slug") with
      | _ :: _ =>
          (error_response 400 now "Project with this slug already exists" "SLUG_EXISTS", d)
      | [] =>
          match exec_insert projects_schema (projects d)
                  (new_project now projectId validatedInput) with
          | inl error => (internal_error now error, d)
          | inr tbl =>
              (mkResponse 201
                 [("message", JStr "Project created successfully");
                  ("project", JObj (inserted tbl))],
               with_projects d tbl)
          end
      end
  end.

(** *** POST /api/projects/:project_id/gallery (handler behind
    authenticateToken); [imageId] is [uuidv4()]. *)

Definition createProjectGalleryImageInputShape : list (string * schema) :=
  [("project_id", z_min_length 1 z_string);
   ("image_url", z_url);
   ("caption", z_nullable (z_optional z_string));
   ("sort_order", z_default (JNum 0) (z_nonnegative z_int))].

Definition createProjectGalleryImageInputSchema : jsobj -> list string + jsobj := z_object createProjectGalleryImageInputShape.

Definition post_gallery_image (now imageId : string) (d : db) (user : row)
    (project_id : string) (reqBody : jsobj) : response * db :=
  match select_where (projects d) "project_id" (JStr project_id) with
  | [] => (error_response 404 now "Project not found" "PROJECT_NOT_FOUND", d)
  | existing :: _ =>
      if not_allowed existing user
      then (error_response 403 now "You can only modify your own projects"
              "INSUFFICIENT_PERMISSIONS", d)
      else
        match createProjectGalleryImageInputSchema
                (spread reqBody [("project_id", JStr project_id)]) with
        | inl issues => (validation_error now issues, d)
        | inr validatedInput =>
            match exec_insert gallery_schema (project_gallery_images d)
                    [("image_id", JStr imageId);
                     ("project_id", JStr project_id);
                     ("image_url", get validatedInput "image_url");
                     ("caption", or_null (get validatedInput "caption"));
                     ("sort_order", get validatedInput "sort_order")] with
            | inl error => (internal_error now error, d)
            | inr tbl =>
                (mkResponse 201
                   [("message", JStr "Gallery image added successfully");
                    ("gallery_image", JObj (inserted tbl))],
                 with_gallery d tbl)
            end
        end
  end.

(** *** POST /api/contact; [messageId] is [uuidv4()]. *)

Definition createContactMessageInputShape : list (string * schema) :=
  [("name", z_min_length 1 z_string);
   ("email", z_email);
   ("subject", z_nullable (z_optional z_string));
   ("message", z_min_length 10 z_string)].

Definition createContactMessageInputSchema : jsobj -> list string + jsobj := z_object createContactMessageInputShape.

Definition new_message (now messageId : string) (validatedInput : jsobj) : row :=
  [("message_id", JStr messageId);
   ("name", get validatedInput "name");
   ("email", get validatedInput "email");
   ("subject", or_null (get validatedInput "subject"));
   ("message", get validatedInput "message");
   ("created_at", JStr now);
   ("read", JBool false)].

Definition post_contact (now messageId : string) (d : db) (reqBody : jsobj)
  : response * db :=
  match createContactMessageInputSchema reqBody with
  | inl issues => (validation_error now issues, d)
  | inr validatedInput =>
      match exec_insert contact_schema (contact_messages d)
              (new_message now messageId validatedInput) with
      | inl error => (internal_error now error, d)
      | inr tbl =>
          (mkResponse 201
             [("message", JStr "Contact message sent successfully");
              ("contact_message", JObj (inserted tbl))],
           with_contact d tbl)
      end
  end.

(** *** POST /api/skills (handler behind authenticateToken and
    requireRole(['admin'])); [skillId] is [uuidv4()]. *)

Definition createSkillInputShape : list (string * schema) :=
  [("name", z_min_length 1 z_string);
   ("category", z_nullable (z_optional z_string));
   ("proficiency", z_nullable (z_optional (z_max 100 (z_min 0 z_int))))].

Definition createSkillInputSchema : jsobj -> list string + jsobj := z_object createSkillInputShape.

Definition post_skill (now skillId : string) (d : db) (reqBody : jsobj)
  : response * db :=
  match createSkillInputSchema reqBody with
  | inl issues => (validation_error now issues, d)
  | inr validatedInput =>
      match select_where (skills d) "name" (get validatedInput "name") with
      | _ :: _ =>
          (error_response 400 now "Skill with this name already exists" "SKILL_EXISTS", d)
      | [] =>
          match exec_insert skills_schema (skills d)
                  [("skill_id", JStr skillId);
                   ("name", get validatedInput "name");
                   ("category", or_null (get validatedInput "category"));
                   ("proficiency", or_null (get validatedInput "proficiency"))] with
          | inl error => (internal_error now error, d)
          | inr tbl =>
              (mkResponse 201
                 [("message", JStr "Skill created successfully");
                  ("skill", JObj (inserted tbl))],
               with_skills d tbl)
          end
      end
  end.

Definition route_post_skill (now skillId : string) (d : db) (headers : jsobj)
    (reqBody : jsobj) : response * db :=
  authenticated now d headers
    (admin_only now (fun _ => post_skill now skillId d reqBody) d).

(** *** POST /api/experiences (handler behind authenticateToken);
    [experienceId] is [uuidv4()]. *)

Definition createExperienceInputShape : list (string * schema) :=
  [("user_id", z_min_length 1 z_string);
   ("title", z_min_length 1 z_string);
   ("company", z_min_length 1 z_string);
   ("description", z_min_length 10 z_string);
   ("start_date", z_coerce_date);
   ("end_date", z_nullable (z_optional z_coerce_date));
   ("current", z_default (JBool false) z_boolean);
   ("location", z_nullable (z_optional z_string))].

Definition createExperienceInputSchema : jsobj -> list string + jsobj := z_object createExperienceInputShape.

Definition post_experience (now experienceId : string) (d : db) (user : row)
    (reqBody : jsobj) : response * db :=
  match createExperienceInputSchema (spread reqBody [("user_id", get user "user_id")]) with
  | inl issues => (validation_error now issues, d)
  | inr validatedInput =>
      match exec_insert experiences_schema (experiences d)
              [("experience_id", JStr experienceId);
               ("user_id", get validatedInput "user_id");
               ("title", get validatedInput "title");
               ("company", get validatedInput "company");
               ("description", get validatedInput "description");
               ("start_date", get validatedInput "start_date");
               ("end_date", or_null (get validatedInput "end_date"));
               ("current", get validatedInput "current");
               ("location", or_null (get validatedInput "location"))] with
      | inl error => (internal_error now error, d)
      | inr tbl =>
          (mkResponse 201
             [("message", JStr "Experience created successfully");
              ("experience", JObj (inserted tbl))],
           with_experiences d tbl)
      end
  end.

(** *** GET /api/users/:user_id/resume *)

(** A row of [resumes] as the driver returns it: the BIGINT column
    [file_size] comes back as text. *)
Definition resume_returned (r : row) : row :=
  match get r "file_size" with
  | JNum n => set r "file_size" (JStr (Z_to_string n))
  | _ => r
  end.

Definition get_user_resume (now : string) (d : db) (user_id : string) : response :=
  if negb (valid_text (JStr user_id))
  then internal_error now (pg_refusal (JStr user_id))
  else
    match filter (fun r => sql_eq (get r "user_id") (JStr user_id)
                           && sql_eq (get r "primary_resume") (JBool true))
                 (resumes d) with
    | [] => error_response 404 now "Resume not found" "RESUME_NOT_FOUND"
    | r :: _ => mkResponse 200 [("resume", JObj (resume_returned r))]
    end.

(** What the loop of an update handler binds, entry by entry: the defined
    values of the validated body outside the skipped keys, as JSON text for
    the keys in [stringify]. *)
Definition loop_sets (skip stringify : list string) (validatedInput : jsobj)
  : list (string * jsval) :=
  flat_map (fun entry =>
              if defined (snd entry) && negb (existsb (String.eqb (fst entry)) skip)
              then [(fst entry,
                     if existsb (String.eqb (fst entry)) stringify
                     then JStr (JSON_stringify (snd entry)) else snd entry)]
              else [])
           validatedInput.


(** *** The routes of the lists *)

Definition route_get_projects (now : string) (d : db) (reqQuery : jsobj)
  : response * list select :=
  caught now (get_projects now d reqQuery).

Definition route_get_skills (now : string) (d : db) (reqQuery : jsobj)
  : response * list select :=
  caught now (get_skills now d reqQuery).

Definition route_get_user_experiences (now : string) (d : db) (user_id : string)
    (reqQuery : jsobj) : response * list select :=
  caught now (get_user_experiences d user_id reqQuery).

Definition route_get_project_gallery (now : string) (d : db) (project_id : string)
    (reqQuery : jsobj) : response * list select :=
  caught now (get_project_gallery d project_id reqQuery).

(** authenticateToken and requireRole(['admin']) in front of a list
    handler: a request they refuse never reaches it. *)
Definition admin_list (now : string) (d : db) (headers : jsobj)
    (handler : response * list select) : response * list select :=
  match authenticateToken now d headers with
  | inl r => (r, [])
  | inr user =>
      match requireRole ["admin"] now (JObj user) with
      | Some r => (r, [])
      | None => caught now handler
      end
  end.

Definition route_get_contact (now : string) (d : db) (headers reqQuery : jsobj)
  : response * list select :=
  admin_list now d headers (get_contact now d reqQuery).

Definition route_get_users (now : string) (d : db) (headers reqQuery : jsobj)
  : response * list select :=
  admin_list now d headers (get_users now d reqQuery).

(** *** The routes of the guarded updates and deletes: authenticateToken,
    then the handler, whose first statement looks the path parameter up *)

Definition route_put_project (now : string) (d : db) (headers : jsobj)
    (project_id : string) (reqBody : jsobj) : response * db :=
  authenticated now d headers
    (fun user => binding_id now d project_id
                   (put_project now d user project_id reqBody)).

Definition route_delete_project (now : string) (d : db) (headers : jsobj)
    (project_id : string) : response * db :=
  authenticated now d headers
    (fun user => binding_id now d project_id (delete_project now d user project_id)).

Definition route_put_gallery_image (now : string) (d : db) (headers : jsobj)
    (image_id : string) (reqBody : jsobj) : response * db :=
  authenticated now d headers
    (fun user => binding_id now d image_id
                   (put_gallery_image now d user image_id reqBody)).

Definition route_delete_gallery_image (now : string) (d : db) (headers : jsobj)
    (image_id : string) : response * db :=
  authenticated now d headers
    (fun user => binding_id now d image_id (delete_gallery_image now d user image_id)).

Definition route_put_experience (now : string) (d : db) (headers : jsobj)
    (experience_id : string) (reqBody : jsobj) : response * db :=
  authenticated now d headers
    (fun user => binding_id now d experience_id
                   (put_experience now d user experience_id reqBody)).

Definition route_delete_experience (now : string) (d : db) (headers : jsobj)
    (experience_id : string) : response * db :=
  authenticated now d headers
    (fun user => binding_id now d experience_id
                   (delete_experience now d user experience_id)).

(** *** GET /api/health; [failure] is what [pool.query('SELECT 1')] throws
    when the store cannot be reached.  The one route that answers an error
    without createErrorResponse. *)
Definition get_health (now : string) (failure : option jsval) : response :=
  match failure with
  | None =>
      mkResponse 200
        [("status", JStr "ok"); ("timestamp", JStr now); ("database", JStr "connected")]
  | Some error =>
      mkResponse 500
        [("status", JStr "error"); ("timestamp", JStr now);
         ("database", JStr "disconnected"); ("error", prop error "message")]
  end.

(** ** Vocabulary of the properties of routes *)

(** The errors the libraries throw in the handlers: the driver's for a
    violated constraint, an unknown column and a refused value, the
    runtime's TypeError, and what [jwt.verify] throws. *)
Inductive thrown : jsval -> Prop :=
| thrown_constraint (c : string) : thrown (pg_error c)
| thrown_column (c : string) : thrown (pg_undefined_column c)
| thrown_refusal (v : jsval) : thrown (pg_refusal v)
| thrown_type (m : string) : thrown (type_error m)
| thrown_token (token : string) (error : jsval) :
    jwt_verify token JWT_SECRET = inl error -> thrown error.

(** The error answers, by what is passed to createErrorResponse: nothing
    (the 4xx answers the handlers and the middleware decide themselves), the
    issues of a validation, an error caught by a handler, the error caught by
    authenticateToken. *)
Inductive error_answer (now : string) : response -> Prop :=
| own_refusal (st : nat) (message code : string) :
    In st [400; 401; 403; 404]%nat -> code <> "" ->
    error_answer now (error_response st now message code)
| invalid_input (issues : list string) :
    error_answer now (validation_error now issues)
| caught_error (error : jsval) :
    thrown error -> error_answer now (internal_error now error)
| refused_token (error : jsval) :
    thrown error ->
    error_answer now
      (mkResponse 403
         (createErrorResponse now "Invalid or expired token" error "AUTH_TOKEN_INVALID")).

(** The answers of the server: of the middleware, and of every route on
    every request (a handler behind authenticateToken is taken for every
    actor). *)
Inductive answer (now : string) (d : db) : response -> Prop :=
| answer_token headers r :
    authenticateToken now d headers = inl r -> answer now d r
| answer_role roles user r :
    requireRole roles now user = Some r -> answer now d r
| answer_register userId reqBody :
    answer now d (fst (post_register now userId d reqBody))
| answer_login reqBody : answer now d (fst (post_login now d reqBody))
| answer_verify user : answer now d (get_verify user)
| answer_me user : answer now d (get_me now d user)
| answer_profile user reqBody : answer now d (fst (put_profile now d user reqBody))
| answer_user user_id : answer now d (get_user now d user_id)
| answer_users headers reqQuery :
    answer now d (fst (route_get_users now d headers reqQuery))
| answer_projects reqQuery : answer now d (fst (route_get_projects now d reqQuery))
| answer_project project_id : answer now d (get_project now d project_id)
| answer_project_create projectId user reqBody :
    answer now d (fst (post_project now projectId d user reqBody))
| answer_project_update headers project_id reqBody :
    answer now d (fst (route_put_project now d headers project_id reqBody))
| answer_project_delete headers project_id :
    answer now d (fst (route_delete_project now d headers project_id))
| answer_gallery project_id reqQuery :
    answer now d (fst (route_get_project_gallery now d project_id reqQuery))
| answer_image_create imageId user project_id reqBody :
    answer now d (fst (post_gallery_image now imageId d user project_id reqBody))
| answer_image_update headers image_id reqBody :
    answer now d (fst (route_put_gallery_image now d headers image_id reqBody))
| answer_image_delete headers image_id :
    answer now d (fst (route_delete_gallery_image now d headers image_id))
| answer_contact_create messageId reqBody :
    answer now d (fst (post_contact now messageId d reqBody))
| answer_contact headers reqQuery :
    answer now d (fst (route_get_contact now d headers reqQuery))
| answer_contact_update headers message_id reqBody :
    answer now d (fst (route_put_contact now d headers message_id reqBody))
| answer_skills reqQuery : answer now d (fst (route_get_skills now d reqQuery))
| answer_skill_create skillId headers reqBody :
    answer now d (fst (route_post_skill now skillId d headers reqBody))
| answer_experiences user_id reqQuery :
    answer now d (fst (route_get_user_experiences now d user_id reqQuery))
| answer_experience_create experienceId user reqBody :
    answer now d (fst (post_experience now experienceId d user reqBody))
| answer_experience_update headers experience_id reqBody :
    answer now d (fst (route_put_experience now d headers experience_id reqBody))
| answer_experience_delete headers experience_id :
    answer now d (fst (route_delete_experience now d headers experience_id))
| answer_resume user_id : answer now d (get_user_resume now d user_id)
| answer_resume_upload resumeId user file reqBody :
    answer now d (fst (post_resumes now resumeId d user file reqBody)).

(** An answer is a success (200, or 201 for a creation) or one of the error
    answers. *)
Definition classified (now : string) (r : response) : Prop :=
  status r = 200%nat \/ status r = 201%nat \/ error_answer now r.

(** The runtime computes on doubles, which are exact on the integers up to
    2^53 - 1; the embedding computes on the integers.  The two agree on the
    offset (page - 1) * limit of a request whose page number, times the
    largest limit the schemas accept, stays within that bound. *)
Definition MAX_SAFE_INTEGER : Z := 2 ^ 53 - 1.

Definition exact_paging (reqQuery : jsobj) : Prop :=
  match int_param (get reqQuery "page") with
  | JNum page => (page * 100 <= MAX_SAFE_INTEGER)%Z
  | _ => True
  end.

(** A paged list route answers such a request 400, or 500 when the store
    refuses a text the item statement binds, or with a page: the page number
    is at least 1 (1 when the request names none), the limit is between 1 and
    100 (10 when the request names none), the items are at most [limit], and
    the item statement binds the limit and the offset (page - 1) * limit
    last. *)
Definition page_bounds (now key : string) (route : jsobj -> response * list select)
  : Prop :=
  forall reqQuery,
    exact_paging reqQuery ->
    (exists issues, route reqQuery = (validation_error now issues, []))
    \/ (exists item v,
          route reqQuery = (internal_error now (pg_refusal v), [item])
          /\ In v (sel_values item) /\ valid_text v = false)
    \/ exists page limit items total item count,
         route reqQuery
         = (mkResponse 200
              [(key, JArr items);
               ("pagination", pagination (JNum page) (JNum limit) total)],
            [item; count])
         /\ (1 <= page)%Z /\ (1 <= limit <= 100)%Z
         /\ (Z.of_nat (List.length items) <= limit)%Z
         /\ (exists bound,
               sel_values item = bound ++ [JNum limit; JNum ((page - 1) * limit)])
         /\ (truthy (get reqQuery "page") = false -> page = 1%Z)
         /\ (truthy (get reqQuery "limit") = false -> limit = 10%Z).


(** ** Basic facts about objects and the store *)

Lemma get_set_same (o : jsobj) (k : string) (v : jsval) : get (set o k v) k = v.
Proof.
  induction o as [|[k' v'] o IH]; simpl.
  - now rewrite String.eqb_refl.
  - destruct (String.eqb k' k) eqn:E; simpl; rewrite E; auto.
Qed.

Lemma get_set_other (o : jsobj) (k k' : string) (v : jsval) :
  k <> k' -> get (set o k' v) k = get o k.
Proof.
  intros Hk. induction o as [|[k0 v0] o IH]; simpl.
  - destruct (String.eqb k' k) eqn:E; auto.
    apply String.eqb_eq in E. congruence.
  - destruct (String.eqb k0 k') eqn:E; simpl.
    + apply String.eqb_eq in E; subst k0.
      destruct (String.eqb k' k) eqn:E'; auto.
      apply String.eqb_eq in E'. congruence.
    + destruct (String.eqb k0 k); auto.
Qed.

Lemma append_empty_r (s : string) : s ^ "" = s.
Proof. induction s; simpl; congruence. Qed.

Lemma strict_eq_str (v : jsval) (s : string) :
  strict_eq v (JStr s) = true <-> v = JStr s.
Proof.
  split.
  - destruct v; simpl; try discriminate. intros H.
    apply String.eqb_eq in H. now subst.
  - intros ->. simpl. apply String.eqb_refl.
Qed.

Lemma strict_eq_strs (a b : string) :
  strict_eq (JStr a) (JStr b) = true <-> a = b.
Proof. simpl. apply String.eqb_eq. Qed.

(** The guard lets a request through exactly for the owner and for admins. *)
Lemma not_allowed_rule (existing user : row) (uid owner : string) :
  get user "user_id" = JStr uid ->
  get existing "user_id" = JStr owner ->
  (not_allowed existing user = false
   <-> (get user "role" = JStr "admin" \/ uid = owner)).
Proof.
  only_used.
  intros Hu Ho. unfold not_allowed, is_admin. rewrite Hu, Ho.
  destruct (strict_eq (JStr owner) (JStr uid)) eqn:E1;
    destruct (strict_eq (get user "role") (JStr "admin")) eqn:E2; simpl.
  - apply strict_eq_strs in E1. intuition congruence.
  - apply strict_eq_strs in E1. intuition congruence.
  - apply strict_eq_str in E2. intuition congruence.
  - split; [discriminate|]. intros [H|H].
    + apply strict_eq_str in H. congruence.
    + subst. rewrite (proj2 (strict_eq_strs owner owner) eq_refl) in E1. discriminate.
Qed.

Lemma guard_outcome_denied (allowed : Prop) (denied : response) (d : db) :
  status denied = 403%nat -> ~ allowed -> guard_outcome allowed denied d (denied, d).
Proof. intros Hs Hn. split; [split|]; auto. Qed.

Lemma guard_outcome_passed (allowed : Prop) (denied : response) (d : db)
    (res : response * db) :
  status (fst res) <> 403%nat -> allowed -> guard_outcome allowed denied d res.
Proof. only_used. intros Hs Ha. split; [split|]; intros; tauto. Qed.

Lemma put_project_not_403 now d user pid body existing rest :
  select_where (projects d) "project_id" (JStr pid) = existing :: rest ->
  not_allowed existing user = false ->
  status (fst (put_project now d user pid body)) <> 403%nat.
Proof.
  intros He Hn. unfold put_project. rewrite He, Hn. status_not_403.
Qed.

Lemma put_gallery_image_not_403 now d user iid body existing rest :
  image_with_owner d iid = existing :: rest ->
  not_allowed existing user = false ->
  status (fst (put_gallery_image now d user iid body)) <> 403%nat.
Proof.
  intros He Hn. unfold put_gallery_image. rewrite He, Hn. status_not_403.
Qed.

Lemma put_experience_not_403 now d user eid body existing rest :
  select_where (experiences d) "experience_id" (JStr eid) = existing :: rest ->
  not_allowed existing user = false ->
  status (fst (put_experience now d user eid body)) <> 403%nat.
Proof.
  intros He Hn. unfold put_experience. rewrite He, Hn. status_not_403.
Qed.

(** ** The ownership guard *)

Lemma guard_project_update now d user uid pid body existing rest owner :
  get user "user_id" = JStr uid ->
  select_where (projects d) "project_id" (JStr pid) = existing :: rest ->
  get existing "user_id" = JStr owner ->
  guard_outcome (get user "role" = JStr "admin" \/ uid = owner)
    (denied_response now "You can only update your own projects") d
    (put_project now d user pid body).
Proof.
  intros Hu He Ho.
  destruct (not_allowed existing user) eqn:E.
  - assert (Hn : ~ (get user "role" = JStr "admin" \/ uid = owner)).
    { intros Ha. apply (not_allowed_rule existing user uid owner Hu Ho) in Ha. congruence. }
    unfold put_project. rewrite He, E. now apply guard_outcome_denied.
  - apply guard_outcome_passed.
    + eapply put_project_not_403; eauto.
    + now apply (not_allowed_rule existing user uid owner Hu Ho).
Qed.

Lemma guard_project_delete now d user uid pid existing rest owner :
  get user "user_id" = JStr uid ->
  select_where (projects d) "project_id" (JStr pid) = existing :: rest ->
  get existing "user_id" = JStr owner ->
  guard_outcome (get user "role" = JStr "admin" \/ uid = owner)
    (denied_response now "You can only delete your own projects") d
    (delete_project now d user pid)
  /\ ((get user "role" = JStr "admin" \/ uid = owner) ->
      status (fst (delete_project now d user pid)) = 200%nat).
Proof.
  only_used.
  intros Hu He Ho. unfold delete_project. rewrite He.
  destruct (not_allowed existing user) eqn:E.
  - assert (Hn : ~ (get user "role" = JStr "admin" \/ uid = owner)).
    { intros Ha. apply (not_allowed_rule existing user uid owner Hu Ho) in Ha. congruence. }
    split; [now apply guard_outcome_denied | tauto].
  - split; [|reflexivity]. apply guard_outcome_passed; [simpl; discriminate|].
    now apply (not_allowed_rule existing user uid owner Hu Ho).
Qed.

Lemma guard_image_update now d user uid iid body existing rest owner :
  get user "user_id" = JStr uid ->
  image_with_owner d iid = existing :: rest ->
  get existing "user_id" = JStr owner ->
  guard_outcome (get user "role" = JStr "admin" \/ uid = owner)
    (denied_response now "You can only modify your own projects") d
    (put_gallery_image now d user iid body).
Proof.
  intros Hu He Ho.
  destruct (not_allowed existing user) eqn:E.
  - assert (Hn : ~ (get user "role" = JStr "admin" \/ uid = owner)).
    { intros Ha. apply (not_allowed_rule existing user uid owner Hu Ho) in Ha. congruence. }
    unfold put_gallery_image. rewrite He, E. now apply guard_outcome_denied.
  - apply guard_outcome_passed.
    + eapply put_gallery_image_not_403; eauto.
    + now apply (not_allowed_rule existing user uid owner Hu Ho).
Qed.

Lemma guard_image_delete now d user uid iid existing rest owner :
  get user "user_id" = JStr uid ->
  image_with_owner d iid = existing :: rest ->
  get existing "user_id" = JStr owner ->
  guard_outcome (get user "role" = JStr "admin" \/ uid = owner)
    (denied_response now "You can only modify your own projects") d
    (delete_gallery_image now d user iid)
  /\ ((get user "role" = JStr "admin" \/ uid = owner) ->
      status (fst (delete_gallery_image now d user iid)) = 200%nat).
Proof.
  only_used.
  intros Hu He Ho. unfold delete_gallery_image. rewrite He.
  destruct (not_allowed existing user) eqn:E.
  - assert (Hn : ~ (get user "role" = JStr "admin" \/ uid = owner)).
    { intros Ha. apply (not_allowed_rule existing user uid owner Hu Ho) in Ha. congruence. }
    split; [now apply guard_outcome_denied | tauto].
  - split; [|reflexivity]. apply guard_outcome_passed; [simpl; discriminate|].
    now apply (not_allowed_rule existing user uid owner Hu Ho).
Qed.

Lemma guard_experience_update now d user uid eid body existing rest owner :
  get user "user_id" = JStr uid ->
  select_where (experiences d) "experience_id" (JStr eid) = existing :: rest ->
  get existing "user_id" = JStr owner ->
  guard_outcome (get user "role" = JStr "admin" \/ uid = owner)
    (denied_response now "You can only update your own experiences") d
    (put_experience now d user eid body).
Proof.
  intros Hu He Ho.
  destruct (not_allowed existing user) eqn:E.
  - assert (Hn : ~ (get user "role" = JStr "admin" \/ uid = owner)).
    { intros Ha. apply (not_allowed_rule existing user uid owner Hu Ho) in Ha. congruence. }
    unfold put_experience. rewrite He, E. now apply guard_outcome_denied.
  - apply guard_outcome_passed.
    + eapply put_experience_not_403; eauto.
    + now apply (not_allowed_rule existing user uid owner Hu Ho).
Qed.

Lemma guard_experience_delete now d user uid eid existing rest owner :
  get user "user_id" = JStr uid ->
  select_where (experiences d) "experience_id" (JStr eid) = existing :: rest ->
  get existing "user_id" = JStr owner ->
  guard_outcome (get user "role" = JStr "admin" \/ uid = owner)
    (denied_response now "You can only delete your own experiences") d
    (delete_experience now d user eid)
  /\ ((get user "role" = JStr "admin" \/ uid = owner) ->
      status (fst (delete_experience now d user eid)) = 200%nat).
Proof.
  only_used.
  intros Hu He Ho. unfold delete_experience. rewrite He.
  destruct (not_allowed existing user) eqn:E.
  - assert (Hn : ~ (get user "role" = JStr "admin" \/ uid = owner)).
    { intros Ha. apply (not_allowed_rule existing user uid owner Hu Ho) in Ha. congruence. }
    split; [now apply guard_outcome_denied | tauto].
  - split; [|reflexivity]. apply guard_outcome_passed; [simpl; discriminate|].
    now apply (not_allowed_rule existing user uid owner Hu Ho).
Qed.

(** C3. For an actor and an existing resource (a project, a gallery image
    with the owner of its project, an experience), update and delete are let
    through exactly when the actor's role is admin or the actor's id is the
    resource's user_id; in every other case the response is 403
    INSUFFICIENT_PERMISSIONS and the store is untouched. *)
Theorem mutation_permitted_iff_admin_or_owner :
  forall (now : string) (d : db) (user : row) (uid : string),
    get user "user_id" = JStr uid ->
    (forall pid body existing rest owner,
        select_where (projects d) "project_id" (JStr pid) = existing :: rest ->
        get existing "user_id" = JStr owner ->
        guard_outcome (get user "role" = JStr "admin" \/ uid = owner)
          (denied_response now "You can only update your own projects") d
          (put_project now d user pid body)
        /\ guard_outcome (get user "role" = JStr "admin" \/ uid = owner)
          (denied_response now "You can only delete your own projects") d
          (delete_project now d user pid)
        /\ ((get user "role" = JStr "admin" \/ uid = owner) ->
            status (fst (delete_project now d user pid)) = 200%nat))
    /\ (forall iid body existing rest owner,
        image_with_owner d iid = existing :: rest ->
        get existing "user_id" = JStr owner ->
        guard_outcome (get user "role" = JStr "admin" \/ uid = owner)
          (denied_response now "You can only modify your own projects") d
          (put_gallery_image now d user iid body)
        /\ guard_outcome (get user "role" = JStr "admin" \/ uid = owner)
          (denied_response now "You can only modify your own projects") d
          (delete_gallery_image now d user iid)
        /\ ((get user "role" = JStr "admin" \/ uid = owner) ->
            status (fst (delete_gallery_image now d user iid)) = 200%nat))
    /\ (forall eid body existing rest owner,
        select_where (experiences d) "experience_id" (JStr eid) = existing :: rest ->
        get existing "user_id" = JStr owner ->
        guard_outcome (get user "role" = JStr "admin" \/ uid = owner)
          (denied_response now "You can only update your own experiences") d
          (put_experience now d user eid body)
        /\ guard_outcome (get user "role" = JStr "admin" \/ uid = owner)
          (denied_response now "You can only delete your own experiences") d
          (delete_experience now d user eid)
        /\ ((get user "role" = JStr "admin" \/ uid = owner) ->
            status (fst (delete_experience now d user eid)) = 200%nat)).
Proof.
  intros now d user uid Hu.
  split; [|split]; intros id body0 existing rest owner He Ho; split.
  - eapply guard_project_update; eauto.
  - eapply guard_project_delete; eauto.
  - eapply guard_image_update; eauto.
  - eapply guard_image_delete; eauto.
  - eapply guard_experience_update; eauto.
  - eapply guard_experience_delete; eauto.
Qed.

(** ** Existence before ownership *)

Lemma strict_eq_str_l (v : jsval) (s : string) :
  strict_eq (JStr s) v = true <-> v = JStr s.
Proof.
  split.
  - destruct v; simpl; try discriminate. intros H.
    apply String.eqb_eq in H. now subst.
  - intros ->. simpl. apply String.eqb_refl.
Qed.

Lemma update_rows_no_match (tbl : list row) sets col v :
  select_where tbl col v = [] -> update_rows tbl sets col v = tbl.
Proof.
  unfold select_where, update_rows. induction tbl as [|r tbl IH]; simpl; auto.
  destruct (sql_eq (get r col) v); [discriminate|].
  intros H. now rewrite IH.
Qed.

Lemma requireRole_admin now (user : row) :
  get user "role" = JStr "admin" -> requireRole ["admin"] now (JObj user) = None.
Proof.
  intros H. unfold requireRole. cbn [truthy negb existsb prop].
  rewrite H. reflexivity.
Qed.

Lemma requireRole_not_admin now (user : row) :
  get user "role" <> JStr "admin" ->
  requireRole ["admin"] now (JObj user)
  = Some (denied_response now "Insufficient permissions").
Proof.
  intros H. unfold requireRole. cbn [truthy negb existsb prop].
  destruct (strict_eq (JStr "admin") (get user "role")) eqn:E.
  - apply strict_eq_str_l in E. contradiction.
  - reflexivity.
Qed.

Lemma put_contact_missing now d mid body validatedInput :
  updateContactMessageInputSchema (spread body [("message_id", JStr mid)])
  = inr validatedInput ->
  violation contact_schema (contact_messages d) = None ->
  select_where (contact_messages d) "message_id" (JStr mid) = [] ->
  fst (put_contact now d mid body)
  = not_found_response now "Contact message not found" "MESSAGE_NOT_FOUND".
Proof.
  intros Hv Hc Hs. unfold put_contact. rewrite Hv.
  unfold exec_update. cbn [push_field update_start u_paramIndex u_values app].
  change (param [get validatedInput "read"; JStr mid] 2) with (JStr mid).
  rewrite update_rows_no_match by exact Hs.
  rewrite Hc, Hs. reflexivity.
Qed.

(** C4 (as amended). For an authenticated actor, whatever the role or
    ownership, a project, gallery-image or experience update or delete
    naming an id that does not exist answers 404 and leaves the store as it
    was, provided the id is a text the store takes; for an id the store
    refuses (one holding the NUL character) the lookup throws and the answer
    is 500: in neither case 403. The contact-message update is gated on the
    admin role before any statement: an authenticated non-admin gets 403
    whether or not the message exists, and an admin with a valid body gets
    404 for an unknown id the store takes, 500 for an id it refuses. *)
Theorem missing_resource_is_not_found :
  forall (now : string) (d : db) (headers : jsobj) (user : row),
    authenticateToken now d headers = inr user ->
    (forall pid body,
        select_where (projects d) "project_id" (JStr pid) = [] ->
        valid_text (JStr pid) = true ->
        route_put_project now d headers pid body
        = (not_found_response now "Project not found" "PROJECT_NOT_FOUND", d)
        /\ route_delete_project now d headers pid
           = (not_found_response now "Project not found" "PROJECT_NOT_FOUND", d))
    /\ (forall iid body,
        image_with_owner d iid = [] ->
        valid_text (JStr iid) = true ->
        route_put_gallery_image now d headers iid body
        = (not_found_response now "Gallery image not found" "IMAGE_NOT_FOUND", d)
        /\ route_delete_gallery_image now d headers iid
           = (not_found_response now "Gallery image not found" "IMAGE_NOT_FOUND", d))
    /\ (forall eid body,
        select_where (experiences d) "experience_id" (JStr eid) = [] ->
        valid_text (JStr eid) = true ->
        route_put_experience now d headers eid body
        = (not_found_response now "Experience not found" "EXPERIENCE_NOT_FOUND", d)
        /\ route_delete_experience now d headers eid
           = (not_found_response now "Experience not found" "EXPERIENCE_NOT_FOUND", d))
    /\ (forall id body,
        valid_text (JStr id) = false ->
        let refused := (internal_error now (pg_refusal (JStr id)), d) in
        route_put_project now d headers id body = refused
        /\ route_delete_project now d headers id = refused
        /\ route_put_gallery_image now d headers id body = refused
        /\ route_delete_gallery_image now d headers id = refused
        /\ route_put_experience now d headers id body = refused
        /\ route_delete_experience now d headers id = refused)
    /\ (forall mid body,
        get user "role" <> JStr "admin" ->
        route_put_contact now d headers mid body
        = (denied_response now "Insufficient permissions", d))
    /\ (forall mid body validatedInput,
        get user "role" = JStr "admin" ->
        updateContactMessageInputSchema (spread body [("message_id", JStr mid)])
        = inr validatedInput ->
        (valid_text (JStr mid) = true ->
         violation contact_schema (contact_messages d) = None ->
         select_where (contact_messages d) "message_id" (JStr mid) = [] ->
         fst (route_put_contact now d headers mid body)
         = not_found_response now "Contact message not found" "MESSAGE_NOT_FOUND")
        /\ (valid_text (JStr mid) = false ->
            route_put_contact now d headers mid body
            = (internal_error now (pg_refusal (JStr mid)), d))).
Proof.
  intros now d headers user Ha.
  unfold route_put_project, route_delete_project, route_put_gallery_image,
    route_delete_gallery_image, route_put_experience, route_delete_experience,
    route_put_contact, authenticated, binding_id.
  rewrite Ha.
  split; [|split; [|split; [|split; [|split]]]].
  - intros pid body0 Hs Hv. rewrite Hv. unfold put_project, delete_project.
    now rewrite Hs.
  - intros iid body0 Hs Hv. rewrite Hv. unfold put_gallery_image, delete_gallery_image.
    now rewrite Hs.
  - intros eid body0 Hs Hv. rewrite Hv. unfold put_experience, delete_experience.
    now rewrite Hs.
  - intros id body0 Hv. cbv zeta. rewrite Hv. repeat split.
  - intros mid body0 Hr. unfold admin_only. now rewrite requireRole_not_admin.
  - intros mid body0 v Hr Hv. unfold admin_only.
    rewrite requireRole_admin by exact Hr. rewrite Hv. split.
    + intros Ht Hc Hs. rewrite Ht. eapply put_contact_missing; eauto.
    + intros Ht. now rewrite Ht.
Qed.

(** ** Token verification *)



(** ** What an object schema guarantees *)

Lemma strict_eq_undefined (v : jsval) :
  strict_eq v JUndefined = true -> v = JUndefined.
Proof. destruct v; simpl; congruence. Qed.

Lemma get_absent (o : jsobj) (k : string) : has_key o k = false -> get o k = JUndefined.
Proof.
  induction o as [|[k' v] o IH]; simpl; auto.
  destruct (String.eqb k' k); simpl; [discriminate|auto].
Qed.

Lemma z_object_keys shape input q k :
  z_object shape input = inr q -> has_key q k = true -> In k (map fst shape).
Proof.
  revert q. induction shape as [|[k0 s0] shape IH]; intros q Hq Hk; simpl in Hq.
  - inversion Hq; subst. discriminate.
  - destruct (s0 (get input k0)) as [v|]; destruct (z_object shape input) as [iss|o];
      try discriminate.
    destruct (has_key input k0 || negb (strict_eq v JUndefined));
      inversion Hq; subst; clear Hq.
    + simpl in Hk. destruct (String.eqb k0 k) eqn:E.
      * apply String.eqb_eq in E. now left.
      * right. eapply IH; eauto.
    + right. eapply IH; eauto.
Qed.

(** Every key of the shape was accepted by its schema, and the parsed
    object holds the schema's output under that key. *)
Lemma z_object_field shape input q :
  NoDup (map fst shape) ->
  z_object shape input = inr q ->
  forall k s, In (k, s) shape ->
    exists v, s (get input k) = Some v /\ get q k = v.
Proof.
  revert q. induction shape as [|[k0 s0] shape IH]; intros q Hnd Hq k s Hin.
  - destruct Hin.
  - simpl in Hq. inversion Hnd as [|? ? Hnotin Hnd']; subst.
    destruct (s0 (get input k0)) as [v|] eqn:Es; destruct (z_object shape input) as [iss|o] eqn:Eo;
      try discriminate.
    assert (Hk0 : get o k0 = JUndefined).
    { apply get_absent. destruct (has_key o k0) eqn:Eh; auto.
      exfalso. apply Hnotin. eapply z_object_keys; eauto. }
    destruct Hin as [Heq|Hin].
    + inversion Heq; subst k0 s0. exists v. split; auto.
      destruct (has_key input k || negb (strict_eq v JUndefined)) eqn:Ek;
        inversion Hq; subst; clear Hq.
      * simpl. now rewrite String.eqb_refl.
      * apply orb_false_iff in Ek. destruct Ek as [_ Ek].
        apply negb_false_iff in Ek. apply strict_eq_undefined in Ek. congruence.
    + destruct (IH o Hnd' eq_refl k s Hin) as [w [Hw Hg]].
      exists w. split; auto.
      assert (Hne : String.eqb k0 k = false).
      { apply String.eqb_neq. intros ->. apply Hnotin.
        change k with (fst (k, s)). now apply in_map. }
      destruct (has_key input k0 || negb (strict_eq v JUndefined));
        inversion Hq; subst; clear Hq; simpl; [now rewrite Hne|auto].
Qed.

(** A value one schema of the shape refuses makes the whole parse fail. *)
Lemma z_object_issue shape input k s :
  In (k, s) shape -> s (get input k) = None ->
  exists issues, z_object shape input = inl issues.
Proof.
  induction shape as [|[k0 s0] shape IH]; intros Hin Hs; [destruct Hin|].
  simpl. destruct Hin as [Heq|Hin].
  - inversion Heq; subst. rewrite Hs. destruct (z_object shape input); eauto.
  - destruct (IH Hin Hs) as [iss Hi]. rewrite Hi.
    destruct (s0 (get input k0)); eauto.
Qed.

Lemma existsb_eqb_In (s : string) (l : list string) :
  existsb (String.eqb s) l = true <-> In s l.
Proof.
  rewrite existsb_exists. split.
  - intros [x [Hx He]]. apply String.eqb_eq in He. now subst.
  - intros H. exists s. split; auto. apply String.eqb_refl.
Qed.

Lemma z_enum_outside d allowed v :
  outside allowed v -> z_default d (z_enum allowed) v = None.
Proof.
  intros [Hu Hn]. unfold z_default, z_enum. destruct v; try reflexivity; try congruence.
  destruct (existsb (String.eqb s) allowed) eqn:E; auto.
  apply existsb_eqb_In in E. exfalso. now apply (Hn s).
Qed.

Lemma z_enum_allowed d allowed v w :
  In d allowed -> z_default (JStr d) (z_enum allowed) v = Some w ->
  exists f, w = JStr f /\ In f allowed.
Proof.
  intros Hd. unfold z_default, z_enum. destruct v; try discriminate.
  - intros H. inversion H; subst. eauto.
  - destruct (existsb (String.eqb s) allowed) eqn:E; try discriminate.
    intros H. inversion H; subst. apply existsb_eqb_In in E. eauto.
Qed.

(** ** Sorting: allow-list or rejection *)

Lemma upper_of_sort_order (o : string) :
  In o sort_orders -> In (toUpperCase o) ["ASC"; "DESC"].
Proof.
  intros [<-|[<-|[]]]; [left|right; left]; reflexivity.
Qed.

Lemma sorted_fields shape input q allowed d dd :
  NoDup (map fst shape) ->
  In ("sort_by", z_default (JStr d) (z_enum allowed)) shape ->
  In ("sort_order", z_default (JStr dd) (z_enum sort_orders)) shape ->
  In d allowed -> In dd sort_orders ->
  z_object shape input = inr q ->
  (exists f, get q "sort_by" = JStr f /\ In f allowed)
  /\ (exists o, get q "sort_order" = JStr o /\ In o sort_orders).
Proof.
  intros Hnd H1 H2 Hd Hdd Hq.
  destruct (z_object_field _ _ _ Hnd Hq _ _ H1) as [v [Hv Hg]].
  destruct (z_object_field _ _ _ Hnd Hq _ _ H2) as [w [Hw Hg']].
  destruct (z_enum_allowed _ _ _ _ Hd Hv) as [f [-> Hf]].
  destruct (z_enum_allowed _ _ _ _ Hdd Hw) as [o [-> Ho]].
  split; eauto.
Qed.

Lemma unsorted_rejected shape input allowed d dd :
  In ("sort_by", z_default (JStr d) (z_enum allowed)) shape ->
  In ("sort_order", z_default (JStr dd) (z_enum sort_orders)) shape ->
  outside allowed (get input "sort_by") \/ outside sort_orders (get input "sort_order") ->
  exists issues, z_object shape input = inl issues.
Proof.
  intros H1 H2 [Ho|Ho].
  - eapply z_object_issue; [exact H1|]. now apply z_enum_outside.
  - eapply z_object_issue; [exact H2|]. now apply z_enum_outside.
Qed.

Lemma paged_query_order_ok b from prefix allowed f o q :
  In f allowed -> In o sort_orders ->
  get q "sort_order" = JStr o ->
  order_clause_ok prefix allowed (paged_query b from (prefix ^ f) q).
Proof.
  intros Hf Ho Hq. unfold order_clause_ok, paged_query. cbn [sel_order sel_text].
  rewrite Hq. cbn [js_to_string].
  exists f. repeat split; auto using upper_of_sort_order.
  exists (query b), (paramIndex b), (" OFFSET " ^ dollar (paramIndex b + 1)).
  reflexivity.
Qed.

Lemma count_select_order_ok b from prefix allowed :
  order_clause_ok prefix allowed (count_select b from).
Proof. unfold order_clause_ok. simpl. auto. Qed.

Lemma get_projects_sort_guarded now d :
  sort_guarded now "p." project_sort_fields (get_projects now d).
Proof.
  only_used.
  intros reqQuery. unfold get_projects.
  match goal with |- context [projectQuerySchema ?i] => set (input := i) end.
  destruct (projectQuerySchema input) as [issues|q] eqn:E; split.
  - eauto.
  - intros s [].
  - intros Ho. exfalso.
    destruct (unsorted_rejected projectQueryShape input project_sort_fields "created_at" "desc"
                ltac:(simpl; auto 20) ltac:(simpl; auto 20) Ho) as [iss Hi].
    unfold projectQuerySchema in E. congruence.
  - destruct (sorted_fields projectQueryShape input q project_sort_fields "created_at" "desc"
                ltac:(solve_nodup) ltac:(simpl; auto 20) ltac:(simpl; auto 20)
                ltac:(simpl; auto) ltac:(simpl; auto) E)
      as [[f [Hf Hfa]] [o [Ho Hoa]]].
    unfold page_response. cbn [snd].
    intros s [<-|[<-|[]]].
    + unfold projects_item_query. rewrite Hf. cbn [js_to_string].
      eapply paged_query_order_ok; eauto.
    + apply count_select_order_ok.
Qed.

Lemma get_users_sort_guarded now d :
  sort_guarded now "" user_sort_fields (get_users now d).
Proof.
  only_used.
  intros reqQuery. unfold get_users.
  match goal with |- context [userQuerySchema ?i] => set (input := i) end.
  destruct (userQuerySchema input) as [issues|q] eqn:E; split.
  - eauto.
  - intros s [].
  - intros Ho. exfalso.
    destruct (unsorted_rejected userQueryShape input user_sort_fields "created_at" "desc"
                ltac:(simpl; auto 20) ltac:(simpl; auto 20) Ho) as [iss Hi].
    unfold userQuerySchema in E. congruence.
  - destruct (sorted_fields userQueryShape input q user_sort_fields "created_at" "desc"
                ltac:(solve_nodup) ltac:(simpl; auto 20) ltac:(simpl; auto 20)
                ltac:(simpl; auto) ltac:(simpl; auto) E)
      as [[f [Hf Hfa]] [o [Ho Hoa]]].
    unfold page_response. cbn [snd].
    intros s [<-|[<-|[]]].
    + unfold users_item_query. rewrite Hf. cbn [js_to_string].
      apply (paged_query_order_ok _ _ "" user_sort_fields f o q); auto.
    + apply count_select_order_ok.
Qed.

Lemma get_contact_sort_guarded now d :
  sort_guarded now "" contact_sort_fields (get_contact now d).
Proof.
  only_used.
  intros reqQuery. unfold get_contact.
  match goal with |- context [contactMessageQuerySchema ?i] => set (input := i) end.
  destruct (contactMessageQuerySchema input) as [issues|q] eqn:E; split.
  - eauto.
  - intros s [].
  - intros Ho. exfalso.
    destruct (unsorted_rejected contactMessageQueryShape input contact_sort_fields "created_at" "desc"
                ltac:(simpl; auto 20) ltac:(simpl; auto 20) Ho) as [iss Hi].
    unfold contactMessageQuerySchema in E. congruence.
  - destruct (sorted_fields contactMessageQueryShape input q contact_sort_fields "created_at" "desc"
                ltac:(solve_nodup) ltac:(simpl; auto 20) ltac:(simpl; auto 20)
                ltac:(simpl; auto) ltac:(simpl; auto) E)
      as [[f [Hf Hfa]] [o [Ho Hoa]]].
    unfold page_response. cbn [snd].
    intros s [<-|[<-|[]]].
    + unfold contact_item_query. rewrite Hf. cbn [js_to_string].
      apply (paged_query_order_ok _ _ "" contact_sort_fields f o q); auto.
    + apply count_select_order_ok.
Qed.

Lemma get_skills_sort_guarded now d :
  sort_guarded now "" skill_sort_fields (get_skills now d).
Proof.
  only_used.
  intros reqQuery. unfold get_skills.
  match goal with |- context [skillQuerySchema ?i] => set (input := i) end.
  destruct (skillQuerySchema input) as [issues|q] eqn:E; split.
  - eauto.
  - intros s [].
  - intros Ho. exfalso.
    destruct (unsorted_rejected skillQueryShape input skill_sort_fields "name" "asc"
                ltac:(simpl; auto 20) ltac:(simpl; auto 20) Ho) as [iss Hi].
    unfold skillQuerySchema in E. congruence.
  - destruct (sorted_fields skillQueryShape input q skill_sort_fields "name" "asc"
                ltac:(solve_nodup) ltac:(simpl; auto 20) ltac:(simpl; auto 20)
                ltac:(simpl; auto) ltac:(simpl; auto) E)
      as [[f [Hf Hfa]] [o [Ho Hoa]]].
    cbn [snd]. intros s [<-|[]].
    unfold order_clause_ok, skills_query. cbn [sel_order sel_text].
    rewrite Hf, Ho. cbn [js_to_string].
    exists f. repeat split; auto using upper_of_sort_order.
    exists (query (skills_filters q (start "SELECT * FROM skills WHERE 1=1"))),
      (paramIndex (skills_filters q (start "SELECT * FROM skills WHERE 1=1"))), "".
    now rewrite append_empty_r.
Qed.

(** The statements a handler issues through its [catch] are statements it
    builds. *)
Lemma issue_incl (statements : list select) (s : select) :
  In s (fst (issue statements)) -> In s statements.
Proof.
  only_used. induction statements as [|x l IH]; cbn [issue]; [intros []|].
  destruct (refused_value x).
  - cbn [fst]. intros [<-|[]]. now left.
  - destruct (issue l) as [issued refused]. cbn [fst] in *.
    intros [<-|H]; [now left|right; auto].
Qed.

Lemma caught_statements now res s :
  In s (snd (caught now res)) -> In s (snd res).
Proof.
  only_used. unfold caught.
  pose proof (issue_incl (snd res) s) as H.
  destruct (issue (snd res)) as [issued [v|]]; cbn [fst snd] in *; auto.
Qed.

Lemma caught_sort_guarded now prefix allowed handler :
  sort_guarded now prefix allowed handler ->
  sort_guarded now prefix allowed (fun reqQuery => caught now (handler reqQuery)).
Proof.
  only_used. intros H reqQuery. destruct (H reqQuery) as [Ha Hb]. split.
  - intros Ho. destruct (Ha Ho) as [issues E]. exists issues. now rewrite E.
  - intros s Hin. apply Hb. eapply caught_statements. exact Hin.
Qed.

(** The statement of a list without parameters, sent to the store. *)
Lemma fixed_list_caught now resp text from key id col dir :
  caught now (resp, [fixed_list text from key id col dir])
  = if valid_text (JStr id)
    then (resp, [fixed_list text from key id col dir])
    else (internal_error now (pg_refusal (JStr id)),
          [fixed_list text from key id col dir]).
Proof.
  only_used. unfold caught. cbn [snd issue]. unfold refused_value, paging_values.
  cbn [fixed_list sel_values sel_limit sel_offset find app].
  destruct (valid_text (JStr id)); reflexivity.
Qed.

(** C6 (as amended). The routes of the lists that take sort parameters
    order only by a column of the resource's allow-list and by ASC or DESC,
    and answer a sort field or direction outside these sets with 400
    VALIDATION_ERROR before the handler issues any statement: the routes of
    projects and skills for every request, the routes of contact messages and
    users for every request of an authenticated admin (a request their
    middleware refuses is answered 401 or 403 and reaches no handler). The
    lists of a user's experiences and of a project's gallery take no sort
    parameter: they issue their one statement with its fixed ORDER BY and
    answer as they would without a query string, 200 for an id the store
    takes and 500 for one it refuses. *)
Theorem sort_allow_listed_or_rejected :
  forall (now : string) (d : db),
    sort_guarded now "p." project_sort_fields (route_get_projects now d)
    /\ sort_guarded now "" skill_sort_fields (route_get_skills now d)
    /\ (forall headers reqQuery r,
          authenticateToken now d headers = inl r ->
          (status r = 401%nat \/ status r = 403%nat)
          /\ route_get_contact now d headers reqQuery = (r, [])
          /\ route_get_users now d headers reqQuery = (r, []))
    /\ (forall headers reqQuery user,
          authenticateToken now d headers = inr user ->
          get user "role" <> JStr "admin" ->
          route_get_contact now d headers reqQuery
          = (denied_response now "Insufficient permissions", [])
          /\ route_get_users now d headers reqQuery
             = (denied_response now "Insufficient permissions", []))
    /\ (forall headers user,
          authenticateToken now d headers = inr user ->
          get user "role" = JStr "admin" ->
          sort_guarded now "" contact_sort_fields (route_get_contact now d headers)
          /\ sort_guarded now "" user_sort_fields (route_get_users now d headers))
    /\ (forall id reqQuery,
          route_get_user_experiences now d id reqQuery
          = route_get_user_experiences now d id []
          /\ status (fst (route_get_user_experiences now d id reqQuery))
             = (if valid_text (JStr id) then 200 else 500)%nat
          /\ map sel_order (snd (route_get_user_experiences now d id reqQuery))
             = [Some ("start_date", "DESC")])
    /\ (forall id reqQuery,
          route_get_project_gallery now d id reqQuery
          = route_get_project_gallery now d id []
          /\ status (fst (route_get_project_gallery now d id reqQuery))
             = (if valid_text (JStr id) then 200 else 500)%nat
          /\ map sel_order (snd (route_get_project_gallery now d id reqQuery))
             = [Some ("sort_order", "ASC")]).
Proof.
  intros now d. split; [|split; [|split; [|split; [|split; [|split]]]]].
  - apply caught_sort_guarded, get_projects_sort_guarded.
  - apply caught_sort_guarded, get_skills_sort_guarded.
  - intros headers reqQuery r Ha. unfold route_get_contact, route_get_users, admin_list.
    rewrite Ha. split; [|split; reflexivity].
    clear reqQuery. revert Ha. unfold authenticateToken.
    destruct (negb (truthy (bearer_token headers))).
    + intros H. inversion H; subst. now left.
    + destruct (jwt_verify _ JWT_SECRET) as [error|decoded].
      * intros H. inversion H; subst. now right.
      * destruct (select_where (users d) "user_id" (prop decoded "user_id"));
          cbn [map]; intros H; inversion H; subst. now left.
  - intros headers reqQuery user Ha Hr.
    unfold route_get_contact, route_get_users, admin_list.
    rewrite Ha. now rewrite requireRole_not_admin.
  - intros headers user Ha Hr. unfold route_get_contact, route_get_users, admin_list.
    rewrite Ha. rewrite requireRole_admin by exact Hr. split.
    + apply (caught_sort_guarded now "" contact_sort_fields (get_contact now d)),
        get_contact_sort_guarded.
    + apply (caught_sort_guarded now "" user_sort_fields (get_users now d)),
        get_users_sort_guarded.
  - intros id reqQuery. split; [reflexivity|].
    unfold route_get_user_experiences, get_user_experiences, experiences_of_user.
    rewrite fixed_list_caught. destruct (valid_text (JStr id)); split; reflexivity.
  - intros id reqQuery. split; [reflexivity|].
    unfold route_get_project_gallery, get_project_gallery, gallery_of_project.
    rewrite fixed_list_caught. destruct (valid_text (JStr id)); split; reflexivity.
Qed.

(** ** Updates leave the key and the owner alone *)

Lemma assign_other (sets : list (string * jsval)) (r : row) (k : string) :
  (forall kv, In kv sets -> fst kv <> k) -> get (assign r sets) k = get r k.
Proof.
  unfold assign. revert r. induction sets as [|[k' v] sets IH]; intros r H; simpl; auto.
  rewrite IH.
  - apply get_set_other. intros ->. now apply (H (k', v)); [left|].
  - intros kv Hin. apply H. now right.
Qed.

Lemma update_rows_other tbl sets col v k :
  (forall kv, In kv sets -> fst kv <> k) ->
  map (fun r => get r k) (update_rows tbl sets col v) = map (fun r => get r k) tbl.
Proof.
  intros H. unfold update_rows. rewrite map_map. apply map_ext. intros r.
  destruct (sql_eq (get r col) v); auto using assign_other.
Qed.

Lemma push_field_rendered key v u :
  fields_rendered u -> fields_rendered (push_field key v u).
Proof.
  unfold fields_rendered. intros H. simpl. now rewrite H, map_app.
Qed.

Lemma update_step_rendered skip stringify u entry :
  fields_rendered u -> fields_rendered (update_step skip stringify u entry).
Proof.
  intros H. unfold update_step. destruct entry as [key value].
  destruct (defined value && negb (existsb (String.eqb key) skip)); auto.
  destruct (existsb (String.eqb key) stringify); now apply push_field_rendered.
Qed.

Lemma fold_update_step_rendered skip stringify entries u :
  fields_rendered u ->
  fields_rendered (fold_left (update_step skip stringify) entries u).
Proof.
  revert u. induction entries as [|e entries IH]; intros u H; simpl; auto.
  apply IH. now apply update_step_rendered.
Qed.

Lemma fold_update_step_sets skip stringify entries u k i :
  In (k, i) (u_sets (fold_left (update_step skip stringify) entries u)) ->
  In (k, i) (u_sets u) \/ set_from skip entries k.
Proof.
  revert u. induction entries as [|[key value] entries IH]; intros u H; simpl in H; auto.
  destruct (IH _ H) as [Hin|[Hs [v [Hv Hd]]]].
  - unfold update_step in Hin.
    destruct (defined value && negb (existsb (String.eqb key) skip)) eqn:E; auto.
    apply andb_true_iff in E. destruct E as [Ed Es]. apply negb_true_iff in Es.
    assert (Hin' : In (k, i) (u_sets u ++ [(key, u_paramIndex u)])).
    { destruct (existsb (String.eqb key) stringify); exact Hin. }
    apply in_app_or in Hin'. destruct Hin' as [Hin'|[Heq|[]]]; auto.
    inversion Heq; subst. right. split; auto. exists value. split; auto. now left.
  - right. split; auto. exists v. split; auto. now right.
Qed.

Lemma skip_excludes (k : string) (skip : list string) :
  existsb (String.eqb k) skip = false -> ~ In k skip.
Proof.
  intros H Hin. assert (existsb (String.eqb k) skip = true).
  { apply existsb_exists. exists k. split; auto. apply String.eqb_refl. }
  congruence.
Qed.

Lemma project_update_sets validatedInput now k i :
  In (k, i) (u_sets (push_field "updated_at" (JStr now)
                       (update_loop ["project_id"; "user_id"] ["technologies"]
                          validatedInput))) ->
  k <> "project_id" /\ k <> "user_id"
  /\ (k = "updated_at" \/ set_from ["project_id"; "user_id"] validatedInput k).
Proof.
  cbn [push_field u_sets]. intros H. apply in_app_or in H.
  destruct H as [H|[H|[]]].
  - apply fold_update_step_sets in H. destruct H as [[]|Hs].
    pose proof (skip_excludes _ _ (proj1 Hs)) as Hn.
    repeat split; auto; intros ->; apply Hn; simpl; auto.
  - inversion H; subst. repeat split; auto; discriminate.
Qed.

Lemma push_field_indexed key v u : indexed u -> indexed (push_field key v u).
Proof. unfold indexed. simpl. intros ->. rewrite length_app. simpl. lia. Qed.

Lemma update_step_indexed skip stringify u entry :
  indexed u -> indexed (update_step skip stringify u entry).
Proof.
  intros H. unfold update_step. destruct entry as [key value].
  destruct (defined value && negb (existsb (String.eqb key) skip)); auto.
  destruct (existsb (String.eqb key) stringify); now apply push_field_indexed.
Qed.

Lemma update_loop_indexed skip stringify entries :
  indexed (update_loop skip stringify entries).
Proof.
  unfold update_loop. assert (H : indexed update_start) by reflexivity.
  revert H. generalize update_start.
  induction entries as [|e entries IH]; intros u H; simpl; auto.
  apply IH. now apply update_step_indexed.
Qed.

Lemma where_param u v : indexed u -> param (u_values u ++ [v]) (u_paramIndex u) = v.
Proof.
  unfold indexed, param. intros ->. simpl. rewrite Nat.sub_0_r. apply nth_middle.
Qed.

(** C9. A successful PUT /api/projects/:project_id leaves the project_id
    and user_id of every project row as they were, whatever the body holds
    under these keys, and touches no other table: the SET clause names only
    updated_at and keys of the validated input other than project_id and
    user_id. *)
Theorem put_project_keeps_id_and_owner :
  forall (now : string) (d : db) (user : row) (pid : string) (reqBody : jsobj)
         (resp : response) (d' : db),
    put_project now d user pid reqBody = (resp, d') ->
    status resp = 200%nat ->
    map (fun r => get r "project_id") (projects d')
    = map (fun r => get r "project_id") (projects d)
    /\ map (fun r => get r "user_id") (projects d')
       = map (fun r => get r "user_id") (projects d)
    /\ d' = with_projects d (projects d')
    /\ exists validatedInput u,
         updateProjectInputSchema
           (spread reqBody [("project_id", JStr pid); ("user_id", get user "user_id")])
         = inr validatedInput
         /\ u = push_field "updated_at" (JStr now)
                  (update_loop ["project_id"; "user_id"] ["technologies"] validatedInput)
         /\ fields_rendered u
         /\ (forall k i, In (k, i) (u_sets u) ->
               k <> "project_id" /\ k <> "user_id"
               /\ (k = "updated_at"
                   \/ set_from ["project_id"; "user_id"] validatedInput k))
         /\ projects d'
            = update_rows (projects d) (bound_sets u (u_values u ++ [JStr pid]))
                "project_id" (JStr pid).
Proof.
  intros now d user pid reqBody resp d' H Hs. unfold put_project in H.
  destruct (select_where (projects d) "project_id" (JStr pid)) as [|existing rest];
    [inversion H; subst; discriminate|].
  destruct (not_allowed existing user); [inversion H; subst; discriminate|].
  destruct (updateProjectInputSchema _) as [issues|validatedInput] eqn:Ev;
    [inversion H; subst; discriminate|].
  unfold exec_update in H.
  set (u := push_field "updated_at" (JStr now)
              (update_loop ["project_id"; "user_id"] ["technologies"] validatedInput)) in *.
  assert (Hp : param (u_values u ++ [JStr pid]) (u_paramIndex u) = JStr pid).
  { apply where_param. subst u. apply push_field_indexed, update_loop_indexed. }
  rewrite Hp in H.
  destruct (violation _ _); [inversion H; subst; discriminate|].
  inversion H; subst resp d'; clear H. cbn [projects with_projects].
  assert (Hsets : forall k i, In (k, i) (u_sets u) ->
            k <> "project_id" /\ k <> "user_id"
            /\ (k = "updated_at" \/ set_from ["project_id"; "user_id"] validatedInput k)).
  { intros k i. apply project_update_sets. }
  assert (Hkeys : forall key, (key = "project_id" \/ key = "user_id") ->
            forall kv, In kv (bound_sets u (u_values u ++ [JStr pid])) -> fst kv <> key).
  { intros key Hk kv Hin. unfold bound_sets in Hin. apply in_map_iff in Hin.
    destruct Hin as [[k i] [<- Hin]]. simpl.
    destruct (Hsets k i Hin) as [H1 [H2 _]]. destruct Hk; congruence. }
  split; [|split; [|split]].
  - apply update_rows_other. apply Hkeys. now left.
  - apply update_rows_other. apply Hkeys. now right.
  - reflexivity.
  - exists validatedInput, u.
    split; [reflexivity|]. split; [reflexivity|]. split; [|split; [exact Hsets|reflexivity]].
    subst u. apply push_field_rendered. apply fold_update_step_rendered. reflexivity.
Qed.

(** ** One primary resume per user *)

Lemma sql_eq_sym (a b : jsval) : sql_eq a b = sql_eq b a.
Proof.
  destruct a, b; simpl; auto using Z.eqb_sym, String.eqb_sym.
  destruct b, b0; reflexivity.
Qed.

Lemma sql_eq_trans (a b c : jsval) :
  sql_eq a b = true -> sql_eq b c = true -> sql_eq a c = true.
Proof.
  destruct a, b; simpl; try discriminate; destruct c; simpl; try discriminate;
    intros H1 H2.
  all: try (apply Bool.eqb_prop in H1; apply Bool.eqb_prop in H2; subst; apply Bool.eqb_reflx).
  all: try (apply Z.eqb_eq in H1; apply Z.eqb_eq in H2; subst; apply Z.eqb_refl).
  all: try (apply String.eqb_eq in H1; apply String.eqb_eq in H2; subst; apply String.eqb_refl).
Qed.

Lemma sql_eq_bind (a b : jsval) : sql_eq (bind a) b = sql_eq a b.
Proof. destruct a; reflexivity. Qed.

Lemma demoted_not_primary uid r : primary_of uid (assign r demote) = false.
Proof.
  unfold primary_of, assign, demote. simpl. rewrite get_set_same. simpl.
  apply andb_false_r.
Qed.

(** Demoting the rows of one user adds no primary row for anyone, and
    leaves that user with none. *)
Lemma demote_count tbl actor uid :
  (List.length (filter (primary_of uid) (update_rows tbl demote "user_id" actor))
   <= List.length (filter (primary_of uid) tbl))%nat.
Proof.
  unfold update_rows. induction tbl as [|r tbl IH]; cbn [map filter]; auto.
  destruct (sql_eq (get r "user_id") actor).
  - rewrite demoted_not_primary. destruct (primary_of uid r); cbn [List.length]; lia.
  - destruct (primary_of uid r); cbn [List.length]; lia.
Qed.

Lemma demote_clears tbl actor uid :
  sql_eq actor uid = true ->
  filter (primary_of uid) (update_rows tbl demote "user_id" actor) = [].
Proof.
  intros Hu. unfold update_rows. induction tbl as [|r tbl IH]; cbn [map filter]; auto.
  destruct (sql_eq (get r "user_id") actor) eqn:E.
  - now rewrite demoted_not_primary.
  - assert (Hp : primary_of uid r = false).
    { unfold primary_of. destruct (sql_eq (get r "user_id") uid) eqn:E'; auto.
      rewrite sql_eq_sym in Hu.
      rewrite (sql_eq_trans _ _ _ E' Hu) in E. discriminate. }
    now rewrite Hp.
Qed.

Lemma demoted_rows_of_actor tbl actor r :
  In r (update_rows tbl demote "user_id" actor) ->
  sql_eq (get r "user_id") actor = true ->
  get r "primary_resume" = JBool false.
Proof.
  unfold update_rows. intros Hin Hu. apply in_map_iff in Hin.
  destruct Hin as [r0 [Hr Hin]].
  destruct (sql_eq (get r0 "user_id") actor) eqn:E.
  - subst r. unfold assign, demote. simpl. apply get_set_same.
  - subst r0. congruence.
Qed.

(** C10. A successful POST /api/resumes keeps at most one primary resume
    per user, under any set of table constraints (the handler is run with the
    constraints of db.sql as [post_resumes]): when the upload is primary the
    actor's rows are first all set non-primary and the new row is appended
    primary; when the body says primary_resume = 'false' the existing rows
    are untouched and the new row is appended non-primary. *)
Theorem resume_upload_keeps_single_primary :
  forall (sch : table_schema) (now resumeId : string) (d : db) (user : row)
         (file : jsval) (reqBody : jsobj) (resp : response) (d' : db),
    resumes_handler sch now resumeId d user file reqBody = (resp, d') ->
    status resp = 201%nat ->
    at_most_one_primary (resumes d) ->
    at_most_one_primary (resumes d')
    /\ (if strict_eq (get reqBody "primary_resume") (JStr "false")
        then resumes d' = resumes d ++ [new_resume now resumeId user file false]
        else resumes d'
             = update_rows (resumes d) demote "user_id" (get user "user_id")
               ++ [new_resume now resumeId user file true]
             /\ forall r,
                 In r (update_rows (resumes d) demote "user_id" (get user "user_id")) ->
                 sql_eq (get r "user_id") (get user "user_id") = true ->
                 get r "primary_resume" = JBool false).
Proof.
  intros sch now resumeId d user file reqBody resp d' H Hs Hinv.
  unfold resumes_handler in H.
  destruct (negb (truthy file)); [inversion H; subst; discriminate|].
  unfold exec_insert in H.
  destruct (strict_eq (get reqBody "primary_resume") (JStr "false")) eqn:Ep;
    cbn [negb] in H.
  - destruct (violation sch _); [inversion H; subst; discriminate|].
    inversion H; subst resp d'; clear H. cbn [resumes with_resumes].
    split; [|reflexivity].
    intros uid. rewrite filter_app, length_app.
    match goal with
    | |- context [filter (primary_of uid) [?r]] =>
        change r with (new_resume now resumeId user file false)
    end.
    assert (Hn : primary_of uid (new_resume now resumeId user file false) = false).
    { unfold primary_of.
      change (get (new_resume now resumeId user file false) "primary_resume")
        with (JBool false).
      apply andb_false_r. }
    cbn [filter]. rewrite Hn. cbn [List.length]. specialize (Hinv uid). lia.
  - destruct (violation sch _); [inversion H; subst; discriminate|].
    inversion H; subst resp d'; clear H. cbn [resumes with_resumes].
    split; [|split; [reflexivity|apply demoted_rows_of_actor]].
    intros uid. rewrite filter_app, length_app.
    match goal with
    | |- context [filter (primary_of uid) [?r]] =>
        change r with (new_resume now resumeId user file true)
    end.
    fold demote.
    destruct (primary_of uid (new_resume now resumeId user file true)) eqn:Hn;
      cbn [filter]; rewrite Hn; cbn [List.length].
    + assert (Hu : sql_eq (get user "user_id") uid = true).
      { unfold primary_of in Hn. apply andb_true_iff in Hn. destruct Hn as [Hn _].
        change (get (new_resume now resumeId user file true) "user_id")
          with (bind (get user "user_id")) in Hn.
        now rewrite sql_eq_bind in Hn. }
      rewrite (demote_clears _ _ _ Hu). cbn [List.length]. lia.
    + pose proof (demote_count (resumes d) (get user "user_id") uid) as Hc.
      specialize (Hinv uid). lia.
Qed.

(** ** Search patterns *)

Lemma map_string_app f a b : map_string f (a ^ b) = map_string f a ^ map_string f b.
Proof. induction a; simpl; congruence. Qed.

Lemma lower_wildcard (c : ascii) : is_wildcard (lower_ascii c) = is_wildcard c.
Proof.
  destruct c as [[] [] [] [] [] [] [] []]; reflexivity.
Qed.

Lemma plain_lower (s : string) : plain (toLowerCase s) = plain s.
Proof.
  induction s as [|c s IH]; simpl; auto.
  unfold toLowerCase in IH. now rewrite lower_wildcard, IH.
Qed.

Lemma like_plain_char c p t :
  is_wildcard c = false ->
  like_match (String c p) t
  = match t with
    | EmptyString => false
    | String e t' => Ascii.eqb c e && like_match p t'
    end.
Proof.
  unfold is_wildcard. intros H.
  apply orb_false_iff in H. destruct H as [H H3].
  apply orb_false_iff in H. destruct H as [H1 H2].
  cbn [like_match]. now rewrite H1, H2, H3.
Qed.

(** A run of plain characters matches itself, then the rest. *)
Lemma like_plain_prefix s p t :
  plain s = true ->
  (like_match (s ^ p) t = true <-> exists t', t = s ^ t' /\ like_match p t' = true).
Proof.
  revert t. induction s as [|c s IH]; intros t Hs.
  - simpl. split; [intros H; now exists t|intros [t' [-> H]]; exact H].
  - simpl in Hs. apply andb_true_iff in Hs. destruct Hs as [Hc Hs].
    apply negb_true_iff in Hc.
    change (String c s ^ p) with (String c (s ^ p)).
    rewrite like_plain_char by exact Hc.
    destruct t as [|e t]; [split; [discriminate|intros [t' [H _]]; discriminate]|].
    split.
    + intros H. apply andb_true_iff in H. destruct H as [He H].
      apply Ascii.eqb_eq in He. subst e.
      apply (IH t Hs) in H. destruct H as [t' [-> H]]. now exists t'.
    + intros [t' [Ht H]]. simpl in Ht. inversion Ht; subst.
      rewrite Ascii.eqb_refl. simpl. apply (IH _ Hs). now exists t'.
Qed.

Lemma like_percent p t :
  like_match (String "%" p) t
  = (like_match p t
     || match t with
        | EmptyString => false
        | String _ t' => like_match (String "%" p) t'
        end).
Proof. destruct t; reflexivity. Qed.

(** [%] lets the rest of the pattern start anywhere. *)
Lemma like_percent_split p t :
  like_match (String "%" p) t = true
  <-> exists pre suf, t = pre ^ suf /\ like_match p suf = true.
Proof.
  induction t as [|e t IH]; rewrite like_percent.
  - rewrite orb_false_r. split.
    + intros H. now exists "", "".
    + intros [pre [suf [Ht H]]]. destruct pre; simpl in Ht; [now subst|discriminate].
  - split.
    + intros H. apply orb_true_iff in H. destruct H as [H|H].
      * now exists "", (String e t).
      * apply IH in H. destruct H as [pre [suf [-> H]]].
        now exists (String e pre), suf.
    + intros [pre [suf [Ht H]]]. apply orb_true_iff.
      destruct pre as [|c pre]; simpl in Ht.
      * left. now subst.
      * right. inversion Ht; subst. apply IH. now exists pre, suf.
Qed.

Lemma like_percent_all t : like_match "%" t = true.
Proof.
  apply like_percent_split. exists t, "". split; [now rewrite append_empty_r|reflexivity].
Qed.

(** The pattern the handlers bind for a search matches exactly the texts
    containing it, letter case aside, when the search has no LIKE
    metacharacter. *)
Lemma ilike_contains (text search : string) :
  plain search = true ->
  (ilike text ("%" ^ search ^ "%") = true <-> contains_ci text search).
Proof.
  intros Hp. unfold ilike, contains_ci, toLowerCase.
  rewrite !map_string_app.
  change (map_string lower_ascii "%") with "%".
  change ("%" ^ map_string lower_ascii search ^ "%")
    with (String "%" (map_string lower_ascii search ^ "%")).
  rewrite like_percent_split.
  assert (Hp' : plain (map_string lower_ascii search) = true).
  { rewrite <- Hp. apply plain_lower. }
  split.
  - intros [pre [suf [Ht H]]].
    apply (like_plain_prefix _ _ _ Hp') in H. destruct H as [post [-> _]].
    now exists pre, post.
  - intros [pre [post Ht]]. exists pre, (map_string lower_ascii search ^ post).
    split; auto. apply (like_plain_prefix _ _ _ Hp'). exists post.
    split; auto. apply like_percent_all.
Qed.

Lemma search_clause_contains (cols : list string) (search : string) (r : row) :
  plain search = true ->
  (eval_clause [contains_pattern search] r (CIlike cols 1) = true
   <-> exists col t, In col cols /\ sql_text (get r (column_key col)) = Some t
                     /\ contains_ci t search).
Proof.
  intros Hp. cbn [eval_clause]. rewrite existsb_exists.
  change (sql_text (param [contains_pattern search] 1))
    with (Some ("%" ^ search ^ "%")).
  split.
  - intros [col [Hin H]]. destruct (sql_text (get r (column_key col))) as [t|] eqn:E;
      [|discriminate].
    exists col, t. repeat split; auto. now apply ilike_contains.
  - intros [col [t [Hin [Ht Hc]]]]. exists col. split; auto. rewrite Ht.
    now apply ilike_contains.
Qed.

(** ** Values are bound, never interpolated *)

Lemma projects_text_by_pattern q1 q2 :
  same_sort q1 q2 -> projects_fired q1 = projects_fired q2 ->
  sel_text (projects_item_query q1) = sel_text (projects_item_query q2)
  /\ sel_text (projects_count_query q1) = sel_text (projects_count_query q2).
Proof.
  intros [Hs Ho] Hf. unfold projects_fired in Hf. same_text.
  unfold projects_item_query, projects_count_query, paged_query, count_select,
    projects_filters.
  cbn [sel_text]. rewrite Hs, Ho.
  repeat match goal with H : truthy _ = truthy _ |- _ => rewrite H; clear H end.
  destruct (truthy (get q2 "search")), (truthy (get q2 "category")),
    (truthy (get q2 "user_id")); split; reflexivity.
Qed.

Lemma skills_text_by_pattern q1 q2 :
  same_sort q1 q2 -> skills_fired q1 = skills_fired q2 ->
  sel_text (skills_query q1) = sel_text (skills_query q2).
Proof.
  intros [Hs Ho] Hf. unfold skills_fired in Hf. same_text.
  unfold skills_query, skills_filters.
  cbn [sel_text]. rewrite Hs, Ho.
  repeat match goal with H : truthy _ = truthy _ |- _ => rewrite H; clear H end.
  destruct (truthy (get q2 "search")), (truthy (get q2 "category")),
    (truthy (get q2 "min_proficiency")); reflexivity.
Qed.

Lemma contact_text_by_pattern q1 q2 :
  same_sort q1 q2 -> contact_fired q1 = contact_fired q2 ->
  sel_text (contact_item_query q1) = sel_text (contact_item_query q2)
  /\ sel_text (contact_count_query q1) = sel_text (contact_count_query q2).
Proof.
  intros [Hs Ho] Hf. unfold contact_fired in Hf. same_text.
  unfold contact_item_query, contact_count_query, paged_query, count_select,
    contact_filters, contact_count_filters.
  cbn [sel_text]. rewrite Hs, Ho.
  repeat match goal with
         | H : truthy _ = truthy _ |- _ => rewrite H; clear H
         | H : defined _ = defined _ |- _ => rewrite H; clear H
         end.
  destruct (truthy (get q2 "search")), (defined (get q2 "read")),
    (truthy (get q2 "start_date")), (truthy (get q2 "end_date")); split; reflexivity.
Qed.

Lemma users_text_by_pattern q1 q2 :
  same_sort q1 q2 -> users_fired q1 = users_fired q2 ->
  sel_text (users_item_query q1) = sel_text (users_item_query q2)
  /\ sel_text (users_count_query q1) = sel_text (users_count_query q2).
Proof.
  intros [Hs Ho] Hf. unfold users_fired in Hf. same_text.
  unfold users_item_query, users_count_query, paged_query, count_select, users_filters.
  cbn [sel_text]. rewrite Hs, Ho.
  repeat match goal with H : truthy _ = truthy _ |- _ => rewrite H; clear H end.
  destruct (truthy (get q2 "role")), (truthy (get q2 "search")); split; reflexivity.
Qed.

Lemma list_values_bound q :
  sel_values (projects_item_query q)
  = bound_if (truthy (get q "search")) (search_value q)
    ++ bound_if (truthy (get q "category")) (get q "category")
    ++ bound_if (truthy (get q "user_id")) (get q "user_id")
    ++ page_values q
  /\ sel_values (skills_query q)
     = bound_if (truthy (get q "search")) (search_value q)
       ++ bound_if (truthy (get q "category")) (get q "category")
       ++ bound_if (truthy (get q "min_proficiency")) (get q "min_proficiency")
       ++ [get q "limit"]
  /\ sel_values (contact_item_query q)
     = bound_if (truthy (get q "search")) (search_value q)
       ++ bound_if (defined (get q "read")) (get q "read")
       ++ bound_if (truthy (get q "start_date")) (get q "start_date")
       ++ bound_if (truthy (get q "end_date")) (get q "end_date")
       ++ page_values q
  /\ sel_values (users_item_query q)
     = bound_if (truthy (get q "role")) (get q "role")
       ++ bound_if (truthy (get q "search")) (search_value q)
       ++ page_values q.
Proof.
  unfold projects_item_query, skills_query, contact_item_query, users_item_query,
    paged_query, projects_filters, skills_filters, contact_filters, users_filters,
    page_values, search_value.
  cbn [sel_values].
  destruct (truthy (get q "search")), (truthy (get q "category")),
    (truthy (get q "user_id")), (truthy (get q "min_proficiency")),
    (defined (get q "read")), (truthy (get q "start_date")),
    (truthy (get q "end_date")), (truthy (get q "role")); repeat split.
Qed.

(** C8 (as amended). The text of every list statement is fixed by which
    filters fire (a filter fires on a truthy value; [read] on a defined
    one) and by the allow-listed sort field and direction, the only request
    data written into the text: two validated queries that agree on these
    yield identical texts, whatever the filter values, the page and the
    limit. The filter values, the limit and the offset travel in the bound
    array, a search as the pattern [%search%]. A search holding none of the
    characters [%], [_] and backslash matches exactly the rows where a
    searched column contains it, letter case aside. *)
Theorem filter_values_bound_not_interpolated :
  (forall q1 q2 : jsobj,
      same_sort q1 q2 ->
      (projects_fired q1 = projects_fired q2 ->
       sel_text (projects_item_query q1) = sel_text (projects_item_query q2)
       /\ sel_text (projects_count_query q1) = sel_text (projects_count_query q2))
      /\ (skills_fired q1 = skills_fired q2 ->
          sel_text (skills_query q1) = sel_text (skills_query q2))
      /\ (contact_fired q1 = contact_fired q2 ->
          sel_text (contact_item_query q1) = sel_text (contact_item_query q2)
          /\ sel_text (contact_count_query q1) = sel_text (contact_count_query q2))
      /\ (users_fired q1 = users_fired q2 ->
          sel_text (users_item_query q1) = sel_text (users_item_query q2)
          /\ sel_text (users_count_query q1) = sel_text (users_count_query q2)))
  /\ (forall q : jsobj,
        sel_values (projects_item_query q)
        = bound_if (truthy (get q "search")) (search_value q)
          ++ bound_if (truthy (get q "category")) (get q "category")
          ++ bound_if (truthy (get q "user_id")) (get q "user_id")
          ++ page_values q
        /\ sel_values (skills_query q)
           = bound_if (truthy (get q "search")) (search_value q)
             ++ bound_if (truthy (get q "category")) (get q "category")
             ++ bound_if (truthy (get q "min_proficiency")) (get q "min_proficiency")
             ++ [get q "limit"]
        /\ sel_values (contact_item_query q)
           = bound_if (truthy (get q "search")) (search_value q)
             ++ bound_if (defined (get q "read")) (get q "read")
             ++ bound_if (truthy (get q "start_date")) (get q "start_date")
             ++ bound_if (truthy (get q "end_date")) (get q "end_date")
             ++ page_values q
        /\ sel_values (users_item_query q)
           = bound_if (truthy (get q "role")) (get q "role")
             ++ bound_if (truthy (get q "search")) (search_value q)
             ++ page_values q)
  /\ (forall (cols : list string) (search : string) (r : row),
        plain search = true ->
        (eval_clause [contains_pattern search] r (CIlike cols 1) = true
         <-> exists col t, In col cols /\ sql_text (get r (column_key col)) = Some t
                           /\ contains_ci t search)).
Proof.
  split; [|split].
  - intros q1 q2 Hs. split; [|split; [|split]]; intros Hf.
    + now apply projects_text_by_pattern.
    + now apply skills_text_by_pattern.
    + now apply contact_text_by_pattern.
    + now apply users_text_by_pattern.
  - apply list_values_bound.
  - apply search_clause_contains.
Qed.

(** ** The error envelope *)

(** What a statement of the handlers throws is an error of the driver. *)
Lemma exec_update_thrown sch tbl u vals key error :
  exec_update sch tbl u vals key = inl error -> thrown error.
Proof.
  only_used. unfold exec_update. cbv zeta.
  destruct (violation sch _); intros H; inversion H. constructor.
Qed.

Lemma exec_update_on_thrown columns sch tbl u vals key error :
  exec_update_on columns sch tbl u vals key = inl error -> thrown error.
Proof.
  only_used. unfold exec_update_on.
  destruct (find _ (u_sets u)).
  - intros H. inversion H. constructor.
  - apply exec_update_thrown.
Qed.

Lemma exec_insert_thrown sch tbl r error :
  exec_insert sch tbl r = inl error -> thrown error.
Proof.
  only_used. unfold exec_insert. cbv zeta.
  destruct (violation sch _); intros H; inversion H. constructor.
Qed.

(** Settles what kind of answer the leaves of a handler are. *)
Ltac leaf :=
  cbn [fst snd];
  first [ now left
        | now (right; left)
        | right; right;
          first [ apply invalid_input
                | apply caught_error;
                  solve [ constructor
                        | eauto using exec_update_thrown, exec_update_on_thrown,
                            exec_insert_thrown ]
                | apply refused_token; solve [constructor | econstructor; eassumption]
                | apply own_refusal; [simpl; tauto | discriminate] ] ].

Ltac classify :=
  unfold classified;
  repeat first [ progress cbv zeta
               | match goal with
                 | |- context [match ?x with _ => _ end] => destruct x eqn:?
                 end ];
  leaf.

Lemma authenticateToken_answer now d headers r :
  authenticateToken now d headers = inl r -> error_answer now r.
Proof.
  only_used.
  unfold authenticateToken.
  destruct (negb (truthy (bearer_token headers))).
  - intros H. inversion H; subst. apply own_refusal; [simpl; tauto|discriminate].
  - destruct (jwt_verify _ JWT_SECRET) as [error|decoded] eqn:Ev.
    + intros H. inversion H; subst. apply refused_token. econstructor. exact Ev.
    + destruct (select_where (users d) "user_id" (prop decoded "user_id"));
        cbn [map]; intros H; inversion H; subst.
      apply own_refusal; [simpl; tauto|discriminate].
Qed.

Lemma requireRole_answer roles now user r :
  requireRole roles now user = Some r -> error_answer now r.
Proof.
  only_used. unfold requireRole.
  destruct (negb (truthy user)).
  - intros H. inversion H; subst. apply own_refusal; [simpl; tauto|discriminate].
  - destruct (existsb _ roles); [discriminate|].
    intros H. inversion H; subst. apply own_refusal; [simpl; tauto|discriminate].
Qed.

Lemma authenticated_classified now d headers handler :
  (forall user, classified now (fst (handler user))) ->
  classified now (fst (authenticated now d headers handler)).
Proof.
  only_used.
  intros H. unfold authenticated.
  destruct (authenticateToken now d headers) as [r|user] eqn:Ea; [|apply H].
  right. right. exact (authenticateToken_answer _ _ _ _ Ea).
Qed.

Lemma admin_only_classified now d handler user :
  classified now (fst (handler user)) ->
  classified now (fst (admin_only now handler d user)).
Proof.
  only_used. intros H. unfold admin_only.
  destruct (requireRole ["admin"] now (JObj user)) as [r|] eqn:Er; [|exact H].
  right. right. exact (requireRole_answer _ _ _ _ Er).
Qed.

Lemma binding_id_classified now d id res :
  classified now (fst res) -> classified now (fst (binding_id now d id res)).
Proof.
  only_used. intros H. unfold binding_id.
  destruct (valid_text (JStr id)); [exact H|].
  right. right. apply caught_error. constructor.
Qed.

Lemma caught_classified now res :
  classified now (fst res) -> classified now (fst (caught now res)).
Proof.
  only_used. intros H. unfold caught.
  destruct (issue (snd res)) as [issued [v|]]; [|exact H].
  right. right. apply caught_error. constructor.
Qed.

Lemma admin_list_classified now d headers handler :
  classified now (fst handler) ->
  classified now (fst (admin_list now d headers handler)).
Proof.
  only_used.
  intros H. unfold admin_list.
  destruct (authenticateToken now d headers) as [r|user] eqn:Ea.
  - right. right. exact (authenticateToken_answer _ _ _ _ Ea).
  - destruct (requireRole ["admin"] now (JObj user)) as [r|] eqn:Er.
    + right. right. exact (requireRole_answer _ _ _ _ Er).
    + now apply caught_classified.
Qed.

Lemma page_response_classified now key d q item count :
  classified now (fst (page_response key d q item count)).
Proof. only_used. now left. Qed.

Lemma get_projects_classified now d reqQuery :
  classified now (fst (get_projects now d reqQuery)).
Proof. only_used. unfold get_projects. classify. Qed.

Lemma get_skills_classified now d reqQuery :
  classified now (fst (get_skills now d reqQuery)).
Proof. only_used. unfold get_skills. classify. Qed.

Lemma get_users_classified now d reqQuery :
  classified now (fst (get_users now d reqQuery)).
Proof. only_used. unfold get_users. classify. Qed.

Lemma get_contact_classified now d reqQuery :
  classified now (fst (get_contact now d reqQuery)).
Proof. only_used. unfold get_contact. classify. Qed.

Lemma put_project_classified now d user pid body :
  classified now (fst (put_project now d user pid body)).
Proof. only_used. unfold put_project. classify. Qed.

Lemma delete_project_classified now d user pid :
  classified now (fst (delete_project now d user pid)).
Proof. only_used. unfold delete_project. classify. Qed.

Lemma put_gallery_image_classified now d user iid body :
  classified now (fst (put_gallery_image now d user iid body)).
Proof. only_used. unfold put_gallery_image. classify. Qed.

Lemma delete_gallery_image_classified now d user iid :
  classified now (fst (delete_gallery_image now d user iid)).
Proof. only_used. unfold delete_gallery_image. classify. Qed.

Lemma put_experience_classified now d user eid body :
  classified now (fst (put_experience now d user eid body)).
Proof. only_used. unfold put_experience. classify. Qed.

Lemma delete_experience_classified now d user eid :
  classified now (fst (delete_experience now d user eid)).
Proof. only_used. unfold delete_experience. classify. Qed.

Lemma put_contact_classified now d mid body :
  classified now (fst (put_contact now d mid body)).
Proof. only_used. unfold put_contact. classify. Qed.

Lemma post_register_classified now userId d body :
  classified now (fst (post_register now userId d body)).
Proof. only_used. unfold post_register. classify. Qed.

Lemma post_login_classified now d body :
  classified now (fst (post_login now d body)).
Proof. only_used. unfold post_login. classify. Qed.

Lemma user_by_id_classified cols now d uid :
  classified now (user_by_id cols now d uid).
Proof. only_used. unfold user_by_id. classify. Qed.

Lemma put_profile_classified now d user body :
  classified now (fst (put_profile now d user body)).
Proof. only_used. unfold put_profile. classify. Qed.

Lemma get_project_classified now d pid : classified now (get_project now d pid).
Proof. only_used. unfold get_project. classify. Qed.

Lemma post_project_classified now projectId d user body :
  classified now (fst (post_project now projectId d user body)).
Proof. only_used. unfold post_project. classify. Qed.

Lemma post_gallery_image_classified now imageId d user pid body :
  classified now (fst (post_gallery_image now imageId d user pid body)).
Proof. only_used. unfold post_gallery_image. classify. Qed.

Lemma post_contact_classified now messageId d body :
  classified now (fst (post_contact now messageId d body)).
Proof. only_used. unfold post_contact. classify. Qed.

Lemma post_skill_classified now skillId d body :
  classified now (fst (post_skill now skillId d body)).
Proof. only_used. unfold post_skill. classify. Qed.

Lemma post_experience_classified now experienceId d user body :
  classified now (fst (post_experience now experienceId d user body)).
Proof. only_used. unfold post_experience. classify. Qed.

Lemma get_user_resume_classified now d uid : classified now (get_user_resume now d uid).
Proof. only_used. unfold get_user_resume. classify. Qed.

Lemma resumes_handler_classified sch now resumeId d user file body :
  classified now (fst (resumes_handler sch now resumeId d user file body)).
Proof. only_used. unfold resumes_handler. classify. Qed.

(** Every answer of the server is a success or an error answer. *)
Lemma answer_classified now d r : answer now d r -> classified now r.
Proof.
  only_used.
  intros H. destruct H.
  - right. right. eapply authenticateToken_answer; eassumption.
  - right. right. eapply requireRole_answer; eassumption.
  - apply post_register_classified.
  - apply post_login_classified.
  - now left.
  - apply user_by_id_classified.
  - apply put_profile_classified.
  - apply user_by_id_classified.
  - apply admin_list_classified, get_users_classified.
  - apply caught_classified, get_projects_classified.
  - apply get_project_classified.
  - apply post_project_classified.
  - apply authenticated_classified. intros user.
    apply binding_id_classified, put_project_classified.
  - apply authenticated_classified. intros user.
    apply binding_id_classified, delete_project_classified.
  - apply caught_classified. now left.
  - apply post_gallery_image_classified.
  - apply authenticated_classified. intros user.
    apply binding_id_classified, put_gallery_image_classified.
  - apply authenticated_classified. intros user.
    apply binding_id_classified, delete_gallery_image_classified.
  - apply post_contact_classified.
  - apply admin_list_classified, get_contact_classified.
  - apply authenticated_classified. intros user. apply admin_only_classified.
    destruct (updateContactMessageInputSchema _).
    + apply put_contact_classified.
    + apply binding_id_classified, put_contact_classified.
  - apply caught_classified, get_skills_classified.
  - apply authenticated_classified. intros user. apply admin_only_classified.
    apply post_skill_classified.
  - apply caught_classified. now left.
  - apply post_experience_classified.
  - apply authenticated_classified. intros user.
    apply binding_id_classified, put_experience_classified.
  - apply authenticated_classified. intros user.
    apply binding_id_classified, delete_experience_classified.
  - apply get_user_resume_classified.
  - apply resumes_handler_classified.
Qed.

(** The envelope of an error answer. *)
Lemma error_answer_envelope now r :
  error_answer now r ->
  (400 <= status r)%nat
  /\ (exists message error code,
        body r = createErrorResponse now message error code /\ code <> "")
  /\ (status r = 500%nat -> exists error, thrown error /\ r = internal_error now error).
Proof.
  only_used.
  intros H. destruct H as [st message code Hst Hc|issues|error Ht|error Ht].
  - cbn [status error_response body]. cbn [In] in Hst. split; [|split].
    + destruct Hst as [<-|[<-|[<-|[<-|[]]]]]; lia.
    + exists message, JNull, code. split; [reflexivity|exact Hc].
    + intros ->. destruct Hst as [H|[H|[H|[H|[]]]]]; discriminate H.
  - cbn [status validation_error body]. split; [lia|]. split; [|discriminate].
    exists "Validation error", (issues_value issues), "VALIDATION_ERROR".
    split; [reflexivity|discriminate].
  - cbn [status internal_error body]. split; [lia|]. split.
    + exists "Internal server error", error, "INTERNAL_SERVER_ERROR".
      split; [reflexivity|discriminate].
    + intros _. exists error. split; [exact Ht|reflexivity].
  - cbn [status body]. split; [lia|]. split; [|discriminate].
    exists "Invalid or expired token", error, "AUTH_TOKEN_INVALID".
    split; [reflexivity|discriminate].
Qed.

(** C7 (as amended). Every answer of the middleware and of the routes of
    accounts, users, projects, gallery images, skills, experiences, contact
    messages and resumes is a success (200 or 201) or an error answer with
    the envelope success = false, message, timestamp, error_code and, exactly
    when a truthy error value is passed to createErrorResponse, details with
    that value's name, message and stack. The 4xx answers the handlers and
    the middleware decide themselves pass no error and carry no details; a
    validation error passes the issue array, whose details hold no name,
    message or stack; every 500 answer passes the error a handler caught (the
    driver's, for a violated constraint, an unknown column or a refused
    value, or the runtime's), and the 403 for a refused token passes what
    [jwt.verify] threw: their details expose its message and stack. The 500
    answer of the health check is no such envelope; it carries the message of
    the error. *)
Theorem error_envelope_details :
  (forall (now : string) (d : db) (r : response),
      answer now d r ->
      status r = 200%nat \/ status r = 201%nat \/ error_answer now r)
  /\ (forall (now : string) (r : response),
        error_answer now r ->
        (400 <= status r)%nat
        /\ (exists message error code,
              body r = createErrorResponse now message error code /\ code <> "")
        /\ (status r = 500%nat ->
            exists error, thrown error /\ r = internal_error now error))
  /\ (forall (now message : string) (error : jsval) (code : string),
      let r := createErrorResponse now message error code in
      get r "success" = JBool false
      /\ get r "message" = JStr message
      /\ get r "timestamp" = JStr now
      /\ get r "error_code" = (if String.eqb code "" then JUndefined else JStr code)
      /\ get r "details" = (if truthy error then error_details error else JUndefined))
  /\ (forall (st : nat) (now message code : string),
        details_of (error_response st now message code) = JUndefined)
  /\ (forall (now : string) (issues : list string),
        details_of (validation_error now issues)
        = JObj [("name", JUndefined); ("message", JUndefined); ("stack", JUndefined)])
  /\ (forall (now : string) (e : jsobj),
        details_of (internal_error now (JObj e))
        = JObj [("name", get e "name"); ("message", get e "message");
                ("stack", get e "stack")])
  /\ (forall (now : string) (d : db) (headers : jsobj) (e : jsobj),
        truthy (bearer_token headers) = true ->
        jwt_verify (js_to_string (bearer_token headers)) JWT_SECRET = inl (JObj e) ->
        exists r, authenticateToken now d headers = inl r
                  /\ details_of r = JObj [("name", get e "name");
                                          ("message", get e "message");
                                          ("stack", get e "stack")])
  /\ (forall (now : string) (error : jsval),
        status (get_health now (Some error)) = 500%nat
        /\ ~ error_answer now (get_health now (Some error))
        /\ get (body (get_health now (Some error))) "error" = prop error "message").
Proof.
  only_used.
  split; [|split; [|split; [|split; [|split; [|split; [|split]]]]]].
  - intros now d r H. exact (answer_classified now d r H).
  - intros now r H. exact (error_answer_envelope now r H).
  - intros now message error code r. subst r. unfold createErrorResponse, error_details.
    cbn [truthy]. destruct (String.eqb code ""), (truthy error); repeat split.
  - intros st now message code. unfold details_of, error_response, createErrorResponse.
    cbn [truthy body]. destruct (String.eqb code ""); reflexivity.
  - reflexivity.
  - reflexivity.
  - intros now d headers e Ht Hv. unfold authenticateToken. rewrite Ht, Hv.
    eexists. split; reflexivity.
  - intros now error. split; [reflexivity|]. split; [|reflexivity].
    intros H. destruct (error_answer_envelope now _ H)
      as [_ [[message [e [code [Hbody _]]]] _]].
    apply (f_equal (fun o => get o "success")) in Hbody.
    unfold createErrorResponse in Hbody. cbn [get_health body get] in Hbody.
    destruct (truthy (JStr code)), (truthy e);
      rewrite ?get_set_other in Hbody by discriminate; discriminate Hbody.
Qed.

(** ** Rows added to a table *)

Lemma exec_insert_inr sch tbl r tbl' :
  exec_insert sch tbl r = inr tbl' ->
  tbl' = tbl ++ [map (fun kv => (fst kv, bind (snd kv))) r]
  /\ violation sch tbl' = None.
Proof. only_used.
  unfold exec_insert. cbv zeta.
  destruct (violation sch _) eqn:E; intros H; inversion H; subst; auto.
Qed.

Lemma inserted_last (tbl : list row) (r : row) : inserted (tbl ++ [r]) = r.
Proof. only_used. unfold inserted. apply last_last. Qed.

Lemma violation_unique sch tbl c n :
  violation sch tbl = None -> In (c, n) (uniques sch) ->
  has_duplicate (map (fun r => get r c) tbl) = false.
Proof. only_used.
  unfold violation. destruct (find _ (not_nulls sch)); [discriminate|].
  destruct (find _ (uniques sch)) eqn:E; [discriminate|].
  intros _ Hin. exact (find_none _ _ E (c, n) Hin).
Qed.

Lemma violation_not_null sch tbl c r :
  violation sch tbl = None -> In c (not_nulls sch) -> In r tbl ->
  is_null (get r c) = false.
Proof. only_used.
  unfold violation. destruct (find _ (not_nulls sch)) eqn:E; [discriminate|].
  intros _ Hc Hr. pose proof (find_none _ _ E c Hc) as H. cbv beta in H.
  destruct (is_null (get r c)) eqn:En; auto.
  assert (Hex : existsb (fun r => is_null (get r c)) tbl = true).
  { apply existsb_exists. eauto. }
  congruence.
Qed.

Lemma has_duplicate_last l v :
  has_duplicate (l ++ [v]) = false -> forall x, In x l -> sql_eq x v = false.
Proof. only_used.
  induction l as [|a l IH]; intros H x Hin; [destruct Hin|].
  cbn [app has_duplicate] in H. apply orb_false_iff in H. destruct H as [H1 H2].
  rewrite existsb_app in H1. apply orb_false_iff in H1. destruct H1 as [_ H1].
  cbn [existsb] in H1. rewrite orb_false_r in H1.
  destruct Hin as [<-|Hin]; auto.
Qed.

Lemma filter_none {A : Type} (f : A -> bool) (l : list A) :
  (forall x, In x l -> f x = false) -> filter f l = [].
Proof. only_used.
  induction l as [|a l IH]; intros H; [reflexivity|].
  cbn [filter]. rewrite (H a (or_introl eq_refl)). apply IH.
  intros x Hx. apply H. now right.
Qed.

Lemma select_where_nil tbl c v :
  select_where tbl c v = [] -> forall r, In r tbl -> sql_eq (get r c) v = false.
Proof. only_used.
  intros H r Hin. destruct (sql_eq (get r c) v) eqn:E; auto.
  assert (Hf : In r (select_where tbl c v)).
  { unfold select_where. apply filter_In. auto. }
  rewrite H in Hf. destruct Hf.
Qed.

(** A row that passed a unique constraint had no rival in the table. *)
Lemma fresh_in_table sch tbl r c n :
  violation sch (tbl ++ [r]) = None -> In (c, n) (uniques sch) ->
  select_where tbl c (get r c) = [].
Proof. only_used.
  intros Hv Hin. pose proof (violation_unique _ _ _ _ Hv Hin) as H.
  rewrite map_app in H. cbn [map] in H.
  unfold select_where. apply filter_none. intros x Hx.
  apply (has_duplicate_last _ _ H).
  change (get x c) with ((fun r => get r c) x). now apply in_map.
Qed.

Lemma select_where_app tbl1 tbl2 c v :
  select_where (tbl1 ++ tbl2) c v = select_where tbl1 c v ++ select_where tbl2 c v.
Proof. only_used. unfold select_where. apply filter_app. Qed.

Lemma strict_eq_eq (a b : jsval) : strict_eq a b = true -> a = b.
Proof. only_used.
  destruct a, b; simpl; try discriminate; intros H; auto.
  - apply Bool.eqb_prop in H. now subst.
  - apply Z.eqb_eq in H. now subst.
  - apply String.eqb_eq in H. now subst.
Qed.

(** ** Schemas that hand back their input *)

Lemma passes_string : passes z_string.
Proof. only_used. intros x w. unfold z_string. destruct x; congruence. Qed.

Lemma passes_boolean : passes z_boolean.
Proof. only_used. intros x w. unfold z_boolean. destruct x; congruence. Qed.

Lemma passes_int : passes z_int.
Proof. only_used. intros x w. unfold z_int. destruct x; congruence. Qed.

Lemma passes_any : passes z_any.
Proof. only_used. intros x w. unfold z_any. congruence. Qed.

Lemma passes_refine ok s : passes s -> passes (z_refine ok s).
Proof. only_used.
  intros Hs x w. unfold z_refine. destruct (s x) as [v|] eqn:E; [|discriminate].
  destruct (ok v); [|discriminate]. intros H. inversion H; subst. eauto.
Qed.

Lemma passes_optional s : passes s -> passes (z_optional s).
Proof. only_used. intros Hs x w. unfold z_optional. destruct x; try apply Hs. congruence. Qed.

Lemma passes_nullable s : passes s -> passes (z_nullable s).
Proof. only_used. intros Hs x w. unfold z_nullable. destruct x; try apply Hs. congruence. Qed.

Lemma passes_or s1 s2 : passes s1 -> passes s2 -> passes (z_or s1 s2).
Proof. only_used.
  intros H1 H2 x w. unfold z_or. destruct (s1 x) eqn:E.
  - intros H. inversion H; subst. eauto.
  - apply H2.
Qed.

Lemma passes_literal l : passes (z_literal l).
Proof. only_used.
  intros x w. unfold z_literal. destruct x; try discriminate.
  destruct (String.eqb s l); congruence.
Qed.

Lemma passes_enum allowed : passes (z_enum allowed).
Proof. only_used.
  intros x w. unfold z_enum. destruct x; try discriminate.
  destruct (existsb _ allowed); congruence.
Qed.

Lemma passes_array s : passes (z_array s).
Proof. only_used.
  intros x w. unfold z_array. destruct x; try discriminate.
  destruct (forallb _ l); congruence.
Qed.

Create HintDb zod.
#[local] Hint Resolve passes_string passes_boolean passes_int passes_any passes_refine
  passes_optional passes_nullable passes_or passes_literal passes_enum passes_array : zod.
#[local] Hint Unfold z_min_length z_max z_min z_positive z_nonnegative z_email z_url
  z_uuid : zod.

(** A key whose schema hands back its input is read from the input. *)
Lemma validated_field shape input q k s :
  NoDup (map fst shape) -> z_object shape input = inr q -> In (k, s) shape ->
  passes s -> get q k = get input k /\ s (get input k) = Some (get input k).
Proof. only_used.
  intros Hnd Hq Hin Hp.
  destruct (z_object_field _ _ _ Hnd Hq _ _ Hin) as [v [Hv Hg]].
  pose proof (Hp _ _ Hv) as He. split; congruence.
Qed.

Lemma refined_string ok x :
  z_refine ok z_string x = Some x -> exists s, x = JStr s /\ ok (JStr s) = true.
Proof. only_used.
  unfold z_refine, z_string. destruct x; try discriminate.
  destruct (ok (JStr s)) eqn:E; [|discriminate]. eauto.
Qed.

Lemma refined_twice ok1 ok2 x :
  z_refine ok1 (z_refine ok2 z_string) x = Some x ->
  exists s, x = JStr s /\ ok1 (JStr s) = true /\ ok2 (JStr s) = true.
Proof. only_used.
  unfold z_refine, z_string. destruct x; try discriminate.
  destruct (ok2 (JStr s)) eqn:E2; [|discriminate].
  destruct (ok1 (JStr s)) eqn:E1; [|discriminate]. eauto.
Qed.

Lemma optional_enum allowed x :
  z_optional (z_enum allowed) x = Some x ->
  x = JUndefined \/ exists s, x = JStr s /\ In s allowed.
Proof. only_used.
  unfold z_optional, z_enum. destruct x; try discriminate; auto.
  destruct (existsb (String.eqb s) allowed) eqn:E; [|discriminate].
  apply existsb_eqb_In in E. eauto.
Qed.

(** ** Accounts *)

Lemma createUser_nodup : NoDup (map fst createUserInputShape).
Proof. only_used. solve_nodup. Qed.

(** What a created account holds, given the body it was created from. *)
Lemma post_register_created now userId d reqBody resp d' :
  post_register now userId d reqBody = (resp, d') ->
  status resp = 201%nat ->
  exists e p account,
    get reqBody "email" = JStr e /\ get reqBody "password" = JStr p
    /\ (1 <= String.length e)%nat /\ (8 <= String.length p)%nat
    /\ users d' = users d ++ [account]
    /\ d' = with_users d (users d')
    /\ get account "user_id" = JStr userId
    /\ get account "email" = JStr (trim (toLowerCase e))
    /\ get account "password_hash" = JStr p
    /\ get account "role" = match get reqBody "role" with
                            | JUndefined => JStr "user"
                            | role => role
                            end
    /\ (forall u, In u (users d) ->
          sql_eq (get u "email") (JStr (trim (toLowerCase e))) = false)
    /\ resp = mkResponse 201 (session_body "User created successfully" account).
Proof. only_used.
  intros H Hs. unfold post_register in H.
  destruct (createUserInputSchema reqBody) as [issues|v] eqn:Ev;
    [inversion H; subst; discriminate|].
  unfold createUserInputSchema in Ev.
  destruct (validated_field _ _ _ "email" _ createUser_nodup Ev
              ltac:(simpl; auto) ltac:(autounfold with zod; auto 6 with zod))
    as [Hge He].
  destruct (validated_field _ _ _ "password" _ createUser_nodup Ev
              ltac:(simpl; auto) ltac:(autounfold with zod; auto 6 with zod))
    as [Hgp Hp].
  destruct (validated_field _ _ _ "role" _ createUser_nodup Ev
              ltac:(simpl; auto 7) ltac:(autounfold with zod; auto 6 with zod))
    as [Hgr Hr].
  apply refined_twice in He. destruct He as [e [He [Hne _]]].
  apply refined_string in Hp. destruct Hp as [p [Hp Hlen]].
  apply optional_enum in Hr.
  destruct (select_where (users d) "email" _) eqn:Es;
    [|inversion H; subst; discriminate].
  destruct (exec_insert users_schema (users d) _) as [error|tbl] eqn:Ei;
    [inversion H; subst; discriminate|].
  apply exec_insert_inr in Ei. destruct Ei as [-> _].
  inversion H; subst resp d'; clear H. rewrite inserted_last.
  cbn [users with_users].
  change (get (new_account now userId v) "email")
    with (JStr (trim (toLowerCase (js_to_string (get v "email"))))) in Es.
  rewrite Hge, He in Es. cbn [js_to_string] in Es.
  exists e, p. eexists.
  split; [exact He|]. split; [exact Hp|].
  split; [apply Nat.leb_le; exact Hne|].
  split; [apply Nat.leb_le; exact Hlen|].
  split; [reflexivity|]. split; [reflexivity|]. split; [reflexivity|].
  split.
  { change (get (map (fun kv => (fst kv, bind (snd kv))) (new_account now userId v)) "email")
      with (JStr (trim (toLowerCase (js_to_string (get v "email"))))).
    now rewrite Hge, He. }
  split.
  { change (get (map (fun kv => (fst kv, bind (snd kv))) (new_account now userId v))
              "password_hash")
      with (bind (get v "password")).
    now rewrite Hgp, Hp. }
  split.
  { change (get (map (fun kv => (fst kv, bind (snd kv))) (new_account now userId v)) "role")
      with (bind match get v "role" with JUndefined => JStr "user" | role => role end).
    rewrite Hgr. destruct Hr as [->|[s [-> _]]]; reflexivity. }
  split; [|reflexivity].
  apply select_where_nil. exact Es.
Qed.

(** X1. A registration answered 201 adds exactly one row to the user table
    and touches nothing else: the row holds the generated id, the submitted
    address lower-cased and trimmed, the submitted password as it was sent
    (at least eight characters, not hashed), and the role the body asked for
    ('user' when it names none); no earlier row had that address. *)
Theorem register_stores_account :
  forall (now userId : string) (d : db) (reqBody : jsobj) (resp : response) (d' : db),
    post_register now userId d reqBody = (resp, d') ->
    status resp = 201%nat ->
    exists e p account,
      get reqBody "email" = JStr e /\ get reqBody "password" = JStr p
      /\ (1 <= String.length e)%nat /\ (8 <= String.length p)%nat
      /\ users d' = users d ++ [account]
      /\ d' = with_users d (users d')
      /\ get account "user_id" = JStr userId
      /\ get account "email" = JStr (trim (toLowerCase e))
      /\ get account "password_hash" = JStr p
      /\ get account "role" = match get reqBody "role" with
                              | JUndefined => JStr "user"
                              | role => role
                              end
      /\ (forall u, In u (users d) ->
            sql_eq (get u "email") (JStr (trim (toLowerCase e))) = false)
      /\ resp = mkResponse 201 (session_body "User created successfully" account).
Proof. only_used. intros. eapply post_register_created; eauto. Qed.

(** X2. A valid registration whose address, once lower-cased and trimmed,
    is the address of a stored user is answered 400 USER_ALREADY_EXISTS and
    leaves the store as it was, whatever the letter case of the submitted
    address. *)
Theorem register_rejects_known_email :
  forall (now userId : string) (d : db) (reqBody validatedInput : jsobj)
         (e : string) (u : row),
    createUserInputSchema reqBody = inr validatedInput ->
    get reqBody "email" = JStr e ->
    In u (users d) ->
    get u "email" = JStr (trim (toLowerCase e)) ->
    post_register now userId d reqBody
    = (error_response 400 now "User with this email already exists"
         "USER_ALREADY_EXISTS", d).
Proof.
  only_used. intros now userId d reqBody v e u Hv He Hin Hu.
  unfold post_register. rewrite Hv. unfold createUserInputSchema in Hv.
  destruct (validated_field _ _ _ "email" _ createUser_nodup Hv
              ltac:(simpl; auto) ltac:(autounfold with zod; auto 6 with zod))
    as [Hge _].
  change (get (new_account now userId v) "email")
    with (JStr (trim (toLowerCase (js_to_string (get v "email"))))).
  rewrite Hge, He. cbn [js_to_string].
  destruct (select_where (users d) "email" _) eqn:Es; [|reflexivity].
  pose proof (select_where_nil _ _ _ Es u Hin) as Hf. rewrite Hu in Hf.
  cbn [sql_eq sql_text] in Hf. rewrite String.eqb_refl in Hf. discriminate.
Qed.

(** What a login answered 200 rests on. *)
Lemma post_login_ok now d reqBody resp d' :
  post_login now d reqBody = (resp, d') ->
  status resp = 200%nat ->
  exists e user rest,
    get reqBody "email" = JStr e
    /\ select_where (users d) "email" (JStr (trim (toLowerCase e))) = user :: rest
    /\ get reqBody "password" = get user "password_hash"
    /\ resp = mkResponse 200 (session_body "Login successful" user)
    /\ d' = with_users d (update_rows (users d) [("last_login", JStr now)] "user_id"
                            (get user "user_id")).
Proof.
  only_used. intros H Hs. unfold post_login in H.
  destruct (negb (truthy (get reqBody "email")) || negb (truthy (get reqBody "password")));
    [inversion H; subst; discriminate|].
  destruct (get reqBody "email") as [| | | | |e| | |] eqn:Ee;
    try (inversion H; subst; discriminate).
  destruct (select_where (users d) "email" _) as [|user rest] eqn:Es;
    [inversion H; subst; discriminate|].
  destruct (negb (strict_eq (get reqBody "password") (get user "password_hash"))) eqn:Ep;
    [inversion H; subst; discriminate|].
  apply negb_false_iff in Ep. apply strict_eq_eq in Ep.
  inversion H; subst resp d'; clear H.
  exists e, user, rest. repeat split; auto.
Qed.

(** X3. A login is answered 200 only when the body's address, lower-cased
    and trimmed, is the address of a stored user and the body's password is
    identical to that row's password_hash; the store then differs from the
    old one in last_login columns only. Every other answer leaves the store
    as it was. *)
Theorem login_requires_stored_password :
  forall (now : string) (d : db) (reqBody : jsobj),
    let res := post_login now d reqBody in
    (status (fst res) = 200%nat ->
       exists e user,
         get reqBody "email" = JStr e
         /\ In user (users d)
         /\ sql_eq (get user "email") (JStr (trim (toLowerCase e))) = true
         /\ get reqBody "password" = get user "password_hash"
         /\ body (fst res) = session_body "Login successful" user
         /\ snd res = with_users d (users (snd res))
         /\ forall k, k <> "last_login" ->
              map (fun r => get r k) (users (snd res))
              = map (fun r => get r k) (users d))
    /\ (status (fst res) <> 200%nat -> snd res = d).
Proof.
  only_used. intros now d reqBody res. split.
  - intros Hs. destruct res as [resp d'] eqn:Er. cbn [fst snd] in *.
    destruct (post_login_ok _ _ _ _ _ Er Hs) as [e [user [rest [He [Hsel [Hp [Hr Hd]]]]]]].
    exists e, user. split; [exact He|].
    assert (Hin : In user (select_where (users d) "email" (JStr (trim (toLowerCase e))))).
    { rewrite Hsel. now left. }
    unfold select_where in Hin. apply filter_In in Hin. destruct Hin as [Hin Heq].
    split; [exact Hin|]. split; [exact Heq|]. split; [exact Hp|].
    split; [now rewrite Hr|]. subst d'. cbn [users with_users].
    split; [reflexivity|].
    intros k Hk. apply update_rows_other. intros kv [<-|[]]. cbn [fst]. congruence.
  - subst res. unfold post_login.
    destruct (negb (truthy (get reqBody "email")) || negb (truthy (get reqBody "password")));
      [reflexivity|].
    destruct (get reqBody "email"); try reflexivity.
    destruct (select_where (users d) "email" _) as [|user rest]; [reflexivity|].
    destruct (negb (strict_eq (get reqBody "password") (get user "password_hash")));
      [reflexivity|].
    intros Hc. exfalso. apply Hc. reflexivity.
Qed.

Lemma sql_eq_text (s : string) : sql_eq (JStr s) (JStr s) = true.
Proof. only_used. cbn [sql_eq sql_text]. apply String.eqb_refl. Qed.

Lemma truthy_nonempty (s : string) : (1 <= String.length s)%nat -> truthy (JStr s) = true.
Proof. only_used. destruct s; cbn; [lia|reflexivity]. Qed.

(** X4. After a registration answered 201, a login naming the registered
    address succeeds exactly with the registered password: it is answered
    200 with the user object the registration answered when the body's
    password is identical to it, and 400 with the store unchanged for any
    other password value. Nothing is said of the two tokens, which are
    signed at different times. *)
Theorem registered_account_can_log_in :
  forall (now now' userId : string) (d : db) (reqBody : jsobj) (resp : response)
         (d' : db) (loginBody : jsobj),
    post_register now userId d reqBody = (resp, d') ->
    status resp = 201%nat ->
    get loginBody "email" = get reqBody "email" ->
    let res := post_login now' d' loginBody in
    if strict_eq (get loginBody "password") (get reqBody "password")
    then status (fst res) = 200%nat
         /\ prop (get (body (fst res)) "user") "user_id" = JStr userId
         /\ get (body (fst res)) "user" = get (body resp) "user"
    else status (fst res) = 400%nat /\ snd res = d'.
Proof.
  only_used. intros now now' userId d reqBody resp d' loginBody H Hs Hemail res.
  destruct (post_register_created _ _ _ _ _ _ H Hs)
    as [e [p [account [He [Hp [Hne [Hlen [Hu [Hd [Hid [Hae [Hap [_ [Hfresh Hr]]]]]]]]]]]]]].
  assert (Hsel : select_where (users d') "email" (JStr (trim (toLowerCase e))) = [account]).
  { assert (Hold : select_where (users d) "email" (JStr (trim (toLowerCase e))) = []).
    { unfold select_where. apply filter_none. exact Hfresh. }
    rewrite Hu, select_where_app, Hold.
    unfold select_where. cbn [filter app]. rewrite Hae, sql_eq_text. reflexivity. }
  subst res. unfold post_login. rewrite Hemail, He, Hp.
  rewrite (truthy_nonempty e Hne). cbn [negb orb]. rewrite Hsel, Hap.
  destruct (strict_eq (get loginBody "password") (JStr p)) eqn:Eq.
  - apply strict_eq_str in Eq. rewrite Eq.
    rewrite (truthy_nonempty p) by lia. cbn [negb].
    cbn [fst snd status body session_body get String.eqb Ascii.eqb Bool.eqb prop].
    rewrite Hr. cbn [body session_body get String.eqb Ascii.eqb Bool.eqb].
    repeat split. exact Hid.
  - destruct (truthy (get loginBody "password")); cbn [negb fst snd status];
      split; reflexivity.
Qed.

(** A key value held by a row of a table without duplicates selects that
    row alone. *)
Lemma select_unique tbl c user v :
  has_duplicate (map (fun r => get r c) tbl) = false ->
  In user tbl -> sql_eq (get user c) v = true ->
  select_where tbl c v = [user].
Proof.
  only_used. induction tbl as [|a l IH]; intros Hd Hin Hv; [destruct Hin|].
  cbn [map has_duplicate] in Hd. apply orb_false_iff in Hd. destruct Hd as [Hex Hd].
  assert (Hrival : forall x y, In y l -> sql_eq (get a c) x = true ->
                     sql_eq (get y c) x = true -> False).
  { intros x y Hy Ha Hyx.
    assert (Hay : sql_eq (get a c) (get y c) = true).
    { eapply sql_eq_trans; [exact Ha|]. rewrite sql_eq_sym. exact Hyx. }
    assert (Hex' : existsb (sql_eq (get a c)) (map (fun r => get r c) l) = true).
    { apply existsb_exists. exists (get y c). split; [|exact Hay].
      change (get y c) with ((fun r => get r c) y). now apply in_map. }
    congruence. }
  unfold select_where. cbn [filter]. fold (select_where l c v).
  destruct Hin as [->|Hin].
  - rewrite Hv. f_equal. unfold select_where. apply filter_none. intros x Hx.
    destruct (sql_eq (get x c) v) eqn:E; auto.
    exfalso. exact (Hrival v x Hx Hv E).
  - destruct (sql_eq (get a c) v) eqn:E.
    + exfalso. exact (Hrival v user Hin E Hv).
    + now apply IH.
Qed.

(** Rows are selected on a column an UPDATE does not set as before it. *)
Lemma select_where_update_rows tbl sets c v c' w :
  (forall kv, In kv sets -> fst kv <> c') ->
  select_where (update_rows tbl sets c v) c' w
  = map (fun r => if sql_eq (get r c) v then assign r sets else r)
        (select_where tbl c' w).
Proof.
  only_used. intros Hk. unfold select_where, update_rows.
  induction tbl as [|a l IH]; [reflexivity|].
  cbn [map filter]. destruct (sql_eq (get a c) v) eqn:E1.
  - rewrite assign_other by exact Hk.
    destruct (sql_eq (get a c') w); cbn [map]; rewrite ?E1; [f_equal|]; exact IH.
  - destruct (sql_eq (get a c') w); cbn [map]; rewrite ?E1; [f_equal|]; exact IH.
Qed.

Lemma get_keep_columns cols (r : row) k :
  In k cols -> get (keep_columns cols r) k = get r k.
Proof.
  only_used. unfold keep_columns. induction cols as [|c cols IH]; intros Hin; [destruct Hin|].
  cbn [map get]. destruct (String.eqb c k) eqn:E.
  - apply String.eqb_eq in E. now subst.
  - destruct Hin as [->|Hin]; [|auto]. rewrite String.eqb_refl in E. discriminate.
Qed.

(** X5. The token a successful login answers with authenticates later
    requests as the user who logged in: when [jwt.verify] gives back the
    user_id the token was signed for, authenticateToken attaches the row of
    that user (id, address, name, role, creation date) as read from the
    store after the login. *)
Theorem login_token_authenticates :
  forall (now now' : string) (d : db) (reqBody : jsobj) (resp : response) (d' : db)
         (decoded : jsval) (headers : jsobj),
    post_login now d reqBody = (resp, d') ->
    status resp = 200%nat ->
    violation users_schema (users d) = None ->
    text_column "user_id" (users d) ->
    bearer_token headers = get (body resp) "token" ->
    truthy (get (body resp) "token") = true ->
    jwt_verify (js_to_string (get (body resp) "token")) JWT_SECRET = inr decoded ->
    prop decoded "user_id" = prop (get (body resp) "user") "user_id" ->
    exists user,
      authenticateToken now' d' headers = inr user
      /\ forall k, In k ["user_id"; "email"; "full_name"; "role"; "created_at"] ->
           get user k = prop (get (body resp) "user") k.
Proof.
  only_used.
  intros now now' d reqBody resp d' decoded headers H Hs Hc Htext Hb Ht Hv Hid.
  destruct (post_login_ok _ _ _ _ _ H Hs) as [e [user [rest [He [Hsel [Hp [Hr Hd]]]]]]].
  assert (Hin : In user (users d)).
  { assert (Hin : In user (select_where (users d) "email" (JStr (trim (toLowerCase e))))).
    { rewrite Hsel. now left. }
    unfold select_where in Hin. apply filter_In in Hin. tauto. }
  destruct (Htext user Hin) as [uid Hu].
  assert (Hresp : forall k, In k ["user_id"; "email"; "full_name"; "role"; "created_at"] ->
            prop (get (body resp) "user") k = get user k).
  { rewrite Hr. intros k [<-|[<-|[<-|[<-|[<-|[]]]]]]; reflexivity. }
  rewrite (Hresp "user_id") in Hid by (simpl; auto).
  assert (Hone : select_where (users d) "user_id" (prop decoded "user_id") = [user]).
  { apply select_unique; auto.
    - eapply violation_unique; [exact Hc|]. left. reflexivity.
    - rewrite Hid, Hu. apply sql_eq_text. }
  exists (keep_columns ["user_id"; "email"; "full_name"; "role"; "created_at"]
            (assign user [("last_login", JStr now)])).
  split.
  - unfold authenticateToken. rewrite Hb, Ht, Hv. cbn [negb].
    subst d'. cbn [users with_users].
    rewrite select_where_update_rows by (intros kv [<-|[]]; discriminate).
    rewrite Hone. cbn [map]. rewrite Hu, sql_eq_text. reflexivity.
  - intros k Hk. rewrite (Hresp k Hk). rewrite get_keep_columns by exact Hk.
    apply assign_other. intros kv [<-|[]]. cbn [fst].
    destruct Hk as [<-|[<-|[<-|[<-|[<-|[]]]]]]; discriminate.
Qed.

(** ** Profile updates *)

Lemma updateUser_nodup : NoDup (map fst updateUserInputShape).
Proof. only_used. solve_nodup. Qed.

Lemma in_has_key (o : jsobj) k v : In (k, v) o -> has_key o k = true.
Proof. only_used.
  induction o as [|[k' v'] o IH]; intros Hin; [destruct Hin|].
  cbn [has_key]. destruct Hin as [Heq|Hin].
  - inversion Heq; subst. now rewrite String.eqb_refl.
  - rewrite IH by exact Hin. apply orb_true_r.
Qed.

Lemma get_in (o : jsobj) k v : get o k = v -> v <> JUndefined -> In (k, v) o.
Proof. only_used.
  induction o as [|[k' v'] o IH]; cbn [get]; intros Hg Hv; [congruence|].
  destruct (String.eqb k' k) eqn:E.
  - apply String.eqb_eq in E. subst. now left.
  - right. now apply IH.
Qed.

Lemma defined_not_undefined v : defined v = true <-> v <> JUndefined.
Proof. only_used.
  unfold defined. split.
  - intros H ->. discriminate.
  - intros H. destruct v; try reflexivity. congruence.
Qed.

(** The loop keeps the fragments it has and adds one for every defined
    entry outside the skipped keys. *)
Lemma fold_update_step_keeps skip stringify entries u x :
  In x (u_sets u) -> In x (u_sets (fold_left (update_step skip stringify) entries u)).
Proof. only_used.
  revert u. induction entries as [|[key value] entries IH]; intros u H; cbn [fold_left]; auto.
  apply IH. unfold update_step.
  destruct (defined value && negb (existsb (String.eqb key) skip)); auto.
  destruct (existsb (String.eqb key) stringify); cbn [push_field u_sets];
    apply in_or_app; now left.
Qed.

Lemma fold_update_step_adds skip stringify entries u k v :
  In (k, v) entries -> defined v = true -> existsb (String.eqb k) skip = false ->
  exists i, In (k, i) (u_sets (fold_left (update_step skip stringify) entries u)).
Proof. only_used.
  revert u. induction entries as [|[key value] entries IH]; intros u Hin Hd Hs;
    [destruct Hin|].
  cbn [fold_left]. destruct Hin as [Heq|Hin]; [|now apply IH].
  inversion Heq; subst key value. exists (u_paramIndex u).
  apply fold_update_step_keeps. unfold update_step. rewrite Hd, Hs. cbn [negb andb].
  destruct (existsb (String.eqb k) stringify); cbn [push_field u_sets];
    apply in_or_app; right; now left.
Qed.

(** The columns a profile update sets are keys of the validated body. *)
Lemma profile_update_keys validatedInput reqBody k i :
  updateUserInputSchema reqBody = inr validatedInput ->
  In (k, i) (u_sets (update_loop [] [] validatedInput)) ->
  In k ["email"; "full_name"; "profile_pic"; "bio"; "role"].
Proof. only_used.
  intros Hv Hin. unfold update_loop in Hin.
  apply fold_update_step_sets in Hin. destruct Hin as [[]|[_ [v [Hin _]]]].
  apply in_has_key in Hin.
  exact (z_object_keys _ _ _ _ Hv Hin).
Qed.

Lemma fields_of_sets (u : update_builder) :
  fields_rendered u -> updateFields u = [] -> u_sets u = [].
Proof. only_used.
  unfold fields_rendered. intros Hr He. rewrite He in Hr.
  destruct (u_sets u); [reflexivity|discriminate].
Qed.

(** What a profile update answered 200 did to the user table. *)
Lemma put_profile_ok now d user reqBody resp d' :
  put_profile now d user reqBody = (resp, d') ->
  status resp = 200%nat ->
  exists validatedInput sets,
    updateUserInputSchema reqBody = inr validatedInput
    /\ sets = bound_sets (update_loop [] [] validatedInput)
                (u_values (update_loop [] [] validatedInput) ++ [get user "user_id"])
    /\ (forall kv, In kv sets -> In (fst kv) ["email"; "full_name"; "bio"; "role"])
    /\ d' = with_users d (update_rows (users d) sets "user_id" (get user "user_id"))
    /\ violation users_schema (users d') = None.
Proof. only_used.
  intros H Hs. unfold put_profile in H.
  destruct (updateUserInputSchema reqBody) as [issues|v] eqn:Ev;
    [inversion H; subst; discriminate|].
  destruct (updateFields (update_loop [] [] v)) eqn:Ef;
    [inversion H; subst; discriminate|].
  unfold exec_update_on in H.
  destruct (find _ (u_sets (update_loop [] [] v))) eqn:Efind;
    [inversion H; subst; discriminate|].
  unfold exec_update in H.
  rewrite (where_param _ _ (update_loop_indexed [] [] v)) in H.
  destruct (violation users_schema _) eqn:Eviol; [inversion H; subst; discriminate|].
  inversion H; subst resp d'; clear H.
  exists v. eexists. split; [reflexivity|]. split; [reflexivity|].
  split; [|split; [reflexivity|exact Eviol]].
  intros kv Hin. unfold bound_sets in Hin. apply in_map_iff in Hin.
  destruct Hin as [[k i] [<- Hin]]. cbn [fst].
  pose proof (profile_update_keys _ _ _ _ Ev Hin) as Hk.
  pose proof (find_none _ _ Efind _ Hin) as Hc. cbn [fst] in Hc.
  apply negb_false_iff in Hc.
  destruct Hk as [<-|[<-|[<-|[<-|[<-|[]]]]]]; simpl; auto.
  discriminate Hc.
Qed.

(** X6. A profile update answered 200 changes the user table only: in rows
    whose user_id is the actor's it sets columns among email, full_name, bio
    and role, so the user_id, password_hash, created_at and last_login of
    every row are as before, and the rows of other users stay as they
    were. *)
Theorem profile_update_touches_profile_columns_only :
  forall (now : string) (d : db) (user : row) (reqBody : jsobj) (resp : response)
         (d' : db),
    put_profile now d user reqBody = (resp, d') ->
    status resp = 200%nat ->
    d' = with_users d (users d')
    /\ (forall k, ~ In k ["email"; "full_name"; "bio"; "role"] ->
          map (fun r => get r k) (users d') = map (fun r => get r k) (users d))
    /\ (forall r, In r (users d) ->
          sql_eq (get r "user_id") (get user "user_id") = false -> In r (users d')).
Proof. only_used.
  intros now d user reqBody resp d' H Hs.
  destruct (put_profile_ok _ _ _ _ _ _ H Hs) as [v [sets [_ [_ [Hk [-> _]]]]]].
  cbn [users with_users]. split; [reflexivity|]. split.
  - intros k Hn. apply update_rows_other. intros kv Hin Heq.
    apply Hn. rewrite <- Heq. now apply Hk.
  - intros r Hin Hne. unfold update_rows. apply in_map_iff.
    exists r. rewrite Hne. auto.
Qed.

(** A table satisfies its constraints when no NOT NULL column holds a null
    and no unique column a duplicate. *)
Lemma find_all_false {A : Type} (f : A -> bool) (l : list A) :
  (forall x, In x l -> f x = false) -> find f l = None.
Proof. only_used.
  induction l as [|a l IH]; intros H; [reflexivity|].
  cbn [find]. rewrite (H a (or_introl eq_refl)). apply IH.
  intros x Hx. apply H. now right.
Qed.

Lemma violation_none sch tbl :
  (forall c r, In c (not_nulls sch) -> In r tbl -> is_null (get r c) = false) ->
  (forall u, In u (uniques sch) ->
     has_duplicate (map (fun r => get r (fst u)) tbl) = false) ->
  violation sch tbl = None.
Proof. only_used.
  intros Hn Hu. unfold violation.
  rewrite find_all_false.
  - rewrite find_all_false; auto.
  - intros c Hc. destruct (existsb _ tbl) eqn:E; auto.
    apply existsb_exists in E. destruct E as [r [Hr He]].
    rewrite (Hn c r Hc Hr) in He. discriminate.
Qed.

Lemma get_assign_one (r : row) k v c :
  get (assign r [(k, v)]) c = if String.eqb k c then bind v else get r c.
Proof. only_used.
  unfold assign. cbn [fold_left fst snd]. destruct (String.eqb k c) eqn:E.
  - apply String.eqb_eq in E. subst. apply get_set_same.
  - apply get_set_other. intros ->. rewrite String.eqb_refl in E. discriminate.
Qed.

(** Setting one column that is not a key to a value that is not null keeps
    the constraints of the table. *)
Lemma violation_after_set sch tbl k v col w :
  violation sch tbl = None ->
  is_null (bind v) = false ->
  (forall u, In u (uniques sch) -> fst u <> k) ->
  violation sch (update_rows tbl [(k, v)] col w) = None.
Proof. only_used.
  intros Hv Hnn Hu. apply violation_none.
  - intros c r Hc Hr. unfold update_rows in Hr. apply in_map_iff in Hr.
    destruct Hr as [r0 [<- Hr0]].
    pose proof (violation_not_null _ _ _ _ Hv Hc Hr0) as H0.
    destruct (sql_eq (get r0 col) w); [|exact H0].
    rewrite get_assign_one. destruct (String.eqb k c); auto.
  - intros u Hin.
    etransitivity; [apply f_equal; apply update_rows_other|].
    + intros kv [<-|[]]. cbn [fst]. intros Heq. now apply (Hu u Hin).
    + destruct u as [c n]. eapply violation_unique; eauto.
Qed.

(** X7. Any authenticated user can make themselves admin: on a user table
    that satisfies its constraints, a profile update whose body is
    {role: 'admin'} is answered 200 and sets the role of the rows carrying
    the actor's user_id to 'admin', whatever the actor's role was. *)
Theorem profile_update_can_grant_admin :
  forall (now : string) (d : db) (user : row) (uid : string),
    get user "user_id" = JStr uid ->
    violation users_schema (users d) = None ->
    let res := put_profile now d user [("role", JStr "admin")] in
    status (fst res) = 200%nat
    /\ snd res
       = with_users d (update_rows (users d) [("role", JStr "admin")] "user_id" (JStr uid))
    /\ forall r, In r (users (snd res)) ->
         sql_eq (get r "user_id") (JStr uid) = true -> get r "role" = JStr "admin".
Proof. only_used.
  intros now d user uid Hu Hv res.
  assert (Hres : res = (ok_entity "Profile updated successfully" "user"
                          (map (keep_columns ["user_id"; "email"; "full_name";
                                              "profile_pic_url"; "bio"; "role";
                                              "created_at"])
                             (map (fun r => assign r [("role", JStr "admin")])
                                (select_where (users d) "user_id" (JStr uid)))),
                        with_users d
                          (update_rows (users d) [("role", JStr "admin")] "user_id"
                             (JStr uid)))).
  { subst res. unfold put_profile.
    change (updateUserInputSchema [("role", JStr "admin")])
      with (@inr (list string) jsobj [("role", JStr "admin")]).
    cbv beta iota.
    change (update_loop [] [] [("role", JStr "admin")])
      with (push_field "role" (JStr "admin") update_start).
    cbn [updateFields push_field update_start app u_values].
    unfold exec_update_on.
    change (find _ (u_sets (push_field "role" (JStr "admin") update_start)))
      with (@None (string * nat)).
    cbv beta iota. unfold exec_update.
    change (bound_sets _ _) with [("role", JStr "admin")].
    change (param _ _) with (get user "user_id").
    rewrite Hu. cbv zeta.
    rewrite (violation_after_set users_schema (users d) "role" (JStr "admin")
               "user_id" (JStr uid) Hv eq_refl).
    - reflexivity.
    - intros u [<-|[<-|[]]]; discriminate. }
  rewrite Hres. cbn [fst snd users with_users]. split; [reflexivity|]. split; [reflexivity|].
  intros r Hin Heq. unfold update_rows in Hin. apply in_map_iff in Hin.
  destruct Hin as [r0 [<- Hin]].
  destruct (sql_eq (get r0 "user_id") (JStr uid)) eqn:E.
  - rewrite get_assign_one. reflexivity.
  - rewrite E in Heq. discriminate.
Qed.

(** X8. A profile update whose body carries a profile_pic (any value, null
    included) never succeeds: the validated key becomes a SET fragment on a
    column the user table does not have, the statement is refused, and the
    answer is 500 with the store as it was. *)
Theorem profile_update_with_picture_fails :
  forall (now : string) (d : db) (user : row) (reqBody validatedInput : jsobj),
    updateUserInputSchema reqBody = inr validatedInput ->
    get reqBody "profile_pic" <> JUndefined ->
    put_profile now d user reqBody
    = (internal_error now (pg_undefined_column "profile_pic"), d).
Proof. only_used.
  intros now d user reqBody v Hv Hpic. unfold put_profile. rewrite Hv.
  assert (Hin : In ("profile_pic", get reqBody "profile_pic") v).
  { unfold updateUserInputSchema in Hv.
    destruct (validated_field _ _ _ "profile_pic" _ updateUser_nodup Hv
                ltac:(simpl; auto) ltac:(auto with zod)) as [Hg _].
    apply get_in; [exact Hg|exact Hpic]. }
  destruct (fold_update_step_adds [] [] v update_start _ _ Hin
              (proj2 (defined_not_undefined _) Hpic) eq_refl) as [i Hi].
  fold (update_loop [] [] v) in Hi.
  assert (Hr : fields_rendered (update_loop [] [] v)).
  { unfold update_loop. apply fold_update_step_rendered. reflexivity. }
  destruct (updateFields (update_loop [] [] v)) eqn:Ef.
  { rewrite (fields_of_sets _ Hr Ef) in Hi. destruct Hi. }
  unfold exec_update_on.
  destruct (find _ (u_sets (update_loop [] [] v))) as [[k j]|] eqn:Efind.
  - apply find_some in Efind. destruct Efind as [Hk Hc]. cbn [fst] in *.
    pose proof (profile_update_keys _ _ _ _ Hv Hk) as Hkeys.
    destruct Hkeys as [<-|[<-|[<-|[<-|[<-|[]]]]]]; try discriminate Hc.
    reflexivity.
  - pose proof (find_none _ _ Efind _ Hi) as Hc. discriminate Hc.
Qed.

(** ** Creating and deleting projects *)

Lemma createProject_nodup : NoDup (map fst createProjectInputShape).
Proof. only_used. solve_nodup. Qed.

Lemma get_spread_one_same (o : jsobj) k v : get (spread o [(k, v)]) k = v.
Proof. only_used. unfold spread. cbn [fold_left fst snd]. apply get_set_same. Qed.

Lemma get_spread_one_other (o : jsobj) k v k' :
  k' <> k -> get (spread o [(k, v)]) k' = get o k'.
Proof. only_used. intros H. unfold spread. cbn [fold_left fst snd]. now apply get_set_other. Qed.

Lemma delete_where_none tbl c v :
  (forall r, In r tbl -> sql_eq (get r c) v = false) -> delete_where tbl c v = tbl.
Proof. only_used.
  unfold delete_where. induction tbl as [|a l IH]; intros H; [reflexivity|].
  cbn [filter]. rewrite (H a (or_introl eq_refl)). cbn [negb]. f_equal.
  apply IH. intros r Hr. apply H. now right.
Qed.

Lemma delete_where_app tbl1 tbl2 c v :
  delete_where (tbl1 ++ tbl2) c v = delete_where tbl1 c v ++ delete_where tbl2 c v.
Proof. only_used. unfold delete_where. apply filter_app. Qed.

Lemma select_after_delete tbl c v : select_where (delete_where tbl c v) c v = [].
Proof. only_used.
  unfold select_where, delete_where. apply filter_none. intros r Hr.
  apply filter_In in Hr. destruct Hr as [_ Hr]. now apply negb_true_iff in Hr.
Qed.

Lemma kept_by_delete tbl c v r :
  In r tbl -> sql_eq (get r c) v = false -> In r (delete_where tbl c v).
Proof. only_used.
  intros Hin Hne. unfold delete_where. apply filter_In. split; auto.
  now rewrite Hne.
Qed.

(** What a project creation answered 201 added. *)
Lemma post_project_created now projectId d user reqBody resp d' :
  post_project now projectId d user reqBody = (resp, d') ->
  status resp = 201%nat ->
  exists uid slug project,
    get user "user_id" = JStr uid /\ get reqBody "slug" = JStr slug
    /\ projects d' = projects d ++ [project]
    /\ d' = with_projects d (projects d')
    /\ get project "project_id" = JStr projectId
    /\ get project "user_id" = JStr uid
    /\ get project "slug" = JStr slug
    /\ get project "created_at" = JStr now
    /\ get project "updated_at" = JStr now
    /\ (forall p, In p (projects d) ->
          sql_eq (get p "slug") (JStr slug) = false
          /\ sql_eq (get p "project_id") (JStr projectId) = false)
    /\ resp = mkResponse 201 [("message", JStr "Project created successfully");
                              ("project", JObj project)].
Proof. only_used.
  intros H Hs. unfold post_project in H.
  destruct (createProjectInputSchema _) as [issues|v] eqn:Ev;
    [inversion H; subst; discriminate|].
  unfold createProjectInputSchema in Ev.
  destruct (validated_field _ _ _ "slug" _ createProject_nodup Ev
              ltac:(simpl; auto) ltac:(autounfold with zod; auto 6 with zod))
    as [Hgs Hslug].
  destruct (validated_field _ _ _ "user_id" _ createProject_nodup Ev
              ltac:(simpl; auto 12) ltac:(autounfold with zod; auto 6 with zod))
    as [Hgu Huid].
  rewrite get_spread_one_other in Hgs, Hslug by discriminate.
  rewrite get_spread_one_same in Hgu, Huid.
  apply refined_string in Hslug. destruct Hslug as [slug [Hslug _]].
  apply refined_string in Huid. destruct Huid as [uid [Huid _]].
  rewrite Hgs, Hslug in H.
  destruct (select_where (projects d) "slug" (JStr slug)) eqn:Es;
    [|inversion H; subst; discriminate].
  destruct (exec_insert projects_schema (projects d) _) as [error|tbl] eqn:Ei;
    [inversion H; subst; discriminate|].
  apply exec_insert_inr in Ei. destruct Ei as [-> Hviol].
  inversion H; subst resp d'; clear H. rewrite inserted_last.
  cbn [projects with_projects].
  pose proof (fresh_in_table _ _ _ "project_id" "projects_pkey" Hviol
                (or_introl eq_refl)) as Hfresh.
  exists uid, slug. eexists.
  split; [exact Huid|]. split; [exact Hslug|].
  split; [reflexivity|]. split; [reflexivity|]. split; [reflexivity|].
  split.
  { change (get (map (fun kv => (fst kv, bind (snd kv))) (new_project now projectId v))
              "user_id") with (bind (get v "user_id")).
    now rewrite Hgu, Huid. }
  split.
  { change (get (map (fun kv => (fst kv, bind (snd kv))) (new_project now projectId v))
              "slug") with (bind (get v "slug")).
    now rewrite Hgs, Hslug. }
  split; [reflexivity|]. split; [reflexivity|]. split; [|reflexivity].
  intros p Hp. split.
  - exact (select_where_nil _ _ _ Es p Hp).
  - exact (select_where_nil _ _ _ Hfresh p Hp).
Qed.

(** X9. A project creation answered 201 adds exactly one row to the project
    table and touches nothing else: the row carries the generated id, the
    actor's user_id whatever user_id the body names, the body's slug, and the
    request time as created_at and updated_at; no earlier project had that
    slug or that id, and the ownership guard lets the actor through on the
    new row. *)
Theorem created_project_belongs_to_actor :
  forall (now projectId : string) (d : db) (user : row) (reqBody : jsobj)
         (resp : response) (d' : db),
    post_project now projectId d user reqBody = (resp, d') ->
    status resp = 201%nat ->
    exists uid slug project,
      get user "user_id" = JStr uid /\ get reqBody "slug" = JStr slug
      /\ projects d' = projects d ++ [project]
      /\ d' = with_projects d (projects d')
      /\ get project "project_id" = JStr projectId
      /\ get project "user_id" = JStr uid
      /\ get project "slug" = JStr slug
      /\ get project "created_at" = JStr now
      /\ get project "updated_at" = JStr now
      /\ (forall p, In p (projects d) ->
            sql_eq (get p "slug") (JStr slug) = false
            /\ sql_eq (get p "project_id") (JStr projectId) = false)
      /\ not_allowed project user = false.
Proof. only_used.
  intros now projectId d user reqBody resp d' H Hs.
  destruct (post_project_created _ _ _ _ _ _ _ H Hs)
    as [uid [slug [project [Hu [Hslug [Hp [Hd [Hid [Ho [Hsl [Hc [Hup [Hfresh _]]]]]]]]]]]]].
  exists uid, slug, project. repeat (split; [assumption|]).
  unfold not_allowed. rewrite Ho, Hu. cbn [strict_eq]. now rewrite String.eqb_refl.
Qed.

(** X10. A project just created can be deleted by its creator, and the
    deletion undoes the creation: the delete is answered 200 and the project
    table is the one from before the creation. *)
Theorem created_project_can_be_deleted :
  forall (now now' projectId : string) (d : db) (user : row) (reqBody : jsobj)
         (resp : response) (d' : db),
    post_project now projectId d user reqBody = (resp, d') ->
    status resp = 201%nat ->
    let res := delete_project now' d' user projectId in
    fst res = ok_message "Project deleted successfully"
    /\ projects (snd res) = projects d
    /\ users (snd res) = users d.
Proof. only_used.
  intros now now' projectId d user reqBody resp d' H Hs res.
  destruct (post_project_created _ _ _ _ _ _ _ H Hs)
    as [uid [slug [project [Hu [Hslug [Hp [Hd [Hid [Ho [Hsl [Hc [Hup [Hfresh _]]]]]]]]]]]]].
  assert (Hold : forall p, In p (projects d) ->
            sql_eq (get p "project_id") (JStr projectId) = false).
  { intros p Hin. exact (proj2 (Hfresh p Hin)). }
  assert (Hsel : select_where (projects d') "project_id" (JStr projectId) = [project]).
  { assert (Hnone : select_where (projects d) "project_id" (JStr projectId) = []).
    { unfold select_where. apply filter_none. exact Hold. }
    rewrite Hp, select_where_app, Hnone.
    unfold select_where. cbn [filter app]. rewrite Hid, sql_eq_text. reflexivity. }
  subst res. unfold delete_project. rewrite Hsel.
  assert (Hna : not_allowed project user = false).
  { unfold not_allowed. rewrite Ho, Hu. cbn [strict_eq]. now rewrite String.eqb_refl. }
  rewrite Hna. cbn [fst snd projects users with_gallery with_projects].
  split; [reflexivity|]. split.
  - rewrite Hp, delete_where_app, (delete_where_none _ _ _ Hold).
    unfold delete_where. cbn [filter]. rewrite Hid, sql_eq_text. cbn [negb].
    apply app_nil_r.
  - rewrite Hd. reflexivity.
Qed.

(** X11. A project deletion answered 200 removes every row of that id
    from the project table and every gallery image of that project, keeps
    the other projects and images and every other table, and makes later
    updates and deletions of that id answer 404. *)
Theorem deleted_project_is_gone :
  forall (now : string) (d : db) (user : row) (pid : string) (resp : response)
         (d' : db),
    delete_project now d user pid = (resp, d') ->
    status resp = 200%nat ->
    select_where (projects d') "project_id" (JStr pid) = []
    /\ select_where (project_gallery_images d') "project_id" (JStr pid) = []
    /\ (forall p, In p (projects d) ->
          sql_eq (get p "project_id") (JStr pid) = false -> In p (projects d'))
    /\ (forall i, In i (project_gallery_images d) ->
          sql_eq (get i "project_id") (JStr pid) = false ->
          In i (project_gallery_images d'))
    /\ d' = with_gallery (with_projects d (projects d')) (project_gallery_images d')
    /\ (forall now' user' reqBody,
          delete_project now' d' user' pid
          = (not_found_response now' "Project not found" "PROJECT_NOT_FOUND", d')
          /\ put_project now' d' user' pid reqBody
             = (not_found_response now' "Project not found" "PROJECT_NOT_FOUND", d')).
Proof. only_used.
  intros now d user pid resp d' H Hs. unfold delete_project in H.
  destruct (select_where (projects d) "project_id" (JStr pid)) as [|existing rest];
    [inversion H; subst; discriminate|].
  destruct (not_allowed existing user); [inversion H; subst; discriminate|].
  inversion H; subst resp d'; clear H.
  cbn [projects project_gallery_images with_gallery with_projects].
  assert (Hgone : select_where (delete_where (projects d) "project_id" (JStr pid))
                    "project_id" (JStr pid) = []) by apply select_after_delete.
  split; [exact Hgone|]. split; [apply select_after_delete|].
  split; [intros p; apply kept_by_delete|].
  split; [intros i; apply kept_by_delete|].
  split; [reflexivity|].
  intros now' user' reqBody. unfold delete_project, put_project.
  cbn [projects with_gallery with_projects]. rewrite Hgone. split; reflexivity.
Qed.

(** ** Contact messages, skills and resumes *)

Lemma createContact_nodup : NoDup (map fst createContactMessageInputShape).
Proof. only_used. solve_nodup. Qed.

Lemma createSkill_nodup : NoDup (map fst createSkillInputShape).
Proof. only_used. solve_nodup. Qed.

Lemma with_contact_same (d : db) : with_contact d (contact_messages d) = d.
Proof. only_used. destruct d; reflexivity. Qed.

(** What a contact message answered 201 stored. *)
Lemma post_contact_created now messageId d reqBody resp d' :
  post_contact now messageId d reqBody = (resp, d') ->
  status resp = 201%nat ->
  exists validatedInput,
    createContactMessageInputSchema reqBody = inr validatedInput
    /\ get validatedInput "name" = get reqBody "name"
    /\ get validatedInput "email" = get reqBody "email"
    /\ get validatedInput "message" = get reqBody "message"
    /\ contact_messages d'
       = contact_messages d
         ++ [map (fun kv => (fst kv, bind (snd kv)))
               (new_message now messageId validatedInput)]
    /\ d' = with_contact d (contact_messages d')
    /\ violation contact_schema (contact_messages d') = None.
Proof. only_used.
  intros H Hs. unfold post_contact in H.
  destruct (createContactMessageInputSchema reqBody) as [issues|v] eqn:Ev;
    [inversion H; subst; discriminate|].
  destruct (exec_insert contact_schema (contact_messages d) _) as [error|tbl] eqn:Ei;
    [inversion H; subst; discriminate|].
  apply exec_insert_inr in Ei. destruct Ei as [-> Hviol].
  inversion H; subst resp d'; clear H. cbn [contact_messages with_contact].
  unfold createContactMessageInputSchema in Ev.
  destruct (validated_field _ _ _ "name" _ createContact_nodup Ev
              ltac:(simpl; auto) ltac:(autounfold with zod; auto 6 with zod))
    as [Hn _].
  destruct (validated_field _ _ _ "email" _ createContact_nodup Ev
              ltac:(simpl; auto) ltac:(autounfold with zod; auto 6 with zod))
    as [He _].
  destruct (validated_field _ _ _ "message" _ createContact_nodup Ev
              ltac:(simpl; auto 6) ltac:(autounfold with zod; auto 6 with zod))
    as [Hm _].
  exists v. split; [reflexivity|]. split; [exact Hn|]. split; [exact He|].
  split; [exact Hm|]. split; [reflexivity|]. split; [reflexivity|exact Hviol].
Qed.

(** X12. A contact message answered 201 is stored unread whatever the body
    says: exactly one row is added, with the seven columns of the table, the
    generated id, the request time, the body's name, address and text, and
    read = false; keys of the body outside the schema are not stored. *)
Theorem contact_message_stored_unread :
  forall (now messageId : string) (d : db) (reqBody : jsobj) (resp : response)
         (d' : db),
    post_contact now messageId d reqBody = (resp, d') ->
    status resp = 201%nat ->
    exists message,
      contact_messages d' = contact_messages d ++ [message]
      /\ d' = with_contact d (contact_messages d')
      /\ map fst message
         = ["message_id"; "name"; "email"; "subject"; "message"; "created_at"; "read"]
      /\ get message "read" = JBool false
      /\ get message "message_id" = JStr messageId
      /\ get message "created_at" = JStr now
      /\ get message "name" = get reqBody "name"
      /\ get message "email" = get reqBody "email"
      /\ get message "message" = get reqBody "message".
Proof. only_used.
  intros now messageId d reqBody resp d' H Hs.
  destruct (post_contact_created _ _ _ _ _ _ H Hs)
    as [v [Hv [Hn [He [Hm [Ht [Hd _]]]]]]].
  unfold createContactMessageInputSchema in Hv.
  destruct (validated_field _ _ _ "name" _ createContact_nodup Hv
              ltac:(simpl; auto) ltac:(autounfold with zod; auto 6 with zod))
    as [_ Hsn].
  destruct (validated_field _ _ _ "email" _ createContact_nodup Hv
              ltac:(simpl; auto) ltac:(autounfold with zod; auto 6 with zod))
    as [_ Hse].
  destruct (validated_field _ _ _ "message" _ createContact_nodup Hv
              ltac:(simpl; auto 6) ltac:(autounfold with zod; auto 6 with zod))
    as [_ Hsm].
  apply refined_string in Hsn. destruct Hsn as [n [Hsn _]].
  apply refined_string in Hse. destruct Hse as [e [Hse _]].
  apply refined_string in Hsm. destruct Hsm as [m [Hsm _]].
  eexists. split; [exact Ht|]. split; [exact Hd|].
  split; [reflexivity|]. split; [reflexivity|]. split; [reflexivity|].
  split; [reflexivity|].
  split.
  { change (get (map (fun kv => (fst kv, bind (snd kv))) (new_message now messageId v))
              "name") with (bind (get v "name")). now rewrite Hn, Hsn. }
  split.
  { change (get (map (fun kv => (fst kv, bind (snd kv))) (new_message now messageId v))
              "email") with (bind (get v "email")). now rewrite He, Hse. }
  change (get (map (fun kv => (fst kv, bind (snd kv))) (new_message now messageId v))
            "message") with (bind (get v "message")). now rewrite Hm, Hsm.
Qed.

Lemma update_rows_app tbl1 tbl2 sets c v :
  update_rows (tbl1 ++ tbl2) sets c v
  = update_rows tbl1 sets c v ++ update_rows tbl2 sets c v.
Proof. only_used. unfold update_rows. apply map_app. Qed.

Lemma nonempty_length (s : string) : s <> "" -> (1 <=? String.length s)%nat = true.
Proof. only_used. destruct s; [congruence|reflexivity]. Qed.

(** The body of a contact update is accepted whenever its read flag is a
    boolean or absent and the id is not empty. *)
Lemma contact_update_validates (reqBody : jsobj) (mid : string) :
  mid <> "" ->
  (get reqBody "read" = JUndefined \/ exists b, get reqBody "read" = JBool b) ->
  exists validatedInput,
    updateContactMessageInputSchema (spread reqBody [("message_id", JStr mid)])
    = inr validatedInput
    /\ get validatedInput "read" = get reqBody "read".
Proof. only_used.
  intros Hmid Hread.
  unfold updateContactMessageInputSchema, updateContactMessageInputShape.
  cbn [z_object]. rewrite get_spread_one_same.
  rewrite (get_spread_one_other _ _ _ "read") by discriminate.
  unfold z_min_length, z_refine, z_string, str_test. rewrite (nonempty_length _ Hmid).
  destruct Hread as [Hr|[b Hr]]; rewrite Hr;
    cbn [z_optional z_boolean strict_eq negb]; rewrite ?orb_true_r, ?orb_false_r;
    repeat match goal with
           | |- context [if ?c then _ else _] => destruct c
           end;
    eexists; (split; [reflexivity|]); cbn [get String.eqb Ascii.eqb Bool.eqb];
    reflexivity.
Qed.

(** X13. A stored contact message can be marked by an update: after a
    creation answered 201, an update of the generated id whose body carries
    a boolean read flag is answered 200; the table is the old one followed by
    the message with that flag, its other columns as created. *)
Theorem contact_message_can_be_marked :
  forall (now now' messageId : string) (d : db) (reqBody : jsobj) (resp : response)
         (d' : db) (update : jsobj) (flag : bool),
    post_contact now messageId d reqBody = (resp, d') ->
    status resp = 201%nat ->
    messageId <> "" ->
    get update "read" = JBool flag ->
    let res := put_contact now' d' messageId update in
    status (fst res) = 200%nat
    /\ exists message message',
         contact_messages d' = contact_messages d ++ [message]
         /\ contact_messages (snd res) = contact_messages d ++ [message']
         /\ get message' "read" = JBool flag
         /\ forall k, k <> "read" -> get message' k = get message k.
Proof. only_used.
  intros now now' messageId d reqBody resp d' update flag H Hs Hmid Hflag res.
  destruct (post_contact_created _ _ _ _ _ _ H Hs)
    as [v [_ [_ [_ [_ [Ht [Hd Hviol]]]]]]].
  set (message := map (fun kv => (fst kv, bind (snd kv)))
                    (new_message now messageId v)) in *.
  assert (Hid : get message "message_id" = JStr messageId) by reflexivity.
  pose proof Hviol as Hviol'. rewrite Ht in Hviol'.
  pose proof (fresh_in_table _ _ _ "message_id" "contact_messages_pkey"
                Hviol' (or_introl eq_refl)) as Hfresh.
  rewrite Hid in Hfresh.
  destruct (contact_update_validates update messageId Hmid
              (or_intror (ex_intro _ flag Hflag))) as [w [Hw Hwr]].
  rewrite Hflag in Hwr.
  assert (Hupd : update_rows (contact_messages d') [("read", JBool flag)] "message_id"
                   (JStr messageId)
                 = contact_messages d ++ [assign message [("read", JBool flag)]]).
  { rewrite Ht, update_rows_app, (update_rows_no_match _ _ _ _ Hfresh).
    unfold update_rows. cbn [map]. rewrite Hid, sql_eq_text. reflexivity. }
  assert (Hsel : select_where (contact_messages d') "message_id" (JStr messageId)
                 = [message]).
  { rewrite Ht, select_where_app, Hfresh.
    unfold select_where. cbn [filter app]. rewrite Hid, sql_eq_text. reflexivity. }
  assert (Hres : res = (ok_entity "Contact message updated successfully"
                          "contact_message" [assign message [("read", JBool flag)]],
                        with_contact d'
                          (contact_messages d ++ [assign message [("read", JBool flag)]]))).
  { subst res. unfold put_contact. rewrite Hw, Hwr. unfold exec_update.
    cbn [push_field update_start u_paramIndex u_values app].
    change (param [JBool flag; JStr messageId] 2) with (JStr messageId).
    change (bound_sets _ _) with [("read", JBool flag)].
    cbv zeta.
    rewrite (violation_after_set contact_schema (contact_messages d') "read"
               (JBool flag) "message_id" (JStr messageId) Hviol eq_refl)
      by (intros u [<-|[]]; discriminate).
    rewrite Hsel, Hupd. reflexivity. }
  rewrite Hres. cbn [fst snd contact_messages with_contact]. split; [reflexivity|].
  exists message, (assign message [("read", JBool flag)]).
  split; [exact Ht|]. split; [reflexivity|]. split.
  - rewrite get_assign_one. reflexivity.
  - intros k Hk. rewrite get_assign_one.
    destruct (String.eqb "read" k) eqn:E; [|reflexivity].
    apply String.eqb_eq in E. congruence.
Qed.

(** The handler of the contact update on a body without read flag, once
    the store has taken the id. *)
Lemma put_contact_without_flag :
  forall (now : string) (d : db) (mid : string) (reqBody : jsobj),
    mid <> "" ->
    get reqBody "read" = JUndefined ->
    violation contact_schema (contact_messages d) = None ->
    let res := put_contact now d mid reqBody in
    snd res = d
    /\ match select_where (contact_messages d) "message_id" (JStr mid) with
       | [] => fst res = not_found_response now "Contact message not found"
                           "MESSAGE_NOT_FOUND"
       | _ :: _ => exists constraint, fst res = internal_error now (pg_error constraint)
       end.
Proof. only_used.
  intros now d mid reqBody Hmid Hread Hviol res.
  destruct (contact_update_validates reqBody mid Hmid (or_introl Hread)) as [w [Hw Hwr]].
  rewrite Hread in Hwr.
  subst res. unfold put_contact. rewrite Hw, Hwr. unfold exec_update.
  cbn [push_field update_start u_paramIndex u_values app].
  change (param [JUndefined; JStr mid] 2) with (JStr mid).
  change (bound_sets _ _) with [("read", JUndefined)].
  cbv zeta.
  destruct (select_where (contact_messages d) "message_id" (JStr mid))
    as [|m rest] eqn:Es.
  - rewrite (update_rows_no_match _ _ _ _ Es), Hviol. cbn [map fst snd].
    split; [apply with_contact_same|reflexivity].
  - destruct (violation contact_schema
                (update_rows (contact_messages d) [("read", JUndefined)] "message_id"
                   (JStr mid))) as [c|] eqn:Ev.
    + cbn [fst snd]. split; [reflexivity|]. now exists c.
    + exfalso.
      assert (Hin : In m (contact_messages d)
                    /\ sql_eq (get m "message_id") (JStr mid) = true).
      { assert (Hm : In m (select_where (contact_messages d) "message_id" (JStr mid))).
        { rewrite Es. now left. }
        unfold select_where in Hm. now apply filter_In in Hm. }
      destruct Hin as [Hin Heq].
      assert (Hin' : In (assign m [("read", JUndefined)])
                       (update_rows (contact_messages d) [("read", JUndefined)]
                          "message_id" (JStr mid))).
      { unfold update_rows. apply in_map_iff. exists m. rewrite Heq. auto. }
      pose proof (violation_not_null _ _ "read" _ Ev
                    ltac:(simpl; auto 7) Hin') as Hnn.
      rewrite get_assign_one in Hnn. discriminate Hnn.
Qed.

(** X14. A contact update whose body has no read flag never succeeds on a
    table that satisfies its constraints: for an authenticated admin, the
    statement sets read to NULL, so it is refused with 500 when the message
    exists and finds nothing, 404, when it does not; for an id the store
    refuses the answer is 500 as well. The store is as it was in every
    case. *)
Theorem contact_update_needs_read_flag :
  forall (now : string) (d : db) (headers : jsobj) (user : row) (mid : string)
         (reqBody : jsobj),
    authenticateToken now d headers = inr user ->
    get user "role" = JStr "admin" ->
    mid <> "" ->
    get reqBody "read" = JUndefined ->
    violation contact_schema (contact_messages d) = None ->
    let res := route_put_contact now d headers mid reqBody in
    snd res = d
    /\ status (fst res) <> 200%nat
    /\ if valid_text (JStr mid)
       then match select_where (contact_messages d) "message_id" (JStr mid) with
            | [] => fst res = not_found_response now "Contact message not found"
                                "MESSAGE_NOT_FOUND"
            | _ :: _ =>
                exists constraint, fst res = internal_error now (pg_error constraint)
            end
       else fst res = internal_error now (pg_refusal (JStr mid)).
Proof. only_used.
  intros now d headers user mid reqBody Ha Hr Hmid Hread Hviol res. subst res.
  destruct (contact_update_validates reqBody mid Hmid (or_introl Hread)) as [w [Hw _]].
  unfold route_put_contact, authenticated, admin_only. rewrite Ha.
  rewrite requireRole_admin by exact Hr. rewrite Hw. unfold binding_id.
  destruct (valid_text (JStr mid)); [|repeat split; discriminate].
  destruct (put_contact_without_flag now d mid reqBody Hmid Hread Hviol) as [Hd Hres].
  cbv zeta in Hd, Hres. split; [exact Hd|].
  destruct (select_where (contact_messages d) "message_id" (JStr mid)).
  - split; [rewrite Hres; discriminate|exact Hres].
  - split; [|exact Hres]. destruct Hres as [c Hc]. rewrite Hc. discriminate.
Qed.

(** What a skill creation answered 201 stored. *)
Lemma optional_range x :
  z_nullable (z_optional (z_max 100 (z_min 0 z_int))) x = Some x ->
  x = JNull \/ x = JUndefined \/ exists n, x = JNum n /\ (0 <= n <= 100)%Z.
Proof. only_used.
  unfold z_nullable, z_optional, z_max, z_min, z_refine, z_int, num_test.
  destruct x; auto; try discriminate.
  destruct (0 <=? n)%Z eqn:E0; [|discriminate].
  destruct (n <=? 100)%Z eqn:E1; [|discriminate].
  intros _. right. right. exists n. split; auto. lia.
Qed.

(** X15. A skill creation answered 201 adds one row whose name no earlier
    skill had; its proficiency is the body's when that is between 1 and 100
    and NULL otherwise: a proficiency of 0, which the schema accepts, is
    stored as NULL, so no skill created through the API has proficiency
    0. *)
Theorem created_skill_never_has_zero_proficiency :
  forall (now skillId : string) (d : db) (reqBody : jsobj) (resp : response) (d' : db),
    post_skill now skillId d reqBody = (resp, d') ->
    status resp = 201%nat ->
    exists skill,
      skills d' = skills d ++ [skill]
      /\ d' = with_skills d (skills d')
      /\ get skill "skill_id" = JStr skillId
      /\ get skill "name" = get reqBody "name"
      /\ (forall s, In s (skills d) -> sql_eq (get s "name") (get reqBody "name") = false)
      /\ get skill "proficiency" = or_null (get reqBody "proficiency")
      /\ (get skill "proficiency" = JNull
          \/ exists n, get skill "proficiency" = JNum n /\ (1 <= n <= 100)%Z).
Proof. only_used.
  intros now skillId d reqBody resp d' H Hs. unfold post_skill in H.
  destruct (createSkillInputSchema reqBody) as [issues|v] eqn:Ev;
    [inversion H; subst; discriminate|].
  unfold createSkillInputSchema in Ev.
  destruct (validated_field _ _ _ "name" _ createSkill_nodup Ev
              ltac:(simpl; auto) ltac:(autounfold with zod; auto 6 with zod))
    as [Hgn Hn].
  destruct (validated_field _ _ _ "proficiency" _ createSkill_nodup Ev
              ltac:(simpl; auto) ltac:(autounfold with zod; auto 8 with zod))
    as [Hgp Hp].
  apply refined_string in Hn. destruct Hn as [n [Hn _]].
  apply optional_range in Hp.
  destruct (select_where (skills d) "name" (get v "name")) eqn:Es;
    [|inversion H; subst; discriminate].
  destruct (exec_insert skills_schema (skills d) _) as [error|tbl] eqn:Ei;
    [inversion H; subst; discriminate|].
  apply exec_insert_inr in Ei. destruct Ei as [-> _].
  inversion H; subst resp d'; clear H. cbn [skills with_skills].
  eexists. split; [reflexivity|]. split; [reflexivity|]. split; [reflexivity|].
  split.
  { cbn [map get fst snd String.eqb Ascii.eqb Bool.eqb]. rewrite Hgn, Hn. reflexivity. }
  split.
  { rewrite <- Hgn. apply select_where_nil. exact Es. }
  cbn [map get fst snd String.eqb Ascii.eqb Bool.eqb]. rewrite Hgp.
  destruct Hp as [->|[->|[m [-> Hm]]]]; unfold or_null; cbn [truthy bind].
  - split; [reflexivity|now left].
  - split; [reflexivity|now left].
  - destruct (m =? 0)%Z eqn:E; cbn [negb bind].
    + split; [reflexivity|now left].
    + split; [reflexivity|]. right. exists m. split; [reflexivity|].
      apply Z.eqb_neq in E. lia.
Qed.

(** X16. A resume uploaded as primary is the one GET
    /api/users/:user_id/resume serves for its owner afterwards: after an
    upload answered 201 whose body does not say primary_resume = 'false',
    the lookup for the actor's id (a text the store takes) is answered 200
    with the uploaded row as the driver returns it, its file size as text,
    under any table constraints. *)
Theorem uploaded_primary_resume_is_served :
  forall (sch : table_schema) (now now' resumeId : string) (d : db) (user : row)
         (uid : string) (file : jsval) (reqBody : jsobj) (resp : response) (d' : db),
    resumes_handler sch now resumeId d user file reqBody = (resp, d') ->
    status resp = 201%nat ->
    strict_eq (get reqBody "primary_resume") (JStr "false") = false ->
    get user "user_id" = JStr uid ->
    valid_text (JStr uid) = true ->
    let served := resume_returned (new_resume now resumeId user file true) in
    get_user_resume now' d' uid = mkResponse 200 [("resume", JObj served)]
    /\ get served "resume_id" = JStr resumeId
    /\ (forall size, prop file "size" = JNum size ->
          get served "file_size" = JStr (Z_to_string size)).
Proof. only_used.
  intros sch now now' resumeId d user uid file reqBody resp d' H Hs Hp Hu Hvalid served.
  assert (Hserved : get served "resume_id" = JStr resumeId
                    /\ (forall size, prop file "size" = JNum size ->
                          get served "file_size" = JStr (Z_to_string size))).
  { subst served. unfold resume_returned.
    change (get (new_resume now resumeId user file true) "file_size")
      with (bind (prop file "size")).
    split.
    - destruct (bind (prop file "size")); reflexivity.
    - intros size Hsize. rewrite Hsize. cbn [bind]. apply get_set_same. }
  split; [|exact Hserved].
  unfold resumes_handler in H.
  destruct (negb (truthy file)); [inversion H; subst; discriminate|].
  rewrite Hp in H. cbn [negb] in H.
  destruct (exec_insert sch _ _) as [error|tbl] eqn:Ei;
    [inversion H; subst; discriminate|].
  apply exec_insert_inr in Ei. destruct Ei as [-> _].
  inversion H; subst resp d'; clear H.
  unfold get_user_resume. rewrite Hvalid. cbn [negb resumes with_resumes].
  rewrite filter_app.
  assert (Hold : filter (fun r => sql_eq (get r "user_id") (JStr uid)
                                  && sql_eq (get r "primary_resume") (JBool true))
                   (update_rows (resumes d) demote "user_id" (get user "user_id")) = []).
  { apply filter_none. intros r Hin.
    destruct (sql_eq (get r "user_id") (JStr uid)) eqn:E; [|reflexivity].
    rewrite Hu in Hin. rewrite (demoted_rows_of_actor _ _ _ Hin E). reflexivity. }
  etransitivity;
    [apply (f_equal (fun l => match l ++ _ with
                              | [] => _
                              | r :: _ => _
                              end) Hold)|].
  cbn [app filter map fst snd get String.eqb Ascii.eqb Bool.eqb].
  rewrite Hu. cbn [bind]. rewrite sql_eq_text. cbn [sql_eq Bool.eqb andb].
  subst served. unfold new_resume. rewrite Hu. reflexivity.
Qed.

(** ** Pages of a list *)

Lemma insert_sorted_perm le r l : Permutation (insert_sorted le r l) (r :: l).
Proof. only_used.
  induction l as [|x l IH]; cbn [insert_sorted]; [reflexivity|].
  destruct (le r x); [reflexivity|].
  etransitivity; [apply perm_skip; exact IH|apply perm_swap].
Qed.

Lemma sort_rows_perm le l : Permutation (sort_rows le l) l.
Proof. only_used.
  induction l as [|x l IH]; cbn [sort_rows fold_right]; [reflexivity|].
  etransitivity; [apply insert_sorted_perm|apply perm_skip; exact IH].
Qed.

(** ORDER BY neither drops nor repeats a row. *)
Lemma order_by_perm col dir l : Permutation (order_by col dir l) l.
Proof. only_used. unfold order_by. destruct (String.eqb dir "DESC"); apply sort_rows_perm. Qed.

Lemma in_firstn {A : Type} (n : nat) (l : list A) x : In x (firstn n l) -> In x l.
Proof. only_used.
  intros H. rewrite <- (firstn_skipn n l). apply in_or_app. now left.
Qed.

Lemma in_skipn {A : Type} (n : nat) (l : list A) x : In x (skipn n l) -> In x l.
Proof. only_used.
  intros H. rewrite <- (firstn_skipn n l). apply in_or_app. now right.
Qed.

(** The rows a statement returns are rows of its source that match. *)
Lemma exec_select_in d s r :
  In r (exec_select d s) -> In r (matching_rows d s).
Proof. only_used.
  unfold exec_select. intros H.
  destruct (sel_limit s); [apply in_firstn in H|];
    destruct (sel_offset s); try apply in_skipn in H;
    destruct (sel_order s) as [[col dir]|];
    try (eapply Permutation_in in H; [|apply order_by_perm]); exact H.
Qed.

Lemma firstn_plus {A : Type} (a b : nat) (l : list A) :
  firstn (a + b) l = firstn a l ++ firstn b (skipn a l).
Proof. only_used.
  revert l. induction a as [|a IH]; intros l; [reflexivity|].
  destruct l as [|x l]; cbn [Nat.add firstn skipn app].
  - now rewrite firstn_nil.
  - f_equal. apply IH.
Qed.

(** Consecutive pages of [limit] rows make up a prefix of the list. *)
Lemma pages_concat {A : Type} (l : list A) (limit n : nat) :
  List.concat (map (fun k => firstn limit (skipn ((k - 1) * limit) l)) (seq 1 n))
  = firstn (n * limit) l.
Proof. only_used.
  induction n as [|n IH]; [reflexivity|].
  rewrite seq_S, map_app, concat_app, IH. cbn [map List.concat].
  rewrite app_nil_r. replace (1 + n - 1)%nat with n by lia.
  replace (S n * limit)%nat with (n * limit + limit)%nat by lia.
  symmetry. apply firstn_plus.
Qed.

Lemma nth_after {A : Type} (l : list A) (x y d : A) :
  nth (S (List.length l)) (l ++ [x; y]) d = y.
Proof. only_used. induction l; cbn [List.length app nth]; auto. Qed.

Lemma limit_param (b : builder) (x y : jsval) :
  paramIndex b = S (List.length (values b)) ->
  param (values b ++ [x; y]) (paramIndex b) = x
  /\ param (values b ++ [x; y]) (paramIndex b + 1) = y.
Proof. only_used.
  intros ->. unfold param. split.
  - cbn [Nat.sub]. rewrite Nat.sub_0_r. apply nth_middle.
  - replace (S (List.length (values b)) + 1 - 1)%nat with (S (List.length (values b)))
      by lia.
    apply nth_after.
Qed.

Lemma offset_rows (k limit : nat) :
  Z.to_nat ((Z.of_nat k - 1) * Z.of_nat limit) = ((k - 1) * limit)%nat.
Proof. only_used.
  destruct k as [|k].
  - cbn [Nat.sub Nat.mul]. destruct limit; [reflexivity|]. lia.
  - replace (Z.of_nat (S k) - 1)%Z with (Z.of_nat k) by lia.
    rewrite <- Nat2Z.inj_mul, Nat2Z.id. f_equal. lia.
Qed.

(** The page a paged statement returns: [limit] rows from row
    (page - 1) * limit of the ordered matching rows. *)
Lemma exec_paged d b from col q k limit :
  paramIndex b = S (List.length (values b)) ->
  (forall extra r,
     matches (where_ b) (values b ++ extra) r = matches (where_ b) (values b) r) ->
  get q "limit" = JNum (Z.of_nat limit) ->
  exec_select d (paged_query b from col (set q "page" (JNum (Z.of_nat k))))
  = firstn limit
      (skipn ((k - 1) * limit)
         (order_by col (toUpperCase (js_to_string (get q "sort_order")))
            (filter (matches (where_ b) (values b)) (source_rows d from)))).
Proof. only_used.
  intros Hi Hm Hl. unfold exec_select, matching_rows, paged_query.
  cbn [sel_where sel_values sel_from sel_order sel_limit sel_offset].
  rewrite get_set_same, !get_set_other by discriminate. rewrite Hl.
  cbn [js_sub js_mul].
  destruct (limit_param b (JNum (Z.of_nat limit))
              (JNum ((Z.of_nat k - 1) * Z.of_nat limit)) Hi) as [H1 H2].
  rewrite H1, H2. cbn [as_nat]. rewrite Nat2Z.id, offset_rows.
  do 3 f_equal. apply filter_ext. intros r. apply Hm.
Qed.

(** The embedding's own result is the window of its stable ordering. *)
Lemma exec_select_window d s :
  exec_select d s
  = window s match sel_order s with
             | Some (col, dir) => order_by col dir (matching_rows d s)
             | None => matching_rows d s
             end.
Proof. only_used. reflexivity. Qed.

(** The rows of a paged statement do not depend on the page. *)
Lemma paged_rows d b from col q :
  (forall extra r,
     matches (where_ b) (values b ++ extra) r = matches (where_ b) (values b) r) ->
  matching_rows d (paged_query b from col q)
  = filter (matches (where_ b) (values b)) (source_rows d from).
Proof. only_used.
  intros Hm. unfold matching_rows, paged_query. cbn [sel_where sel_values sel_from].
  apply filter_ext. intros r. apply Hm.
Qed.

(** The window of page k: [limit] rows from row (k - 1) * limit. *)
Lemma paged_window b from col q k limit rows :
  paramIndex b = S (List.length (values b)) ->
  get q "limit" = JNum (Z.of_nat limit) ->
  window (paged_query b from col (set q "page" (JNum (Z.of_nat k)))) rows
  = firstn limit (skipn ((k - 1) * limit) rows).
Proof. only_used.
  intros Hi Hl. unfold window, paged_query. cbn [sel_values sel_limit sel_offset].
  rewrite get_set_same, !get_set_other by discriminate. rewrite Hl.
  cbn [js_sub js_mul].
  destruct (limit_param b (JNum (Z.of_nat limit))
              (JNum ((Z.of_nat k - 1) * Z.of_nat limit)) Hi) as [H1 H2].
  rewrite H1, H2. cbn [as_nat]. now rewrite Nat2Z.id, offset_rows.
Qed.

(** Rows that carry different texts under the column and come in each
    other's place are the same row. *)
Lemma no_ties_antisym col dir rows a b :
  no_ties col rows -> In a rows -> In b rows ->
  order_le col dir a b = true -> order_le col dir b a = true -> a = b.
Proof. only_used.
  intros [Htext Hnd] Ha Hb Hab Hba.
  assert (Hkey : get a (column_key col) = get b (column_key col)).
  { destruct (Htext a Ha) as [x Hx]. destruct (Htext b Hb) as [y Hy].
    unfold order_le in Hab, Hba. rewrite Hx, Hy in *.
    cbn [asc_le sql_text sql_le] in Hab, Hba. f_equal.
    destruct (String.eqb dir "DESC"); [symmetry|]; now apply String.leb_antisym. }
  clear Hab Hba Htext. induction rows as [|r rows IH]; [destruct Ha|].
  cbn [map] in Hnd. inversion Hnd as [|? ? Hnotin Hnd']; subst.
  assert (Hin : forall x, In x rows ->
                  In (get x (column_key col))
                     (map (fun r => get r (column_key col)) rows)).
  { intros x Hx. now apply (in_map (fun r => get r (column_key col))). }
  destruct Ha as [->|Ha], Hb as [->|Hb]; auto.
  - exfalso. apply Hnotin. rewrite Hkey. now apply Hin.
  - exfalso. apply Hnotin. rewrite <- Hkey. now apply Hin.
Qed.

(** Two orderings of the same rows that both agree with the comparison are
    the same list when no two rows tie. *)
Lemma in_order_unique (le : row -> row -> bool) (l1 l2 : list row) :
  (forall a b, In a l1 -> In b l1 -> le a b = true -> le b a = true -> a = b) ->
  Permutation l1 l2 -> in_order le l1 -> in_order le l2 -> l1 = l2.
Proof. only_used.
  revert l2. induction l1 as [|a l1 IH]; intros l2 Hanti Hp H1 H2.
  - now apply Permutation_nil in Hp.
  - destruct l2 as [|b l2].
    { apply Permutation_sym, Permutation_nil in Hp. discriminate Hp. }
    cbn [in_order] in H1, H2. destruct H1 as [Ha H1], H2 as [Hb H2].
    assert (Hab : a = b).
    { assert (Hina : In a (b :: l2)) by (eapply Permutation_in; [exact Hp|now left]).
      assert (Hinb : In b (a :: l1)).
      { eapply Permutation_in; [apply Permutation_sym; exact Hp|now left]. }
      destruct Hina as [<-|Hina]; [reflexivity|].
      destruct Hinb as [->|Hinb]; [reflexivity|].
      apply Hanti; [now left|now right|now apply Ha|now apply Hb]. }
    subst b. f_equal. apply Permutation_cons_inv in Hp.
    apply IH; auto. intros x y Hx Hy. apply Hanti; now right.
Qed.

(** Whatever the store returns for the pages of a paged statement, put end
    to end they are a prefix of one ordering of its rows, as long as no two
    rows tie. *)
Lemma walk_of_paged d b from col q limit (pages : nat -> list row) :
  paramIndex b = S (List.length (values b)) ->
  (forall extra r,
     matches (where_ b) (values b ++ extra) r = matches (where_ b) (values b) r) ->
  get q "limit" = JNum (Z.of_nat limit) ->
  no_ties col (matching_rows d (paged_query b from col q)) ->
  (forall k, (1 <= k)%nat ->
     may_return d (paged_query b from col (set q "page" (JNum (Z.of_nat k)))) (pages k)) ->
  exists sorted,
    Permutation sorted (matching_rows d (paged_query b from col q))
    /\ forall n, List.concat (map pages (seq 1 n)) = firstn (n * limit) sorted.
Proof. only_used.
  intros Hi Hm Hl Hties Hpages.
  set (dir := toUpperCase (js_to_string (get q "sort_order"))).
  assert (Hpage : forall k, (1 <= k)%nat ->
            exists sorted,
              Permutation sorted (matching_rows d (paged_query b from col q))
              /\ in_order (order_le col dir) sorted
              /\ pages k = firstn limit (skipn ((k - 1) * limit) sorted)).
  { intros k Hk. destruct (Hpages k Hk) as [sorted [Hp [Ho Hw]]].
    exists sorted. rewrite paged_rows in Hp |- * by exact Hm.
    split; [exact Hp|]. split.
    - unfold paged_query in Ho. cbn [sel_order] in Ho.
      rewrite get_set_other in Ho by discriminate. exact Ho.
    - rewrite Hw. now apply paged_window. }
  destruct (Hpage 1%nat (le_n 1)) as [sorted [Hp [Ho _]]].
  exists sorted. split; [exact Hp|]. intros n. rewrite <- pages_concat.
  f_equal. apply map_ext_in. intros k Hk. apply in_seq in Hk.
  destruct (Hpage k (proj1 Hk)) as [sorted' [Hp' [Ho' Hw]]].
  rewrite Hw. replace sorted' with sorted; [reflexivity|].
  apply (in_order_unique (order_le col dir)); auto.
  - intros x y Hx Hy. apply (no_ties_antisym col dir _ x y Hties).
    + eapply Permutation_in; [exact Hp|exact Hx].
    + eapply Permutation_in; [exact Hp|exact Hy].
  - etransitivity; [exact Hp|apply Permutation_sym; exact Hp'].
Qed.

Lemma projects_builder q :
  let b := projects_filters q (start projects_select_text) in
  paramIndex b = S (List.length (values b))
  /\ forall extra r,
       matches (where_ b) (values b ++ extra) r = matches (where_ b) (values b) r.
Proof. only_used.
  unfold projects_filters, when.
  destruct (truthy (get q "search")), (truthy (get q "category")),
    (truthy (get q "user_id")); split; reflexivity.
Qed.

Lemma users_builder q :
  let b := users_filters q (start users_select_text) in
  paramIndex b = S (List.length (values b))
  /\ forall extra r,
       matches (where_ b) (values b ++ extra) r = matches (where_ b) (values b) r.
Proof. only_used.
  unfold users_filters, when.
  destruct (truthy (get q "role")), (truthy (get q "search")); split; reflexivity.
Qed.

Lemma contact_builder q :
  let b := contact_filters q (start "SELECT * FROM contact_messages WHERE 1=1") in
  paramIndex b = S (List.length (values b))
  /\ forall extra r,
       matches (where_ b) (values b ++ extra) r = matches (where_ b) (values b) r.
Proof. only_used.
  unfold contact_filters, when.
  destruct (truthy (get q "search")), (defined (get q "read")),
    (truthy (get q "start_date")), (truthy (get q "end_date")); split; reflexivity.
Qed.

(** X17. Paging through a list loses and repeats nothing when no two of
    the matching rows tie under the sort column: for the item statements of
    GET /api/projects, /api/users and /api/contact on one store and one set
    of criteria, whatever result the store gives for each page (its order
    agreeing with ORDER BY), the pages 1, 2, ..., n of [limit] rows put end
    to end are the first n * limit rows of one ordering of the rows the
    statement matches. *)
Theorem pages_enumerate_matching_rows :
  forall (d : db) (q : jsobj) (limit : nat),
    get q "limit" = JNum (Z.of_nat limit) ->
    (no_ties ("p." ^ js_to_string (get q "sort_by"))
       (matching_rows d (projects_item_query q)) ->
     pages_walk d projects_item_query q limit)
    /\ (no_ties (js_to_string (get q "sort_by")) (matching_rows d (users_item_query q)) ->
        pages_walk d users_item_query q limit)
    /\ (no_ties (js_to_string (get q "sort_by")) (matching_rows d (contact_item_query q)) ->
        pages_walk d contact_item_query q limit).
Proof. only_used.
  intros d q limit Hl. unfold pages_walk. split; [|split]; intros Hties pages Hpages.
  - destruct (projects_builder q) as [Hi Hm].
    apply (walk_of_paged d _ FromProjectsJoinUsers
             ("p." ^ js_to_string (get q "sort_by")) q limit pages Hi Hm Hl Hties).
    intros k Hk. specialize (Hpages k Hk).
    unfold projects_item_query, projects_filters in Hpages.
    now rewrite !get_set_other in Hpages by discriminate.
  - destruct (users_builder q) as [Hi Hm].
    apply (walk_of_paged d _ FromUsers (js_to_string (get q "sort_by")) q limit pages
             Hi Hm Hl Hties).
    intros k Hk. specialize (Hpages k Hk).
    unfold users_item_query, users_filters in Hpages.
    now rewrite !get_set_other in Hpages by discriminate.
  - destruct (contact_builder q) as [Hi Hm].
    apply (walk_of_paged d _ FromContactMessages (js_to_string (get q "sort_by")) q
             limit pages Hi Hm Hl Hties).
    intros k Hk. specialize (Hpages k Hk).
    unfold contact_item_query, contact_filters in Hpages.
    now rewrite !get_set_other in Hpages by discriminate.
Qed.

(** What the query schemas let through as page and limit. *)
Lemma page_field x w :
  z_page x = Some w ->
  exists page, w = JNum page /\ (1 <= page)%Z /\ (x = JUndefined -> page = 1%Z)
               /\ (x = JUndefined \/ x = JNum page).
Proof. only_used.
  unfold z_page, z_default, z_positive, z_refine, z_int, num_test.
  destruct x; try discriminate.
  - intros H. inversion H; subst. exists 1%Z. repeat split; auto; lia.
  - destruct (0 <? n)%Z eqn:E; [|discriminate]. intros H. inversion H; subst.
    exists n. apply Z.ltb_lt in E. repeat split; auto; try lia. discriminate.
Qed.

Lemma limit_field dflt x w :
  (1 <= dflt <= 100)%Z ->
  z_limit dflt x = Some w ->
  exists limit, w = JNum limit /\ (1 <= limit <= 100)%Z
                /\ (x = JUndefined -> limit = dflt).
Proof. only_used.
  intros Hd. unfold z_limit, z_default, z_max, z_positive, z_refine, z_int, num_test.
  destruct x; try discriminate.
  - intros H. inversion H; subst. exists dflt. repeat split; lia.
  - destruct (0 <? n)%Z eqn:E; [|discriminate].
    destruct (n <=? 100)%Z eqn:E'; [|discriminate]. intros H. inversion H; subst.
    exists n. apply Z.ltb_lt in E. apply Z.leb_le in E'. repeat split; try lia.
    discriminate.
Qed.

Lemma int_param_absent v : truthy v = false -> int_param v = JUndefined.
Proof. only_used. unfold int_param. now intros ->. Qed.

(** The page a paged list answers with. *)
Lemma page_of_paged key d q b from col count page limit :
  get q "page" = JNum page -> get q "limit" = JNum limit -> (0 <= limit)%Z ->
  paramIndex b = S (List.length (values b)) ->
  exists items total,
    page_response key d q (paged_query b from col q) count
    = (mkResponse 200
         [(key, JArr items); ("pagination", pagination (JNum page) (JNum limit) total)],
       [paged_query b from col q; count])
    /\ (Z.of_nat (List.length items) <= limit)%Z
    /\ sel_values (paged_query b from col q)
       = values b ++ [JNum limit; JNum ((page - 1) * limit)].
Proof. only_used.
  intros Hp Hl Hpos Hi. unfold page_response. rewrite Hp, Hl.
  eexists. eexists. split; [reflexivity|]. split.
  - rewrite length_map. unfold exec_select, paged_query.
    cbn [sel_values sel_order sel_limit sel_offset]. rewrite Hp, Hl. cbn [js_sub js_mul].
    destruct (limit_param b (JNum limit) (JNum ((page - 1) * limit)) Hi) as [H1 _].
    rewrite H1. cbn [as_nat].
    etransitivity; [apply Nat2Z.inj_le; apply firstn_le_length|].
    rewrite Z2Nat.id by exact Hpos. apply Z.le_refl.
  - unfold paged_query. cbn [sel_values]. rewrite Hp, Hl. reflexivity.
Qed.

Lemma projectQuery_nodup : NoDup (map fst projectQueryShape).
Proof. only_used. solve_nodup. Qed.
Lemma userQuery_nodup : NoDup (map fst userQueryShape).
Proof. only_used. solve_nodup. Qed.
Lemma contactQuery_nodup : NoDup (map fst contactMessageQueryShape).
Proof. only_used. solve_nodup. Qed.

Lemma paged_bounds shape input q :
  NoDup (map fst shape) -> z_object shape input = inr q ->
  In ("page", z_page) shape -> In ("limit", z_limit 10) shape ->
  exists page limit,
    get q "page" = JNum page /\ get q "limit" = JNum limit
    /\ (1 <= page)%Z /\ (1 <= limit <= 100)%Z
    /\ (get input "page" = JUndefined -> page = 1%Z)
    /\ (get input "limit" = JUndefined -> limit = 10%Z)
    /\ (get input "page" = JUndefined \/ get input "page" = JNum page).
Proof. only_used.
  intros Hnd Hq Hp Hl.
  destruct (z_object_field _ _ _ Hnd Hq _ _ Hp) as [v [Hv Hgp]].
  destruct (z_object_field _ _ _ Hnd Hq _ _ Hl) as [w [Hw Hgl]].
  apply page_field in Hv. destruct Hv as [page [-> [H1 [H2 H5]]]].
  apply limit_field in Hw; [|lia]. destruct Hw as [limit [-> [H3 H4]]].
  exists page, limit. repeat split; auto; lia.
Qed.

(** The limit and the offset of a request within the exact range fit
    bigint. *)
Lemma paging_in_bigint reqQuery page limit :
  exact_paging reqQuery ->
  int_param (get reqQuery "page") = JUndefined
  \/ int_param (get reqQuery "page") = JNum page ->
  (int_param (get reqQuery "page") = JUndefined -> page = 1%Z) ->
  (1 <= page)%Z -> (1 <= limit <= 100)%Z ->
  in_bigint (JNum limit) = true /\ in_bigint (JNum ((page - 1) * limit)) = true.
Proof. only_used.
  unfold exact_paging, MAX_SAFE_INTEGER, in_bigint.
  change (2 ^ 53)%Z with 9007199254740992%Z.
  change (2 ^ 63)%Z with 9223372036854775808%Z.
  intros He Hx H1 Hp Hl.
  assert (Hoff : (0 <= (page - 1) * limit <= 9007199254740991)%Z).
  { destruct Hx as [Hx|Hx].
    - rewrite (H1 Hx). lia.
    - rewrite Hx in He. nia. }
  split; apply andb_true_iff; split;
    first [apply Z.leb_le | apply Z.ltb_lt]; lia.
Qed.

(** A statement is taken when the store takes each text it binds and its
    LIMIT and OFFSET. *)
Lemma refused_value_none s :
  find (fun v => negb (valid_text v)) (sel_values s) = None ->
  (forall v, In v (paging_values s) -> in_bigint v = true) ->
  refused_value s = None.
Proof. only_used.
  intros Ht Hp. unfold refused_value. rewrite Ht.
  destruct (find _ (paging_values s)) as [v|] eqn:E; [|reflexivity].
  apply find_some in E. destruct E as [Hin Hv]. rewrite (Hp v Hin) in Hv.
  discriminate Hv.
Qed.

(** The page of a paged list goes out as the handler built it unless the
    store refuses a text the item statement binds. *)
Lemma caught_paged now resp b from col q count page limit :
  get q "page" = JNum page -> get q "limit" = JNum limit ->
  paramIndex b = S (List.length (values b)) ->
  in_bigint (JNum limit) = true -> in_bigint (JNum ((page - 1) * limit)) = true ->
  sel_limit count = None -> sel_offset count = None ->
  (forall v, In v (sel_values count) -> In v (values b)) ->
  caught now (resp, [paged_query b from col q; count])
  = (resp, [paged_query b from col q; count])
  \/ exists v,
       caught now (resp, [paged_query b from col q; count])
       = (internal_error now (pg_refusal v), [paged_query b from col q])
       /\ In v (sel_values (paged_query b from col q)) /\ valid_text v = false.
Proof. only_used.
  intros Hp Hl Hi Hlim Hoff Hcl Hco Hsub. unfold caught. cbn [snd issue].
  destruct (find (fun v => negb (valid_text v)) (sel_values (paged_query b from col q)))
    as [v|] eqn:Ef.
  - right. exists v. unfold refused_value. rewrite Ef. split; [reflexivity|].
    apply find_some in Ef. destruct Ef as [Hin Hv]. split; [exact Hin|].
    now apply negb_true_iff.
  - left.
    assert (Hitem : refused_value (paged_query b from col q) = None).
    { apply refused_value_none; [exact Ef|].
      unfold paging_values, paged_query. cbn [sel_limit sel_offset sel_values].
      rewrite Hp, Hl. cbn [js_sub js_mul].
      destruct (limit_param b (JNum limit) (JNum ((page - 1) * limit)) Hi) as [H1 H2].
      rewrite H1, H2. intros v [<-|[<-|[]]]; assumption. }
    assert (Hcount : refused_value count = None).
    { apply refused_value_none.
      - destruct (find _ (sel_values count)) as [v|] eqn:Ec; [|reflexivity].
        apply find_some in Ec. destruct Ec as [Hin Hv].
        rewrite (find_none _ _ Ef v) in Hv; [discriminate Hv|].
        unfold paged_query. cbn [sel_values]. apply in_or_app. left. now apply Hsub.
      - unfold paging_values. rewrite Hcl, Hco. intros v []. }
    rewrite Hitem, Hcount. reflexivity.
Qed.

Lemma caught_invalid now issues :
  caught now (validation_error now issues, []) = (validation_error now issues, []).
Proof. only_used. reflexivity. Qed.

(** The count statements bind values of their item statements. *)
Lemma projects_count_values q v :
  In v (sel_values (projects_count_query q)) ->
  In v (values (projects_filters q (start projects_select_text))).
Proof. only_used.
  unfold projects_count_query, count_select, projects_filters, when.
  cbn [sel_values].
  destruct (truthy (get q "search")), (truthy (get q "category")),
    (truthy (get q "user_id")); exact (fun H => H).
Qed.

Lemma users_count_values q v :
  In v (sel_values (users_count_query q)) ->
  In v (values (users_filters q (start users_select_text))).
Proof. only_used.
  unfold users_count_query, count_select, users_filters, when. cbn [sel_values].
  destruct (truthy (get q "role")), (truthy (get q "search")); exact (fun H => H).
Qed.

Lemma contact_count_values q v :
  In v (sel_values (contact_count_query q)) ->
  In v (values (contact_filters q (start "SELECT * FROM contact_messages WHERE 1=1"))).
Proof. only_used.
  unfold contact_count_query, count_select, contact_count_filters, contact_filters, when.
  cbn [sel_values].
  destruct (truthy (get q "search")), (defined (get q "read")),
    (truthy (get q "start_date")), (truthy (get q "end_date"));
    cbn [and_clause start values app In]; tauto.
Qed.

(** The answer of a paged list handler, sent through its [catch]. *)
Lemma paged_route_bounds now key d shape input (reqQuery q : jsobj) b from col cnt :
  NoDup (map fst shape) -> z_object shape input = inr q ->
  In ("page", z_page) shape -> In ("limit", z_limit 10) shape ->
  get input "page" = int_param (get reqQuery "page") ->
  get input "limit" = int_param (get reqQuery "limit") ->
  exact_paging reqQuery ->
  paramIndex b = S (List.length (values b)) ->
  sel_limit cnt = None -> sel_offset cnt = None ->
  (forall v, In v (sel_values cnt) -> In v (values b)) ->
  (exists item v,
      caught now (page_response key d q (paged_query b from col q) cnt)
      = (internal_error now (pg_refusal v), [item])
      /\ In v (sel_values item) /\ valid_text v = false)
  \/ exists page limit items total item count,
       caught now (page_response key d q (paged_query b from col q) cnt)
       = (mkResponse 200
            [(key, JArr items);
             ("pagination", pagination (JNum page) (JNum limit) total)],
          [item; count])
       /\ (1 <= page)%Z /\ (1 <= limit <= 100)%Z
       /\ (Z.of_nat (List.length items) <= limit)%Z
       /\ (exists bound,
             sel_values item = bound ++ [JNum limit; JNum ((page - 1) * limit)])
       /\ (truthy (get reqQuery "page") = false -> page = 1%Z)
       /\ (truthy (get reqQuery "limit") = false -> limit = 10%Z).
Proof. only_used.
  intros Hnd Hq Hpage Hlimit Hip Hil Hexact Hi Hcl Hco Hsub.
  destruct (paged_bounds _ _ _ Hnd Hq Hpage Hlimit)
    as [page [limit [Hp [Hl [H1 [H2 [H3 [H4 H5]]]]]]]].
  rewrite Hip in H3, H5. rewrite Hil in H4.
  destruct (paging_in_bigint reqQuery page limit Hexact H5 H3 H1 H2) as [Hbl Hbo].
  destruct (page_of_paged key d q b from col cnt page limit Hp Hl ltac:(lia) Hi)
    as [items [total [Hr [Hlen Hvals]]]].
  rewrite Hr.
  destruct (caught_paged now
              (mkResponse 200
                 [(key, JArr items);
                  ("pagination", pagination (JNum page) (JNum limit) total)])
              b from col q cnt page limit Hp Hl Hi Hbl Hbo Hcl Hco Hsub)
    as [Hsame|[v [Hv [Hin Hno]]]].
  - right. exists page, limit, items, total. eexists. eexists.
    split; [exact Hsame|]. split; [exact H1|]. split; [exact H2|].
    split; [exact Hlen|]. split; [eexists; exact Hvals|].
    split; intros Ht; [apply H3|apply H4]; now apply int_param_absent.
  - left. eexists. exists v. split; [exact Hv|]. split; assumption.
Qed.

(** X18. Every answer of GET /api/projects, and of GET /api/users and GET
    /api/contact to an authenticated admin, to a request whose page number
    is within the range of exact arithmetic, is 400, or 500 because the store
    refuses a text the request made the statement bind, or a page whose
    number is at least 1 (1 when the request names none), whose limit is
    between 1 and 100 (10 when the request names none) and whose items are at
    most [limit]; the item statement binds that limit and the offset
    (page - 1) * limit as its last two values. *)
Theorem page_holds_at_most_limit_rows :
  forall (now : string) (d : db),
    page_bounds now "projects" (route_get_projects now d)
    /\ (forall headers user,
          authenticateToken now d headers = inr user ->
          get user "role" = JStr "admin" ->
          page_bounds now "users" (route_get_users now d headers)
          /\ page_bounds now "contact_messages" (route_get_contact now d headers)).
Proof. only_used.
  intros now d. split; [|intros headers user Ha Hr; split]; intros reqQuery Hexact.
  - unfold route_get_projects, get_projects.
    destruct (projectQuerySchema _) as [issues|q] eqn:Eq; [left; exists issues; reflexivity|right].
    unfold projectQuerySchema in Eq.
    exact (paged_route_bounds now "projects" d _ _ reqQuery q _ FromProjectsJoinUsers
             ("p." ^ js_to_string (get q "sort_by")) (projects_count_query q)
             projectQuery_nodup Eq ltac:(simpl; auto 8) ltac:(simpl; auto 8)
             eq_refl eq_refl Hexact (proj1 (projects_builder q)) eq_refl eq_refl
             (projects_count_values q)).
  - unfold route_get_users, admin_list, get_users. rewrite Ha.
    rewrite requireRole_admin by exact Hr.
    destruct (userQuerySchema _) as [issues|q] eqn:Eq; [left; exists issues; reflexivity|right].
    unfold userQuerySchema in Eq.
    exact (paged_route_bounds now "users" d _ _ reqQuery q _ FromUsers
             (js_to_string (get q "sort_by")) (users_count_query q)
             userQuery_nodup Eq ltac:(simpl; auto 8) ltac:(simpl; auto 8)
             eq_refl eq_refl Hexact (proj1 (users_builder q)) eq_refl eq_refl
             (users_count_values q)).
  - unfold route_get_contact, admin_list, get_contact. rewrite Ha.
    rewrite requireRole_admin by exact Hr.
    destruct (contactMessageQuerySchema _) as [issues|q] eqn:Eq; [left; exists issues; reflexivity|right].
    unfold contactMessageQuerySchema in Eq.
    exact (paged_route_bounds now "contact_messages" d _ _ reqQuery q _
             FromContactMessages (js_to_string (get q "sort_by"))
             (contact_count_query q)
             contactQuery_nodup Eq ltac:(simpl; auto 8) ltac:(simpl; auto 8)
             eq_refl eq_refl Hexact (proj1 (contact_builder q)) eq_refl eq_refl
             (contact_count_values q)).
Qed.

(** ** What the user routes show of a user *)

Lemma envelope_lacks now message error code k :
  k <> "success" -> k <> "message" -> k <> "timestamp" -> k <> "error_code" ->
  k <> "details" ->
  get (createErrorResponse now message error code) k = JUndefined.
Proof. only_used.
  intros H1 H2 H3 H4 H5. unfold createErrorResponse.
  destruct (truthy (JStr code)), (truthy error);
    rewrite ?get_set_other by congruence; cbn [get];
    apply String.eqb_neq in H1; apply String.eqb_neq in H2; apply String.eqb_neq in H3;
    rewrite String.eqb_sym in H1; rewrite String.eqb_sym in H2;
    rewrite String.eqb_sym in H3; rewrite ?H1, ?H2, ?H3; reflexivity.
Qed.

Lemma hides_error st now message error code k :
  hides k (get (body (mkResponse st (createErrorResponse now message error code))) "user")
  /\ hides k (get (body (mkResponse st (createErrorResponse now message error code)))
                "users").
Proof. only_used.
  cbn [body]. rewrite !envelope_lacks by discriminate. split; exact I.
Qed.

Lemma has_key_keep_columns cols (r : row) k :
  has_key (keep_columns cols r) k = existsb (fun c => String.eqb c k) cols.
Proof. only_used.
  unfold keep_columns. induction cols as [|c cols IH]; [reflexivity|].
  cbn [map has_key existsb]. now rewrite IH.
Qed.

Lemma hides_user_by_id cols now d uid k :
  existsb (fun c => String.eqb c k) cols = false ->
  hides k (get (body (user_by_id cols now d uid)) "user").
Proof. only_used.
  intros Hk. unfold user_by_id.
  destruct (select_where (users d) "user_id" uid) as [|u rest]; cbn [map].
  - apply hides_error.
  - cbn [body get String.eqb Ascii.eqb Bool.eqb hides]. now rewrite has_key_keep_columns.
Qed.

(** X19. No answer of the routes that return users carries a stored
    password: the user object of GET /api/users/:user_id, /api/auth/me,
    /api/auth/verify, of register, login and the profile update, every item
    of GET /api/users, and the row authenticateToken attaches to the request
    have no password_hash key. *)
Theorem user_answers_hide_password :
  forall (now : string) (d : db),
    (forall user_id, hides "password_hash" (get (body (get_user now d user_id)) "user"))
    /\ (forall user, hides "password_hash" (get (body (get_me now d user)) "user"))
    /\ (forall user, hides "password_hash" (get (body (get_verify user)) "user"))
    /\ (forall reqBody,
          hides "password_hash" (get (body (fst (post_login now d reqBody))) "user"))
    /\ (forall userId reqBody,
          hides "password_hash"
            (get (body (fst (post_register now userId d reqBody))) "user"))
    /\ (forall user reqBody,
          hides "password_hash" (get (body (fst (put_profile now d user reqBody))) "user"))
    /\ (forall reqQuery,
          hides "password_hash" (get (body (fst (get_users now d reqQuery))) "users"))
    /\ (forall headers user,
          authenticateToken now d headers = inr user ->
          has_key user "password_hash" = false).
Proof. only_used.
  intros now d.
  split; [intros; now apply hides_user_by_id|].
  split; [intros; now apply hides_user_by_id|].
  split; [intros; reflexivity|].
  split.
  { intros reqBody. unfold post_login.
    destruct (negb (truthy (get reqBody "email")) || negb (truthy (get reqBody "password")));
      [apply hides_error|].
    destruct (get reqBody "email"); try apply hides_error.
    destruct (select_where (users d) "email" _) as [|user rest]; [apply hides_error|].
    destruct (negb (strict_eq (get reqBody "password") (get user "password_hash")));
      [apply hides_error|reflexivity]. }
  split.
  { intros userId reqBody. unfold post_register.
    destruct (createUserInputSchema reqBody) as [issues|v]; [apply hides_error|].
    destruct (select_where (users d) "email" _); [|apply hides_error].
    destruct (exec_insert users_schema (users d) _); [apply hides_error|reflexivity]. }
  split.
  { intros user reqBody. unfold put_profile.
    destruct (updateUserInputSchema reqBody) as [issues|v]; [apply hides_error|].
    destruct (updateFields (update_loop [] [] v)); [apply hides_error|].
    destruct (exec_update_on _ _ _ _ _ _) as [error|[tbl rows]]; [apply hides_error|].
    unfold ok_entity. cbn [fst body get String.eqb Ascii.eqb Bool.eqb].
    destruct rows as [|r rows]; cbn [map hides]; [exact I|].
    now rewrite has_key_keep_columns. }
  split.
  { intros reqQuery. unfold get_users.
    destruct (userQuerySchema _) as [issues|q]; [apply hides_error|].
    unfold page_response. cbn [fst body get String.eqb Ascii.eqb Bool.eqb hides].
    intros o Hin. apply in_map_iff in Hin. destruct Hin as [r [Heq Hin]].
    inversion Heq; subst r; clear Heq.
    apply exec_select_in in Hin. unfold matching_rows in Hin.
    apply filter_In in Hin. destruct Hin as [Hin _].
    change (sel_from (users_item_query q)) with FromUsers in Hin.
    cbn [source_rows] in Hin. apply in_map_iff in Hin.
    destruct Hin as [u [<- _]]. now rewrite has_key_keep_columns. }
  intros headers user H. unfold authenticateToken in H.
  destruct (negb (truthy (bearer_token headers))); [discriminate|].
  destruct (jwt_verify _ JWT_SECRET) as [error|decoded]; [discriminate|].
  destruct (select_where (users d) "user_id" (prop decoded "user_id")) as [|u rest];
    cbn [map] in H; [discriminate|].
  inversion H. reflexivity.
Qed.

(** ** Gallery images and experiences *)

Lemma createGallery_nodup : NoDup (map fst createProjectGalleryImageInputShape).
Proof. only_used. solve_nodup. Qed.

Lemma createExperience_nodup : NoDup (map fst createExperienceInputShape).
Proof. only_used. solve_nodup. Qed.

Lemma updateGallery_nodup : NoDup (map fst updateProjectGalleryImageInputShape).
Proof. only_used. solve_nodup. Qed.

Lemma updateExperience_nodup : NoDup (map fst updateExperienceInputShape).
Proof. only_used. solve_nodup. Qed.

(** X20. A gallery image is added only past the ownership guard and to the
    project of the path: an addition answered 201 found a project of that id
    on which the guard lets the actor through, and adds one image row that
    carries the generated id, the path's project_id whatever project_id the
    body names, and the body's image_url; nothing else changes. *)
Theorem gallery_image_added_to_path_project :
  forall (now imageId : string) (d : db) (user : row) (project_id : string)
         (reqBody : jsobj) (resp : response) (d' : db),
    post_gallery_image now imageId d user project_id reqBody = (resp, d') ->
    status resp = 201%nat ->
    exists project image,
      In project (projects d)
      /\ sql_eq (get project "project_id") (JStr project_id) = true
      /\ not_allowed project user = false
      /\ project_gallery_images d' = project_gallery_images d ++ [image]
      /\ d' = with_gallery d (project_gallery_images d')
      /\ get image "image_id" = JStr imageId
      /\ get image "project_id" = JStr project_id
      /\ get image "image_url" = get reqBody "image_url"
      /\ forall i, In i (project_gallery_images d) ->
           sql_eq (get i "image_id") (JStr imageId) = false.
Proof. only_used.
  intros now imageId d user pid reqBody resp d' H Hs. unfold post_gallery_image in H.
  destruct (select_where (projects d) "project_id" (JStr pid)) as [|project rest] eqn:Es;
    [inversion H; subst; discriminate|].
  destruct (not_allowed project user) eqn:Ena; [inversion H; subst; discriminate|].
  destruct (createProjectGalleryImageInputSchema _) as [issues|v] eqn:Ev;
    [inversion H; subst; discriminate|].
  destruct (exec_insert gallery_schema (project_gallery_images d) _) as [error|tbl] eqn:Ei;
    [inversion H; subst; discriminate|].
  apply exec_insert_inr in Ei. destruct Ei as [-> Hviol].
  inversion H; subst resp d'; clear H. cbn [project_gallery_images with_gallery].
  unfold createProjectGalleryImageInputSchema in Ev.
  destruct (validated_field _ _ _ "image_url" _ createGallery_nodup Ev
              ltac:(simpl; auto) ltac:(autounfold with zod; auto 6 with zod))
    as [Hgu Hu].
  rewrite get_spread_one_other in Hgu, Hu by discriminate.
  apply refined_string in Hu. destruct Hu as [url [Hu _]].
  assert (Hin : In project (select_where (projects d) "project_id" (JStr pid))).
  { rewrite Es. now left. }
  unfold select_where in Hin. apply filter_In in Hin. destruct Hin as [Hin Heq].
  pose proof (fresh_in_table _ _ _ "image_id" "project_gallery_images_pkey" Hviol
                (or_introl eq_refl)) as Hfresh.
  exists project. eexists.
  split; [exact Hin|]. split; [exact Heq|]. split; [exact Ena|].
  split; [reflexivity|]. split; [reflexivity|]. split; [reflexivity|].
  split; [reflexivity|]. split.
  - cbn [map get fst snd String.eqb Ascii.eqb Bool.eqb]. now rewrite Hgu, Hu.
  - intros i Hi. exact (select_where_nil _ _ _ Hfresh i Hi).
Qed.

(** What an experience creation answered 201 added. *)
Lemma post_experience_created now experienceId d user reqBody resp d' :
  post_experience now experienceId d user reqBody = (resp, d') ->
  status resp = 201%nat ->
  exists uid experience,
    get user "user_id" = JStr uid
    /\ experiences d' = experiences d ++ [experience]
    /\ d' = with_experiences d (experiences d')
    /\ get experience "experience_id" = JStr experienceId
    /\ get experience "user_id" = JStr uid
    /\ get experience "title" = get reqBody "title"
    /\ get experience "company" = get reqBody "company"
    /\ (forall e, In e (experiences d) ->
          sql_eq (get e "experience_id") (JStr experienceId) = false).
Proof. only_used.
  intros H Hs. unfold post_experience in H.
  destruct (createExperienceInputSchema _) as [issues|v] eqn:Ev;
    [inversion H; subst; discriminate|].
  destruct (exec_insert experiences_schema (experiences d) _) as [error|tbl] eqn:Ei;
    [inversion H; subst; discriminate|].
  apply exec_insert_inr in Ei. destruct Ei as [-> Hviol].
  inversion H; subst resp d'; clear H. cbn [experiences with_experiences].
  unfold createExperienceInputSchema in Ev.
  destruct (validated_field _ _ _ "user_id" _ createExperience_nodup Ev
              ltac:(simpl; auto) ltac:(autounfold with zod; auto 6 with zod))
    as [Hgu Hu].
  destruct (validated_field _ _ _ "title" _ createExperience_nodup Ev
              ltac:(simpl; auto) ltac:(autounfold with zod; auto 6 with zod))
    as [Hgt Ht].
  destruct (validated_field _ _ _ "company" _ createExperience_nodup Ev
              ltac:(simpl; auto) ltac:(autounfold with zod; auto 6 with zod))
    as [Hgc Hc].
  rewrite get_spread_one_same in Hgu, Hu.
  rewrite get_spread_one_other in Hgt, Ht, Hgc, Hc by discriminate.
  apply refined_string in Hu. destruct Hu as [uid [Hu _]].
  apply refined_string in Ht. destruct Ht as [t [Ht _]].
  apply refined_string in Hc. destruct Hc as [c [Hc _]].
  pose proof (fresh_in_table _ _ _ "experience_id" "experiences_pkey" Hviol
                (or_introl eq_refl)) as Hfresh.
  exists uid. eexists.
  split; [exact Hu|]. split; [reflexivity|]. split; [reflexivity|].
  split; [reflexivity|].
  split; [cbn [map get fst snd String.eqb Ascii.eqb Bool.eqb]; now rewrite Hgu, Hu|].
  split; [cbn [map get fst snd String.eqb Ascii.eqb Bool.eqb]; now rewrite Hgt, Ht|].
  split; [cbn [map get fst snd String.eqb Ascii.eqb Bool.eqb]; now rewrite Hgc, Hc|].
  intros e He. exact (select_where_nil _ _ _ Hfresh e He).
Qed.

(** X21. An experience is created for the actor and stays theirs to
    remove: a creation answered 201 adds one row carrying the generated id
    and the actor's user_id, whatever user_id the body names, and leaves the
    other tables alone; a deletion of that id by the same actor is then
    answered 200 and gives back the experience table from before the
    creation. *)
Theorem created_experience_belongs_to_actor :
  forall (now now' experienceId : string) (d : db) (user : row) (reqBody : jsobj)
         (resp : response) (d' : db),
    post_experience now experienceId d user reqBody = (resp, d') ->
    status resp = 201%nat ->
    (exists experience,
       experiences d' = experiences d ++ [experience]
       /\ d' = with_experiences d (experiences d')
       /\ get experience "experience_id" = JStr experienceId
       /\ get experience "user_id" = get user "user_id"
       /\ get experience "title" = get reqBody "title")
    /\ delete_experience now' d' user experienceId
       = (ok_message "Experience deleted successfully", d).
Proof. only_used.
  intros now now' experienceId d user reqBody resp d' H Hs.
  destruct (post_experience_created _ _ _ _ _ _ _ H Hs)
    as [uid [experience [Hu [Ht [Hd [Hid [Ho [Hti [_ Hfresh]]]]]]]]].
  split.
  { exists experience. rewrite Hu. repeat (split; [assumption|]). assumption. }
  assert (Hnone : select_where (experiences d) "experience_id" (JStr experienceId) = []).
  { unfold select_where. apply filter_none. exact Hfresh. }
  assert (Hsel : select_where (experiences d') "experience_id" (JStr experienceId)
                 = [experience]).
  { rewrite Ht, select_where_app, Hnone.
    unfold select_where. cbn [filter app]. rewrite Hid, sql_eq_text. reflexivity. }
  unfold delete_experience. rewrite Hsel.
  assert (Hna : not_allowed experience user = false).
  { unfold not_allowed. rewrite Ho, Hu. cbn [strict_eq]. now rewrite String.eqb_refl. }
  rewrite Hna. f_equal.
  rewrite Ht, delete_where_app, (delete_where_none _ _ _ Hfresh).
  unfold delete_where. cbn [filter]. rewrite Hid, sql_eq_text. cbn [negb].
  rewrite app_nil_r, Hd. destruct d; reflexivity.
Qed.

(** The columns an experience or gallery update sets are keys of the
    validated body other than the id. *)
Lemma experience_update_keys validatedInput input k i :
  updateExperienceInputSchema input = inr validatedInput ->
  In (k, i) (u_sets (update_loop ["experience_id"] [] validatedInput)) ->
  In k ["title"; "company"; "description"; "start_date"; "end_date"; "current";
        "location"].
Proof. only_used.
  intros Hv Hin. unfold update_loop in Hin.
  apply fold_update_step_sets in Hin. destruct Hin as [[]|[Hs [v [Hin _]]]].
  apply in_has_key in Hin.
  pose proof (z_object_keys _ _ _ _ Hv Hin) as Hk.
  destruct Hk as [<-|Hk]; [discriminate Hs|exact Hk].
Qed.

Lemma gallery_update_keys validatedInput input k i :
  updateProjectGalleryImageInputSchema input = inr validatedInput ->
  In (k, i) (u_sets (update_loop ["image_id"] [] validatedInput)) ->
  In k ["caption"; "sort_order"].
Proof. only_used.
  intros Hv Hin. unfold update_loop in Hin.
  apply fold_update_step_sets in Hin. destruct Hin as [[]|[Hs [v [Hin _]]]].
  apply in_has_key in Hin.
  pose proof (z_object_keys _ _ _ _ Hv Hin) as Hk.
  destruct Hk as [<-|Hk]; [discriminate Hs|exact Hk].
Qed.

(** X22. Updates of an experience or of a gallery image answered 200 keep
    identity and ownership: the experience table differs from the old one in
    columns other than experience_id and user_id only, the image table in
    caption and sort_order only (image_id, project_id and image_url stay),
    whatever the body holds under those keys, and no other table changes. *)
Theorem updates_keep_identity_and_owner :
  forall (now : string) (d : db) (user : row) (id : string) (reqBody : jsobj)
         (resp : response) (d' : db),
    status resp = 200%nat ->
    (put_experience now d user id reqBody = (resp, d') ->
     d' = with_experiences d (experiences d')
     /\ forall k, In k ["experience_id"; "user_id"] ->
          map (fun r => get r k) (experiences d')
          = map (fun r => get r k) (experiences d))
    /\ (put_gallery_image now d user id reqBody = (resp, d') ->
        d' = with_gallery d (project_gallery_images d')
        /\ forall k, In k ["image_id"; "project_id"; "image_url"] ->
             map (fun r => get r k) (project_gallery_images d')
             = map (fun r => get r k) (project_gallery_images d)).
Proof. only_used.
  intros now d user id reqBody resp d' Hs. split; intros H.
  - unfold put_experience in H.
    destruct (select_where (experiences d) "experience_id" (JStr id)) as [|existing rest];
      [inversion H; subst; discriminate|].
    destruct (not_allowed existing user); [inversion H; subst; discriminate|].
    destruct (updateExperienceInputSchema _) as [issues|v] eqn:Ev;
      [inversion H; subst; discriminate|].
    destruct (updateFields (update_loop ["experience_id"] [] v));
      [inversion H; subst; discriminate|].
    unfold exec_update in H.
    rewrite (where_param _ _ (update_loop_indexed ["experience_id"] [] v)) in H.
    destruct (violation experiences_schema _); [inversion H; subst; discriminate|].
    inversion H; subst resp d'; clear H. cbn [experiences with_experiences].
    split; [reflexivity|]. intros k Hk. apply update_rows_other.
    intros kv Hin Heq. unfold bound_sets in Hin. apply in_map_iff in Hin.
    destruct Hin as [[k' i] [<- Hin]]. cbn [fst] in Heq. subst k'.
    pose proof (experience_update_keys _ _ _ _ Ev Hin) as Hkeys.
    destruct Hk as [<-|[<-|[]]];
      repeat (destruct Hkeys as [Hkeys|Hkeys]; [discriminate Hkeys|]); destruct Hkeys.
  - unfold put_gallery_image in H.
    destruct (image_with_owner d id) as [|existing rest];
      [inversion H; subst; discriminate|].
    destruct (not_allowed existing user); [inversion H; subst; discriminate|].
    destruct (updateProjectGalleryImageInputSchema _) as [issues|v] eqn:Ev;
      [inversion H; subst; discriminate|].
    destruct (updateFields (update_loop ["image_id"] [] v));
      [inversion H; subst; discriminate|].
    unfold exec_update in H.
    rewrite (where_param _ _ (update_loop_indexed ["image_id"] [] v)) in H.
    destruct (violation gallery_schema _); [inversion H; subst; discriminate|].
    inversion H; subst resp d'; clear H. cbn [project_gallery_images with_gallery].
    split; [reflexivity|]. intros k Hk. apply update_rows_other.
    intros kv Hin Heq. unfold bound_sets in Hin. apply in_map_iff in Hin.
    destruct Hin as [[k' i] [<- Hin]]. cbn [fst] in Heq. subst k'.
    pose proof (gallery_update_keys _ _ _ _ Ev Hin) as Hkeys.
    destruct Hk as [<-|[<-|[<-|[]]]];
      repeat (destruct Hkeys as [Hkeys|Hkeys]; [discriminate Hkeys|]); destruct Hkeys.
Qed.

(** ** The values an update binds *)

Lemma bound_push u k v s :
  indexed u /\ (forall rest, bound_sets u (u_values u ++ rest) = s) ->
  indexed (push_field k v u)
  /\ forall rest,
       bound_sets (push_field k v u) (u_values (push_field k v u) ++ rest)
       = s ++ [(k, v)].
Proof. only_used.
  intros [Hi Hb]. split; [now apply push_field_indexed|].
  intros rest. unfold bound_sets. cbn [push_field u_sets u_values].
  rewrite map_app, <- app_assoc. cbn [map fst snd app]. f_equal.
  - apply Hb.
  - f_equal. f_equal. unfold param. rewrite Hi. cbn [Nat.sub]. rewrite Nat.sub_0_r.
    apply nth_middle.
Qed.

Lemma fold_update_step_binds skip stringify entries u s :
  indexed u /\ (forall rest, bound_sets u (u_values u ++ rest) = s) ->
  let u' := fold_left (update_step skip stringify) entries u in
  indexed u'
  /\ forall rest,
       bound_sets u' (u_values u' ++ rest) = s ++ loop_sets skip stringify entries.
Proof. only_used.
  revert u s. induction entries as [|[key value] entries IH]; intros u s H.
  - cbn [fold_left loop_sets flat_map]. rewrite app_nil_r. exact H.
  - cbn [fold_left]. unfold loop_sets. cbn [flat_map fst snd]. fold (loop_sets skip stringify entries).
    assert (Hstep : update_step skip stringify u (key, value)
                    = if defined value && negb (existsb (String.eqb key) skip)
                      then if existsb (String.eqb key) stringify
                           then push_field key (JStr (JSON_stringify value)) u
                           else push_field key value u
                      else u) by reflexivity.
    rewrite Hstep. clear Hstep.
    destruct (defined value && negb (existsb (String.eqb key) skip)).
    + destruct (existsb (String.eqb key) stringify);
        (rewrite app_assoc; apply IH; now apply bound_push).
    + cbn [app]. now apply IH.
Qed.

(** The SET clause of the loop binds [loop_sets]. *)
Lemma update_loop_binds skip stringify validatedInput rest :
  bound_sets (update_loop skip stringify validatedInput)
    (u_values (update_loop skip stringify validatedInput) ++ rest)
  = loop_sets skip stringify validatedInput.
Proof. only_used.
  unfold update_loop.
  apply (fold_update_step_binds skip stringify validatedInput update_start []).
  split; reflexivity.
Qed.

Lemma loop_sets_in skip stringify entries k v :
  In (k, v) entries -> defined v = true ->
  existsb (String.eqb k) skip = false -> existsb (String.eqb k) stringify = false ->
  In (k, v) (loop_sets skip stringify entries).
Proof. only_used.
  intros Hin Hd Hs Hj. unfold loop_sets. apply in_flat_map.
  exists (k, v). split; [exact Hin|]. cbn [fst snd]. rewrite Hd, Hs, Hj. now left.
Qed.

Lemma loop_sets_from skip stringify entries k w :
  In (k, w) (loop_sets skip stringify entries) ->
  existsb (String.eqb k) skip = false
  /\ exists v, In (k, v) entries /\ defined v = true.
Proof. only_used.
  unfold loop_sets. intros H. apply in_flat_map in H.
  destruct H as [[key value] [Hin H]]. cbn [fst snd] in H.
  destruct (defined value) eqn:Ed; [|destruct H].
  destruct (existsb (String.eqb key) skip) eqn:Es; [destruct H|].
  cbn [negb andb] in H. destruct H as [H|[]]. inversion H; subst.
  split; [exact Es|]. now exists value.
Qed.

Lemma loop_sets_nodup skip stringify entries :
  NoDup (map fst entries) -> NoDup (map fst (loop_sets skip stringify entries)).
Proof. only_used.
  induction entries as [|[key value] entries IH]; intros Hnd; [constructor|].
  inversion Hnd as [|? ? Hnotin Hnd']; subst.
  unfold loop_sets. cbn [flat_map fst snd]. fold (loop_sets skip stringify entries).
  destruct (defined value && negb (existsb (String.eqb key) skip)); [|now apply IH].
  cbn [app map fst]. constructor; [|now apply IH].
  intros Hin. apply Hnotin. apply in_map_iff in Hin.
  destruct Hin as [[k w] [<- Hin]]. cbn [fst].
  apply loop_sets_from in Hin. destruct Hin as [_ [v [Hin _]]].
  change k with (fst (k, v)). now apply in_map.
Qed.

Lemma key_in_has_key (o : jsobj) k : In k (map fst o) -> has_key o k = true.
Proof. only_used.
  intros H. apply in_map_iff in H. destruct H as [[k' v] [<- H]].
  eapply in_has_key; eauto.
Qed.

(** The keys of a parsed object are distinct when those of the shape
    are. *)
Lemma z_object_nodup shape input q :
  NoDup (map fst shape) -> z_object shape input = inr q -> NoDup (map fst q).
Proof. only_used.
  revert q. induction shape as [|[k0 s0] shape IH]; intros q Hnd Hq; cbn [z_object] in Hq.
  - inversion Hq; subst. constructor.
  - inversion Hnd as [|? ? Hnotin Hnd']; subst.
    destruct (s0 (get input k0)) as [v|]; destruct (z_object shape input) as [iss|o] eqn:Eo;
      try discriminate.
    destruct (has_key input k0 || negb (strict_eq v JUndefined));
      inversion Hq; subst; clear Hq; [|now apply IH].
    cbn [map fst]. constructor; [|now apply IH].
    intros Hin. apply Hnotin. apply key_in_has_key in Hin.
    exact (z_object_keys _ _ _ _ Eo Hin).
Qed.

Lemma nodup_snoc {A : Type} (l : list A) (x : A) :
  NoDup l -> ~ In x l -> NoDup (l ++ [x]).
Proof. only_used.
  induction l as [|a l IH]; intros Hnd Hx; cbn [app].
  - constructor; [intros []|constructor].
  - inversion Hnd; subst. constructor.
    + intros Hin. apply in_app_or in Hin. destruct Hin as [Hin|[Heq|[]]]; auto.
      apply Hx. now left.
    + apply IH; auto. intros Hin. apply Hx. now right.
Qed.

(** A column set once holds the bound value afterwards. *)
Lemma get_assign_in sets (r : row) k v :
  NoDup (map fst sets) -> In (k, v) sets -> get (assign r sets) k = bind v.
Proof. only_used.
  unfold assign. revert r. induction sets as [|[k0 v0] sets IH]; intros r Hnd Hin;
    [destruct Hin|].
  inversion Hnd as [|? ? Hnotin Hnd']; subst. cbn [fold_left fst snd].
  destruct Hin as [Heq|Hin]; [|now apply IH].
  inversion Heq; subst k0 v0.
  etransitivity; [apply (assign_other sets (set r k (bind v)) k)|apply get_set_same].
  intros kv Hkv Heq'. apply Hnotin. rewrite <- Heq'. now apply in_map.
Qed.

Lemma updateProject_nodup : NoDup (map fst updateProjectInputShape).
Proof. only_used. solve_nodup. Qed.

Lemma get_project_body reqBody pid uid k :
  k <> "project_id" -> k <> "user_id" ->
  get (spread reqBody [("project_id", pid); ("user_id", uid)]) k = get reqBody k.
Proof. only_used.
  intros H1 H2. unfold spread. cbn [fold_left fst snd].
  now rewrite !get_set_other by congruence.
Qed.

(** The SET clause of a project update: the validated fields other than
    the two ids, then updated_at; no column twice. *)
Lemma project_update_binds validatedInput input now pid :
  updateProjectInputSchema input = inr validatedInput ->
  let u := push_field "updated_at" (JStr now)
             (update_loop ["project_id"; "user_id"] ["technologies"] validatedInput) in
  bound_sets u (u_values u ++ [JStr pid])
  = loop_sets ["project_id"; "user_id"] ["technologies"] validatedInput
    ++ [("updated_at", JStr now)]
  /\ NoDup (map fst (bound_sets u (u_values u ++ [JStr pid]))).
Proof. only_used.
  intros Hv u.
  assert (Hb : bound_sets u (u_values u ++ [JStr pid])
               = loop_sets ["project_id"; "user_id"] ["technologies"] validatedInput
                 ++ [("updated_at", JStr now)]).
  { subst u.
    apply (bound_push (update_loop ["project_id"; "user_id"] ["technologies"]
                         validatedInput) "updated_at" (JStr now)).
    split; [apply update_loop_indexed|]. intros rest. apply update_loop_binds. }
  split; [exact Hb|]. rewrite Hb, map_app. cbn [map fst]. apply nodup_snoc.
  - apply loop_sets_nodup. eapply z_object_nodup; [exact updateProject_nodup|exact Hv].
  - intros Hin. apply in_map_iff in Hin. destruct Hin as [[k w] [Hk Hin]].
    cbn [fst] in Hk. subst k. apply loop_sets_from in Hin.
    destruct Hin as [_ [v [Hin _]]]. apply in_has_key in Hin.
    pose proof (z_object_keys _ _ _ _ Hv Hin) as Hkeys. simpl in Hkeys.
    intuition discriminate.
Qed.

(** What a project update answered 200 did to the project table. *)
Lemma put_project_ok now d user pid reqBody resp d' :
  put_project now d user pid reqBody = (resp, d') ->
  status resp = 200%nat ->
  exists validatedInput sets,
    updateProjectInputSchema
      (spread reqBody [("project_id", JStr pid); ("user_id", get user "user_id")])
    = inr validatedInput
    /\ sets = loop_sets ["project_id"; "user_id"] ["technologies"] validatedInput
              ++ [("updated_at", JStr now)]
    /\ NoDup (map fst sets)
    /\ projects d' = update_rows (projects d) sets "project_id" (JStr pid).
Proof. only_used.
  intros H Hs. unfold put_project in H.
  destruct (select_where (projects d) "project_id" (JStr pid)) as [|existing rest];
    [inversion H; subst; discriminate|].
  destruct (not_allowed existing user); [inversion H; subst; discriminate|].
  destruct (updateProjectInputSchema _) as [issues|v] eqn:Ev;
    [inversion H; subst; discriminate|].
  unfold exec_update in H.
  destruct (project_update_binds v _ now pid Ev) as [Hb Hnd]. cbv zeta in Hb, Hnd.
  rewrite (where_param _ _ (push_field_indexed _ _ _
             (update_loop_indexed ["project_id"; "user_id"] ["technologies"] v))) in H.
  destruct (violation projects_schema _); [inversion H; subst; discriminate|].
  inversion H; subst resp d'; clear H. cbn [projects with_projects].
  exists v. eexists. split; [reflexivity|]. split; [reflexivity|].
  rewrite <- Hb. split; [exact Hnd|reflexivity].
Qed.

(** X23. A project update answered 200 is a partial update: every row of
    the path's id then holds the request time as updated_at and, under each
    of title, slug, featured_image, category, excerpt and content for which
    the body holds a string, that string; a column of the schema for which
    the body holds nothing keeps its value in every row. *)
Theorem project_update_stores_named_fields :
  forall (now : string) (d : db) (user : row) (pid : string) (reqBody : jsobj)
         (resp : response) (d' : db),
    put_project now d user pid reqBody = (resp, d') ->
    status resp = 200%nat ->
    (forall r, In r (projects d') ->
       sql_eq (get r "project_id") (JStr pid) = true ->
       get r "updated_at" = JStr now
       /\ forall k s,
            In k ["title"; "slug"; "featured_image"; "category"; "excerpt"; "content"] ->
            get reqBody k = JStr s -> get r k = JStr s)
    /\ (forall k,
          In k ["title"; "slug"; "featured_image"; "category"; "excerpt"; "content";
                "client"; "technologies"; "project_url"; "project_date"] ->
          get reqBody k = JUndefined ->
          map (fun r => get r k) (projects d') = map (fun r => get r k) (projects d)).
Proof. only_used.
  intros now d user pid reqBody resp d' H Hs.
  destruct (put_project_ok _ _ _ _ _ _ _ H Hs) as [v [sets [Hv [Hsets [Hnd Hp]]]]].
  unfold updateProjectInputSchema in Hv.
  split.
  - intros r Hin Hid. rewrite Hp in Hin. unfold update_rows in Hin.
    apply in_map_iff in Hin. destruct Hin as [r0 [Hr Hin]].
    assert (Hkeep : get r "project_id" = get r0 "project_id").
    { subst r. destruct (sql_eq (get r0 "project_id") (JStr pid)); [|reflexivity].
      apply assign_other. intros kv Hkv Heq. subst sets.
      apply in_app_or in Hkv. destruct Hkv as [Hkv|[<-|[]]]; [|discriminate Heq].
      destruct kv as [k w]. cbn [fst] in Heq. subst k.
      apply loop_sets_from in Hkv. destruct Hkv as [Hskip _]. discriminate Hskip. }
    rewrite Hkeep in Hid. rewrite Hid in Hr. subst r. split.
    + rewrite (get_assign_in sets r0 "updated_at" (JStr now) Hnd); [reflexivity|].
      subst sets. apply in_or_app. right. now left.
    + intros k s Hk Hb.
      assert (Hgv : get v k = JStr s).
      { assert (Hshape : exists sch, In (k, sch) updateProjectInputShape /\ passes sch).
        { destruct Hk as [<-|[<-|[<-|[<-|[<-|[<-|[]]]]]]]; eexists;
            (split; [simpl; auto 12|autounfold with zod; auto 6 with zod]). }
        destruct Hshape as [sch [Hsh Hpass]].
        destruct (validated_field _ _ _ k _ updateProject_nodup Hv Hsh Hpass) as [Hg _].
        rewrite Hg, get_project_body, Hb; [reflexivity| |];
          destruct Hk as [<-|[<-|[<-|[<-|[<-|[<-|[]]]]]]]; discriminate. }
      rewrite (get_assign_in sets r0 k (JStr s) Hnd); [reflexivity|].
      subst sets. apply in_or_app. left. apply loop_sets_in.
      * apply get_in; [exact Hgv|discriminate].
      * reflexivity.
      * destruct Hk as [<-|[<-|[<-|[<-|[<-|[<-|[]]]]]]]; reflexivity.
      * destruct Hk as [<-|[<-|[<-|[<-|[<-|[<-|[]]]]]]]; reflexivity.
  - intros k Hk Hb. rewrite Hp. apply update_rows_other.
    intros kv Hkv Heq. subst sets. apply in_app_or in Hkv.
    destruct Hkv as [Hkv|[<-|[]]].
    + destruct kv as [k' w]. cbn [fst] in Heq. subst k'.
      apply loop_sets_from in Hkv. destruct Hkv as [_ [val [Hin Hd]]].
      assert (Hgv : get v k = JUndefined).
      { assert (Hshape : exists sch, In (k, z_optional sch) updateProjectInputShape).
        { destruct Hk as [<-|[<-|[<-|[<-|[<-|[<-|[<-|[<-|[<-|[<-|[]]]]]]]]]]]; eexists;
            simpl; auto 12. }
        destruct Hshape as [sch Hsh].
        destruct (z_object_field _ _ _ updateProject_nodup Hv _ _ Hsh) as [w' [Hw Hg]].
        rewrite get_project_body, Hb in Hw;
          [|destruct Hk as [<-|[<-|[<-|[<-|[<-|[<-|[<-|[<-|[<-|[<-|[]]]]]]]]]]];
            discriminate..].
        cbn [z_optional] in Hw. congruence. }
      pose proof (z_object_nodup _ _ _ updateProject_nodup Hv) as Hvnd.
      assert (Hval : get v k = val).
      { clear - Hin Hvnd. induction v as [|[k0 v0] v IH]; [destruct Hin|].
        inversion Hvnd as [|? ? Hnotin Hnd']; subst. cbn [get].
        destruct Hin as [Heq|Hin].
        - inversion Heq; subst. now rewrite String.eqb_refl.
        - destruct (String.eqb k0 k) eqn:E; [|now apply IH].
          apply String.eqb_eq in E. subst k0. exfalso. apply Hnotin.
          change k with (fst (k, val)). now apply in_map. }
      rewrite Hgv in Hval. subst val. discriminate Hd.
    + cbn [fst] in Heq. subst k.
      destruct Hk as [Hk|[Hk|[Hk|[Hk|[Hk|[Hk|[Hk|[Hk|[Hk|[Hk|[]]]]]]]]]]];
        discriminate Hk.
Qed.

(** Two different rows that agree on a column after an UPDATE leave a
    duplicate in it. *)
Lemma duplicate_after_map (f : row -> jsval) (g : row -> row) tbl a b :
  In a tbl -> In b tbl -> a <> b -> sql_eq (f (g a)) (f (g b)) = true ->
  has_duplicate (map f (map g tbl)) = true.
Proof. only_used.
  induction tbl as [|x l IH]; intros Ha Hb Hne Heq; [destruct Ha|].
  cbn [map has_duplicate]. apply orb_true_iff.
  destruct Ha as [->|Ha]; destruct Hb as [->|Hb].
  - congruence.
  - left. apply existsb_exists. exists (f (g b)). split; [|exact Heq].
    apply in_map, in_map. exact Hb.
  - left. apply existsb_exists. exists (f (g a)).
    split; [apply in_map, in_map; exact Ha|]. now rewrite sql_eq_sym.
  - right. now apply IH.
Qed.

(** X24. Moving a project onto a slug another project holds is refused by
    the store, not by the handler: when the guard lets the actor through,
    the body is valid and names as slug the slug of a project with another
    id, the update is answered 500 with the store as it was (the creation
    route answers 400 SLUG_EXISTS for the same slug). *)
Theorem project_slug_collision_on_update :
  forall (now : string) (d : db) (user : row) (pid : string) (reqBody : jsobj)
         (validatedInput : jsobj) (existing other : row) (rest : list row)
         (slug : string),
    select_where (projects d) "project_id" (JStr pid) = existing :: rest ->
    not_allowed existing user = false ->
    updateProjectInputSchema
      (spread reqBody [("project_id", JStr pid); ("user_id", get user "user_id")])
    = inr validatedInput ->
    get reqBody "slug" = JStr slug ->
    In other (projects d) ->
    sql_eq (get other "project_id") (JStr pid) = false ->
    get other "slug" = JStr slug ->
    exists constraint,
      put_project now d user pid reqBody = (internal_error now (pg_error constraint), d).
Proof. only_used.
  intros now d user pid reqBody v existing other rest slug Hsel Hna Hv Hslug Hother
    Hoid Hoslug.
  unfold put_project. rewrite Hsel, Hna, Hv. unfold exec_update.
  destruct (project_update_binds v _ now pid Hv) as [Hb Hnd]. cbv zeta in Hb, Hnd.
  rewrite (where_param _ _ (push_field_indexed _ _ _
             (update_loop_indexed ["project_id"; "user_id"] ["technologies"] v))).
  cbv zeta.
  destruct (violation projects_schema _) as [c|] eqn:Eviol; [now exists c|].
  exfalso.
  pose proof (violation_unique _ _ "slug" "projects_slug_key" Eviol
                ltac:(simpl; auto)) as Hnodup.
  assert (Hex : In existing (projects d)
                /\ sql_eq (get existing "project_id") (JStr pid) = true).
  { assert (Hin : In existing (select_where (projects d) "project_id" (JStr pid))).
    { rewrite Hsel. now left. }
    unfold select_where in Hin. now apply filter_In in Hin. }
  destruct Hex as [Hin Hid].
  assert (Hgv : get v "slug" = JStr slug).
  { unfold updateProjectInputSchema in Hv.
    destruct (validated_field _ _ _ "slug" _ updateProject_nodup Hv
                ltac:(simpl; auto) ltac:(autounfold with zod; auto 6 with zod))
      as [Hg _].
    rewrite Hg, get_project_body by discriminate. exact Hslug. }
  unfold update_rows in Hnodup.
  rewrite (duplicate_after_map (fun r => get r "slug") _ (projects d) existing other)
    in Hnodup; [discriminate| exact Hin | exact Hother | congruence |].
  cbv beta. rewrite Hid, Hoid, Hoslug.
  rewrite (get_assign_in _ existing "slug" (JStr slug) Hnd).
  - apply sql_eq_text.
  - rewrite Hb. apply in_or_app. left. apply loop_sets_in; try reflexivity.
    apply get_in; [exact Hgv|discriminate].
Qed.

(** ** A project with its gallery *)

Lemma get_app_other (p : row) k' v k :
  k <> k' -> get (p ++ [(k', v)]) k = get p k.
Proof. only_used.
  intros Hk. induction p as [|[k0 v0] p IH]; cbn [app get].
  - destruct (String.eqb k' k) eqn:E; auto.
    apply String.eqb_eq in E. congruence.
  - destruct (String.eqb k0 k); auto.
Qed.

Lemma gallery_rows d pid :
  matching_rows d (gallery_of_project pid)
  = select_where (project_gallery_images d) "project_id" (JStr pid).
Proof. only_used.
  unfold matching_rows, gallery_of_project, fixed_list, select_where.
  cbn [sel_where sel_values sel_from source_rows]. apply filter_ext. intros r.
  cbn [matches forallb eval_clause]. apply andb_true_r.
Qed.

Lemma in_join d j :
  In j (projects_join_users d) <->
  exists project owner,
    In project (projects d) /\ In owner (users d)
    /\ sql_eq (get project "user_id") (get owner "user_id") = true
    /\ j = project ++ [("author_name", get owner "full_name")].
Proof. only_used.
  unfold projects_join_users. rewrite in_flat_map. split.
  - intros [p [Hp Hj]]. apply in_map_iff in Hj. destruct Hj as [u [<- Hu]].
    apply filter_In in Hu. destruct Hu as [Hu Heq]. exists p, u. auto.
  - intros [p [u [Hp [Hu [Heq ->]]]]]. exists p. split; [exact Hp|].
    apply in_map_iff. exists u. split; [reflexivity|]. apply filter_In. auto.
Qed.

(** X25. GET /api/projects/:project_id answers 500 for an id the store
    refuses; for any other id it answers 200 exactly when a project of that
    id has its owner in the user table, and 404 PROJECT_NOT_FOUND otherwise.
    A 200 answer is that project as the driver returns it (its technologies
    parsed), with its owner's name as author_name and, as gallery_images, the
    images stored for that id, each once. *)
Theorem project_answer_carries_its_gallery :
  forall (now : string) (d : db) (pid : string),
    (valid_text (JStr pid) = false ->
       get_project now d pid = internal_error now (pg_refusal (JStr pid)))
    /\ (valid_text (JStr pid) = true ->
        (status (get_project now d pid) = 200%nat <->
           exists project owner,
             In project (projects d) /\ In owner (users d)
             /\ sql_eq (get project "user_id") (get owner "user_id") = true
             /\ sql_eq (get project "project_id") (JStr pid) = true)
        /\ (status (get_project now d pid) <> 200%nat ->
              get_project now d pid
              = not_found_response now "Project not found" "PROJECT_NOT_FOUND")
        /\ (status (get_project now d pid) = 200%nat ->
              exists project owner images,
                In project (projects d) /\ In owner (users d)
                /\ sql_eq (get project "user_id") (get owner "user_id") = true
                /\ sql_eq (get project "project_id") (JStr pid) = true
                /\ Permutation images
                     (select_where (project_gallery_images d) "project_id" (JStr pid))
                /\ body (get_project now d pid)
                   = [("project",
                       JObj (set (project_returned
                                    (project ++ [("author_name", get owner "full_name")]))
                               "gallery_images" (JArr (map JObj images))))])).
Proof. only_used.
  intros now d pid. unfold get_project. split; intros Hvalid; rewrite Hvalid; cbn [negb];
    [reflexivity|].
  destruct (select_where (projects_join_users d) "project_id" (JStr pid))
    as [|joined rest] eqn:Es.
  - split; [|split]; [|reflexivity|discriminate].
    split; [discriminate|]. intros [p [u [Hp [Hu [Heq Hid]]]]]. exfalso.
    assert (Hin : In (p ++ [("author_name", get u "full_name")])
                    (select_where (projects_join_users d) "project_id" (JStr pid))).
    { unfold select_where. apply filter_In. split.
      - apply in_join. exists p, u. auto.
      - now rewrite get_app_other by discriminate. }
    rewrite Es in Hin. destruct Hin.
  - assert (Hin : In joined (select_where (projects_join_users d) "project_id" (JStr pid))).
    { rewrite Es. now left. }
    unfold select_where in Hin. apply filter_In in Hin. destruct Hin as [Hin Hid].
    apply in_join in Hin. destruct Hin as [p [u [Hp [Hu [Heq ->]]]]].
    rewrite get_app_other in Hid by discriminate.
    split; [|split].
    + split; [|reflexivity]. intros _. exists p, u. auto.
    + intros Hc. exfalso. apply Hc. reflexivity.
    + intros _. exists p, u, (exec_select d (gallery_of_project pid)).
      repeat (split; [assumption|]). split; [|reflexivity].
      rewrite <- gallery_rows. unfold exec_select.
      change (sel_order (gallery_of_project pid)) with (Some ("sort_order", "ASC")).
      change (sel_offset (gallery_of_project pid)) with (@None nat).
      change (sel_limit (gallery_of_project pid)) with (@None nat).
      apply order_by_perm.
Qed.

(** ** Actors whose id is not a UUID *)

(** X26. The project routes validate the actor's own id as a UUID: for an
    actor whose user_id is not one (the ids of the seed users are of the form
    usr_1), every project creation is answered 400 and no project update is
    ever answered 200, whatever the body; the store is unchanged. *)
Theorem project_routes_need_uuid_actor :
  forall (now : string) (d : db) (user : row) (uid : string) (reqBody : jsobj),
    get user "user_id" = JStr uid ->
    is_uuid uid = false ->
    (forall projectId,
       exists issues,
         post_project now projectId d user reqBody = (validation_error now issues, d))
    /\ (forall pid,
          status (fst (put_project now d user pid reqBody)) <> 200%nat
          /\ snd (put_project now d user pid reqBody) = d).
Proof. only_used.
  intros now d user uid reqBody Hu Hno. split.
  - intros projectId. unfold post_project.
    destruct (z_object_issue createProjectInputShape
                (spread reqBody [("user_id", get user "user_id")]) "user_id" z_uuid
                ltac:(simpl; auto 12)) as [issues Hi].
    { rewrite get_spread_one_same, Hu. unfold z_uuid, z_refine, z_string, str_test.
      now rewrite Hno. }
    unfold createProjectInputSchema. rewrite Hi. now exists issues.
  - intros pid. unfold put_project.
    destruct (select_where (projects d) "project_id" (JStr pid)) as [|existing rest];
      [split; [discriminate|reflexivity]|].
    destruct (not_allowed existing user); [split; [discriminate|reflexivity]|].
    destruct (z_object_issue updateProjectInputShape
                (spread reqBody [("project_id", JStr pid);
                                 ("user_id", get user "user_id")]) "user_id" z_uuid
                ltac:(simpl; auto 12)) as [issues Hi].
    { unfold spread. cbn [fold_left fst snd]. rewrite get_set_same, Hu.
      unfold z_uuid, z_refine, z_string, str_test. now rewrite Hno. }
    unfold updateProjectInputSchema. rewrite Hi. split; [discriminate|reflexivity].
Qed.

(** ** Addresses as stored and as looked up *)

(** X27. The profile update stores an address as sent while login looks
    addresses up lower-cased and trimmed: after a profile update answered
    200 that sets an address which lower-casing or trimming changes, a login
    naming that address is answered 400 and changes nothing, whatever the
    password, unless another user holds the lower-cased address. *)
Theorem mixed_case_address_cannot_log_in :
  forall (now now' : string) (d : db) (user : row) (e : string) (resp : response)
         (d' : db) (loginBody : jsobj),
    put_profile now d user [("email", JStr e)] = (resp, d') ->
    status resp = 200%nat ->
    trim (toLowerCase e) <> e ->
    (forall u, In u (users d) ->
       sql_eq (get u "user_id") (get user "user_id") = false ->
       sql_eq (get u "email") (JStr (trim (toLowerCase e))) = false) ->
    get loginBody "email" = JStr e ->
    status (fst (post_login now' d' loginBody)) = 400%nat
    /\ snd (post_login now' d' loginBody) = d'.
Proof. only_used.
  intros now now' d user e resp d' loginBody H Hs Hnorm Hfree Hl.
  assert (Hd : users d' = update_rows (users d) [("email", JStr e)] "user_id"
                            (get user "user_id")).
  { unfold put_profile in H.
    assert (Hv : updateUserInputSchema [("email", JStr e)]
                 = if is_email e then inr [("email", JStr e)] else inl ["email"]).
    { unfold updateUserInputSchema, updateUserInputShape. cbn [z_object].
      change (get [("email", JStr e)] "email") with (JStr e).
      unfold z_optional at 1. unfold z_email, z_refine, z_string, str_test.
      destruct (is_email e); reflexivity. }
    rewrite Hv in H. destruct (is_email e); [|inversion H; subst; discriminate].
    change (update_loop [] [] [("email", JStr e)])
      with (push_field "email" (JStr e) update_start) in H.
    cbn [updateFields push_field update_start app u_values] in H.
    unfold exec_update_on in H.
    change (find _ (u_sets (push_field "email" (JStr e) update_start)))
      with (@None (string * nat)) in H.
    cbv beta iota in H. unfold exec_update in H.
    change (bound_sets _ _) with [("email", JStr e)] in H.
    change (param _ _) with (get user "user_id") in H. cbv zeta in H.
    destruct (violation users_schema _); [inversion H; subst; discriminate|].
    inversion H; subst resp d'. reflexivity. }
  assert (Hnone : select_where (users d') "email" (JStr (trim (toLowerCase e))) = []).
  { unfold select_where. apply filter_none. intros r Hin. rewrite Hd in Hin.
    unfold update_rows in Hin. apply in_map_iff in Hin. destruct Hin as [r0 [<- Hin]].
    destruct (sql_eq (get r0 "user_id") (get user "user_id")) eqn:Er;
      [|now apply Hfree].
    rewrite get_assign_one. cbn [String.eqb Ascii.eqb Bool.eqb bind sql_eq sql_text].
    apply String.eqb_neq. congruence. }
  unfold post_login. rewrite Hl.
  destruct (negb (truthy (JStr e)) || negb (truthy (get loginBody "password")));
    [split; reflexivity|].
  rewrite Hnone. split; reflexivity.
Qed.

(** ** Admin-only creation of skills *)

Lemma authenticateToken_refusal now d headers r :
  authenticateToken now d headers = inl r ->
  status r = 401%nat \/ status r = 403%nat.
Proof. only_used.
  unfold authenticateToken.
  destruct (negb (truthy (bearer_token headers))).
  - intros H. inversion H; subst. now left.
  - destruct (jwt_verify _ JWT_SECRET) as [error|decoded].
    + intros H. inversion H; subst. now right.
    + destruct (select_where (users d) "user_id" (prop decoded "user_id"));
        cbn [map]; intros H; inversion H; subst. now left.
Qed.

(** X28. Skills are created by admins only: a request to POST /api/skills
    either comes with a token that authenticates a stored user whose role is
    'admin', and is then answered by the handler, or is answered 401 or 403
    with the store as it was. *)
Theorem skills_created_by_admins_only :
  forall (now skillId : string) (d : db) (headers reqBody : jsobj),
    let res := route_post_skill now skillId d headers reqBody in
    (exists user,
       authenticateToken now d headers = inr user
       /\ get user "role" = JStr "admin"
       /\ res = post_skill now skillId d reqBody)
    \/ (snd res = d /\ (status (fst res) = 401%nat \/ status (fst res) = 403%nat)).
Proof. only_used.
  intros now skillId d headers reqBody res. subst res.
  unfold route_post_skill, authenticated.
  destruct (authenticateToken now d headers) as [r|user] eqn:Ea.
  - right. split; [reflexivity|]. exact (authenticateToken_refusal _ _ _ _ Ea).
  - unfold admin_only, requireRole. cbn [truthy negb existsb prop].
    destruct (strict_eq (JStr "admin") (get user "role")) eqn:Er; cbn [orb].
    + left. exists user. apply strict_eq_str_l in Er. auto.
    + right. split; [reflexivity|]. now right.
Qed.

End Server.

(** ** The handlers on concrete requests *)

(** C1. GET /api/contact?start_date=2024-01-01T00:00:00Z on a store holding
    one message before and one after that date: the item statement filters
    on created_at and matches one row, the count statement carries no date
    predicate, and the pagination block reports total = 2. *)
Theorem contact_total_ignores_date_filters :
  let result :=
    get_contact iso_date clock seed [("start_date", JStr "2024-01-01T00:00:00Z")] in
  exists item count,
    snd result = [item; count]
    /\ sel_where item = [CCmp "created_at" OpGe 1]
    /\ sel_where count = []
    /\ sel_text count = "SELECT COUNT(*) FROM contact_messages WHERE 1=1"
    /\ map (fun r => get r "message_id") (matching_rows seed item) = [JStr "msg_2"]
    /\ get (body (fst result)) "contact_messages"
       = JArr [JObj (message "msg_2" "Jane Roe" "2024-03-02T08:00:00Z" false)]
    /\ prop (get (body (fst result)) "pagination") "total" = JNum 2.
Proof.
  eexists. eexists. repeat split; vm_compute; reflexivity.
Qed.

(** C2. GET /api/skills?min_proficiency=0: the query validates with
    min_proficiency = 0, a set field, yet the statement has no WHERE
    predicate and binds only the limit; a skill whose proficiency is NULL is
    returned, which the predicate [proficiency >= 0] would leave out. *)
Theorem zero_min_proficiency_adds_no_predicate :
  let result := get_skills clock seed [("min_proficiency", JStr "0")] in
  exists q item,
    skillQuerySchema
      [("search", JUndefined); ("category", JUndefined);
       ("min_proficiency", JNum 0); ("sort_by", JUndefined);
       ("sort_order", JUndefined); ("limit", JUndefined)] = inr q
    /\ get q "min_proficiency" = JNum 0
    /\ snd result = [item]
    /\ item = skills_query q
    /\ sel_where item = []
    /\ sel_text item = "SELECT * FROM skills WHERE 1=1 ORDER BY name ASC LIMIT $1"
    /\ sel_values item = [JNum 20]
    /\ map (fun r => get r "name") (exec_select seed item)
       = [JStr "Elm"; JStr "JavaScript"]
    /\ map (fun r => get r "name")
           (filter (matches [CCmp "proficiency" OpGe 1] [JNum 0]) (skills seed))
       = [JStr "JavaScript"].
Proof.
  eexists. eexists. repeat split; vm_compute; reflexivity.
Qed.

(** Against C4 as stated: an authenticated non-admin updating a contact
    message that does not exist is answered 403, not 404; and a project
    delete naming the NUL id, which no project has, is answered 500. *)
Lemma contact_update_forbidden_before_lookup :
  select_where (contact_messages seed) "message_id" (JStr "msg_404") = []
  /\ route_put_contact sample_jwt_verify "your-secret-key" sample_pg_error
       sample_pg_refusal clock seed
       (bearer "token-of-usr_2") "msg_404" [("read", JBool true)]
     = (denied_response clock "Insufficient permissions", seed)
  /\ status (denied_response clock "Insufficient permissions") = 403%nat
  /\ select_where (projects seed) "project_id" (JStr nul) = []
  /\ status (fst (route_delete_project sample_jwt_verify "your-secret-key"
                    sample_pg_refusal clock seed (bearer "token-of-usr_2") nul))
     = 500%nat.
Proof. repeat split. Qed.

(** Against C7 as stated: the 403 answer to a refused token carries the
    error's stack, and the 500 answer to an update that collides on the slug
    carries the store's error text. *)
Lemma error_responses_expose_stack_and_store_text :
  (exists r,
      authenticateToken sample_jwt_verify "your-secret-key" clock seed (bearer "garbage")
      = inl r
      /\ status r = 403%nat
      /\ prop (details_of r) "stack" = prop sample_jwt_error "stack"
      /\ prop sample_jwt_error "stack" <> JUndefined)
  /\ (let r := fst (put_project iso_date sample_is_url sample_is_uuid sample_stringify
                      sample_pg_error clock portfolio alice shop_id
                      [("slug", JStr "blog-engine")]) in
      status r = 500%nat
      /\ prop (details_of r) "message"
         = JStr "duplicate key value violates unique constraint projects_slug_key").
Proof.
  split.
  - eexists. repeat split; try reflexivity. discriminate.
  - repeat split.
Qed.

(** Against C6 as stated: a request for a user's experiences that supplies
    a sort field and a direction outside every allow-list is answered 200,
    its statement issued with the fixed ORDER BY. *)
Lemma unsupported_sort_is_ignored :
  let result :=
    get_user_experiences seed "usr_2"
      [("sort_by", JStr "password_hash"); ("sort_order", JStr "sideways")] in
  status (fst result) = 200%nat
  /\ map sel_text (snd result)
     = ["SELECT * FROM experiences WHERE user_id = $1 ORDER BY start_date DESC"]
  /\ get (body (fst result)) "experiences" = JArr [JObj exp_1].
Proof. repeat split. Qed.

(** Against C8 as stated: two validated project queries with the same
    present fields differ in text when their sort fields differ, and when one
    search is the empty string; and a search holding [_] matches a text that
    does not contain it. *)
Lemma values_can_change_the_query_text :
  (let q1 := project_query (JStr "shop") (JStr "title") in
   let q2 := project_query (JStr "shop") (JStr "created_at") in
   projectQuerySchema q1 = inr q1 /\ projectQuerySchema q2 = inr q2
   /\ present_fields project_query_keys q1 = present_fields project_query_keys q2
   /\ sel_text (projects_item_query q1) <> sel_text (projects_item_query q2))
  /\ (let q1 := project_query (JStr "shop") (JStr "title") in
      let q2 := project_query (JStr "") (JStr "title") in
      projectQuerySchema q1 = inr q1 /\ projectQuerySchema q2 = inr q2
      /\ present_fields project_query_keys q1 = present_fields project_query_keys q2
      /\ sel_text (projects_item_query q1) <> sel_text (projects_item_query q2))
  /\ (eval_clause [contains_pattern "a_c"] [("name", JStr "abc")] (CIlike ["name"] 1) = true
      /\ ~ contains_ci "abc" "a_c").
Proof.
  repeat split; try (vm_compute; discriminate).
  intros [pre [post H]]. vm_compute in H.
  destruct pre as [|c1 [|c2 [|c3 [|c4 pre]]]]; simpl in H; inversion H.
Qed.

(** ** The theorems at concrete requests *)

(** Bob may neither update nor delete Alice's project; Alice and the admin
    may delete it. *)
Lemma mutation_permitted_iff_admin_or_owner_witness :
  get bob "user_id" = JStr bob_id
  /\ status (fst (put_project iso_date sample_is_url sample_is_uuid sample_stringify
                    sample_pg_error clock portfolio bob shop_id
                    [("title", JStr "Taken over")])) = 403%nat
  /\ delete_project clock portfolio bob shop_id
     = (denied_response clock "You can only delete your own projects", portfolio)
  /\ status (fst (delete_project clock portfolio alice shop_id)) = 200%nat
  /\ status (fst (delete_project clock portfolio root shop_id)) = 200%nat.
Proof.
  split; [reflexivity|].
  destruct (mutation_permitted_iff_admin_or_owner iso_date sample_is_url sample_is_uuid
              sample_stringify sample_pg_error clock portfolio bob bob_id eq_refl)
    as [Hbob _].
  destruct (Hbob shop_id [("title", JStr "Taken over")] shop [] alice_id eq_refl eq_refl)
    as [[Hput _] [[_ Hdel] _]].
  assert (Hno : ~ (get bob "role" = JStr "admin" \/ bob_id = alice_id)).
  { intros [H|H]; discriminate. }
  split; [exact (proj2 Hput Hno)|]. split; [exact (Hdel Hno)|].
  destruct (mutation_permitted_iff_admin_or_owner iso_date sample_is_url sample_is_uuid
              sample_stringify sample_pg_error clock portfolio alice alice_id eq_refl)
    as [Halice _].
  destruct (Halice shop_id [] shop [] alice_id eq_refl eq_refl) as [_ [_ Hok]].
  split; [exact (Hok (or_intror eq_refl))|].
  destruct (mutation_permitted_iff_admin_or_owner iso_date sample_is_url sample_is_uuid
              sample_stringify sample_pg_error clock portfolio root root_id eq_refl)
    as [Hroot _].
  destruct (Hroot shop_id [] shop [] alice_id eq_refl eq_refl) as [_ [_ Hok']].
  exact (Hok' (or_introl eq_refl)).
Defined.

(** An unknown project id answers 404 to a plain user and the NUL id 500;
    the contact update answers that user 403 and answers the admin 404 for
    an unknown id. *)
Lemma missing_resource_is_not_found_witness :
  select_where (projects seed) "project_id" (JStr "proj_9") = []
  /\ route_delete_project sample_jwt_verify "your-secret-key" sample_pg_refusal clock
       seed (bearer "token-of-usr_2") "proj_9"
     = (not_found_response clock "Project not found" "PROJECT_NOT_FOUND", seed)
  /\ route_delete_project sample_jwt_verify "your-secret-key" sample_pg_refusal clock
       seed (bearer "token-of-usr_2") nul
     = (internal_error clock (sample_pg_refusal (JStr nul)), seed)
  /\ route_put_contact sample_jwt_verify "your-secret-key" sample_pg_error
       sample_pg_refusal clock seed
       (bearer "token-of-usr_2") "msg_1" [("read", JBool true)]
     = (denied_response clock "Insufficient permissions", seed)
  /\ fst (route_put_contact sample_jwt_verify "your-secret-key" sample_pg_error
            sample_pg_refusal clock seed
            (bearer "token-of-usr_1") "msg_404" [("read", JBool true)])
     = not_found_response clock "Contact message not found" "MESSAGE_NOT_FOUND".
Proof.
  split; [reflexivity|].
  destruct (missing_resource_is_not_found iso_date sample_is_url sample_is_uuid
              sample_stringify sample_jwt_verify "your-secret-key" sample_pg_error
              sample_pg_refusal clock seed (bearer "token-of-usr_2")
              (keep_columns ["user_id"; "email"; "full_name"; "role"; "created_at"] usr_2) eq_refl)
    as [Hp [_ [_ [Hr [Hc _]]]]].
  split; [exact (proj2 (Hp "proj_9" [] eq_refl eq_refl))|].
  split; [exact (proj1 (proj2 (Hr nul [] eq_refl)))|].
  split.
  - apply Hc. discriminate.
  - destruct (missing_resource_is_not_found iso_date sample_is_url sample_is_uuid
                sample_stringify sample_jwt_verify "your-secret-key" sample_pg_error
                sample_pg_refusal clock seed (bearer "token-of-usr_1")
                (keep_columns ["user_id"; "email"; "full_name"; "role"; "created_at"] usr_1) eq_refl)
      as [_ [_ [_ [_ [_ Ha]]]]].
    apply (proj1 (Ha "msg_404" [("read", JBool true)]
                    [("message_id", JStr "msg_404"); ("read", JBool true)]
                    eq_refl eq_refl)); reflexivity.
Defined.


(** A column outside the allow-list and, from the admin, a direction
    carrying SQL are both answered 400; the same request from a plain user is
    answered 403; an allowed column reaches ORDER BY. *)
Lemma sort_allow_listed_or_rejected_witness :
  (exists issues,
      route_get_projects sample_pg_refusal clock seed [("sort_by", JStr "password_hash")]
      = (validation_error clock issues, []))
  /\ (exists issues,
        route_get_contact iso_date sample_jwt_verify "your-secret-key" sample_pg_refusal
          clock seed (bearer "token-of-usr_1")
          [("sort_order", JStr "DESC; DROP TABLE users")]
        = (validation_error clock issues, []))
  /\ route_get_contact iso_date sample_jwt_verify "your-secret-key" sample_pg_refusal
       clock seed (bearer "token-of-usr_2")
       [("sort_order", JStr "DESC; DROP TABLE users")]
     = (denied_response clock "Insufficient permissions", [])
  /\ order_clause_ok "p." project_sort_fields
       (projects_item_query (project_query JUndefined (JStr "title"))).
Proof.
  destruct (sort_allow_listed_or_rejected iso_date sample_jwt_verify "your-secret-key"
              sample_pg_refusal clock seed) as [Hp [_ [_ [Hd [Ha _]]]]].
  split; [|split; [|split]].
  - apply (proj1 (Hp [("sort_by", JStr "password_hash")])). left. split.
    + discriminate.
    + intros f [<-|[<-|[<-|[]]]]; discriminate.
  - destruct (Ha (bearer "token-of-usr_1") (keep_columns ["user_id"; "email"; "full_name"; "role"; "created_at"] usr_1) eq_refl eq_refl) as [Hc _].
    apply (proj1 (Hc [("sort_order", JStr "DESC; DROP TABLE users")])). right. split.
    + discriminate.
    + intros f [<-|[<-|[]]]; discriminate.
  - apply (Hd (bearer "token-of-usr_2") [("sort_order", JStr "DESC; DROP TABLE users")]
              (keep_columns ["user_id"; "email"; "full_name"; "role"; "created_at"] usr_2) eq_refl).
    discriminate.
  - apply (proj2 (Hp [("sort_by", JStr "title")])). left. reflexivity.
Defined.

(** The owner's update that collides on the slug is an answer of the
    server, and an error answer; the answer to a malformed token carries the
    thrown error's fields. *)
Lemma error_envelope_details_witness :
  (let r :=
     fst (route_put_project iso_date sample_is_url sample_is_uuid sample_stringify
            sample_jwt_verify "your-secret-key" sample_pg_error sample_pg_refusal
            clock portfolio (bearer ("token-of-" ^ alice_id)) shop_id
            [("slug", JStr "blog-engine")]) in
   status r = 500%nat
   /\ (status r = 200%nat \/ status r = 201%nat
       \/ error_answer sample_jwt_verify "your-secret-key" sample_pg_error
            sample_type_error sample_undefined_column sample_pg_refusal clock r))
  /\ exists r,
       authenticateToken sample_jwt_verify "your-secret-key" clock seed (bearer "garbage")
       = inl r
       /\ details_of r
          = JObj [("name", JStr "JsonWebTokenError"); ("message", JStr "jwt malformed");
                  ("stack", prop sample_jwt_error "stack")].
Proof.
  pose proof (error_envelope_details iso_date sample_is_url sample_is_uuid
                sample_stringify sample_jwt_verify "your-secret-key" sample_pg_error
                sample_jwt_sign sample_is_email sample_type_error
                sample_undefined_column sample_pg_refusal sample_JSON_parse)
    as [Hanswer [_ [_ [_ [_ [_ [Htoken _]]]]]]].
  split.
  - intros r. split; [reflexivity|].
    apply (Hanswer clock portfolio r). apply answer_project_update.
  - apply (Htoken clock seed (bearer "garbage")
             [("name", JStr "JsonWebTokenError"); ("message", JStr "jwt malformed");
              ("stack", prop sample_jwt_error "stack")]); reflexivity.
Defined.

(** A search holding SQL leaves the text as it is for any other search;
    an upper-case search finds the lower-case title. *)
Lemma filter_values_bound_not_interpolated_witness :
  sel_text (projects_item_query (project_query (JStr "shop") (JStr "title")))
  = sel_text (projects_item_query (project_query (JStr "x' OR 1=1 --") (JStr "title")))
  /\ (eval_clause [contains_pattern "PLATFORM"] shop (CIlike ["p.title"; "p.content"] 1)
      = true
      <-> exists col t, In col ["p.title"; "p.content"]
                        /\ sql_text (get shop (column_key col)) = Some t
                        /\ contains_ci t "PLATFORM").
Proof.
  destruct filter_values_bound_not_interpolated as [Htext [_ Hsearch]].
  split.
  - apply (proj1 (Htext (project_query (JStr "shop") (JStr "title"))
                    (project_query (JStr "x' OR 1=1 --") (JStr "title"))
                    (conj eq_refl eq_refl))).
    reflexivity.
  - apply Hsearch. reflexivity.
Defined.

(** Alice renames her project with a body that also names another
    project's id and another owner: only the title changes. *)
Lemma put_project_keeps_id_and_owner_witness :
  let result :=
    put_project iso_date sample_is_url sample_is_uuid sample_stringify sample_pg_error
      clock portfolio alice shop_id
      [("title", JStr "Shop, renewed"); ("project_id", JStr blog_id);
       ("user_id", JStr bob_id)] in
  status (fst result) = 200%nat
  /\ map (fun r => get r "project_id") (projects (snd result))
     = [JStr shop_id; JStr blog_id]
  /\ map (fun r => get r "user_id") (projects (snd result))
     = [JStr alice_id; JStr bob_id]
  /\ map (fun r => get r "title") (projects (snd result))
     = [JStr "Shop, renewed"; JStr "Blog Engine"].
Proof.
  intros result.
  destruct (put_project_keeps_id_and_owner iso_date sample_is_url sample_is_uuid
              sample_stringify sample_pg_error clock portfolio alice shop_id
              [("title", JStr "Shop, renewed"); ("project_id", JStr blog_id);
               ("user_id", JStr bob_id)]
              (fst result) (snd result) eq_refl eq_refl)
    as [Hid [Howner _]].
  split; [reflexivity|]. split; [exact Hid|]. split; [exact Howner|reflexivity].
Defined.

(** Bob uploads his first resume while Alice has a primary one. *)
Lemma resume_upload_keeps_single_primary_witness :
  let result :=
    post_resumes sample_pg_error clock "g7777777-7777-4777-8777-777777777777" portfolio
      bob uploaded_file [] in
  status (fst result) = 201%nat
  /\ at_most_one_primary (resumes portfolio)
  /\ at_most_one_primary (resumes (snd result))
  /\ List.length (resumes (snd result)) = 2%nat.
Proof.
  intros result.
  assert (Hinv : at_most_one_primary (resumes portfolio)).
  { intros uid. simpl. destruct (primary_of uid alice_resume); simpl; lia. }
  split; [reflexivity|]. split; [exact Hinv|].
  split; [|reflexivity].
  exact (proj1 (resume_upload_keeps_single_primary sample_pg_error resumes_schema clock
                  "g7777777-7777-4777-8777-777777777777" portfolio bob uploaded_file []
                  (fst result) (snd result) eq_refl eq_refl Hinv)).
Defined.

(** ** Predicates of the item and count statements *)

(** One predicate per filter that fires. *)
Lemma predicates_per_fired_filter (q : jsobj) :
  List.length (sel_where (projects_item_query q)) = count_true (projects_fired q)
  /\ List.length (sel_where (skills_query q)) = count_true (skills_fired q)
  /\ List.length (sel_where (contact_item_query q)) = count_true (contact_fired q)
  /\ List.length (sel_where (users_item_query q)) = count_true (users_fired q).
Proof.
  unfold projects_item_query, skills_query, contact_item_query, users_item_query,
    paged_query, projects_filters, skills_filters, contact_filters, users_filters,
    projects_fired, skills_fired, contact_fired, users_fired, count_true.
  cbn [sel_where].
  destruct (truthy (get q "search")), (truthy (get q "category")),
    (truthy (get q "user_id")), (truthy (get q "min_proficiency")),
    (defined (get q "read")), (truthy (get q "start_date")),
    (truthy (get q "end_date")), (truthy (get q "role")); repeat split.
Qed.

(** The project and user count statements carry the predicates and values
    of their item statements. *)
Lemma count_statements_share_predicates (q : jsobj) :
  sel_where (projects_count_query q) = sel_where (projects_item_query q)
  /\ sel_values (projects_item_query q)
     = sel_values (projects_count_query q) ++ page_values q
  /\ sel_where (users_count_query q) = sel_where (users_item_query q)
  /\ sel_values (users_item_query q) = sel_values (users_count_query q) ++ page_values q.
Proof.
  unfold projects_item_query, projects_count_query, users_item_query, users_count_query,
    paged_query, count_select, projects_filters, users_filters, page_values.
  cbn [sel_where sel_values].
  destruct (truthy (get q "search")), (truthy (get q "category")),
    (truthy (get q "user_id")), (truthy (get q "role")); repeat split.
Qed.

(** The contact count statement lacks the two date predicates. *)
Lemma contact_count_drops_date_predicates (q : jsobj) :
  List.length (sel_where (contact_item_query q))
  = (List.length (sel_where (contact_count_query q))
     + Nat.b2n (truthy (get q "start_date")) + Nat.b2n (truthy (get q "end_date")))%nat.
Proof.
  unfold contact_item_query, contact_count_query, paged_query, count_select,
    contact_filters, contact_count_filters.
  cbn [sel_where].
  destruct (truthy (get q "search")), (defined (get q "read")),
    (truthy (get q "start_date")), (truthy (get q "end_date")); reflexivity.
Qed.

(** GET /api/users counts the rows its item statement matches. *)
Lemma users_count_matches_items (d : db) (q : jsobj) :
  matching_rows d (users_count_query q) = matching_rows d (users_item_query q).
Proof.
  unfold matching_rows, users_item_query, users_count_query, paged_query, count_select,
    users_filters.
  cbn [sel_where sel_values sel_from].
  apply filter_ext. intros r.
  destruct (truthy (get q "role")), (truthy (get q "search")); reflexivity.
Qed.

Lemma get_before_author (p : row) (v : jsval) (k : string) :
  k <> "author_name" -> get (p ++ [("author_name", v)]) k = get p k.
Proof.
  intros Hk. induction p as [|[k' v'] p IH]; cbn [app get].
  - destruct (String.eqb "author_name" k) eqn:E; auto.
    apply String.eqb_eq in E. congruence.
  - destruct (String.eqb k' k); auto.
Qed.

Lemma length_filter_app {A : Type} (f : A -> bool) (a b : list A) :
  List.length (filter f (a ++ b))
  = (List.length (filter f a) + List.length (filter f b))%nat.
Proof. now rewrite filter_app, length_app. Qed.

Lemma join_counts_projects (us ps : list row) (f g : row -> bool) :
  (forall p, In p ps ->
     exists u, filter (fun u => sql_eq (get p "user_id") (get u "user_id")) us = [u]) ->
  (forall p v, f (p ++ [("author_name", v)]) = g p) ->
  List.length
    (filter f
       (flat_map (fun p =>
          map (fun u => p ++ [("author_name", get u "full_name")])
              (filter (fun u => sql_eq (get p "user_id") (get u "user_id")) us)) ps))
  = List.length (filter g ps).
Proof.
  intros Hfk Hfg. induction ps as [|p ps IH]; [reflexivity|].
  specialize (IH (fun p' Hin => Hfk p' (or_intror Hin))).
  destruct (Hfk p (or_introl eq_refl)) as [u Hu].
  cbn [flat_map].
  etransitivity; [apply length_filter_app|].
  etransitivity; [apply f_equal; exact IH|].
  etransitivity; [apply (f_equal (fun l => (List.length (filter f (map _ l)) + _)%nat) Hu)|].
  cbn [map filter]. rewrite Hfg. destruct (g p); reflexivity.
Qed.

(** GET /api/projects counts as many rows as its item statement matches,
    when every project has its owner in the user table. *)
Lemma projects_count_matches_items (d : db) (q : jsobj) :
  owners_resolve d ->
  List.length (matching_rows d (projects_item_query q))
  = List.length (matching_rows d (projects_count_query q)).
Proof.
  intros Hfk.
  unfold matching_rows, projects_item_query, projects_count_query, paged_query,
    count_select, projects_filters.
  cbn [sel_where sel_values sel_from source_rows]. unfold projects_join_users.
  apply join_counts_projects; [exact Hfk|]. intros p v.
  destruct (truthy (get q "search")), (truthy (get q "category")),
    (truthy (get q "user_id"));
    cbv [when and_clause start where_ values paramIndex app matches forallb
         eval_clause existsb param nth Nat.sub];
    change (column_key "p.title") with "title";
    change (column_key "p.content") with "content";
    change (column_key "p.category") with "category";
    change (column_key "p.user_id") with "user_id";
    rewrite ?get_before_author by discriminate; reflexivity.
Qed.

(** ** The runtime helpers on examples *)

Example parseInt_examples :
  parseInt (JStr "42") = JNum 42 /\ parseInt (JStr "  -7px") = JNum (-7)
  /\ parseInt (JStr "0x1f") = JNum 31 /\ parseInt (JStr "abc") = JNaN
  /\ parseInt (JStr "0") = JNum 0 /\ int_param (JStr "") = JUndefined.
Proof. repeat split. Qed.

Example bearer_token_examples :
  bearer_token (bearer "abc") = JStr "abc"
  /\ bearer_token [("authorization", JStr "Bearer")] = JUndefined
  /\ bearer_token [("authorization", JStr "Bearer ")] = JStr ""
  /\ bearer_token [] = JUndefined.
Proof. repeat split. Qed.

Example projects_query_text :
  sel_text (projects_count_query (project_query (JStr "shop") (JStr "title")))
  = "SELECT COUNT(*) FROM projects p WHERE 1=1 AND (p.title ILIKE $1 OR p.content ILIKE $1)"
  /\ sel_values (projects_item_query (project_query (JStr "shop") (JStr "title")))
     = [JStr "%shop%"; JNum 10; JNum 0].
Proof. split; reflexivity. Qed.

Example like_examples :
  ilike "E-commerce Platform" "%PLAT%" = true /\ ilike "Blog" "%plat%" = false
  /\ ilike "100% cotton" "%0\% c%" = true /\ ilike "abc" "a_c" = true.
Proof. repeat split. Qed.

(** The statement of the update in [put_project_keeps_id_and_owner_witness]. *)
Example project_update_text :
  let u := push_field "updated_at" (JStr clock)
             (update_loop sample_stringify ["project_id"; "user_id"] ["technologies"]
                [("title", JStr "Shop, renewed"); ("user_id", JStr alice_id);
                 ("project_id", JStr shop_id)]) in
  update_text "projects" u "project_id"
  = "UPDATE projects SET title = $1, updated_at = $2 WHERE project_id = $3 RETURNING *"
  /\ u_values u ++ [JStr shop_id] = [JStr "Shop, renewed"; JStr clock; JStr shop_id].
Proof. split; reflexivity. Qed.

(** Page 1 of 10 over 25 matching rows has three pages. *)
Example pagination_example :
  pagination (JNum 1) (JNum 10) (JNum 25)
  = JObj [("page", JNum 1); ("limit", JNum 10); ("total", JNum 25);
          ("totalPages", JNum 3)].
Proof. reflexivity. Qed.

(** With the constraints of db.sql a second upload by the same user is
    refused by the store after the demotion has been applied; keyed on the
    resume id alone, the upload demotes the old primary row. *)
Example second_upload_demotes_then_fails :
  let result :=
    post_resumes sample_pg_error clock "g7777777-7777-4777-8777-777777777777" portfolio
      alice uploaded_file [] in
  status (fst result) = 500%nat
  /\ map (fun r => get r "primary_resume") (resumes (snd result)) = [JBool false].
Proof. split; reflexivity. Qed.

Example second_upload_without_user_key :
  let result :=
    resumes_handler sample_pg_error
      {| uniques := [("resume_id", "resumes_pkey")]; not_nulls := [] |}
      clock "g7777777-7777-4777-8777-777777777777" portfolio alice uploaded_file [] in
  status (fst result) = 201%nat
  /\ map (fun r => get r "primary_resume") (resumes (snd result))
     = [JBool false; JBool true].
Proof. split; reflexivity. Qed.

(** ** The count read back from the driver *)

Lemma read_digits_decimal (d : Decimal.uint) (acc : nat) :
  read_digits 10 (Some (Z.of_nat acc)) (NilEmpty.string_of_uint d)
  = Some (Z.of_nat (Nat.of_uint_acc d acc)).
Proof.
  revert acc. induction d; intros acc;
    cbn [NilEmpty.string_of_uint Nat.of_uint_acc read_digits]; try reflexivity.
  all: match goal with
       | |- context [digit_value 10 ?c] =>
           let v := eval vm_compute in (digit_value 10 c) in
           change (digit_value 10 c) with v
       end; cbv beta iota; rewrite <- IHd; do 2 f_equal;
         rewrite Nat.tail_mul_spec; lia.
Qed.

Lemma to_uint_not_nil (n : nat) : Nat.to_uint n <> Decimal.Nil.
Proof.
  intros E. pose proof (DecimalNat.Unsigned.of_to n) as H. rewrite E in H.
  cbn in H. subst n. discriminate.
Qed.

(** [parseInt] of a count printed in decimal is that count. *)
Lemma parseInt_count (n : nat) : parseInt (JStr (nat_to_string n)) = JNum (Z.of_nat n).
Proof.
  unfold parseInt, nat_to_string. cbn [js_to_string].
  pose proof (DecimalNat.Unsigned.of_to n) as Hn.
  pose proof (to_uint_not_nil n) as Hnil.
  destruct (Nat.to_uint n) as [|d|d|d|d|d|d|d|d|d|d]; [congruence|..];
    unfold Nat.of_uint in Hn; cbn [Nat.of_uint_acc] in Hn;
    unfold parseInt_string; cbn [NilEmpty.string_of_uint trim_start].
  2-10: (match goal with
         | |- context [is_space ?c] => change (is_space c) with false
         end; cbv iota; cbn [strip_hex_prefix read_digits];
         match goal with
         | |- context [digit_value 10 ?c] =>
             let v := eval vm_compute in (digit_value 10 c) in
             change (digit_value 10 c) with v
         end; cbv beta iota;
         match goal with
         | |- context [read_digits 10 (Some ?k) _] =>
             change k with (Z.of_nat (Z.to_nat k))
         end; rewrite read_digits_decimal;
         f_equal; rewrite Z.mul_1_l; f_equal; rewrite <- Hn; reflexivity).
  change (is_space "0") with false. cbv iota.
  assert (Hhex : strip_hex_prefix (String "0" (NilEmpty.string_of_uint d)) = None).
  { destruct d; reflexivity. }
  rewrite Hhex. cbn [read_digits]. change (digit_value 10 "0") with (Some 0%Z).
  cbv beta iota. change 0%Z with (Z.of_nat 0). rewrite read_digits_decimal.
  f_equal. rewrite Z.mul_1_l. f_equal. rewrite <- Hn. reflexivity.
Qed.

Lemma count_of_exec_count (d : db) (s : select) :
  count_of (exec_count d s) = JNum (Z.of_nat (List.length (matching_rows d s))).
Proof.
  unfold count_of, exec_count. cbn [hd get]. rewrite String.eqb_refl.
  apply parseInt_count.
Qed.

(** The total of a page response is the number of rows its count statement
    matches. *)
Lemma page_total (key : string) (d : db) (q : jsobj) (item count : select) :
  key <> "pagination" ->
  prop (get (body (fst (page_response key d q item count))) "pagination") "total"
  = JNum (Z.of_nat (List.length (matching_rows d count))).
Proof.
  intros Hk. unfold page_response, pagination. cbn [fst body get].
  apply String.eqb_neq in Hk. rewrite Hk, String.eqb_refl.
  rewrite count_of_exec_count. reflexivity.
Qed.

(** On GET /api/users, and on GET /api/projects when every project has its
    owner, the total is the number of rows the item statement matches. *)
Lemma users_and_projects_totals (d : db) (q : jsobj) :
  prop (get (body (fst (page_response "users" d q (users_item_query q)
                          (users_count_query q)))) "pagination") "total"
  = JNum (Z.of_nat (List.length (matching_rows d (users_item_query q))))
  /\ (owners_resolve d ->
      prop (get (body (fst (page_response "projects" d q (projects_item_query q)
                              (projects_count_query q)))) "pagination") "total"
      = JNum (Z.of_nat (List.length (matching_rows d (projects_item_query q))))).
Proof.
  split.
  - rewrite page_total by discriminate. now rewrite users_count_matches_items.
  - intros Hfk. rewrite page_total by discriminate.
    now rewrite (projects_count_matches_items d q Hfk).
Qed.

(** ** The account routes on concrete requests *)

(** Carol registers with a mixed-case address and asks for the admin role. *)
Lemma register_stores_account_witness :
  let result :=
    post_register "your-secret-key" sample_pg_error sample_jwt_sign sample_is_email
      clock carol_id portfolio carol_registration in
  status (fst result) = 201%nat
  /\ exists account,
       users (snd result) = users portfolio ++ [account]
       /\ get account "email" = JStr "carol@example.com"
       /\ get account "password_hash" = JStr "correct horse"
       /\ get account "role" = JStr "admin".
Proof.
  intros result. split; [reflexivity|].
  destruct (register_stores_account "your-secret-key" sample_pg_error sample_jwt_sign
              sample_is_email clock carol_id portfolio carol_registration
              (fst result) (snd result) eq_refl eq_refl)
    as [e [p [account [He [Hp [_ [_ [Hu [_ [_ [Hae [Hap [Har _]]]]]]]]]]]]].
  injection He as <-. injection Hp as <-.
  exists account. split; [exact Hu|]. split; [exact Hae|]. split; [exact Hap|exact Har].
Defined.

(** Alice's address in capitals is taken. *)
Lemma register_rejects_known_email_witness :
  post_register "your-secret-key" sample_pg_error sample_jwt_sign sample_is_email
    clock carol_id portfolio
    [("email", JStr "ALICE@Example.com"); ("password", JStr "another secret");
     ("full_name", JStr "Alice Again")]
  = (error_response 400 clock "User with this email already exists"
       "USER_ALREADY_EXISTS", portfolio).
Proof.
  apply (register_rejects_known_email "your-secret-key" sample_pg_error sample_jwt_sign
           sample_is_email clock carol_id portfolio
           [("email", JStr "ALICE@Example.com"); ("password", JStr "another secret");
            ("full_name", JStr "Alice Again")]
           [("email", JStr "ALICE@Example.com"); ("password", JStr "another secret");
            ("full_name", JStr "Alice Again")]
           "ALICE@Example.com" alice);
    [reflexivity|reflexivity|left; reflexivity|reflexivity].
Defined.

(** Alice logs in; a wrong password changes nothing. *)
Lemma login_requires_stored_password_witness :
  (exists user,
     In user (users portfolio)
     /\ get user "password_hash" = JStr "password123"
     /\ get user "user_id" = JStr alice_id)
  /\ snd (post_login "your-secret-key" sample_jwt_sign sample_type_error clock portfolio
            [("email", JStr "alice@example.com"); ("password", JStr "password124")])
     = portfolio.
Proof.
  split.
  - destruct (proj1 (login_requires_stored_password "your-secret-key" sample_jwt_sign
                       sample_type_error clock portfolio
                       [("email", JStr " Alice@Example.com");
                        ("password", JStr "password123")]) eq_refl)
      as [e [user [_ [Hin [_ [Hp [Hb _]]]]]]].
    exists user. split; [exact Hin|]. split; [symmetry; exact Hp|].
    injection Hb as Hid _. symmetry. exact Hid.
  - apply (proj2 (login_requires_stored_password "your-secret-key" sample_jwt_sign
                    sample_type_error clock portfolio
                    [("email", JStr "alice@example.com");
                     ("password", JStr "password124")])).
    discriminate.
Defined.

(** Carol registers, then logs in with her password and with another. *)
Lemma registered_account_can_log_in_witness :
  let registered :=
    post_register "your-secret-key" sample_pg_error sample_jwt_sign sample_is_email
      clock carol_id portfolio carol_registration in
  let login password :=
    post_login "your-secret-key" sample_jwt_sign sample_type_error
      "2024-05-02T08:00:00.000Z" (snd registered)
      [("email", JStr "Carol@Example.COM"); ("password", JStr password)] in
  (status (fst (login "correct horse")) = 200%nat
   /\ prop (get (body (fst (login "correct horse"))) "user") "user_id" = JStr carol_id
   /\ get (body (fst (login "correct horse"))) "user"
      = get (body (fst registered)) "user")
  /\ (status (fst (login "Correct horse")) = 400%nat
      /\ snd (login "Correct horse") = snd registered).
Proof.
  intros registered login. split.
  - exact (registered_account_can_log_in "your-secret-key" sample_pg_error
             sample_jwt_sign sample_is_email sample_type_error clock
             "2024-05-02T08:00:00.000Z" carol_id portfolio carol_registration
             (fst registered) (snd registered)
             [("email", JStr "Carol@Example.COM"); ("password", JStr "correct horse")]
             eq_refl eq_refl eq_refl).
  - exact (registered_account_can_log_in "your-secret-key" sample_pg_error
             sample_jwt_sign sample_is_email sample_type_error clock
             "2024-05-02T08:00:00.000Z" carol_id portfolio carol_registration
             (fst registered) (snd registered)
             [("email", JStr "Carol@Example.COM"); ("password", JStr "Correct horse")]
             eq_refl eq_refl eq_refl).
Defined.

(** Alice logs in and presents the token she was given. *)
Lemma login_token_authenticates_witness :
  let logged :=
    post_login "your-secret-key" sample_jwt_sign sample_type_error clock portfolio
      [("email", JStr "alice@example.com"); ("password", JStr "password123")] in
  exists user,
    authenticateToken sample_jwt_verify "your-secret-key" "2024-05-02T08:00:00.000Z"
      (snd logged) (bearer ("token-of-" ^ alice_id)) = inr user
    /\ get user "user_id" = JStr alice_id
    /\ get user "role" = JStr "user".
Proof.
  intros logged.
  destruct (login_token_authenticates sample_jwt_verify "your-secret-key" sample_jwt_sign
              sample_type_error clock "2024-05-02T08:00:00.000Z" portfolio
              [("email", JStr "alice@example.com"); ("password", JStr "password123")]
              (fst logged) (snd logged)
              (JObj [("user_id", JStr alice_id); ("email", JStr "alice@example.com");
                     ("role", JStr "user")])
              (bearer ("token-of-" ^ alice_id))
              eq_refl eq_refl eq_refl
              ltac:(intros r [<-|[<-|[<-|[]]]]; eexists; reflexivity)
              eq_refl eq_refl eq_refl eq_refl)
    as [user [Ha Hk]].
  exists user. split; [exact Ha|]. split.
  - exact (Hk "user_id" (or_introl eq_refl)).
  - exact (Hk "role" (or_intror (or_intror (or_intror (or_introl eq_refl))))).
Defined.


(** Alice renames herself; a user_id in the body is dropped. *)
Lemma profile_update_touches_profile_columns_only_witness :
  let result :=
    put_profile sample_stringify sample_pg_error sample_is_email sample_undefined_column
      clock portfolio alice
      [("full_name", JStr "Alice J. Johnson"); ("user_id", JStr bob_id);
       ("password_hash", JStr "guessme")] in
  status (fst result) = 200%nat
  /\ map (fun r => get r "user_id") (users (snd result))
     = [JStr alice_id; JStr bob_id; JStr root_id]
  /\ map (fun r => get r "password_hash") (users (snd result))
     = [JStr "password123"; JStr "password123"; JStr "password123"]
  /\ map (fun r => get r "full_name") (users (snd result))
     = [JStr "Alice J. Johnson"; JStr "Bob Stone"; JStr "Admin User"]
  /\ In bob (users (snd result)).
Proof.
  intros result.
  destruct (profile_update_touches_profile_columns_only sample_stringify sample_pg_error
              sample_is_email sample_undefined_column clock portfolio alice
              [("full_name", JStr "Alice J. Johnson"); ("user_id", JStr bob_id);
               ("password_hash", JStr "guessme")]
              (fst result) (snd result) eq_refl eq_refl)
    as [_ [Hcols Hrows]].
  split; [reflexivity|].
  split; [apply (Hcols "user_id"); simpl; intuition discriminate|].
  split; [apply (Hcols "password_hash"); simpl; intuition discriminate|].
  split; [reflexivity|].
  apply Hrows; [right; left; reflexivity|reflexivity].
Defined.

(** Alice, a plain user, makes herself admin. *)
Lemma profile_update_can_grant_admin_witness :
  let result :=
    put_profile sample_stringify sample_pg_error sample_is_email sample_undefined_column
      clock portfolio alice [("role", JStr "admin")] in
  get alice "role" = JStr "user"
  /\ status (fst result) = 200%nat
  /\ map (fun r => get r "role") (users (snd result))
     = [JStr "admin"; JStr "user"; JStr "admin"].
Proof.
  intros result. split; [reflexivity|].
  destruct (profile_update_can_grant_admin sample_stringify sample_pg_error
              sample_is_email sample_undefined_column clock portfolio alice alice_id
              eq_refl eq_refl)
    as [Hs [Hd _]].
  split; [exact Hs|]. fold result in Hd. rewrite Hd. reflexivity.
Defined.

(** A picture in the body, even a null one, is answered 500. *)
Lemma profile_update_with_picture_fails_witness :
  put_profile sample_stringify sample_pg_error sample_is_email sample_undefined_column
    clock portfolio alice [("bio", JStr "Hello"); ("profile_pic", JNull)]
  = (internal_error clock (sample_undefined_column "profile_pic"), portfolio).
Proof.
  apply (profile_update_with_picture_fails sample_stringify sample_pg_error
           sample_is_email sample_undefined_column clock portfolio alice
           [("bio", JStr "Hello"); ("profile_pic", JNull)]
           [("profile_pic", JNull); ("bio", JStr "Hello")]);
    [reflexivity|discriminate].
Defined.


(** ** Projects on concrete requests *)

(** Alice creates a project with a body that names Bob as the owner. *)
Lemma created_project_belongs_to_actor_witness :
  let result :=
    post_project iso_date sample_is_url sample_is_uuid sample_stringify sample_pg_error
      clock draft_id portfolio alice draft_project in
  status (fst result) = 201%nat
  /\ map (fun r => get r "user_id") (projects (snd result))
     = [JStr alice_id; JStr bob_id; JStr alice_id]
  /\ exists project,
       projects (snd result) = projects portfolio ++ [project]
       /\ get project "project_id" = JStr draft_id
       /\ get project "slug" = JStr "weather-station"
       /\ not_allowed project alice = false.
Proof.
  intros result.
  destruct (created_project_belongs_to_actor iso_date sample_is_url sample_is_uuid
              sample_stringify sample_pg_error clock draft_id portfolio alice
              draft_project (fst result) (snd result) eq_refl eq_refl)
    as [uid [slug [project [_ [Hslug [Hp [_ [Hid [_ [Hsl [_ [_ [_ Hna]]]]]]]]]]]]].
  injection Hslug as <-.
  split; [reflexivity|]. split; [reflexivity|].
  exists project. split; [exact Hp|]. split; [exact Hid|]. split; [exact Hsl|exact Hna].
Defined.

(** Alice deletes the project she has just created. *)
Lemma created_project_can_be_deleted_witness :
  let created :=
    post_project iso_date sample_is_url sample_is_uuid sample_stringify sample_pg_error
      clock draft_id portfolio alice draft_project in
  let result := delete_project "2024-05-02T08:00:00.000Z" (snd created) alice draft_id in
  List.length (projects (snd created)) = 3%nat
  /\ fst result = ok_message "Project deleted successfully"
  /\ projects (snd result) = [shop; blog].
Proof.
  intros created result. split; [reflexivity|].
  destruct (created_project_can_be_deleted iso_date sample_is_url sample_is_uuid
              sample_stringify sample_pg_error clock "2024-05-02T08:00:00.000Z"
              draft_id portfolio alice draft_project (fst created) (snd created)
              eq_refl eq_refl)
    as [Hr [Hp _]].
  split; [exact Hr|exact Hp].
Defined.

(** Alice deletes her shop: its image goes with it, Bob's blog stays, and a
    second deletion finds nothing. *)
Lemma deleted_project_is_gone_witness :
  let result := delete_project clock portfolio alice shop_id in
  status (fst result) = 200%nat
  /\ project_gallery_images (snd result) = []
  /\ In blog (projects (snd result))
  /\ status (fst (delete_project clock (snd result) root shop_id)) = 404%nat.
Proof.
  intros result.
  destruct (deleted_project_is_gone iso_date sample_is_url sample_is_uuid
              sample_stringify sample_pg_error clock portfolio alice shop_id
              (fst result) (snd result) eq_refl eq_refl)
    as [_ [_ [Hkeep [_ [_ Hlater]]]]].
  split; [reflexivity|]. split; [reflexivity|]. split.
  - apply Hkeep; [right; left; reflexivity|reflexivity].
  - rewrite (proj1 (Hlater clock root [])). reflexivity.
Defined.


(** ** Contact messages, skills and resumes on concrete requests *)

(** A visitor's message that claims to be read already. *)
Lemma contact_message_stored_unread_witness :
  let result :=
    post_contact sample_pg_error sample_is_email clock
      "b9999999-9999-4999-8999-999999999999" seed
      [("name", JStr "Nina Patel"); ("email", JStr "nina@example.com");
       ("message", JStr "Could we talk about a redesign?"); ("read", JBool true);
       ("created_at", JStr "1999-01-01T00:00:00Z")] in
  status (fst result) = 201%nat
  /\ map (fun r => get r "read") (contact_messages (snd result))
     = [JBool false; JBool false; JBool false]
  /\ map (fun r => get r "created_at") (contact_messages (snd result))
     = [JStr "2023-10-25T10:30:00Z"; JStr "2024-03-02T08:00:00Z"; JStr clock].
Proof.
  intros result.
  destruct (contact_message_stored_unread sample_pg_error sample_is_email clock
              "b9999999-9999-4999-8999-999999999999" seed
              [("name", JStr "Nina Patel"); ("email", JStr "nina@example.com");
               ("message", JStr "Could we talk about a redesign?"); ("read", JBool true);
               ("created_at", JStr "1999-01-01T00:00:00Z")]
              (fst result) (snd result) eq_refl eq_refl)
    as [message [Ht [_ [_ [Hread [_ [Hc _]]]]]]].
  split; [reflexivity|]. rewrite Ht, !map_app. cbn [map]. rewrite Hread, Hc.
  split; reflexivity.
Defined.

(** The admin marks Nina's message as read. *)
Lemma contact_message_can_be_marked_witness :
  let created :=
    post_contact sample_pg_error sample_is_email clock
      "b9999999-9999-4999-8999-999999999999" seed
      [("name", JStr "Nina Patel"); ("email", JStr "nina@example.com");
       ("message", JStr "Could we talk about a redesign?")] in
  let result :=
    put_contact sample_pg_error "2024-05-02T08:00:00.000Z" (snd created)
      "b9999999-9999-4999-8999-999999999999" [("read", JBool true)] in
  status (fst result) = 200%nat
  /\ map (fun r => get r "read") (contact_messages (snd result))
     = [JBool false; JBool false; JBool true].
Proof.
  intros created result.
  destruct (contact_message_can_be_marked sample_pg_error sample_is_email clock
              "2024-05-02T08:00:00.000Z" "b9999999-9999-4999-8999-999999999999" seed
              [("name", JStr "Nina Patel"); ("email", JStr "nina@example.com");
               ("message", JStr "Could we talk about a redesign?")]
              (fst created) (snd created) [("read", JBool true)] true
              eq_refl eq_refl ltac:(discriminate) eq_refl)
    as [Hs [message [message' [_ [Ht [Hread _]]]]]].
  split; [exact Hs|]. fold result in Ht. rewrite Ht, map_app. cbn [map].
  rewrite Hread. reflexivity.
Defined.

(** The admin's update without a read flag: 500 for a stored message, 404
    for an unknown id, 500 for the NUL id. *)
Lemma contact_update_needs_read_flag_witness :
  let answer_to mid :=
    route_put_contact sample_jwt_verify "your-secret-key" sample_pg_error
      sample_pg_refusal clock seed (bearer "token-of-usr_1") mid [] in
  status (fst (answer_to "msg_1")) = 500%nat
  /\ snd (answer_to "msg_1") = seed
  /\ fst (answer_to "msg_9")
     = not_found_response clock "Contact message not found" "MESSAGE_NOT_FOUND"
  /\ fst (answer_to nul) = internal_error clock (sample_pg_refusal (JStr nul)).
Proof.
  intros answer_to.
  assert (H : forall mid, mid <> "" ->
            snd (answer_to mid) = seed
            /\ status (fst (answer_to mid)) <> 200%nat
            /\ if valid_text (JStr mid)
               then match select_where (contact_messages seed) "message_id" (JStr mid) with
                    | [] => fst (answer_to mid)
                            = not_found_response clock "Contact message not found"
                                "MESSAGE_NOT_FOUND"
                    | _ :: _ =>
                        exists constraint,
                          fst (answer_to mid)
                          = internal_error clock (sample_pg_error constraint)
                    end
               else fst (answer_to mid)
                    = internal_error clock (sample_pg_refusal (JStr mid))).
  { intros mid Hmid.
    exact (contact_update_needs_read_flag sample_jwt_verify "your-secret-key"
             sample_pg_error sample_pg_refusal clock seed (bearer "token-of-usr_1")
             (keep_columns ["user_id"; "email"; "full_name"; "role"; "created_at"] usr_1) mid [] eq_refl eq_refl Hmid eq_refl eq_refl). }
  split; [reflexivity|].
  split; [exact (proj1 (H "msg_1" ltac:(discriminate)))|].
  split.
  - exact (proj2 (proj2 (H "msg_9" ltac:(discriminate)))).
  - exact (proj2 (proj2 (H nul ltac:(discriminate)))).
Defined.

(** A skill created with proficiency 0 is stored without a proficiency. *)
Lemma created_skill_never_has_zero_proficiency_witness :
  let result :=
    post_skill sample_pg_error clock "c0000000-0000-4000-8000-000000000000" seed
      [("name", JStr "Rust"); ("category", JStr "Programming");
       ("proficiency", JNum 0)] in
  status (fst result) = 201%nat
  /\ map (fun r => get r "proficiency") (skills (snd result))
     = [JNum 90; JNull; JNull].
Proof.
  intros result.
  destruct (created_skill_never_has_zero_proficiency sample_pg_error clock
              "c0000000-0000-4000-8000-000000000000" seed
              [("name", JStr "Rust"); ("category", JStr "Programming");
               ("proficiency", JNum 0)]
              (fst result) (snd result) eq_refl eq_refl)
    as [skill [Ht [_ [_ [_ [_ [Hp _]]]]]]].
  split; [reflexivity|]. rewrite Ht, map_app. cbn [map]. rewrite Hp. reflexivity.
Defined.

(** Bob's first upload is what the lookup for Bob then serves, its size as
    text. *)
Lemma uploaded_primary_resume_is_served_witness :
  let uploaded :=
    post_resumes sample_pg_error clock "g7777777-7777-4777-8777-777777777777"
      portfolio bob uploaded_file [] in
  let served :=
    get (body (get_user_resume sample_pg_refusal "2024-05-02T08:00:00.000Z"
                 (snd uploaded) bob_id)) "resume" in
  status (fst uploaded) = 201%nat
  /\ prop served "resume_id" = JStr "g7777777-7777-4777-8777-777777777777"
  /\ prop served "file_size" = JStr "2048".
Proof.
  intros uploaded served. split; [reflexivity|].
  destruct (uploaded_primary_resume_is_served sample_pg_error sample_pg_refusal
              resumes_schema clock
              "2024-05-02T08:00:00.000Z" "g7777777-7777-4777-8777-777777777777"
              portfolio bob bob_id uploaded_file [] (fst uploaded) (snd uploaded)
              eq_refl eq_refl eq_refl eq_refl eq_refl) as [Hserved [Hid Hsize]].
  subst served. rewrite Hserved. split; [exact Hid|]. exact (Hsize 2048%Z eq_refl).
Defined.


(** ** Pages and user answers on concrete requests *)

(** The three users by name, two a page: no two names tie, the
    embedding's own pages are results the store may give, and the second page
    holds the third user. *)
Lemma pages_enumerate_matching_rows_witness :
  let page k :=
    exec_select portfolio (users_item_query (set by_name "page" (JNum (Z.of_nat k)))) in
  no_ties "full_name" (matching_rows portfolio (users_item_query by_name))
  /\ exists sorted,
       Permutation sorted (matching_rows portfolio (users_item_query by_name))
       /\ page 1%nat ++ page 2%nat = firstn 4 sorted
       /\ map (fun r => get r "full_name") (page 2%nat) = [JStr "Bob Stone"].
Proof.
  intros page.
  assert (Hties : no_ties "full_name" (matching_rows portfolio (users_item_query by_name))).
  { split.
    - intros r [<-|[<-|[<-|[]]]]; eexists; reflexivity.
    - vm_compute. repeat (constructor; [simpl; intuition discriminate|]). constructor. }
  split; [exact Hties|].
  destruct (proj1 (proj2 (pages_enumerate_matching_rows portfolio by_name 2 eq_refl))
              Hties page) as [sorted [Hp Hn]].
  { intros k _.
    exists (order_by "full_name" "ASC"
              (matching_rows portfolio (users_item_query by_name))).
    split; [apply order_by_perm|]. split.
    - cbn. repeat split; intros b; cbn; intuition (subst; reflexivity).
    - apply exec_select_window. }
  exists sorted. split; [exact Hp|]. split; [|reflexivity].
  specialize (Hn 2%nat). cbn [seq map List.concat] in Hn. rewrite app_nil_r in Hn.
  exact Hn.
Defined.

(** A request for one project a page gets at most one. *)
Lemma page_holds_at_most_limit_rows_witness :
  exists items,
    get (body (fst (route_get_projects sample_pg_refusal clock portfolio
                      [("limit", JStr "1")]))) "projects"
    = JArr items
    /\ (List.length items <= 1)%nat.
Proof.
  destruct (proj1 (page_holds_at_most_limit_rows iso_date sample_jwt_verify
                     "your-secret-key" sample_pg_refusal clock portfolio)
              [("limit", JStr "1")] I)
    as [[issues H]|[[item [v [H _]]]
                   |[page [limit [items [total [item [count [H [_ [_ [Hlen _]]]]]]]]]]]].
  - discriminate H.
  - discriminate H.
  - pose proof (f_equal (fun r => get (body (fst r)) "projects") H) as Hitems.
    pose proof (f_equal (fun r => prop (get (body (fst r)) "pagination") "limit") H)
      as Hlimit.
    vm_compute in Hlimit. injection Hlimit as <-.
    exists items. split; [exact Hitems|lia].
Defined.

(** Alice's public profile and the row attached for her token. *)
Lemma user_answers_hide_password_witness :
  has_key alice "password_hash" = true
  /\ prop (get (body (get_user clock portfolio alice_id)) "user") "email"
     = JStr "alice@example.com"
  /\ hides "password_hash" (get (body (get_user clock portfolio alice_id)) "user")
  /\ has_key (keep_columns ["user_id"; "email"; "full_name"; "role"; "created_at"] alice)
       "password_hash" = false.
Proof.
  pose proof (user_answers_hide_password sample_stringify
                sample_jwt_verify "your-secret-key" sample_pg_error sample_jwt_sign
                sample_is_email sample_type_error sample_undefined_column clock portfolio)
    as [Huser [_ [_ [_ [_ [_ [_ Hattached]]]]]]].
  split; [reflexivity|]. split; [reflexivity|]. split; [apply Huser|].
  apply (Hattached (bearer ("token-of-" ^ alice_id))). reflexivity.
Defined.


(** ** Gallery images, experiences and project updates on concrete requests *)

(** Alice adds an image to her shop with a body that names Bob's blog. *)
Lemma gallery_image_added_to_path_project_witness :
  let result :=
    post_gallery_image sample_is_url sample_pg_error clock
      "d1111111-1111-4111-8111-111111111111" portfolio alice shop_id
      [("image_url", JStr "https://picsum.photos/seed/gallery2/800/600");
       ("project_id", JStr blog_id)] in
  status (fst result) = 201%nat
  /\ map (fun r => get r "project_id") (project_gallery_images (snd result))
     = [JStr shop_id; JStr shop_id].
Proof.
  intros result.
  destruct (gallery_image_added_to_path_project sample_is_url sample_pg_error clock
              "d1111111-1111-4111-8111-111111111111" portfolio alice shop_id
              [("image_url", JStr "https://picsum.photos/seed/gallery2/800/600");
               ("project_id", JStr blog_id)]
              (fst result) (snd result) eq_refl eq_refl)
    as [project [image [_ [_ [_ [Ht [_ [_ [Hp _]]]]]]]]].
  split; [reflexivity|]. rewrite Ht, map_app. cbn [map]. rewrite Hp. reflexivity.
Defined.

(** Alice records a job with a body that names Bob, then removes it. *)
Lemma created_experience_belongs_to_actor_witness :
  let created :=
    post_experience iso_date sample_pg_error clock
      "e2222222-2222-4222-8222-222222222222" portfolio alice
      [("title", JStr "Staff Engineer"); ("company", JStr "Tech Solutions Inc.");
       ("description", JStr "Platform work across teams.");
       ("start_date", JStr "2023-09-01"); ("user_id", JStr bob_id)] in
  status (fst created) = 201%nat
  /\ map (fun r => get r "user_id") (experiences (snd created))
     = [JStr alice_id; JStr alice_id]
  /\ delete_experience "2024-05-02T08:00:00.000Z" (snd created) alice
       "e2222222-2222-4222-8222-222222222222"
     = (ok_message "Experience deleted successfully", portfolio).
Proof.
  intros created.
  destruct (created_experience_belongs_to_actor iso_date sample_pg_error clock
              "2024-05-02T08:00:00.000Z" "e2222222-2222-4222-8222-222222222222"
              portfolio alice
              [("title", JStr "Staff Engineer"); ("company", JStr "Tech Solutions Inc.");
               ("description", JStr "Platform work across teams.");
               ("start_date", JStr "2023-09-01"); ("user_id", JStr bob_id)]
              (fst created) (snd created) eq_refl eq_refl)
    as [[experience [Ht [_ [_ [Ho _]]]]] Hdel].
  split; [reflexivity|]. split; [|exact Hdel].
  rewrite Ht, map_app. cbn [map]. rewrite Ho. reflexivity.
Defined.

(** Alice retitles her job and recaptions her image; ids in the bodies
    are ignored. *)
Lemma updates_keep_identity_and_owner_witness :
  let job :=
    put_experience iso_date sample_stringify sample_pg_error clock portfolio alice "exp_1"
      [("title", JStr "Principal Frontend Developer"); ("user_id", JStr bob_id)] in
  let image :=
    put_gallery_image sample_stringify sample_pg_error clock portfolio alice "img_1"
      [("caption", JStr "Landing page"); ("project_id", JStr blog_id)] in
  (status (fst job) = 200%nat
   /\ map (fun r => get r "user_id") (experiences (snd job)) = [JStr alice_id]
   /\ map (fun r => get r "title") (experiences (snd job))
      = [JStr "Principal Frontend Developer"])
  /\ (status (fst image) = 200%nat
      /\ map (fun r => get r "project_id") (project_gallery_images (snd image))
         = [JStr shop_id]
      /\ map (fun r => get r "caption") (project_gallery_images (snd image))
         = [JStr "Landing page"]).
Proof.
  intros job image. split.
  - destruct (proj1 (updates_keep_identity_and_owner iso_date sample_stringify
                       sample_pg_error clock portfolio alice "exp_1"
                       [("title", JStr "Principal Frontend Developer");
                        ("user_id", JStr bob_id)]
                       (fst job) (snd job) eq_refl) eq_refl) as [_ Hk].
    split; [reflexivity|]. split; [|reflexivity].
    apply (Hk "user_id"). right. left. reflexivity.
  - destruct (proj2 (updates_keep_identity_and_owner iso_date sample_stringify
                       sample_pg_error clock portfolio alice "img_1"
                       [("caption", JStr "Landing page"); ("project_id", JStr blog_id)]
                       (fst image) (snd image) eq_refl) eq_refl) as [_ Hk].
    split; [reflexivity|]. split; [|reflexivity].
    apply (Hk "project_id"). right. left. reflexivity.
Defined.

(** Alice retitles her shop: the title and the update time change, the
    slug stays. *)
Lemma project_update_stores_named_fields_witness :
  let result :=
    put_project iso_date sample_is_url sample_is_uuid sample_stringify sample_pg_error
      clock portfolio alice shop_id [("title", JStr "Shop, renewed")] in
  status (fst result) = 200%nat
  /\ (forall r, In r (projects (snd result)) ->
        sql_eq (get r "project_id") (JStr shop_id) = true ->
        get r "title" = JStr "Shop, renewed" /\ get r "updated_at" = JStr clock)
  /\ map (fun r => get r "slug") (projects (snd result))
     = [JStr "ecommerce-platform"; JStr "blog-engine"].
Proof.
  intros result.
  destruct (project_update_stores_named_fields iso_date sample_is_url sample_is_uuid
              sample_stringify sample_pg_error clock portfolio alice shop_id
              [("title", JStr "Shop, renewed")] (fst result) (snd result)
              eq_refl eq_refl) as [Hset Hkept].
  split; [reflexivity|]. split.
  - intros r Hin Hid. destruct (Hset r Hin Hid) as [Hu Hk].
    split; [|exact Hu]. apply (Hk "title"); [left; reflexivity|reflexivity].
  - apply (Hkept "slug"); [right; left; reflexivity|reflexivity].
Defined.

(** Alice moves her shop onto the slug of Bob's blog. *)
Lemma project_slug_collision_on_update_witness :
  exists constraint,
    put_project iso_date sample_is_url sample_is_uuid sample_stringify sample_pg_error
      clock portfolio alice shop_id [("slug", JStr "blog-engine")]
    = (internal_error clock (sample_pg_error constraint), portfolio).
Proof.
  apply (project_slug_collision_on_update iso_date sample_is_url sample_is_uuid
           sample_stringify sample_pg_error clock portfolio alice shop_id
           [("slug", JStr "blog-engine")]
           [("slug", JStr "blog-engine"); ("user_id", JStr alice_id);
            ("project_id", JStr shop_id)]
           shop blog [] "blog-engine");
    [reflexivity|reflexivity|reflexivity|reflexivity|right; left; reflexivity
    |reflexivity|reflexivity].
Defined.

(** The shop project comes with its one image and its technologies
    parsed; an unknown id is answered 404 and the NUL id 500. *)
Lemma project_answer_carries_its_gallery_witness :
  let answer_to pid := get_project sample_pg_refusal sample_JSON_parse clock portfolio pid in
  (exists images,
     Permutation images
       (select_where (project_gallery_images portfolio) "project_id" (JStr shop_id))
     /\ prop (get (body (answer_to shop_id)) "project") "gallery_images"
        = JArr (map JObj images)
     /\ List.length images = 1%nat)
  /\ prop (get (body (answer_to shop_id)) "project") "technologies" = JArr []
  /\ answer_to "proj_9" = not_found_response clock "Project not found" "PROJECT_NOT_FOUND"
  /\ answer_to nul = internal_error clock (sample_pg_refusal (JStr nul)).
Proof.
  intros answer_to.
  pose proof (project_answer_carries_its_gallery sample_pg_refusal sample_JSON_parse
                clock portfolio) as H.
  split; [|split; [reflexivity|split]].
  - destruct (proj2 (proj2 (proj2 (H shop_id) eq_refl)) eq_refl)
      as [project [owner [images [_ [_ [_ [_ [Hperm Hbody]]]]]]]].
    exists images. split; [exact Hperm|]. split.
    + subst answer_to. cbv beta. rewrite Hbody.
      cbn [get String.eqb Ascii.eqb Bool.eqb prop]. apply get_set_same.
    + apply Permutation_length in Hperm. exact Hperm.
  - apply (proj1 (proj2 (proj2 (H "proj_9") eq_refl))). discriminate.
  - exact (proj1 (H nul) eq_refl).
Defined.

(** A seed user, whose id is usr_2, cannot create a project. *)
Lemma project_routes_need_uuid_actor_witness :
  exists issues,
    post_project iso_date sample_is_url sample_is_uuid sample_stringify sample_pg_error
      clock draft_id seed usr_2 draft_project
    = (validation_error clock issues, seed).
Proof.
  apply (proj1 (project_routes_need_uuid_actor iso_date sample_is_url sample_is_uuid
                  sample_stringify sample_pg_error clock seed usr_2 "usr_2" draft_project
                  eq_refl eq_refl)).
Defined.

(** Alice capitalises her address and can no longer log in with it. *)
Lemma mixed_case_address_cannot_log_in_witness :
  let updated :=
    put_profile sample_stringify sample_pg_error sample_is_email sample_undefined_column
      clock portfolio alice [("email", JStr "Alice@Example.com")] in
  let login :=
    post_login "your-secret-key" sample_jwt_sign sample_type_error
      "2024-05-02T08:00:00.000Z" (snd updated)
      [("email", JStr "Alice@Example.com"); ("password", JStr "password123")] in
  status (fst updated) = 200%nat
  /\ status (fst login) = 400%nat
  /\ snd login = snd updated.
Proof.
  intros updated login. split; [reflexivity|].
  apply (mixed_case_address_cannot_log_in sample_stringify "your-secret-key"
           sample_pg_error sample_jwt_sign sample_is_email sample_type_error
           sample_undefined_column clock "2024-05-02T08:00:00.000Z" portfolio alice
           "Alice@Example.com" (fst updated) (snd updated)
           [("email", JStr "Alice@Example.com"); ("password", JStr "password123")]
           eq_refl eq_refl);
    [discriminate
    |intros u [<-|[<-|[<-|[]]]] Hother; try reflexivity; discriminate Hother
    |reflexivity].
Defined.


(** Bob's token is answered 403; the admin's creates the skill. *)
Lemma skills_created_by_admins_only_witness :
  let request token :=
    route_post_skill sample_jwt_verify "your-secret-key" sample_pg_error clock
      "c0000000-0000-4000-8000-000000000000" portfolio (bearer ("token-of-" ^ token))
      [("name", JStr "Rust")] in
  (status (fst (request bob_id)) = 403%nat /\ snd (request bob_id) = portfolio)
  /\ (status (fst (request root_id)) = 201%nat
      /\ map (fun r => get r "name") (skills (snd (request root_id))) = [JStr "Rust"]).
Proof.
  intros request. split.
  - destruct (skills_created_by_admins_only sample_jwt_verify "your-secret-key"
                sample_pg_error clock "c0000000-0000-4000-8000-000000000000" portfolio
                (bearer ("token-of-" ^ bob_id)) [("name", JStr "Rust")])
      as [[user [Ha [Hr _]]]|[Hd _]].
    + injection Ha as <-. discriminate Hr.
    + split; [reflexivity|exact Hd].
  - destruct (skills_created_by_admins_only sample_jwt_verify "your-secret-key"
                sample_pg_error clock "c0000000-0000-4000-8000-000000000000" portfolio
                (bearer ("token-of-" ^ root_id)) [("name", JStr "Rust")])
      as [[user [_ [_ Hres]]]|[_ [Hs|Hs]]].
    + unfold request. rewrite Hres. split; reflexivity.
    + discriminate Hs.
    + discriminate Hs.
Defined.
